(* ===== verification/_CoqProject ===== *)
-Q . S2P
Prelude.v
Float64.v
Macros.v
Types.v
Storage.v
State.v
Backup.v
Index.v
Tx.v
EngineBase.v
Orderbook.v
Matching.v
Position.v
Risk.v
Funding.v
Liquidation.v
Services.v
Trading.v
Engine.v
KeyOrder.v
StorageKeys.v
EventKeys.v
EventStore.v
RocksEvents.v
Auth.v
Signer.v
Mempool.v
Snapshot.v
Exec.v
History.v
Startup.v
Supply.v
Chain.v
Ledger.v
Typing.v
Daemon.v
Readonly.v
Circuit.v
Rpc.v
Pipeline.v
Transport.v
Forks.v
Serve.v
Metrics.v
Protocol.v
LoadClient.v
LoadReport.v
LoadTest.v
LoadSerial.v
TestKit.v
EngineTests.v
PoolTests.v
EngineUnitTests.v
NodeTests.v
