(* ===== verification/Prelude.v ===== *)
(** * A verification development for Pranklin

    Pranklin is a perpetual-futures exchange that runs as the execution layer of
    a rollup: a sequencer hands it blocks of signed transactions, it executes
    them one by one against a versioned store and answers with a state root.

    ** The program and this library

    Every crate with logic of its own has its file or files here; a definition
    keeps the name of the function it models (prefixed where two types share a
    method name), a record the fields of its struct.

    - [Prelude.v] (this file): machine integers with their wrap-around, checked
      and saturating operations; [result]; the state-and-error monad [ST]; byte
      encodings; ordered-map keys; sums; small logics for [ST]: invariants with a
      result ([yields]), and two runs side by side ([lockstep]).
    - [Float64.v]: [f64] and [Duration], for statistics and delays.
    - [Macros.v]: crates/macros/src. The attributes its macros add.
    - [Types.v]: crates/types/src. Orders, positions, markets, permissions,
      fills, events.
    - [Storage.v]: crates/state/src/rocksdb_storage.rs with storage_key.rs and
      types.rs. The versioned key-value store and its commit, snapshots, pruning.
    - [Backup.v]: the operations of rocksdb_storage.rs on the database as a whole:
      backups, checkpoints, statistics, flush.
    - [KeyOrder.v], [StorageKeys.v]: the order in which RocksDB iterates keys, and
      the store seen as the byte strings RocksDB holds (storage_key.rs and the
      iterations of rocksdb_storage.rs); [storage_on_bytes] relates the two.
    - [State.v]: crates/state/src/lib.rs. [StateManager], the typed view of the
      store at a version, and the position index.
    - [Index.v]: crates/state/src/index_manager.rs. In-memory indices and their
      stored mirror.
    - [Tx.v]: crates/tx/src and crates/state/src/access.rs. Transactions, their
      hashes, signing data, encoding and declared accesses.
    - [EngineBase.v], [Orderbook.v], [Matching.v], [Position.v], [Risk.v],
      [Funding.v], [Liquidation.v]: the files of crates/engine/src of the same
      names. [Matching.v] holds the specification of matching and its proofs.
    - [Services.v], [Trading.v]: crates/engine/src/services and the theorems
      about placing, cancelling and filling.
    - [Engine.v]: crates/engine/src/lib.rs. The engine over all of these.
    - [EventKeys.v], [EventStore.v], [RocksEvents.v]:
      crates/engine/src/event_store_key.rs and event_store.rs. Key encoding; the
      trait [EventStore], its laws [EventStoreOk] and the in-memory store; the
      RocksDB store, and what a client of the laws may conclude.
    - [Auth.v], [Signer.v]: crates/auth/src. Nominations, the agent registry,
      signature recovery; the wrapper of a signing key.
    - [Mempool.v]: crates/mempool/src. The pool of pending transactions.
    - [Snapshot.v]: crates/state/src/snapshot_exporter.rs, its trigger in
      crates/exec/src/server.rs and its options in crates/app/src/config.rs.
    - [Exec.v]: crates/exec/src/tx_executor.rs and server.rs. Executing a
      transaction, a batch, a block.
    - [History.v]: no code of its own. What holds of everything a store has, over
      any blocks at any heights, with commits that prune or fail ([executes]).
    - [Startup.v], [Serve.v]: crates/app/src. Starting the daemon; its log, its
      two servers and the end of the process.
    - [Supply.v], [Chain.v], [Ledger.v], [Typing.v], [Daemon.v], [Pipeline.v]: no
      code of their own. The parts composed: what a block does to the money; the order book
      through a run of blocks that do not prune, commits and restarts ([chain]);
      the money over such a run; the widths of everything stored over any run; what
      a daemon started on an empty database
      can and cannot do; the way of a transaction from the request to the block.
    - [Readonly.v]: crates/exec/src/readonly_executor.rs and executor_trait.rs.
      A query node that follows the leader.
    - [Circuit.v], [Rpc.v], [Transport.v]: crates/rpc/src/middleware.rs; handlers.rs
      with error.rs and the conversions of types.rs; lib.rs with the requests of
      types.rs and websocket.rs. The RPC server works on the same [Exec.Node] as
      the block executor.
    - [Forks.v]: no code of its own. Two daemons given the same blocks, in
      processes whose hash tables iterate differently.
    - [Metrics.v]: crates/rpc/src/metrics.rs. The Prometheus collectors.
    - [Protocol.v]: what it means for an interaction tree to keep to a protocol,
      with a rule per construct.
    - [LoadClient.v], [LoadReport.v], [LoadTest.v], [LoadSerial.v]:
      crates/loadtest/src. The load generator as interaction trees; its report and
      its HTTP client; its tasks interleaved with a node, its blocks and other
      clients ([step]); the scenario that has no concurrency.
    - [TestKit.v], [EngineTests.v], [PoolTests.v], [EngineUnitTests.v],
      [NodeTests.v]: the repository's tests (crates/engine/tests and the test
      modules of the crates), each under its own name, translated and run on the
      model with the concrete instances of the libraries. They check the model
      against what the authors of the code expect of it.

    ** How the parts interact

    [Exec.execute] checks a transaction's signature ([Auth]) and nonce, runs its
    payload on the [Engine], bumps the nonce and drops it from the [Mempool].
    The engine lends its state manager, event buffer and order book to the
    services ([on_services], [on_liquidation]); each of those runs in the monad
    [ST S E A] = [S -> result E A * S]. An error keeps what was already
    written, as an early return does in the source: nothing is rolled back.
    Handles that share an object ([&mut StateManager] passed down a call, the
    lock-protected components of a server) are threaded as one state. The load
    generator reaches the node through [Rpc.submit_transaction] only; its tasks
    share counters, clock and metrics in [LoadTest.World], one access at a time.

    ** What is assumed

    Code outside the repository is a class of parameters, with the documented
    behaviour the program relies on as a second class, and both have a concrete
    instance that the witnesses compute with: [Storage.Backend] (serde, the
    merkle tree, the iteration order of hash tables; RocksDB itself is a finite
    map whose reads and writes succeed once it is open), [Tx.TxEnv] (keccak256, sha256, borsh),
    [Auth.SigEnv] (signature recovery), the outcomes of file and cloud calls in
    [Snapshot.export_snapshot], [EventKeys.KeyCodec],
    [StorageKeys.StorageKeyCodec] and
    [RocksEvents.EventCodec] (borsh), [Rpc.HexEnv] and [LoadTest.HexEncode],
    [Circuit.GovernorEnv], [Transport.PrometheusEnv], [Transport.BroadcastEnv]
    (tokio's broadcast channel), [Metrics.Prometheus], [Backup.RocksDb] (the
    backup engine and checkpoints, which may fail at every step),
    [Signer.PrivateKey], [LoadClient.KeyEnv] (k256) and [LoadClient.HistEnv]
    (hdrhistogram). What the leader of a query node
    answers is an argument, [Readonly.Leader]; random numbers, clock readings and
    lost requests are choices of the surroundings, [LoadTest.Choice].

    Integers are [Z] with the width written where it matters; unchecked [+],
    [-], [*] wrap around as in a release build. Hash-map iteration is an
    arbitrary permutation: [hash_order] where it is not stored, and where its order
    reaches the store ([update_position_index], [write_pending], the index managers)
    one that follows the state of the process's hash tables, [HashState], with
    which every process starts at a value of its own and which moves with every
    use ([next_hash]). The merkle tree is assumed not to depend on the order of
    its updates, which the library sorts. Whether the database can be opened is an
    argument of the start, [opened]; if it cannot, the node is [None] and the
    daemon panics. Error texts are dropped, the data errors
    carry is kept; log lines are kept where they are all that is left of an
    error ([Serve.LogLine]) and dropped elsewhere.

    ** What is proved

    - Store: the latest-version lookup equals a scan; a commit is durable and
      invisible to readers; block execution commits exactly what the
      transactions left; the position index stays complete while loaded; a backup
      restores to the committed database and costs no newer one.
    - Matching: [match_order] refines a reference matcher that walks the book
      from the best price, oldest order first, and keeps book and state in step;
      fills respect price-time priority; displayed depth is the book's.
    - Trading: placing and cancelling keep the book in step with the state;
      a fill moves both exposures by opposite amounts, but a position it closes
      reads as last committed ([State.committed_position]); rebuilding the book from
      the state gives the book back.
    - Risk, funding, liquidation: exactly when an order is accepted, what the other
      checks mean on every branch, bounds
      on rates and sizes, the money each liquidation moves.
    - Accounts: deposits, withdrawals and transfers on every branch.
    - Authentication: who may act for whom, and that the registry is a map.
    - Mempool: its limits hold after any sequence of calls; what is offered for
      execution and in which order.
    - Execution: a block runs the payload of each entry that passes the checks
      exactly once ([block_run]); each sender's executed transactions are numbered
      consecutively from its nonce; refused and failed ones move no nonce.
    - From request to block: an accepted transaction with the current nonce of its
      sender is in the next block and is executed there at its turn.
    - Money: over a chain of blocks the sum of the balances of an asset changes
      by exactly what the successful transactions deposit and withdraw.
    - Types: every integer stored or resting in the book keeps its width, over any
      well-typed blocks, pruning and failing ones included.
    - The daemon: as nothing creates a market, it refuses every order; and two of
      them given the same blocks answer the same state roots.
    - Runs: over any chain of blocks, with failing transactions and malformed
      bytes in them, the book stays in step with the state, and a restarted node
      rebuilds exactly the book of the running one.

    A commit that prunes can delete values that are still current
    ([Storage.prune_drops_live_values]), so what reads such values back has a
    bound: the theorems about [chain], [ledger], [submitted_takes_its_turn] and
    the load test follow blocks whose commits do not prune, at heights that do not
    go down. With the daemon's configuration those are the heights up to 100000
    ([Storage.default_prunes]). The theorems about [executes] and [Forks.v] have
    no such bound.

    - Start and snapshots: what a start registers; an export acts in order,
      publishes its pointer last and stops at the first failure; which blocks
      start an export. How a run of the daemon ends, that it panics without a
      database, and that it always reports success once it has served.
    - Event store: any history of appends, flushes and restarts leaves a store
      whose queries return exactly the flushed events they ask for; stores that
      satisfy the interface agree.
    - Query nodes: the synchronisation loop ends and asks for each block once;
      it commits nothing and moves no nonce.
    - RPC: what a submission and an agent request do, and when they are refused;
      no request makes a node answer a block differently; the circuit breaker as a
      state machine, for every interleaving of requests.
    - Load generator: the numbers its wallets give out arrive once each, the node's
      nonce follows them, and one refusal stops a wallet; what a wallet signs the
      node accepts; the aggressive scenario runs one worker at a time.
    - Index managers: the index refines a relation and survives a restart.

    Several theorems state behaviour a maintainer may not expect; the manifest
    lists those as findings.

    ** Recursion

    Loops over lists are structural recursion. [Storage.scan_versions] counts
    down from the version asked for, and [Readonly.sync_loop] has fuel; theorems
    show that the number of missing blocks is enough fuel. The loops of the load
    generator may run for ever: they are [ITree.iter], and [Protocol.follows]
    counts steps.

    ** Not modelled

    HTTP and gRPC plumbing, JSON, command-line parsing, progress output, the
    printing of numbers, and the Go sequencer: they move bytes between libraries
    and keep no state of the exchange. The benchmarks measure time. Of the tests,
    those of JSON round trips, of the wallet's random key and of a lock are left
    out, and one that appends a thousand events. The contents of the files a
    snapshot export uploads are left out (their order and names are not), and so
    is what RocksDB does inside. *)
From stdpp Require Import base gmap sets list sorting strings.
From Stdlib Require Import ZArith Lia.
From Stdlib Require Ascii String.

Open Scope Z_scope.

(** ** Machine integers

    Rust's unsigned and signed integers are [Z]; the width is written where the
    code makes it observable.  Plain [+], [-], [*] of the source are modelled
    as the release profile compiles them (no [overflow-checks] in Cargo.toml),
    that is with wrap-around; [checked_*] and [saturating_*] as documented by
    the standard library. *)

Definition U8_MAX : Z := 2 ^ 8 - 1.
Definition U32_MAX : Z := 2 ^ 32 - 1.
Definition U64_MAX : Z := 2 ^ 64 - 1.
Definition U128_MAX : Z := 2 ^ 128 - 1.
Definition I64_MAX : Z := 2 ^ 63 - 1.
Definition I128_MAX : Z := 2 ^ 127 - 1.
Definition I128_MIN : Z := - 2 ^ 127.

Definition is_u32 (z : Z) : Prop := 0 <= z <= U32_MAX.
Definition is_u64 (z : Z) : Prop := 0 <= z <= U64_MAX.
Definition is_u128 (z : Z) : Prop := 0 <= z <= U128_MAX.
Definition is_i128 (z : Z) : Prop := I128_MIN <= z <= I128_MAX.

(** Truncating casts [x as u32], [x as u64], [x as u128], [x as i64], [x as i128];
    they also are the wrap-around of an operation of that width. *)
Definition as_u32 (z : Z) : Z := z mod 2 ^ 32.
Definition as_u64 (z : Z) : Z := z mod 2 ^ 64.
Definition as_u128 (z : Z) : Z := z mod 2 ^ 128.
Definition as_i64 (z : Z) : Z := (z + 2 ^ 63) mod 2 ^ 64 - 2 ^ 63.
Definition as_i128 (z : Z) : Z := (z + 2 ^ 127) mod 2 ^ 128 - 2 ^ 127.

Definition wadd64 (a b : Z) : Z := as_u64 (a + b).
Definition wsub64 (a b : Z) : Z := as_u64 (a - b).
Definition wmul64 (a b : Z) : Z := as_u64 (a * b).
Definition wadd32 (a b : Z) : Z := as_u32 (a + b).
Definition wadd128 (a b : Z) : Z := as_u128 (a + b).
Definition wsub128 (a b : Z) : Z := as_u128 (a - b).
Definition wmul128 (a b : Z) : Z := as_u128 (a * b).

Definition checked_add_u128 (a b : Z) : option Z :=
  if a + b <=? U128_MAX then Some (a + b) else None.
Definition checked_sub_u128 (a b : Z) : option Z :=
  if b <=? a then Some (a - b) else None.
Definition checked_mul_u128 (a b : Z) : option Z :=
  if a * b <=? U128_MAX then Some (a * b) else None.
Definition checked_div (a b : Z) : option Z :=
  if b =? 0 then None else Some (a / b).
Definition checked_add_u64 (a b : Z) : option Z :=
  if a + b <=? U64_MAX then Some (a + b) else None.
Definition checked_mul_u64 (a b : Z) : option Z :=
  if a * b <=? U64_MAX then Some (a * b) else None.
Definition checked_add_i128 (a b : Z) : option Z :=
  if (I128_MIN <=? a + b) && (a + b <=? I128_MAX) then Some (a + b) else None.
Definition checked_mul_i128 (a b : Z) : option Z :=
  if (I128_MIN <=? a * b) && (a * b <=? I128_MAX) then Some (a * b) else None.

Definition saturating_sub (a b : Z) : Z := Z.max 0 (a - b).

(** [x.try_into().unwrap_or(u32::MAX)] of a [u128]. *)
Definition try_u32_or_max (z : Z) : Z := if z <=? U32_MAX then z else U32_MAX.

(** [x.is_multiple_of(m)] of unsigned integers: for [m = 0], only [0] is one. *)
Definition is_multiple_of (x m : Z) : bool :=
  if m =? 0 then x =? 0 else x mod m =? 0.

(** ** Results *)

Inductive result (E A : Type) : Type :=
| Ok (a : A)
| Err (e : E).
Arguments Ok {E A} a.
Arguments Err {E A} e.

#[export] Instance result_eq_dec {E A} `{EqDecision E} `{EqDecision A} :
  EqDecision (result E A).
Proof. solve_decision. Defined.

Definition is_ok {E A} (r : result E A) : bool :=
  match r with Ok _ => true | Err _ => false end.

Definition result_bind {E A B} (r : result E A) (k : A -> result E B) : result E B :=
  match r with Ok a => k a | Err e => Err e end.

Definition map_err {E E' A} (f : E -> E') (r : result E A) : result E' A :=
  match r with Ok a => Ok a | Err e => Err (f e) end.

Definition ok_or {E A} (e : E) (o : option A) : result E A :=
  match o with Some a => Ok a | None => Err e end.

Definition result_map {E A B} (f : A -> B) (r : result E A) : result E B :=
  match r with Ok a => Ok (f a) | Err e => Err e end.

(** ** State and errors

    A function that takes [&mut S] and returns [Result<A, E>] is a computation
    [ST S E A].  The state that an [Err] leaves behind is part of the value: an
    early return does not undo the assignments made before it. *)

Definition ST (S E A : Type) : Type := S -> result E A * S.

Definition st_ret {S E A} (a : A) : ST S E A := fun s => (Ok a, s).
Definition st_fail {S E A} (e : E) : ST S E A := fun s => (Err e, s).
Definition st_bind {S E A B} (m : ST S E A) (k : A -> ST S E B) : ST S E B :=
  fun s => match m s with
           | (Ok a, s') => k a s'
           | (Err e, s') => (Err e, s')
           end.
Definition st_get {S E} : ST S E S := fun s => (Ok s, s).
Definition st_put {S E} (s : S) : ST S E unit := fun _ => (Ok tt, s).
Definition st_modify {S E} (f : S -> S) : ST S E unit := fun s => (Ok tt, f s).
(** A call that only borrows the state, [&S]. *)
Definition st_read {S E A} (f : S -> result E A) : ST S E A := fun s => (f s, s).
Definition st_gets {S E A} (f : S -> A) : ST S E A := fun s => (Ok (f s), s).
Definition st_lift {S E A} (r : result E A) : ST S E A := fun s => (r, s).
Definition st_map_err {S E E' A} (f : E -> E') (m : ST S E A) : ST S E' A :=
  fun s => let '(r, s') := m s in (map_err f r, s').
Definition st_guard {S E} (b : bool) (e : E) : ST S E unit :=
  if b then st_ret tt else st_fail e.

(** A computation on a field of a larger state. *)
Definition st_zoom {T S E A} (get : T -> S) (put : S -> T -> T) (m : ST S E A) : ST T E A :=
  fun t => let '(r, s) := m (get t) in (r, put s t).

Declare Scope pranklin_scope.
Delimit Scope pranklin_scope with pranklin.
Open Scope pranklin_scope.

Notation "'let*' x := m 'in' k" := (result_bind m (fun x => k))
  (at level 200, x pattern, right associativity) : pranklin_scope.
Notation "'let!' x := m 'in' k" := (st_bind m (fun x => k))
  (at level 200, x pattern, right associativity) : pranklin_scope.
Notation "m ;; k" := (st_bind m (fun _ => k))
  (at level 100, k at level 200, right associativity) : pranklin_scope.

(** [for x in l { body }] with [?] inside: the loop stops at the first error. *)
Fixpoint st_for {S E A} (l : list A) (body : A -> ST S E unit) : ST S E unit :=
  match l with
  | [] => st_ret tt
  | x :: l' => body x ;; st_for l' body
  end.

(** The same with an accumulator threaded through the iterations. *)
Fixpoint st_fold {S E A B} (l : list A) (acc : B) (body : B -> A -> ST S E B) : ST S E B :=
  match l with
  | [] => st_ret acc
  | x :: l' => let! acc' := body acc x in st_fold l' acc' body
  end.

(** *** Laws and inversion *)

Section st_laws.
Context {S E : Type}.

Lemma st_bind_Ok {A B} (m : ST S E A) (k : A -> ST S E B) s b s' :
  st_bind m k s = (Ok b, s') <->
  exists a s1, m s = (Ok a, s1) /\ k a s1 = (Ok b, s').
Proof.
  unfold st_bind. destruct (m s) as [[a|e] s1]; split.
  - intros H; eauto.
  - intros (a' & s1' & H1 & H2). by simplify_eq.
  - intros H; simplify_eq.
  - intros (a' & s1' & H1 & H2). by simplify_eq.
Qed.

Lemma st_bind_eq {A B} (m : ST S E A) (k : A -> ST S E B) s a s1 :
  m s = (Ok a, s1) -> st_bind m k s = k a s1.
Proof. intros H. unfold st_bind. by rewrite H. Qed.

Lemma st_bind_err {A B} (m : ST S E A) (k : A -> ST S E B) s e s1 :
  m s = (Err e, s1) -> st_bind m k s = (Err e, s1).
Proof. intros H. unfold st_bind. by rewrite H. Qed.

Lemma st_read_bind {A B} (f : S -> result E A) (k : A -> ST S E B) s a :
  f s = Ok a -> st_bind (st_read f) k s = k a s.
Proof. intros H. unfold st_bind, st_read. by rewrite H. Qed.

(** [preserves I m]: whatever [m] returns, an error included, the state it
    leaves satisfies [I] when the initial one does. *)
Definition preserves {A} (I : S -> Prop) (m : ST S E A) : Prop :=
  forall s, I s -> I (snd (m s)).

Lemma preserves_bind {A B} (I : S -> Prop) (m : ST S E A) (k : A -> ST S E B) :
  preserves I m -> (forall a, preserves I (k a)) -> preserves I (st_bind m k).
Proof.
  intros Hm Hk s Hs. specialize (Hm s Hs). unfold st_bind.
  destruct (m s) as [[a|e] s1]; simpl in *; [by apply Hk | done].
Qed.

Lemma preserves_ret {A} (I : S -> Prop) (a : A) : preserves I (st_ret a : ST S E A).
Proof. by intros s Hs. Qed.
Lemma preserves_fail {A} (I : S -> Prop) (e : E) : preserves I (st_fail e : ST S E A).
Proof. by intros s Hs. Qed.
Lemma preserves_read {A} (I : S -> Prop) (f : S -> result E A) : preserves I (st_read f).
Proof. by intros s Hs. Qed.
Lemma preserves_gets {A} (I : S -> Prop) (f : S -> A) : preserves I (st_gets f : ST S E A).
Proof. by intros s Hs. Qed.
Lemma preserves_lift {A} (I : S -> Prop) (r : result E A) : preserves I (st_lift r).
Proof. by intros s Hs. Qed.
Lemma preserves_guard (I : S -> Prop) b (e : E) : preserves I (st_guard b e).
Proof. intros s Hs. by destruct b. Qed.
Lemma preserves_if {A} (I : S -> Prop) (b : bool) (m1 m2 : ST S E A) :
  preserves I m1 -> preserves I m2 -> preserves I (if b then m1 else m2).
Proof. by destruct b. Qed.

Lemma preserves_for {A} (I : S -> Prop) (l : list A) (body : A -> ST S E unit) :
  (forall x, preserves I (body x)) -> preserves I (st_for l body).
Proof.
  intros Hb. induction l as [|x l IH]; simpl.
  - apply preserves_ret.
  - by apply preserves_bind.
Qed.

Lemma preserves_fold {A B} (I : S -> Prop) (l : list A) (body : B -> A -> ST S E B) :
  (forall acc x, preserves I (body acc x)) ->
  forall acc, preserves I (st_fold l acc body).
Proof.
  intros Hb. induction l as [|x l IH]; simpl; intros acc.
  - apply preserves_ret.
  - by apply preserves_bind.
Qed.
End st_laws.

Lemma preserves_map_err {S E E' A} (I : S -> Prop) (f : E -> E') (m : ST S E A) :
  preserves I m -> preserves I (st_map_err f m).
Proof.
  intros Hm s Hs. specialize (Hm s Hs). unfold st_map_err.
  by destruct (m s).
Qed.

Lemma st_map_err_Ok {S E E' A} (f : E -> E') (m : ST S E A) s a s' :
  st_map_err f m s = (Ok a, s') <-> m s = (Ok a, s').
Proof.
  unfold st_map_err. destruct (m s) as [[x|e] s1]; simpl; split; intros H; by simplify_eq.
Qed.

Lemma map_err_Ok {E E' A} (f : E -> E') (r : result E A) a :
  map_err f r = Ok a <-> r = Ok a.
Proof. destruct r; simpl; split; intros H; by simplify_eq. Qed.

Lemma result_bind_Ok {E A B} (r : result E A) (k : A -> result E B) b :
  result_bind r k = Ok b <-> exists a, r = Ok a /\ k a = Ok b.
Proof.
  destruct r; simpl; split.
  - eauto.
  - intros (x & H1 & H2). by simplify_eq.
  - intros H; by simplify_eq.
  - intros (x & H1 & H2). by simplify_eq.
Qed.

Lemma ok_or_Ok {E A} (e : E) (o : option A) a : ok_or e o = Ok a <-> o = Some a.
Proof. destruct o; simpl; split; intros H; by simplify_eq. Qed.

Lemma st_guard_Ok {S E} b (e : E) (s : S) u s' :
  st_guard b e s = (Ok u, s') <-> b = true /\ s' = s /\ u = tt.
Proof.
  destruct b, u; unfold st_guard, st_ret, st_fail; split; intros H;
    try (destruct H as (? & ? & ?)); by simplify_eq.
Qed.

Section st_inv.
Context {S E : Type}.
Implicit Types s : S.
Lemma st_read_Ok {A} (f : S -> result E A) s a s' :
  st_read f s = (Ok a, s') -> f s = Ok a /\ s' = s.
Proof. unfold st_read. intros H. by simplify_eq. Qed.
Lemma st_gets_Ok {A} (f : S -> A) s a s' :
  st_gets (E:=E) f s = (Ok a, s') -> a = f s /\ s' = s.
Proof. unfold st_gets. intros H. by simplify_eq. Qed.
Lemma st_get_Ok s a s' : st_get (E:=E) s = (Ok a, s') -> a = s /\ s' = s.
Proof. unfold st_get. intros H. by simplify_eq. Qed.
Lemma st_put_Ok s0 s u s' : st_put (E:=E) s0 s = (Ok u, s') -> u = tt /\ s' = s0.
Proof. unfold st_put. intros H. by simplify_eq. Qed.
Lemma st_modify_Ok f s u s' : st_modify (E:=E) f s = (Ok u, s') -> u = tt /\ s' = f s.
Proof. unfold st_modify. intros H. by simplify_eq. Qed.
Lemma st_lift_Ok {A} (r : result E A) s a s' :
  st_lift r s = (Ok a, s') -> r = Ok a /\ s' = s.
Proof. unfold st_lift. intros H. by simplify_eq. Qed.
Lemma st_ret_Ok {A} (x a : A) s s' : st_ret (E:=E) x s = (Ok a, s') -> a = x /\ s' = s.
Proof. unfold st_ret. intros H. by simplify_eq. Qed.
End st_inv.

(** To evaluate a run, evaluate its result only. *)
Lemma run_result {S E A} (m : ST S E A) s r : fst (m s) = r -> m s = (r, snd (m s)).
Proof. intros <-. by destruct (m s). Qed.

Lemma run_result2 {R X Y} (p : R * (X * Y)) r :
  fst p = r -> p = (r, (fst (snd p), snd (snd p))).
Proof. intros <-. by destruct p as [? []]. Qed.

Create HintDb preserves.
#[export] Hint Resolve preserves_ret preserves_fail preserves_read preserves_gets
  preserves_lift preserves_guard preserves_map_err : preserves.

(** [inv_ok H] takes a successful run apart, call by call. *)
Ltac inv_ok_step :=
  match goal with
  | H : st_bind _ _ _ = (Ok _, _) |- _ =>
      apply st_bind_Ok in H; destruct H as (? & ? & ? & H)
  | H : result_bind _ _ = Ok _ |- _ =>
      apply result_bind_Ok in H; destruct H as (? & ? & H)
  | H : st_map_err _ _ _ = (Ok _, _) |- _ => apply st_map_err_Ok in H
  | H : map_err _ _ = Ok _ |- _ => apply map_err_Ok in H
  | H : ok_or _ _ = Ok _ |- _ => apply ok_or_Ok in H
  | H : st_guard _ _ _ = (Ok _, _) |- _ =>
      apply st_guard_Ok in H; destruct H as (? & ? & ?); subst
  | H : st_read _ _ = (Ok _, _) |- _ => apply st_read_Ok in H; destruct H as (H & ?)
  | H : st_gets _ _ = (Ok _, _) |- _ => apply st_gets_Ok in H; destruct H as (? & ?)
  | H : st_get _ = (Ok _, _) |- _ => apply st_get_Ok in H; destruct H as (? & ?)
  | H : st_put _ _ = (Ok _, _) |- _ => apply st_put_Ok in H; destruct H as (? & ?)
  | H : st_modify _ _ = (Ok _, _) |- _ => apply st_modify_Ok in H; destruct H as (? & ?)
  | H : st_lift _ _ = (Ok _, _) |- _ => apply st_lift_Ok in H; destruct H as (H & ?)
  | H : st_ret _ _ = (Ok _, _) |- _ => apply st_ret_Ok in H; destruct H as (? & ?)
  | H : st_fail _ _ = (Ok _, _) |- _ => discriminate H
  | H : @Err _ _ _ = Ok _ |- _ => discriminate H
  | H : (Err _, _) = (Ok _, _) |- _ => discriminate H
  | H : Ok _ = Ok _ |- _ => injection H; clear H; intros
  | H : (Ok _, _) = (Ok _, _) |- _ => injection H; clear H; intros
  | H : ?x = ?x |- _ => clear H
  | H : ?x = _ |- _ => is_var x; subst x
  | x : unit |- _ => destruct x
  end.
Ltac inv_ok := repeat inv_ok_step.

(** Checked arithmetic: the value when there is one, and the bound it implies. *)
Lemma checked_add_u128_Some a b c :
  checked_add_u128 a b = Some c <-> c = a + b /\ a + b <= U128_MAX.
Proof.
  unfold checked_add_u128. destruct (Z.leb_spec (a + b) U128_MAX); split; intros Hx.
  - by simplify_eq.
  - destruct Hx as [-> _]. done.
  - done.
  - destruct Hx; lia.
Qed.

Lemma checked_sub_u128_Some a b c :
  checked_sub_u128 a b = Some c <-> c = a - b /\ b <= a.
Proof.
  unfold checked_sub_u128. destruct (Z.leb_spec b a); split; intros Hx.
  - by simplify_eq.
  - destruct Hx as [-> _]. done.
  - done.
  - destruct Hx; lia.
Qed.

Lemma checked_mul_u128_Some a b c :
  checked_mul_u128 a b = Some c <-> c = a * b /\ a * b <= U128_MAX.
Proof.
  unfold checked_mul_u128. destruct (Z.leb_spec (a * b) U128_MAX); split; intros Hx.
  - by simplify_eq.
  - destruct Hx as [-> _]. done.
  - done.
  - destruct Hx; lia.
Qed.

Lemma checked_div_Some a b c :
  checked_div a b = Some c <-> c = a / b /\ b <> 0.
Proof.
  unfold checked_div. destruct (Z.eqb_spec b 0); split; intros Hx.
  - done.
  - destruct Hx; done.
  - by simplify_eq.
  - destruct Hx as [-> _]. done.
Qed.

Lemma checked_mul_u64_Some a b c :
  checked_mul_u64 a b = Some c <-> c = a * b /\ a * b <= U64_MAX.
Proof.
  unfold checked_mul_u64. destruct (Z.leb_spec (a * b) U64_MAX); split; intros Hx.
  - by simplify_eq.
  - destruct Hx as [-> _]. done.
  - done.
  - destruct Hx; lia.
Qed.

(** The product of two [u64] fits in a [u128], so [checked_mul] succeeds. *)
Lemma mul_u64_u128 a b : is_u64 a -> is_u64 b -> 0 <= a * b <= U128_MAX.
Proof. unfold is_u64, U64_MAX, U128_MAX. nia. Qed.

Lemma checked_mul_u64_u128 a b :
  is_u64 a -> is_u64 b -> checked_mul_u128 a b = Some (a * b).
Proof. intros Ha Hb. apply checked_mul_u128_Some. pose proof (mul_u64_u128 a b Ha Hb). lia. Qed.

Lemma as_u64_id z : is_u64 z -> as_u64 z = z.
Proof. unfold is_u64, as_u64, U64_MAX. intros. apply Z.mod_small. lia. Qed.
Lemma as_u64_range z : is_u64 (as_u64 z).
Proof.
  unfold is_u64, as_u64, U64_MAX. pose proof (Z.mod_pos_bound z (2^64) eq_refl). lia.
Qed.
Lemma as_u128_id z : is_u128 z -> as_u128 z = z.
Proof. unfold is_u128, as_u128, U128_MAX. intros. apply Z.mod_small. lia. Qed.
Lemma as_i64_id z : - 2 ^ 63 <= z <= I64_MAX -> as_i64 z = z.
Proof. unfold as_i64, I64_MAX. intros. rewrite Z.mod_small; lia. Qed.
Lemma as_i128_id z : is_i128 z -> as_i128 z = z.
Proof. unfold is_i128, as_i128, I128_MIN, I128_MAX. intros. rewrite Z.mod_small; lia. Qed.

Lemma saturating_sub_le a b : 0 <= b -> b <= a -> saturating_sub a b = a - b.
Proof. unfold saturating_sub. lia. Qed.

#[export] Hint Resolve as_u64_range : core.

Ltac simplify_checked :=
  repeat match goal with
  | H : checked_add_u128 _ _ = Some _ |- _ => apply checked_add_u128_Some in H; destruct H
  | H : checked_sub_u128 _ _ = Some _ |- _ => apply checked_sub_u128_Some in H; destruct H
  | H : checked_mul_u128 _ _ = Some _ |- _ => apply checked_mul_u128_Some in H; destruct H
  | H : checked_mul_u64 _ _ = Some _ |- _ => apply checked_mul_u64_Some in H; destruct H
  | H : checked_div _ _ = Some _ |- _ => apply checked_div_Some in H; destruct H
  end; subst.

(** ** Sums *)

Definition sumZ {A} (f : A -> Z) (l : list A) : Z := foldr (fun x acc => f x + acc) 0 l.

Lemma sumZ_cons {A} (f : A -> Z) x l : sumZ f (x :: l) = f x + sumZ f l.
Proof. reflexivity. Qed.

Lemma sumZ_app {A} (f : A -> Z) l1 l2 : sumZ f (l1 ++ l2) = sumZ f l1 + sumZ f l2.
Proof. unfold sumZ. induction l1 as [|x l1 IH]; simpl; [done|]. rewrite IH. lia. Qed.

Lemma sumZ_ext {A} (f g : A -> Z) l :
  (forall x, x ∈ l -> f x = g x) -> sumZ f l = sumZ g l.
Proof.
  intros H. unfold sumZ. induction l as [|x l IH]; simpl; [done|].
  rewrite (H x) by set_solver. rewrite IH; [done|]. intros y Hy. apply H. set_solver.
Qed.

Lemma sumZ_nonneg {A} (f : A -> Z) l : (forall x, x ∈ l -> 0 <= f x) -> 0 <= sumZ f l.
Proof.
  intros H. unfold sumZ. induction l as [|x l IH]; simpl; [done|].
  assert (0 <= f x) by (apply H; set_solver).
  enough (0 <= foldr (fun x acc => f x + acc) 0 l) by lia.
  apply IH. intros y Hy. apply H. set_solver.
Qed.

Lemma sumZ_permutation {A} (f : A -> Z) l1 l2 : l1 ≡ₚ l2 -> sumZ f l1 = sumZ f l2.
Proof. unfold sumZ. induction 1; simpl; lia. Qed.

(** ** Bytes *)

(** [z.to_le_bytes()] and [z.to_be_bytes()] of an [n]-byte integer. *)
Fixpoint le_bytes (n : nat) (z : Z) : list Z :=
  match n with
  | O => []
  | S k => z mod 256 :: le_bytes k (z / 256)
  end.
Definition be_bytes (n : nat) (z : Z) : list Z := rev (le_bytes n z).

(** [from_le_bytes]. *)
Fixpoint le_value (l : list Z) : Z :=
  match l with [] => 0 | b :: l' => b + 256 * le_value l' end.

Lemma length_le_bytes n z : length (le_bytes n z) = n.
Proof. revert z. induction n as [|n IH]; intros z; simpl; [done|]. by rewrite IH. Qed.

Lemma length_be_bytes n z : length (be_bytes n z) = n.
Proof. unfold be_bytes. by rewrite length_rev, length_le_bytes. Qed.

Lemma le_value_bytes n z : 0 <= z < 256 ^ Z.of_nat n -> le_value (le_bytes n z) = z.
Proof.
  revert z. induction n as [|n IH]; intros z Hz; [simpl in *; lia|].
  cbn [le_bytes le_value].
  rewrite Nat2Z.inj_succ, Z.pow_succ_r in Hz by lia. rewrite IH.
  - pose proof (Z.div_mod z 256 ltac:(lia)). lia.
  - split; [apply Z.div_pos; lia|apply Z.div_lt_upper_bound; lia].
Qed.

Lemma le_bytes_inj n y z :
  0 <= y < 256 ^ Z.of_nat n -> 0 <= z < 256 ^ Z.of_nat n -> le_bytes n y = le_bytes n z -> y = z.
Proof. intros Hy Hz H. rewrite <- (le_value_bytes n y Hy), H. by apply le_value_bytes. Qed.

Lemma u64_bytes z : is_u64 z -> 0 <= z < 256 ^ Z.of_nat 8.
Proof. unfold is_u64, U64_MAX. change (256 ^ Z.of_nat 8) with 18446744073709551616. lia. Qed.
Lemma u32_bytes z : is_u32 z -> 0 <= z < 256 ^ Z.of_nat 4.
Proof. unfold is_u32, U32_MAX. change (256 ^ Z.of_nat 4) with 4294967296. lia. Qed.

Lemma le8_inj y z : is_u64 y -> is_u64 z -> le_bytes 8 y = le_bytes 8 z -> y = z.
Proof. intros Hy Hz. apply le_bytes_inj; by apply u64_bytes. Qed.
Lemma le4_inj y z : is_u32 y -> is_u32 z -> le_bytes 4 y = le_bytes 4 z -> y = z.
Proof. intros Hy Hz. apply le_bytes_inj; by apply u32_bytes. Qed.
Lemma be_bytes_inj n y z :
  0 <= y < 256 ^ Z.of_nat n -> 0 <= z < 256 ^ Z.of_nat n -> be_bytes n y = be_bytes n z -> y = z.
Proof.
  intros Hy Hz H. apply (le_bytes_inj n); [done|done|].
  rewrite <- (rev_involutive (le_bytes n y)), <- (rev_involutive (le_bytes n z)).
  unfold be_bytes in H. by rewrite H.
Qed.

(** [s.as_bytes()] *)
Definition as_bytes (s : string) : list Z :=
  (fun a => Z.of_N (Ascii.N_of_ascii a)) <$> String.list_ascii_of_string s.

(** Equal concatenations of blocks of equal length have equal blocks. *)
Lemma app_inj_len {A} (l1 l2 k1 k2 : list A) :
  length l1 = length l2 -> l1 ++ k1 = l2 ++ k2 -> l1 = l2 /\ k1 = k2.
Proof. intros Hl H. by apply app_inj_1 in H. Qed.

Lemma take_app_len {A} n (l k : list A) : length l = n -> take n (l ++ k) = l.
Proof. intros <-. apply take_app_length. Qed.
Lemma drop_app_len {A} n (l k : list A) : length l = n -> drop n (l ++ k) = k.
Proof. intros <-. apply drop_app_length. Qed.

(** ** Ordered maps

    A [BTreeMap<u64, V>] is a [gmap Z V]; it is iterated in increasing key order. *)

Definition btree_keys {A} (m : gmap Z A) : list Z := merge_sort Z.le (map_to_list m).*1.

#[export] Instance Z_le_trans_inst : Transitive Z.le.
Proof. intros x y z. lia. Qed.
#[export] Instance Z_le_total_inst : Total Z.le.
Proof. intros x y. lia. Qed.

Lemma btree_keys_elem {A} (m : gmap Z A) k : k ∈ btree_keys m <-> is_Some (m !! k).
Proof.
  unfold btree_keys. rewrite (merge_sort_Permutation Z.le), list_elem_of_fmap. split.
  - intros ([k' x] & -> & H). apply elem_of_map_to_list in H. eauto.
  - intros [x H]. exists (k, x). split; [done|]. by apply elem_of_map_to_list.
Qed.

Lemma btree_keys_NoDup {A} (m : gmap Z A) : NoDup (btree_keys m).
Proof.
  unfold btree_keys. rewrite (merge_sort_Permutation Z.le). apply NoDup_fst_map_to_list.
Qed.

Lemma btree_keys_sorted {A} (m : gmap Z A) : StronglySorted Z.le (btree_keys m).
Proof. apply StronglySorted_merge_sort; apply _. Qed.

(** ** Filters *)

Lemma filter_ext_on {A} (P Q : A -> Prop) `{forall x, Decision (P x)} `{forall x, Decision (Q x)}
    (l : list A) :
  (forall x, x ∈ l -> P x <-> Q x) -> filter P l = filter Q l.
Proof.
  induction l as [|x l IH]; intros Hl; [done|].
  assert (IH' : filter P l = filter Q l) by (apply IH; intros; apply Hl; set_solver).
  destruct (decide (P x)) as [Hp|Hp].
  - rewrite !filter_cons_True; [by rewrite IH'|apply Hl; [set_solver|done]|done].
  - rewrite !filter_cons_False; [done|rewrite <- Hl; [done|set_solver]|done].
Qed.

Lemma filter_all {A} (P : A -> Prop) `{forall x, Decision (P x)} (l : list A) :
  (forall x, x ∈ l -> P x) -> filter P l = l.
Proof.
  induction l as [|x l IH]; intros Hl; [done|].
  rewrite filter_cons_True, IH; [done|set_solver|set_solver].
Qed.

(** [l.iter().position(|y| y == x)]. *)
Definition position {A} `{EqDecision A} (x : A) (l : list A) : option nat :=
  fst <$> list_find (fun y => y = x) l.

Lemma delete_position_filter {A} `{EqDecision A} (x : A) (l : list A) :
  NoDup l -> x ∈ l ->
  exists i, position x l = Some i /\ delete i l = filter (fun y => y <> x) l.
Proof.
  unfold position. induction l as [|y l IH]; [set_solver|].
  rewrite NoDup_cons. intros [Hy Hn] Hx. simpl. destruct (decide (y = x)) as [->|Hne].
  - exists O. split; [done|]. rewrite filter_cons_False by tauto. simpl.
    symmetry. apply filter_all. by intros z Hz ->.
  - destruct IH as (i & Hi & Hd); [done|set_solver|].
    exists (S i). destruct (list_find (fun y => y = x) l) as [[j z]|]; [|done].
    simpl in *. simplify_eq. split; [done|]. by rewrite filter_cons_True, Hd.
Qed.

Lemma position_None {A} `{EqDecision A} (x : A) (l : list A) : x ∉ l -> position x l = None.
Proof.
  intros Hx. unfold position. assert (list_find (fun y => y = x) l = None) as ->; [|done].
  apply list_find_None, Forall_forall. intros y Hy ->. done.
Qed.

(** Sums over duplicate-free lists, when one element changes or goes. *)
Lemma sumZ_update {A} `{EqDecision A} (f g : A -> Z) (l : list A) x :
  NoDup l -> x ∈ l -> (forall y, y <> x -> g y = f y) -> sumZ g l = sumZ f l - f x + g x.
Proof.
  intros Hn Hx Hfg. induction l as [|y l IH]; [set_solver|].
  apply NoDup_cons in Hn as [Hy Hn]. cbn [sumZ foldr]. fold (sumZ f l) (sumZ g l).
  destruct (decide (x = y)) as [->|Hne].
  - rewrite (sumZ_ext g f l); [lia|]. intros z Hz. apply Hfg. by intros ->.
  - rewrite (Hfg y) by done. rewrite IH; [lia|done|set_solver].
Qed.

Lemma sumZ_filter_ne {A} `{EqDecision A} (f : A -> Z) (l : list A) x :
  NoDup l -> x ∈ l -> sumZ f (filter (fun y => y <> x) l) = sumZ f l - f x.
Proof.
  intros Hn Hx. induction l as [|y l IH]; [set_solver|].
  apply NoDup_cons in Hn as [Hy Hn]. cbn [sumZ foldr]. fold (sumZ f l).
  destruct (decide (y = x)) as [->|Hne].
  - rewrite filter_cons_False by tauto. rewrite filter_all; [lia|]. by intros z Hz ->.
  - rewrite filter_cons_True by done. cbn [sumZ foldr]. fold (sumZ f (filter (fun z => z <> x) l)).
    rewrite IH; [lia|done|set_solver].
Qed.

Lemma sumZ_elem {A} (f : A -> Z) (l : list A) x :
  (forall y, y ∈ l -> 0 <= f y) -> x ∈ l -> f x <= sumZ f l.
Proof.
  intros Hf Hx. apply list_elem_of_split in Hx as (l1 & l2 & ->).
  rewrite sumZ_app. cbn [sumZ foldr]. fold (sumZ f l2).
  pose proof (sumZ_nonneg f l1 ltac:(intros; apply Hf; set_solver)).
  pose proof (sumZ_nonneg f l2 ltac:(intros; apply Hf; set_solver)). lia.
Qed.

(** [l.take_while(p)]. *)
Fixpoint take_while {A} (p : A -> bool) (l : list A) : list A :=
  match l with
  | [] => []
  | x :: l' => if p x then x :: take_while p l' else []
  end.

Lemma take_while_elem {A} (p : A -> bool) (l : list A) x :
  x ∈ take_while p l -> p x = true /\ x ∈ l.
Proof.
  induction l as [|y l IH]; simpl; [set_solver|]. destruct (p y) eqn:E; [|set_solver].
  intros [->|Hx]%elem_of_cons; [set_solver|]. destruct (IH Hx). set_solver.
Qed.

Lemma take_while_sublist {A} (p : A -> bool) (l : list A) : sublist (take_while p l) l.
Proof.
  induction l as [|y l IH]; simpl; [constructor|]. destruct (p y); [by constructor|].
  apply sublist_nil_l.
Qed.

(** ** Triples

    [triple P m Q R]: from a state in [P], [m] either succeeds with a value and a
    state in [Q] or fails with a state in [R]. *)

Definition triple {S E A} (P : S -> Prop) (m : ST S E A) (Q : A -> S -> Prop) (R : S -> Prop) : Prop :=
  forall s, P s -> match m s with (Ok a, s') => Q a s' | (Err _, s') => R s' end.

Section triples.
Context {S E : Type}.

Lemma triple_bind {A C} P (m : ST S E A) Q (k : A -> ST S E C) Q' R :
  triple P m Q R -> (forall a, triple (Q a) (k a) Q' R) -> triple P (st_bind m k) Q' R.
Proof.
  intros Hm Hk s Hs. specialize (Hm s Hs). unfold st_bind.
  destruct (m s) as [[a|e] s']; [by apply Hk|done].
Qed.

Lemma triple_ret {A} (a : A) P R : triple P (st_ret a : ST S E A) (fun x s => x = a /\ P s) R.
Proof. intros s Hs. by split. Qed.

Lemma triple_fail {A} (e : E) P (Q : A -> S -> Prop) : triple P (st_fail e) Q P.
Proof. by intros s Hs. Qed.

(** Computations that leave the state alone. *)
Lemma triple_pure {A} (m : ST S E A) (P R : S -> Prop) :
  (forall s, snd (m s) = s) -> (forall s, P s -> R s) ->
  triple P m (fun a s => P s /\ fst (m s) = Ok a) R.
Proof.
  intros H HR s Hs. specialize (H s). destruct (m s) as [r s'] eqn:Em. simpl in H.
  destruct r as [a|e]; rewrite H; [|by apply HR]. split; [done|]. by rewrite Em.
Qed.

Lemma triple_weaken {A} (P P' : S -> Prop) (m : ST S E A) (Q Q' : A -> S -> Prop) (R R' : S -> Prop) :
  triple P' m Q' R' -> (forall s, P s -> P' s) -> (forall a s, Q' a s -> Q a s) ->
  (forall s, R' s -> R s) -> triple P m Q R.
Proof.
  intros H HP HQ HR s Hs. specialize (H s (HP s Hs)).
  destruct (m s) as [[a|e] s']; auto.
Qed.

Lemma triple_for {A} (I R : S -> Prop) (l : list A) (body : A -> ST S E unit) :
  (forall x, x ∈ l -> triple I (body x) (fun _ => I) R) -> triple I (st_for l body) (fun _ => I) R.
Proof.
  intros Hb. induction l as [|x l IH]; simpl.
  - by intros s Hs.
  - eapply triple_bind; [apply Hb; left|]. intros u. apply IH. intros y Hy. apply Hb. by right.
Qed.

Lemma triple_preserves {A} (I : S -> Prop) (m : ST S E A) :
  triple I m (fun _ => I) I -> preserves I m.
Proof. intros H s Hs. specialize (H s Hs). by destruct (m s) as [[a|e] s']. Qed.
(** *** Typed results

    [yields I m Q]: [m] keeps the invariant [I], failing or not, and a value it
    returns satisfies [Q]. *)

Definition yields {A} (I : S -> Prop) (m : ST S E A) (Q : A -> Prop) : Prop :=
  triple I m (fun a s => I s /\ Q a) I.

Lemma yields_bind {A C} (I : S -> Prop) (m : ST S E A) Q (k : A -> ST S E C) Q' :
  yields I m Q -> (forall a, Q a -> yields I (k a) Q') -> yields I (st_bind m k) Q'.
Proof. intros Hm Hk. eapply triple_bind; [exact Hm|]. intros a s [Hs Ha]. by apply (Hk a Ha). Qed.

Lemma yields_weaken {A} (I : S -> Prop) (m : ST S E A) (Q Q' : A -> Prop) :
  yields I m Q -> (forall a, Q a -> Q' a) -> yields I m Q'.
Proof. intros Hm HQ. eapply triple_weaken; [exact Hm|done| |done]. intros a s [Hs Ha]. auto. Qed.

Lemma yields_ret {A} (I : S -> Prop) (a : A) (Q : A -> Prop) : Q a -> yields I (st_ret a : ST S E A) Q.
Proof. by intros Ha s Hs. Qed.
Lemma yields_fail {A} (I : S -> Prop) (e : E) (Q : A -> Prop) : yields I (st_fail e) Q.
Proof. by intros s Hs. Qed.
Lemma yields_read {A} (I : S -> Prop) (f : S -> result E A) (Q : A -> Prop) :
  (forall s a, I s -> f s = Ok a -> Q a) -> yields I (st_read f) Q.
Proof. intros H s Hs. unfold st_read. destruct (f s) as [a|e] eqn:Ef; [|done]. split; [done|by eapply H]. Qed.
Lemma yields_gets {A} (I : S -> Prop) (f : S -> A) (Q : A -> Prop) :
  (forall s, I s -> Q (f s)) -> yields I (st_gets f : ST S E A) Q.
Proof. intros H s Hs. split; [done|by apply H]. Qed.
Lemma yields_lift {A} (I : S -> Prop) (r : result E A) (Q : A -> Prop) :
  (forall a, r = Ok a -> Q a) -> yields I (st_lift r) Q.
Proof. intros H s Hs. unfold st_lift. destruct r as [a|e]; [|done]. split; [done|by apply H]. Qed.
Lemma yields_guard (I : S -> Prop) b (e : E) : yields I (st_guard b e) (fun _ => b = true).
Proof. intros s Hs. unfold st_guard. by destruct b. Qed.
Lemma yields_modify (I : S -> Prop) (f : S -> S) :
  (forall s, I s -> I (f s)) -> yields I (st_modify f : ST S E unit) (fun _ => True).
Proof. intros H s Hs. split; [by apply H|done]. Qed.

Lemma yields_for {A} (I : S -> Prop) (l : list A) (body : A -> ST S E unit) :
  (forall x, x ∈ l -> yields I (body x) (fun _ => True)) -> yields I (st_for l body) (fun _ => True).
Proof.
  intros Hb. induction l as [|x l IH]; simpl; [by apply yields_ret|].
  eapply yields_bind; [apply Hb; left|]. intros _ _. apply IH. intros y Hy. apply Hb. by right.
Qed.

Lemma yields_preserves {A} (I : S -> Prop) (m : ST S E A) Q : yields I m Q -> preserves I m.
Proof. intros H s Hs. specialize (H s Hs). destruct (m s) as [[a|e] s']; [apply H|exact H]. Qed.
End triples.

Lemma yields_map_err {S E E' A} (I : S -> Prop) (f : E -> E') (m : ST S E A) Q :
  yields I m Q -> yields I (st_map_err f m) Q.
Proof. intros H s Hs. specialize (H s Hs). unfold st_map_err. by destruct (m s) as [[a|e] s']. Qed.

Lemma yields_zoom {T S E A} (I : T -> Prop) (J : S -> Prop) (get : T -> S) (put : S -> T -> T)
    (m : ST S E A) Q :
  (forall t, I t -> J (get t)) -> (forall t s, I t -> J s -> I (put s t)) ->
  yields J m Q -> yields I (st_zoom get put m) Q.
Proof.
  intros Hg Hp Hm t Ht. specialize (Hm (get t) (Hg t Ht)). unfold st_zoom.
  destruct (m (get t)) as [[a|e] s]; [destruct Hm as [Hs Ha]; split; [by apply Hp|done]|by apply Hp].
Qed.

(** * Two runs side by side

    [lockstep R m]: started in related states, two runs of [m] give the same
    result and end in related states. *)
Definition lockstep {S E A} (R : relation S) (m : ST S E A) : Prop :=
  forall s1 s2, R s1 s2 -> fst (m s1) = fst (m s2) /\ R (snd (m s1)) (snd (m s2)).

Section lockstep.
Context {S E : Type} (R : relation S).

Lemma lockstep_bind {A B} (m : ST S E A) (k : A -> ST S E B) :
  lockstep R m -> (forall a, lockstep R (k a)) -> lockstep R (st_bind m k).
Proof.
  intros Hm Hk s1 s2 Hs. destruct (Hm s1 s2 Hs) as [E1 E2]. unfold st_bind.
  destruct (m s1) as [r1 s1'], (m s2) as [r2 s2']. cbn in E1, E2. subst r2.
  destruct r1 as [a|e]; [by apply Hk|done].
Qed.
Lemma lockstep_ret {A} (a : A) : lockstep (E := E) R (st_ret a).
Proof. by intros s1 s2 Hs. Qed.
Lemma lockstep_fail {A} (e : E) : lockstep R (st_fail (A := A) e).
Proof. by intros s1 s2 Hs. Qed.
Lemma lockstep_lift {A} (r : result E A) : lockstep R (st_lift r).
Proof. by intros s1 s2 Hs. Qed.
Lemma lockstep_guard (b : bool) (e : E) : lockstep R (st_guard b e).
Proof. by destruct b; intros s1 s2 Hs. Qed.
Lemma lockstep_read {A} (f : S -> result E A) :
  (forall s1 s2, R s1 s2 -> f s1 = f s2) -> lockstep R (st_read f).
Proof. intros Hf s1 s2 Hs. split; [by apply Hf|done]. Qed.
Lemma lockstep_gets {A} (f : S -> A) :
  (forall s1 s2, R s1 s2 -> f s1 = f s2) -> lockstep (E := E) R (st_gets f).
Proof. intros Hf s1 s2 Hs. split; [cbn; f_equal; by apply Hf|done]. Qed.
Lemma lockstep_modify (f : S -> S) :
  (forall s1 s2, R s1 s2 -> R (f s1) (f s2)) -> lockstep (E := E) R (st_modify f).
Proof. intros Hf s1 s2 Hs. split; [done|by apply Hf]. Qed.
Lemma lockstep_map_err {E' A} (f : E' -> E) (m : ST S E' A) : lockstep R m -> lockstep R (st_map_err f m).
Proof.
  intros Hm s1 s2 Hs. destruct (Hm s1 s2 Hs) as [E1 E2]. unfold st_map_err.
  destruct (m s1), (m s2). cbn in *. by subst.
Qed.
(** A field of which related states have related values. *)
Lemma lockstep_zoom_to {T A} (Q : relation T) (get : S -> T) (put : T -> S -> S) (m : ST T E A) :
  (forall s1 s2, R s1 s2 -> Q (get s1) (get s2)) ->
  (forall t1 t2 s1 s2, R s1 s2 -> Q t1 t2 -> R (put t1 s1) (put t2 s2)) ->
  (forall t1 t2, Q t1 t2 -> fst (m t1) = fst (m t2) /\ Q (snd (m t1)) (snd (m t2))) ->
  lockstep R (st_zoom get put m).
Proof.
  intros Hg Hp Hm s1 s2 Hs. destruct (Hm _ _ (Hg s1 s2 Hs)) as [E1 E2]. unfold st_zoom.
  destruct (m (get s1)) as [r1 t1], (m (get s2)) as [r2 t2]. cbn in *. subst r2. split; [done|]. by apply Hp.
Qed.
(** A field on which related states agree. *)
Lemma lockstep_zoom {T A} (get : S -> T) (put : T -> S -> S) (m : ST T E A) :
  (forall s1 s2, R s1 s2 -> get s1 = get s2) ->
  (forall t s1 s2, R s1 s2 -> R (put t s1) (put t s2)) -> lockstep R (st_zoom get put m).
Proof.
  intros Hg Hp s1 s2 Hs. unfold st_zoom. rewrite (Hg s1 s2 Hs). destruct (m (get s2)) as [r t].
  split; [done|]. by apply Hp.
Qed.
End lockstep.
