(* ===== verification/Float64.v ===== *)
(** [f64] and the conversions of the program between [f64], integers and
    [std::time::Duration]: statistics of the pool, of the executor and of the load
    generator, and the delays of the latter. *)
From Stdlib Require Import ZArith Lia.
From Stdlib Require SpecFloat.
From S2P Require Import Prelude.

(** * Floating point *)

(** [f64]: the IEEE 754 double of the Standard Library, rounded to nearest. *)
Notation f64 := SpecFloat.spec_float.
Definition f64_of_int (z : Z) : f64 := SpecFloat.binary_normalize 53 1024 z 0 false.
Definition f64_add : f64 -> f64 -> f64 := SpecFloat.SFadd 53 1024.
Definition f64_mul : f64 -> f64 -> f64 := SpecFloat.SFmul 53 1024.
Definition f64_div : f64 -> f64 -> f64 := SpecFloat.SFdiv 53 1024.
Definition f64_max (x y : f64) : f64 :=
  match x, y with
  | SpecFloat.S754_nan, _ => y
  | _, SpecFloat.S754_nan => x
  | _, _ => if SpecFloat.SFltb x y then y else x
  end.

(** [x as u8]: truncates, saturates, and turns NaN into 0. *)
Definition f64_as_u8 (x : f64) : Z :=
  match x with
  | SpecFloat.S754_finite false m e =>
      Z.min U8_MAX (if 0 <=? e then Z.pos m * 2 ^ e else Z.pos m / 2 ^ (- e))
  | SpecFloat.S754_infinity false => U8_MAX
  | _ => 0
  end.

(** * Durations *)

(** [Duration] and [Instant]: whole nanoseconds. *)
Definition NANOS_PER_SEC : Z := 1000000000.
Definition from_secs (secs : Z) : Z := secs * NANOS_PER_SEC.
Definition from_millis (ms : Z) : Z := ms * 1000000.
Definition as_micros (d : Z) : Z := d / 1000.
Definition as_secs_f64 (d : Z) : f64 :=
  f64_add (f64_of_int (d / NANOS_PER_SEC))
          (f64_div (f64_of_int (d mod NANOS_PER_SEC)) (f64_of_int NANOS_PER_SEC)).

(** [n / d] rounded to nearest, ties to even. *)
Definition div_round_even (n d : Z) : Z :=
  let q := n / d in let r := n mod d in
  match 2 * r ?= d with Lt => q | Gt => q + 1 | Eq => if Z.even q then q else q + 1 end.

(** [Duration::from_secs_f64]: panics ([None]) on negative numbers, infinities,
    NaN and overflow. *)
Definition from_secs_f64 (x : f64) : option Z :=
  match x with
  | SpecFloat.S754_zero _ => Some 0
  | SpecFloat.S754_finite false m e =>
      let nanos := if 0 <=? e then Z.pos m * 2 ^ e * NANOS_PER_SEC
                   else div_round_even (Z.pos m * NANOS_PER_SEC) (2 ^ (- e)) in
      if nanos / NANOS_PER_SEC <=? U64_MAX then Some nanos else None
  | _ => None
  end.
