(* ===== verification/Macros.v ===== *)
(** The attribute macros of crates/macros/src/lib.rs, on items that are already
    parsed: which attributes they put before those an item has.  [Other] stands
    for any other item, [Foreign] for any other attribute; tokens and their
    printing are syn's and quote's. *)
From stdpp Require Import base list strings.
From S2P Require Import Prelude.

Inductive Trait :=
| TraitDebug | TraitClone | TraitCopy | TraitPartialEq | TraitEq
| SerdeSerialize | SerdeDeserialize | BorshSerialize | BorshDeserialize.

Inductive Attribute :=
| Derive (traits : list Trait)
| Repr (ty : string)
| BorshUseDiscriminant
| Foreign (tokens : string).

Inductive Item :=
| ItemStruct (attrs : list Attribute) (rest : string)
| ItemEnum (attrs : list Attribute) (rest : string)
| Other (tokens : string).

Definition standard_derives (include_copy : bool) : Attribute :=
  Derive ([TraitDebug; TraitClone] ++ (if include_copy then [TraitCopy] else []) ++
          [TraitPartialEq; TraitEq; SerdeSerialize; SerdeDeserialize; BorshSerialize; BorshDeserialize]).

Definition prepend_attrs (new_attrs attrs : list Attribute) : list Attribute := new_attrs ++ attrs.

Definition standard (input : Item) : Item :=
  match input with
  | ItemStruct attrs rest => ItemStruct (prepend_attrs [standard_derives false] attrs) rest
  | ItemEnum attrs rest => ItemEnum (prepend_attrs [standard_derives false] attrs) rest
  | Other tokens => Other tokens
  end.

(** [attr] is the text between the macro's parentheses and [parse_type] what
    syn makes of it; [None] when the macro panics, which stops the build. *)
Definition standard_enum (parse_type : string -> option string) (attr : string) (item : Item) : option Item :=
  repr ← (if bool_decide (attr = EmptyString) then Some "u8"%string else parse_type attr);
  match item with
  | ItemEnum attrs rest => Some (ItemEnum (prepend_attrs
      [standard_derives true; Repr repr; BorshUseDiscriminant] attrs) rest)
  | _ => None
  end.

Definition attrs_of (i : Item) : list Attribute :=
  match i with ItemStruct attrs _ | ItemEnum attrs _ => attrs | Other _ => [] end.

(** [standard_enum] stops the build on anything but an enum; on an enum it puts
    its three attributes first and keeps those that were there. *)
Lemma standard_enum_exact parse_type attr i j :
  standard_enum parse_type attr i = Some j ->
  exists attrs rest repr, i = ItemEnum attrs rest /\
    attrs_of j = standard_derives true :: Repr repr :: BorshUseDiscriminant :: attrs.
Proof.
  unfold standard_enum. intros H.
  destruct (if bool_decide _ then _ else _) as [repr|]; [cbn in H|done].
  destruct i as [|attrs rest|]; simplify_eq. by exists attrs, rest, repr.
Qed.
