(* ===== verification/Types.v ===== *)
(** The [pranklin-types] crate: the data shared by every other component
    (orders, positions, markets, funding, assets, fills, events, permissions)
    with the methods defined on it. *)
From stdpp Require Import base gmap sets list sorting strings.
From Stdlib Require Import ZArith Lia.
From S2P Require Import Prelude.

(** [alloy_primitives::Address] and [B256] are fixed-width byte strings; the
    model keeps the unsigned big-endian value, 160 and 256 bits wide. *)
Notation Address := Z (only parsing).
Notation B256 := Z (only parsing).

Definition is_address (a : Address) : Prop := 0 <= a < 2 ^ 160.
Definition B256_ZERO : B256 := 0.

(** * Order types (crates/types/src/tx.rs) *)

Inductive OrderType :=
| OT_Market
| OT_Limit
| OT_StopMarket
| OT_StopLimit
| OT_TakeProfitMarket
| OT_TakeProfitLimit.

Definition OrderType_as_u8 (t : OrderType) : Z :=
  match t with
  | OT_Market => 0
  | OT_Limit => 1
  | OT_StopMarket => 2
  | OT_StopLimit => 3
  | OT_TakeProfitMarket => 4
  | OT_TakeProfitLimit => 5
  end.

Definition is_market (t : OrderType) : bool :=
  match t with
  | OT_Market | OT_StopMarket | OT_TakeProfitMarket => true
  | _ => false
  end.

Definition is_limit (t : OrderType) : bool :=
  match t with
  | OT_Limit | OT_StopLimit | OT_TakeProfitLimit => true
  | _ => false
  end.

Definition has_trigger (t : OrderType) : bool :=
  match t with
  | OT_StopMarket | OT_StopLimit | OT_TakeProfitMarket | OT_TakeProfitLimit => true
  | _ => false
  end.

Inductive TimeInForce :=
| GTC
| IOC
| FOK
| PostOnly.

Definition TimeInForce_as_u8 (t : TimeInForce) : Z :=
  match t with GTC => 0 | IOC => 1 | FOK => 2 | PostOnly => 3 end.

Definition requires_immediate_execution (t : TimeInForce) : bool :=
  match t with IOC | FOK => true | _ => false end.

#[export] Instance OrderType_eq_dec : EqDecision OrderType.
Proof. solve_decision. Defined.
#[export] Instance TimeInForce_eq_dec : EqDecision TimeInForce.
Proof. solve_decision. Defined.

(** * Receipts and permissions (crates/types/src/common.rs) *)

Record TxReceipt := {
  rc_tx_hash : B256;
  rc_block_height : Z;
  rc_tx_index : Z;
  rc_success : bool;
  rc_gas_used : Z;
  rc_error : option string;
}.

Definition is_success (r : TxReceipt) : bool := rc_success r.
Definition is_failure (r : TxReceipt) : bool := negb (rc_success r).

(** Agent permissions bitmap: a [u64]. *)
Notation Permissions := Z (only parsing).

Definition PLACE_ORDER : Permissions := Z.shiftl 1 0.
Definition CANCEL_ORDER : Permissions := Z.shiftl 1 1.
Definition MODIFY_ORDER : Permissions := Z.shiftl 1 2.
Definition CLOSE_POSITION : Permissions := Z.shiftl 1 3.
Definition WITHDRAW : Permissions := Z.shiftl 1 4.
Definition ALL : Permissions := Z.shiftl 1 5 - 1.

Definition perm_empty : Permissions := 0.
Definition perm_all : Permissions := ALL.

(** [self.0 & permission != 0] *)
Definition perm_has (p permission : Permissions) : bool :=
  negb (Z.land p permission =? 0).
Definition can_place_order (p : Permissions) : bool := perm_has p PLACE_ORDER.
Definition can_cancel_order (p : Permissions) : bool := perm_has p CANCEL_ORDER.
Definition can_modify_order (p : Permissions) : bool := perm_has p MODIFY_ORDER.
Definition can_close_position (p : Permissions) : bool := perm_has p CLOSE_POSITION.
Definition can_withdraw (p : Permissions) : bool := perm_has p WITHDRAW.

(** [!x] of a [u64]. *)
Definition not_u64 (x : Z) : Z := as_u64 (Z.lnot x).

Definition perm_with (p permission : Permissions) : Permissions := Z.lor p permission.
Definition perm_without (p permission : Permissions) : Permissions :=
  Z.land p (not_u64 permission).
Definition perm_bitor (p q : Permissions) : Permissions := Z.lor p q.
Definition perm_bitand (p q : Permissions) : Permissions := Z.land p q.
Definition perm_not (p : Permissions) : Permissions := Z.land (not_u64 p) ALL.

(** [Permissions] wraps its bits: construction and conversion keep them. *)
Definition Permissions_new (bits : Z) : Permissions := bits.
Definition Permissions_default : Permissions := perm_empty.
Definition permissions_of_u64 (bits : Z) : Permissions := Permissions_new bits.
Definition u64_of_permissions (p : Permissions) : Z := p.
Definition perm_bitor_assign (rhs self : Permissions) : Permissions := Z.lor self rhs.
Definition perm_bitand_assign (rhs self : Permissions) : Permissions := Z.land self rhs.

(** * Positions, orders, markets (crates/types/src/state.rs) *)

Record Position := {
  pos_size : Z;          (* u64 *)
  pos_entry_price : Z;   (* u64 *)
  pos_is_long : bool;
  pos_margin : Z;        (* u128 *)
  pos_funding_index : Z; (* u128 *)
}.

Definition pos_is_empty (p : Position) : bool := pos_size p =? 0.
Definition pos_notional_value (p : Position) : Z := pos_size p * pos_entry_price p.
Definition pos_leverage (p : Position) : Z :=
  if pos_margin p =? 0 then 0 else as_u64 (pos_notional_value p / pos_margin p).

Inductive OrderStatus := Active | Filled | Cancelled.

Definition is_terminal (s : OrderStatus) : bool :=
  match s with Filled | Cancelled => true | Active => false end.
Definition can_match (s : OrderStatus) : bool :=
  match s with Active => true | _ => false end.

Record Order := {
  o_id : Z;
  o_market_id : Z;
  o_owner : Address;
  o_is_buy : bool;
  o_price : Z;
  o_original_size : Z;
  o_remaining_size : Z;
  o_status : OrderStatus;
  o_created_at : Z;
  o_reduce_only : bool;
  o_post_only : bool;
}.

(** Field assignments [order.remaining_size = r] and [order.status = s]. *)
Definition set_remaining_size (r : Z) (o : Order) : Order := {|
  o_id := o_id o; o_market_id := o_market_id o; o_owner := o_owner o;
  o_is_buy := o_is_buy o; o_price := o_price o;
  o_original_size := o_original_size o; o_remaining_size := r;
  o_status := o_status o; o_created_at := o_created_at o;
  o_reduce_only := o_reduce_only o; o_post_only := o_post_only o |}.
Definition set_status (s : OrderStatus) (o : Order) : Order := {|
  o_id := o_id o; o_market_id := o_market_id o; o_owner := o_owner o;
  o_is_buy := o_is_buy o; o_price := o_price o;
  o_original_size := o_original_size o; o_remaining_size := o_remaining_size o;
  o_status := s; o_created_at := o_created_at o;
  o_reduce_only := o_reduce_only o; o_post_only := o_post_only o |}.

Definition filled_size (o : Order) : Z :=
  saturating_sub (o_original_size o) (o_remaining_size o).
Definition is_fully_filled (o : Order) : bool := o_remaining_size o =? 0.
Definition fill_percentage (o : Order) : Z :=
  if o_original_size o =? 0 then 0
  else as_u64 (filled_size o * 100 / o_original_size o).

Record Market := {
  m_id : Z;
  m_symbol : string;
  m_base_asset_id : Z;
  m_quote_asset_id : Z;
  m_tick_size : Z;
  m_price_decimals : Z;
  m_size_decimals : Z;
  m_min_order_size : Z;
  m_max_order_size : Z;
  m_max_leverage : Z;            (* u32 *)
  m_maintenance_margin_bps : Z;  (* u32 *)
  m_initial_margin_bps : Z;      (* u32 *)
  m_liquidation_fee_bps : Z;     (* u32 *)
  m_funding_interval : Z;
  m_max_funding_rate_bps : Z;
}.

Definition normalize_price (m : Market) (price : Z) : Z :=
  if m_tick_size m =? 0 then price
  else wmul64 (wadd64 price (m_tick_size m / 2) / m_tick_size m) (m_tick_size m).

Definition validate_price (m : Market) (price : Z) : bool :=
  if m_tick_size m =? 0 then true else is_multiple_of price (m_tick_size m).

Definition price_to_tick (m : Market) (price : Z) : Z :=
  if m_tick_size m =? 0 then price else price / m_tick_size m.

Definition tick_to_price (m : Market) (tick : Z) : Z := wmul64 tick (m_tick_size m).

Definition validate_size (m : Market) (size : Z) : bool :=
  (m_min_order_size m <=? size) && (size <=? m_max_order_size m).

Definition calculate_margin (m : Market) (size price leverage : Z) : Z :=
  if leverage =? 0 then 0 else size * price / leverage.

Record FundingRate := {
  fr_rate : Z;         (* i64 *)
  fr_last_update : Z;  (* u64 *)
  fr_index : Z;        (* i128 *)
  fr_mark_price : Z;
  fr_oracle_price : Z;
}.

Definition FundingRate_default : FundingRate :=
  {| fr_rate := 0; fr_last_update := 0; fr_index := 0; fr_mark_price := 0; fr_oracle_price := 0 |}.

Definition fr_is_positive (f : FundingRate) : bool := 0 <? fr_rate f.
Definition fr_is_negative (f : FundingRate) : bool := fr_rate f <? 0.
Definition fr_premium (f : FundingRate) : Z := fr_mark_price f - fr_oracle_price f.

Record Asset := {
  a_id : Z;
  a_symbol : string;
  a_name : string;
  a_decimals : Z;               (* u8 *)
  a_is_collateral : bool;
  a_collateral_weight_bps : Z;  (* u32 *)
}.

Definition collateral_value (a : Asset) (amount : Z) : Z :=
  if negb (a_is_collateral a) then 0
  else wmul128 amount (a_collateral_weight_bps a) / 10000.

(** [10u128.pow(decimals)] wraps; a zero divisor (from [decimals = 128] on) is
    the panic [None]. *)
Definition display_amount (a : Asset) (raw_amount : Z) : option Z :=
  checked_div raw_amount (as_u128 (10 ^ a_decimals a)).

#[export] Instance Position_eq_dec : EqDecision Position.
Proof. solve_decision. Defined.
#[export] Instance OrderStatus_eq_dec : EqDecision OrderStatus.
Proof. solve_decision. Defined.
#[export] Instance Order_eq_dec : EqDecision Order.
Proof. solve_decision. Defined.
#[export] Instance Market_eq_dec : EqDecision Market.
Proof. solve_decision. Defined.
#[export] Instance FundingRate_eq_dec : EqDecision FundingRate.
Proof. solve_decision. Defined.
#[export] Instance Asset_eq_dec : EqDecision Asset.
Proof. solve_decision. Defined.

(** Values of the Rust field types. *)
Definition Position_ok (p : Position) : Prop :=
  is_u64 (pos_size p) /\ is_u64 (pos_entry_price p) /\ is_u128 (pos_margin p).
Definition Order_ok (o : Order) : Prop :=
  is_u64 (o_price o) /\ is_u64 (o_original_size o) /\ is_u64 (o_remaining_size o).
Definition Market_ok (m : Market) : Prop :=
  is_u64 (m_tick_size m) /\ is_u64 (m_min_order_size m) /\ is_u64 (m_max_order_size m) /\
  is_u32 (m_max_leverage m) /\ is_u32 (m_maintenance_margin_bps m) /\
  is_u32 (m_initial_margin_bps m) /\ is_u32 (m_liquidation_fee_bps m) /\
  is_u64 (m_funding_interval m).

(** * Fills and events (crates/types/src/engine.rs) *)

Record Fill := {
  f_maker : Address;
  f_taker : Address;
  f_market_id : Z;
  f_price : Z;
  f_size : Z;
  f_taker_is_buy : bool;
  f_maker_order_id : Z;
  f_taker_order_id : Z;
}.

Definition fill_notional_value (f : Fill) : Z := f_price f * f_size f.
Definition maker_is_buy (f : Fill) : bool := negb (f_taker_is_buy f).

Inductive BalanceChangeReason :=
| BCR_Deposit
| BCR_Withdraw
| BCR_Transfer
| BCR_TradeFee
| BCR_FundingPayment
| BCR_FundingReceipt
| BCR_Liquidation
| BCR_PnLSettlement
| BCR_BridgeDeposit
| BCR_BridgeWithdraw.

Definition bcr_is_inflow (r : BalanceChangeReason) : bool :=
  match r with BCR_Deposit | BCR_FundingReceipt | BCR_BridgeDeposit => true | _ => false end.
Definition bcr_is_outflow (r : BalanceChangeReason) : bool :=
  match r with
  | BCR_Withdraw | BCR_TradeFee | BCR_FundingPayment | BCR_BridgeWithdraw => true
  | _ => false
  end.
Definition bcr_is_trade_related (r : BalanceChangeReason) : bool :=
  match r with BCR_TradeFee | BCR_PnLSettlement => true | _ => false end.
Definition bcr_is_funding_related (r : BalanceChangeReason) : bool :=
  match r with BCR_FundingPayment | BCR_FundingReceipt => true | _ => false end.
Definition bcr_is_bridge_related (r : BalanceChangeReason) : bool :=
  match r with BCR_BridgeDeposit | BCR_BridgeWithdraw => true | _ => false end.

Inductive InsuranceFundChangeReason :=
| IFC_LiquidationFee
| IFC_LiquidationCoverage
| IFC_AdminDeposit
| IFC_AdminWithdraw.

Definition ifc_is_liquidation_related (r : InsuranceFundChangeReason) : bool :=
  match r with IFC_LiquidationFee | IFC_LiquidationCoverage => true | _ => false end.
Definition ifc_is_admin_action (r : InsuranceFundChangeReason) : bool :=
  match r with IFC_AdminDeposit | IFC_AdminWithdraw => true | _ => false end.
Definition ifc_is_inflow (r : InsuranceFundChangeReason) : bool :=
  match r with IFC_LiquidationFee | IFC_AdminDeposit => true | _ => false end.
Definition ifc_is_outflow (r : InsuranceFundChangeReason) : bool :=
  match r with IFC_LiquidationCoverage | IFC_AdminWithdraw => true | _ => false end.

Inductive Event :=
| EvBalanceChanged (address : Address) (asset_id old_balance new_balance : Z)
    (reason : BalanceChangeReason)
| EvTransfer (from to : Address) (asset_id amount : Z)
| EvNonceUpdated (address : Address) (old_nonce new_nonce : Z)
| EvOrderPlaced (order_id : Z) (owner : Address) (market_id : Z) (is_buy : bool)
    (price size : Z) (order_type : OrderType)
| EvOrderCancelled (order_id : Z) (owner : Address) (market_id remaining_size : Z)
| EvOrderFilled (maker_order_id taker_order_id : Z) (maker taker : Address)
    (market_id price size : Z) (taker_is_buy : bool) (maker_fee taker_fee : Z)
| EvPositionOpened (trader : Address) (market_id : Z) (is_long : bool)
    (size entry_price margin : Z)
| EvPositionClosed (trader : Address) (market_id size exit_price pnl : Z) (is_profit : bool)
| EvPositionModified (trader : Address) (market_id old_margin new_margin : Z)
| EvPositionLiquidated (trader : Address) (market_id : Z) (liquidator : option Address)
    (liquidated_size liquidation_price liquidation_fee insurance_fund_contribution
     insurance_fund_usage : Z)
| EvFundingPaid (trader : Address) (market_id amount : Z) (is_payment : bool)
    (funding_rate funding_index : Z)
| EvFundingRateUpdated (market_id rate mark_price oracle_price index : Z)
| EvBridgeDeposit (operator user : Address) (asset_id amount : Z) (external_tx_hash : B256)
| EvBridgeWithdraw (operator user : Address) (asset_id amount : Z) (destination : Address)
    (external_tx_hash : B256)
| EvAgentSet (account agent : Address) (permissions : Z)
| EvAgentRemoved (account agent : Address)
| EvMarketUpdated (market_id : Z) (symbol : string)
| EvInsuranceFundUpdated (market_id old_balance new_balance : Z)
    (reason : InsuranceFundChangeReason).

#[export] Instance BalanceChangeReason_eq_dec : EqDecision BalanceChangeReason.
Proof. solve_decision. Defined.
#[export] Instance InsuranceFundChangeReason_eq_dec : EqDecision InsuranceFundChangeReason.
Proof. solve_decision. Defined.
#[export] Instance Event_eq_dec : EqDecision Event.
Proof. solve_decision. Defined.
#[export] Instance Fill_eq_dec : EqDecision Fill.
Proof. solve_decision. Defined.

Definition is_account_event (e : Event) : bool :=
  match e with
  | EvBalanceChanged _ _ _ _ _ | EvTransfer _ _ _ _ | EvNonceUpdated _ _ _ => true
  | _ => false
  end.
Definition is_order_event (e : Event) : bool :=
  match e with
  | EvOrderPlaced _ _ _ _ _ _ _ | EvOrderCancelled _ _ _ _
  | EvOrderFilled _ _ _ _ _ _ _ _ _ _ => true
  | _ => false
  end.
Definition is_position_event (e : Event) : bool :=
  match e with
  | EvPositionOpened _ _ _ _ _ _ | EvPositionClosed _ _ _ _ _ _
  | EvPositionModified _ _ _ _ | EvPositionLiquidated _ _ _ _ _ _ _ _ => true
  | _ => false
  end.
Definition is_funding_event (e : Event) : bool :=
  match e with
  | EvFundingPaid _ _ _ _ _ _ | EvFundingRateUpdated _ _ _ _ _ => true
  | _ => false
  end.
Definition is_bridge_event (e : Event) : bool :=
  match e with
  | EvBridgeDeposit _ _ _ _ _ | EvBridgeWithdraw _ _ _ _ _ _ => true
  | _ => false
  end.
Definition is_agent_event (e : Event) : bool :=
  match e with EvAgentSet _ _ _ | EvAgentRemoved _ _ => true | _ => false end.

Record DomainEvent := {
  de_block_height : Z;
  de_tx_hash : B256;
  de_event_index : Z;
  de_timestamp : Z;
  de_event : Event;
}.

Definition DomainEvent_new (block_height : Z) (tx_hash : B256) (event_index timestamp : Z)
    (event : Event) : DomainEvent :=
  {| de_block_height := block_height; de_tx_hash := tx_hash;
     de_event_index := event_index; de_timestamp := timestamp; de_event := event |}.
Definition DomainEvent_of_tuple (t : Z * B256 * Z * Z * Event) : DomainEvent :=
  let '(block_height, tx_hash, event_index, timestamp, event) := t in
  DomainEvent_new block_height tx_hash event_index timestamp event.

#[export] Instance DomainEvent_eq_dec : EqDecision DomainEvent.
Proof. solve_decision. Defined.

(** The predicates of [DomainEvent] delegate to those of the event. *)
Definition de_is_account_event (e : DomainEvent) : bool := is_account_event (de_event e).
Definition de_is_order_event (e : DomainEvent) : bool := is_order_event (de_event e).
Definition de_is_position_event (e : DomainEvent) : bool := is_position_event (de_event e).
Definition de_is_funding_event (e : DomainEvent) : bool := is_funding_event (de_event e).
Definition de_is_bridge_event (e : DomainEvent) : bool := is_bridge_event (de_event e).
Definition de_is_agent_event (e : DomainEvent) : bool := is_agent_event (de_event e).

(** * Lemmas *)

Lemma validate_price_spec m p :
  0 < m_tick_size m -> validate_price m p = true <-> (m_tick_size m | p).
Proof.
  intros Ht. unfold validate_price, is_multiple_of.
  destruct (Z.eqb_spec (m_tick_size m) 0); [lia|].
  rewrite Z.eqb_eq. apply Z.mod_divide. lia.
Qed.

Lemma normalize_price_no_wrap m p :
  0 < m_tick_size m -> is_u64 p -> p + m_tick_size m / 2 <= U64_MAX ->
  normalize_price m p = (p + m_tick_size m / 2) / m_tick_size m * m_tick_size m.
Proof.
  intros Ht Hp Hs. unfold normalize_price, wmul64, wadd64.
  destruct (Z.eqb_spec (m_tick_size m) 0); [lia|].
  unfold is_u64 in Hp.
  assert (0 <= m_tick_size m / 2) by (apply Z.div_pos; lia).
  rewrite (as_u64_id (p + _)) by (unfold is_u64; lia).
  apply as_u64_id. unfold is_u64.
  pose proof (Z.mul_div_le (p + m_tick_size m / 2) (m_tick_size m) Ht).
  assert (0 <= (p + m_tick_size m / 2) / m_tick_size m) by (apply Z.div_pos; lia).
  nia.
Qed.

(** On every tick grid, [normalize_price] yields a price that
    [validate_price] accepts, at most half a tick away from its argument, and
    normalising twice changes nothing, as long as the rounding does not run past
    [u64::MAX]. *)
Theorem normalize_price_nearest m p :
  0 < m_tick_size m -> is_u64 p -> p + m_tick_size m <= U64_MAX ->
  validate_price m (normalize_price m p) = true /\
  2 * Z.abs (normalize_price m p - p) <= m_tick_size m /\
  normalize_price m (normalize_price m p) = normalize_price m p.
Proof.
  intros Ht Hp Hs.
  pose proof (Z.div_mod (m_tick_size m) 2 ltac:(lia)) as D2.
  pose proof (Z.mod_pos_bound (m_tick_size m) 2 ltac:(lia)).
  pose proof (normalize_price_no_wrap m p Ht Hp ltac:(lia)) as E.
  assert (Hq : 0 <= (p + m_tick_size m / 2) / m_tick_size m)
    by (unfold is_u64 in Hp; apply Z.div_pos; lia).
  pose proof (Z.div_mod (p + m_tick_size m / 2) (m_tick_size m) ltac:(lia)) as D.
  pose proof (Z.mod_pos_bound (p + m_tick_size m / 2) (m_tick_size m) Ht).
  set (q := (p + m_tick_size m / 2) / m_tick_size m) in *.
  unfold is_u64 in Hp. split_and!.
  - apply validate_price_spec; [done|]. rewrite E. apply Z.divide_factor_r.
  - rewrite E. lia.
  - rewrite E. rewrite normalize_price_no_wrap; unfold is_u64; [|lia|nia|lia].
    f_equal. rewrite Z.add_comm, Z.div_add by lia.
    rewrite Z.div_small; lia.
Qed.

Definition btc_perp : Market := {|
  m_id := 0; m_symbol := "BTC-PERP"; m_base_asset_id := 1; m_quote_asset_id := 0;
  m_tick_size := 1000; m_price_decimals := 2; m_size_decimals := 6;
  m_min_order_size := 1; m_max_order_size := 1000000000; m_max_leverage := 20;
  m_maintenance_margin_bps := 500; m_initial_margin_bps := 1000;
  m_liquidation_fee_bps := 100; m_funding_interval := 3600;
  m_max_funding_rate_bps := 100 |}.

Lemma normalize_price_nearest_witness :
  normalize_price btc_perp 48600 = 49000 /\
  validate_price btc_perp (normalize_price btc_perp 48600) = true.
Proof.
  split; [vm_compute; reflexivity|].
  apply (normalize_price_nearest btc_perp 48600); vm_compute; intuition congruence.
Defined.

(** The bits of [!x] on 64 bits. *)
Lemma testbit_not_u64 x i :
  0 <= i -> Z.testbit (not_u64 x) i = if i <? 64 then negb (Z.testbit x i) else false.
Proof.
  intros Hi. unfold not_u64, as_u64. rewrite Z.testbit_mod_pow2 by lia.
  rewrite Z.lnot_spec by lia. by destruct (i <? 64).
Qed.

Lemma testbit_u64_high r i : is_u64 r -> 64 <= i -> Z.testbit r i = false.
Proof.
  intros Hr Hi. rewrite <- (as_u64_id r Hr). unfold as_u64.
  rewrite Z.testbit_mod_pow2 by lia. destruct (Z.ltb_spec i 64); [lia|done].
Qed.

Lemma land_with_same p q : Z.land (perm_with p q) q = q.
Proof.
  apply Z.bits_inj'. intros i Hi. unfold perm_with. rewrite Z.land_spec, Z.lor_spec.
  by destruct (Z.testbit p i), (Z.testbit q i).
Qed.

Lemma land_without_same p q : Z.land (perm_without p q) q = 0.
Proof.
  apply Z.bits_inj'. intros i Hi. unfold perm_without.
  rewrite !Z.land_spec, testbit_not_u64, Z.bits_0 by done.
  by destruct (i <? 64), (Z.testbit p i), (Z.testbit q i).
Qed.

Lemma land_with_other p q r : Z.land q r = 0 -> Z.land (perm_with p q) r = Z.land p r.
Proof.
  intros H. unfold perm_with. by rewrite Z.land_lor_distr_l, H, Z.lor_0_r.
Qed.

Lemma land_without_other p q r :
  is_u64 r -> Z.land q r = 0 -> Z.land (perm_without p q) r = Z.land p r.
Proof.
  intros Hr H. apply Z.bits_inj'. intros i Hi. unfold perm_without.
  rewrite !Z.land_spec, testbit_not_u64 by done.
  assert (Hb : Z.testbit q i && Z.testbit r i = false) by (rewrite <- Z.land_spec, H; apply Z.bits_0).
  destruct (Z.ltb_spec i 64).
  - by destruct (Z.testbit q i), (Z.testbit r i), (Z.testbit p i).
  - rewrite (testbit_u64_high r i Hr) by done. by rewrite !andb_false_r.
Qed.

(** Granting a (non-empty) permission makes [has] true for it, revoking
    makes it false, and neither changes the answer for permissions with no bit
    in common. *)
Theorem permissions_algebra p q r :
  is_u64 q -> is_u64 r -> q <> 0 -> Z.land q r = 0 ->
  perm_has (perm_with p q) q = true /\
  perm_has (perm_without p q) q = false /\
  perm_has (perm_with p q) r = perm_has p r /\
  perm_has (perm_without p q) r = perm_has p r.
Proof.
  intros Hq Hr Hne Hd. unfold perm_has. split_and!.
  - rewrite land_with_same. apply negb_true_iff. by apply Z.eqb_neq.
  - by rewrite land_without_same.
  - by rewrite land_with_other.
  - by rewrite land_without_other.
Qed.

Lemma permissions_algebra_witness :
  perm_has (perm_with CANCEL_ORDER WITHDRAW) WITHDRAW = true /\
  perm_has (perm_without ALL WITHDRAW) WITHDRAW = false /\
  perm_has (perm_with CANCEL_ORDER WITHDRAW) PLACE_ORDER = perm_has CANCEL_ORDER PLACE_ORDER.
Proof.
  assert (H0 : is_u64 WITHDRAW) by (vm_compute; intuition congruence).
  assert (H1 : is_u64 PLACE_ORDER) by (vm_compute; intuition congruence).
  split_and!.
  - apply (permissions_algebra CANCEL_ORDER WITHDRAW PLACE_ORDER H0 H1); vm_compute; congruence.
  - apply (permissions_algebra ALL WITHDRAW PLACE_ORDER H0 H1); vm_compute; congruence.
  - apply (permissions_algebra CANCEL_ORDER WITHDRAW PLACE_ORDER H0 H1); vm_compute; congruence.
Defined.
