(* ===== verification/Storage.v ===== *)
(** [pranklin-state]'s storage: state keys (types.rs), storage keys
    (storage_key.rs) and [RocksDbStorage] (rocksdb_storage.rs).

    RocksDB is a map from storage keys to values whose operations succeed; the
    serializer, the key hash and the Jellyfish Merkle Tree are the fields of the
    class [Backend], with the behaviour the storage relies on in [BackendOk]. *)
From stdpp Require Import base gmap sets list strings sorting.
From Stdlib Require Import ZArith Lia.
From S2P Require Import Prelude Types.

(** * Keys *)

(** [StateKey] (crates/state/src/types.rs) *)
Inductive StateKey :=
| SK_Balance (address : Address) (asset_id : Z)
| SK_Nonce (address : Address)
| SK_Position (address : Address) (market_id : Z)
| SK_Order (order_id : Z)
| SK_Market (market_id : Z)
| SK_FundingRate (market_id : Z)
| SK_NextOrderId
| SK_ActiveOrder (market_id order_id : Z)
| SK_ActiveOrderList (market_id : Z)
| SK_MarketList
| SK_PositionIndex (market_id : Z)
| SK_LatestVersion (key_hash_hex : string)
| SK_BridgeOperator (address : Address)
| SK_AssetInfo (asset_id : Z)
| SK_AssetList.

#[export] Instance StateKey_eq_dec : EqDecision StateKey.
Proof. solve_decision. Defined.

#[export] Instance StateKey_countable : Countable StateKey.
Proof.
  refine (inj_countable'
    (fun k => match k with
      | SK_Balance a i => (0, a, i, ""%string)
      | SK_Nonce a => (1, a, 0, ""%string)
      | SK_Position a m => (2, a, m, ""%string)
      | SK_Order o => (3, o, 0, ""%string)
      | SK_Market m => (4, m, 0, ""%string)
      | SK_FundingRate m => (5, m, 0, ""%string)
      | SK_NextOrderId => (6, 0, 0, ""%string)
      | SK_ActiveOrder m o => (7, m, o, ""%string)
      | SK_ActiveOrderList m => (8, m, 0, ""%string)
      | SK_MarketList => (9, 0, 0, ""%string)
      | SK_PositionIndex m => (10, m, 0, ""%string)
      | SK_LatestVersion s => (11, 0, 0, s)
      | SK_BridgeOperator a => (12, a, 0, ""%string)
      | SK_AssetInfo i => (13, i, 0, ""%string)
      | SK_AssetList => (14, 0, 0, ""%string)
      end)
    (fun t => match t with
      | (tag, a, b, s) =>
          if tag =? 0 then SK_Balance a b else if tag =? 1 then SK_Nonce a
          else if tag =? 2 then SK_Position a b else if tag =? 3 then SK_Order a
          else if tag =? 4 then SK_Market a else if tag =? 5 then SK_FundingRate a
          else if tag =? 6 then SK_NextOrderId else if tag =? 7 then SK_ActiveOrder a b
          else if tag =? 8 then SK_ActiveOrderList a else if tag =? 9 then SK_MarketList
          else if tag =? 10 then SK_PositionIndex a else if tag =? 11 then SK_LatestVersion s
          else if tag =? 12 then SK_BridgeOperator a else if tag =? 13 then SK_AssetInfo a
          else SK_AssetList
      end) _).
  by intros [].
Defined.

(** [StateError] (crates/state/src/error.rs); message texts are left out. *)
Inductive StateError :=
| SerializationError
| DeserializationError
| KeyNotFound
| StorageError
| InvalidVersion
| StateOther.

#[export] Instance StateError_eq_dec : EqDecision StateError.
Proof. solve_decision. Defined.

(** * The code outside the repository *)

(** Iteration order of [HashMap] and [HashSet]: unspecified, so an arbitrary
    rearrangement of the elements. *)
Class HashOrder := hash_order : forall {A : Type}, list A -> list A.
Class HashOrderOk (H : HashOrder) :=
  hash_order_perm : forall A (l : list A), hash_order l ≡ₚ l.

(** [serde_json::to_vec] and [serde_json::from_slice] at a type [T]. *)
Class Serde (Bytes T : Type) := {
  to_vec : T -> option Bytes;
  from_slice : Bytes -> option T;
}.
Class SerdeOk {Bytes T : Type} (S : Serde Bytes T) :=
  serde_roundtrip : forall x : T, exists b, to_vec x = Some b /\ from_slice b = Some x.

(** [JellyfishMerkleTree::get_root_hash] fails either because the version has
    no root node or for another reason. *)
Inductive JmtError := RootNodeNotFound | JmtOther.

Class Backend := {
  (** [serde_json] then [sha2::Sha256], the key of the merkle tree *)
  KeyHash : Type;
  KeyHash_eq_dec :: EqDecision KeyHash;
  KeyHash_countable :: Countable KeyHash;
  key_hash : StateKey -> KeyHash;
  (** [serde_json] *)
  Bytes : Type;
  serde_num :: Serde Bytes Z;
  serde_bool :: Serde Bytes bool;
  serde_position :: Serde Bytes Position;
  serde_order :: Serde Bytes Order;
  serde_market :: Serde Bytes Market;
  serde_funding :: Serde Bytes FundingRate;
  serde_asset :: Serde Bytes Asset;
  serde_nums :: Serde Bytes (list Z);
  (** the array a [HashSet<Address>] is written as *)
  serde_addresses : Serde Bytes (list Z);
  (** the [jmt] crate *)
  NodeKey : Type;
  NodeKey_eq_dec :: EqDecision NodeKey;
  NodeKey_countable :: Countable NodeKey;
  Node : Type;
  LeafNode : Type;
  jmt_put_value_set :
    (NodeKey -> option Node) -> option (NodeKey * LeafNode) ->
    list (KeyHash * option Bytes) -> Z -> option (B256 * list (NodeKey * Node));
  jmt_get_root_hash :
    (NodeKey -> option Node) -> option (NodeKey * LeafNode) -> Z -> result JmtError B256;
  hash_order_backend :: HashOrder;
  (** What decides the order in which the process iterates a hash table: its
      random keys and the layout of its buckets.  Every use finds a new one. *)
  HashState : Type;
  next_hash : HashState -> HashState;
  hash_order_in : HashState -> HashOrder;
}.

(** A [HashSet] is written in the order of its table, and read in any order. *)
Definition serde_set {B : Backend} (h : HashState) : Serde Bytes (gset Z) := {|
  to_vec set := @to_vec _ _ serde_addresses (hash_order (HashOrder := hash_order_in h) (elements set));
  from_slice b := list_to_set <$> @from_slice _ _ serde_addresses b;
|}.

(** What the storage relies on: distinct keys do not collide, what was
    serialized reads back, iteration visits each element once, and the tree does
    not depend on the order of the updates ([put_value_set] sorts them by key). *)
Class BackendOk (B : Backend) := {
  key_hash_inj :: Inj (=) (=) key_hash;
  serde_num_ok :: SerdeOk serde_num;
  serde_bool_ok :: SerdeOk serde_bool;
  serde_position_ok :: SerdeOk serde_position;
  serde_order_ok :: SerdeOk serde_order;
  serde_market_ok :: SerdeOk serde_market;
  serde_funding_ok :: SerdeOk serde_funding;
  serde_asset_ok :: SerdeOk serde_asset;
  serde_nums_ok :: SerdeOk serde_nums;
  serde_addresses_ok : SerdeOk serde_addresses;
  hash_order_ok :: HashOrderOk hash_order_backend;
  hash_order_in_ok h :: HashOrderOk (hash_order_in h);
  jmt_put_perm reader leaf l l' v :
    NoDup l.*1 -> l ≡ₚ l' -> jmt_put_value_set reader leaf l v = jmt_put_value_set reader leaf l' v;
}.

#[export] Instance serde_set_ok {B : Backend} {Bok : BackendOk B} h : SerdeOk (serde_set h).
Proof.
  intros set. destruct (serde_roundtrip (SerdeOk := serde_addresses_ok)
    (hash_order (HashOrder := hash_order_in h) (elements set))) as (b & E1 & E2).
  exists b. split; [exact E1|]. cbn. rewrite E2. cbn. f_equal. apply set_eq. intros x.
  rewrite elem_of_list_to_set, (hash_order_perm (HashOrderOk := hash_order_in_ok h)). apply elem_of_elements.
Qed.

Section storage.
Context {B : Backend}.

(** [StorageKey] (crates/state/src/storage_key.rs) *)
Inductive StorageKey :=
| CurrentVersion
| JmtNode (node_key : NodeKey)
| JmtValue (kh : KeyHash) (version : Z)
| LatestVersion (kh : KeyHash)
| Snapshot (version : Z)
| RightmostLeaf (version : Z).

#[export] Instance StorageKey_eq_dec : EqDecision StorageKey.
Proof. solve_decision. Defined.

#[export] Instance StorageKey_countable : Countable StorageKey.
Proof.
  refine (inj_countable'
    (fun k => match k with
      | CurrentVersion => inl (inl ())
      | JmtNode n => inl (inr n)
      | JmtValue h v => inr (inl (h, v))
      | LatestVersion h => inr (inr (inl h))
      | Snapshot v => inr (inr (inr (true, v)))
      | RightmostLeaf v => inr (inr (inr (false, v)))
      end)
    (fun t => match t with
      | inl (inl _) => CurrentVersion
      | inl (inr n) => JmtNode n
      | inr (inl (h, v)) => JmtValue h v
      | inr (inr (inl h)) => LatestVersion h
      | inr (inr (inr (b, v))) => if b : bool then Snapshot v else RightmostLeaf v
      end) _).
  by intros [].
Defined.

(** What RocksDB holds under a key: eight little-endian bytes of a version, a
    serialized value, a borsh-encoded node or leaf, or a root. *)
Inductive DbValue :=
| DbVersion (v : Z)
| DbBytes (b : Bytes)
| DbNode (n : Node)
| DbLeaf (k : NodeKey) (l : LeafNode)
| DbRoot (r : B256).

Record PruningConfig := {
  snapshot_interval : Z;
  prune_before : Z;
  pruning_enabled : bool;
}.

Definition PruningConfig_default : PruningConfig :=
  {| snapshot_interval := 1000; prune_before := 100000; pruning_enabled := true |}.

Record RocksDbStorage := {
  db : gmap StorageKey DbValue;
  current_version : Z;
  root_cache : gmap Z B256;
  pruning_config : PruningConfig;
  pending_updates : gmap KeyHash Bytes;
  hash_state : HashState;
}.

Definition with_db (f : gmap StorageKey DbValue -> gmap StorageKey DbValue)
    (st : RocksDbStorage) : RocksDbStorage :=
  {| db := f (db st); current_version := current_version st; root_cache := root_cache st;
     pruning_config := pruning_config st; pending_updates := pending_updates st;
     hash_state := hash_state st |}.
Definition with_current_version (v : Z) (st : RocksDbStorage) : RocksDbStorage :=
  {| db := db st; current_version := v; root_cache := root_cache st;
     pruning_config := pruning_config st; pending_updates := pending_updates st;
     hash_state := hash_state st |}.
Definition with_root_cache (c : gmap Z B256) (st : RocksDbStorage) : RocksDbStorage :=
  {| db := db st; current_version := current_version st; root_cache := c;
     pruning_config := pruning_config st; pending_updates := pending_updates st;
     hash_state := hash_state st |}.
Definition with_pending (p : gmap KeyHash Bytes) (st : RocksDbStorage) : RocksDbStorage :=
  {| db := db st; current_version := current_version st; root_cache := root_cache st;
     pruning_config := pruning_config st; pending_updates := p;
     hash_state := hash_state st |}.

Definition with_hash_state (h : HashState) (st : RocksDbStorage) : RocksDbStorage :=
  {| db := db st; current_version := current_version st; root_cache := root_cache st;
     pruning_config := pruning_config st; pending_updates := pending_updates st;
     hash_state := h |}.
Definition rehash (st : RocksDbStorage) : RocksDbStorage := with_hash_state (next_hash (hash_state st)) st.

(** [RocksDbStorage::new] on a directory that holds [d], in a process whose hash
    tables are in state [h]. *)
Definition storage_new (d : gmap StorageKey DbValue) (config : PruningConfig) (h : HashState) : RocksDbStorage :=
  {| db := d;
     current_version := match d !! CurrentVersion with Some (DbVersion v) => v | _ => 0 end;
     root_cache := ∅;
     pruning_config := config;
     pending_updates := ∅;
     hash_state := h |}.

(** * Reading *)

Definition get_latest_version (st : RocksDbStorage) (kh : KeyHash) : option Z :=
  match db st !! LatestVersion kh with Some (DbVersion v) => Some v | _ => None end.

Definition db_value (st : RocksDbStorage) (kh : KeyHash) (version : Z) : option Bytes :=
  match db st !! JmtValue kh version with Some (DbBytes b) => Some b | _ => None end.

(** [for v in (0..=max_version).rev()]; [n] is [max_version + 1]. *)
Fixpoint scan_versions (st : RocksDbStorage) (kh : KeyHash) (n : nat) : option Bytes :=
  match n with
  | O => None
  | S k => match db_value st kh (Z.of_nat k) with
           | Some b => Some b
           | None => scan_versions st kh k
           end
  end.

Definition get_value_option (st : RocksDbStorage) (max_version : Z) (kh : KeyHash)
    : option Bytes :=
  match get_latest_version st kh with
  | Some latest =>
      if latest <=? max_version then db_value st kh latest
      else scan_versions st kh (Z.to_nat (max_version + 1))
  | None => scan_versions st kh (Z.to_nat (max_version + 1))
  end.

Definition get_node_option (st : RocksDbStorage) (nk : NodeKey) : option Node :=
  match db st !! JmtNode nk with Some (DbNode n) => Some n | _ => None end.

Definition get_rightmost_leaf (st : RocksDbStorage) : option (NodeKey * LeafNode) :=
  match db st !! RightmostLeaf (current_version st) with
  | Some (DbLeaf k l) => Some (k, l)
  | _ => None
  end.

Definition storage_get {T} `{Serde Bytes T} (st : RocksDbStorage) (key : StateKey)
    (version : Z) : result StateError (option T) :=
  let kh := key_hash key in
  match pending_updates st !! kh with
  | Some bytes =>
      match from_slice bytes with Some v => Ok (Some v) | None => Err SerializationError end
  | None =>
      match get_value_option st version kh with
      | Some bytes =>
          match from_slice bytes with Some v => Ok (Some v) | None => Err SerializationError end
      | None => Ok None
      end
  end.

(** * Writing *)

Definition storage_set {T} `{Serde Bytes T} (key : StateKey) (value : T)
    : ST RocksDbStorage StateError unit := fun st =>
  match to_vec value with
  | Some bytes => (Ok tt, with_pending (<[key_hash key := bytes]> (pending_updates st)) st)
  | None => (Err SerializationError, st)
  end.

(** [storage.set] of a [HashSet]. *)
Definition storage_set_hashed (key : StateKey) (set : gset Z) : ST RocksDbStorage StateError unit :=
  let! h := st_gets hash_state in
  storage_set (H := serde_set h) key set ;;
  st_modify rehash.

Definition storage_delete (key : StateKey) : ST RocksDbStorage StateError unit :=
  st_modify (fun st => with_pending (delete (key_hash key) (pending_updates st)) st).

Definition store_latest_version (kh : KeyHash) (version : Z) (st : RocksDbStorage)
    : RocksDbStorage :=
  with_db (<[LatestVersion kh := DbVersion version]>) st.

Definition write_node_batch (nodes : list (NodeKey * Node)) (st : RocksDbStorage)
    : RocksDbStorage :=
  foldl (fun s '(k, n) => with_db (<[JmtNode k := DbNode n]>) s) st nodes.

Definition store_values (pending : list (KeyHash * Bytes)) (version : Z) (st : RocksDbStorage)
    : RocksDbStorage :=
  foldl (fun s '(kh, b) => with_db (<[JmtValue kh version := DbBytes b]>) s) st pending.

Definition store_latest_versions (khs : list KeyHash) (version : Z) (st : RocksDbStorage)
    : RocksDbStorage :=
  foldl (fun s kh => store_latest_version kh version s) st khs.

Definition calculate_state_root (st : RocksDbStorage) (version : Z) : result StateError B256 :=
  match jmt_get_root_hash (get_node_option st) (get_rightmost_leaf st) version with
  | Ok root => Ok root
  | Err RootNodeNotFound => Ok B256_ZERO
  | Err JmtOther => Err StorageError
  end.

Definition get_root (st : RocksDbStorage) (version : Z) : B256 :=
  default B256_ZERO (root_cache st !! version).

Definition create_snapshot (version : Z) (st : RocksDbStorage) : RocksDbStorage :=
  with_db (<[Snapshot version := DbRoot (get_root st version)]>) st.

(** ** Pruning *)

Definition snapshots_to_keep (config : PruningConfig) (before : Z) : gset Z :=
  list_to_set (filter (fun v => is_multiple_of v (snapshot_interval config) = true)
                 (seqZ 0 (before + 1))).

Definition should_delete (before : Z) (keep : gset Z) (key : StorageKey) : bool :=
  match key with
  | JmtValue _ version => (version <? before) && bool_decide (version ∉ keep)
  | _ => false
  end.

Definition batch_delete {K V} `{Countable K} (keys : list K) (d : gmap K V) : gmap K V :=
  foldl (fun m k => delete k m) d keys.

(** One iteration of the collection loop: the buffer of keys to delete, the
    count, the database. *)
Definition collect_step {K V} `{Countable K} (limit : nat) (doomed : K -> bool)
    (acc : list K * nat * gmap K V) (key : K) : list K * nat * gmap K V :=
  let '(keys, n, d) := acc in
  if doomed key then
    let keys' := keys ++ [key] in
    if (limit <=? length keys')%nat then ([], S n, batch_delete keys' d)
    else (keys', S n, d)
  else acc.

Definition collect_and_delete_old_versions (before : Z) (keep : gset Z) (st : RocksDbStorage)
    : nat * RocksDbStorage :=
  let '(keys, n, d) :=
    foldl (collect_step (Z.to_nat 10000) (should_delete before keep)) ([], O, db st)
      ((map_to_list (db st)).*1) in
  (n, with_db (fun _ => batch_delete keys d) st).

Definition prune_before_version (before : Z) (st : RocksDbStorage) : RocksDbStorage :=
  (collect_and_delete_old_versions before (snapshots_to_keep (pruning_config st) before) st).2.

(** ** Commit *)

(** Steps 1-5 of [commit]: drain the buffer through the tree into RocksDB. *)
Definition write_pending (version : Z) : ST RocksDbStorage StateError unit :=
  let! pending := st_gets pending_updates in
  let! h := st_gets hash_state in
  st_modify (fun st => rehash (with_pending ∅ st)) ;;
  if bool_decide (pending = ∅) then st_ret tt
  else
    let updates := hash_order (HashOrder := hash_order_in h) (map_to_list pending) in
    let! st := st_get in
    match jmt_put_value_set (get_node_option st) (get_rightmost_leaf st)
            ((fun '(kh, b) => (kh, Some b)) <$> updates) version with
    | None => st_fail StorageError
    | Some (_, nodes) =>
        st_modify (write_node_batch nodes) ;;
        st_modify (store_values updates version) ;;
        st_modify (store_latest_versions updates.*1 version)
    end.

Definition storage_commit (version : Z) : ST RocksDbStorage StateError B256 :=
  write_pending version ;;
  let! root := st_read (fun st => calculate_state_root st version) in
  st_modify (fun st => with_root_cache (<[version := root]> (root_cache st)) st) ;;
  st_modify (with_current_version version) ;;
  st_modify (with_db (<[CurrentVersion := DbVersion version]>)) ;;
  let! config := st_gets pruning_config in
  (if pruning_enabled config then
     (if is_multiple_of version (snapshot_interval config)
      then st_modify (create_snapshot version) else st_ret tt) ;;
     (if prune_before config <? version
      then st_modify (prune_before_version (version - prune_before config)) else st_ret tt)
   else st_ret tt) ;;
  st_ret root.

Definition list_snapshots (st : RocksDbStorage) : list Z :=
  merge_sort Z.le
    (omap (fun k => match k with Snapshot v => Some v | _ => None end)
       (map_to_list (db st)).*1).

Definition restore_from_snapshot (snapshot_version : Z) : ST RocksDbStorage StateError unit :=
  let! st := st_get in
  match db st !! Snapshot snapshot_version with
  | None => st_fail StorageError
  | Some _ =>
      st_modify (with_current_version snapshot_version) ;;
      st_modify (with_db (<[CurrentVersion := DbVersion snapshot_version]>))
  end.

End storage.

(** * Lemmas *)

Section lookups.
Context {B : Backend}.
Implicit Types (st : RocksDbStorage) (kh : KeyHash).

(** The bytes a reader at [version] gets for a key hash. *)
Definition view st (version : Z) kh : option Bytes :=
  match pending_updates st !! kh with
  | Some b => Some b
  | None => get_value_option st version kh
  end.

(** [from_slice] of optional bytes, the tail of [get]. *)
Definition decode {T} `{Serde Bytes T} (o : option Bytes) : result StateError (option T) :=
  match o with
  | Some b => match from_slice b with Some v => Ok (Some v) | None => Err SerializationError end
  | None => Ok None
  end.

Lemma storage_get_view {T} `{Serde Bytes T} st key version :
  storage_get st key version = decode (view st version (key_hash key)).
Proof. unfold storage_get, decode, view. by destruct (pending_updates st !! _). Qed.

(** Reads only depend on these parts of the storage. *)
Lemma get_value_option_ext st st' v kh :
  (forall k, db st' !! LatestVersion k = db st !! LatestVersion k) ->
  (forall k w, db st' !! JmtValue k w = db st !! JmtValue k w) ->
  get_value_option st' v kh = get_value_option st v kh.
Proof.
  intros Hl Hv.
  assert (Hdv : forall k w, db_value st' k w = db_value st k w)
    by (intros; unfold db_value; by rewrite Hv).
  assert (Hs : forall n, scan_versions st' kh n = scan_versions st kh n).
  { induction n as [|n IH]; simpl; [done|]. rewrite Hdv. by rewrite IH. }
  unfold get_value_option, get_latest_version. rewrite Hl.
  destruct (db st !! LatestVersion kh) as [[]|]; rewrite ?Hs, ?Hdv; done.
Qed.

Lemma get_value_option_pending st p v kh :
  get_value_option (with_pending p st) v kh = get_value_option st v kh.
Proof. by apply get_value_option_ext. Qed.

Lemma write_node_batch_db nodes st k :
  (forall n, k <> JmtNode n) -> db (write_node_batch nodes st) !! k = db st !! k.
Proof.
  intros Hk. unfold write_node_batch. revert st.
  induction nodes as [|[nk n] nodes IH]; intros st; simpl; [done|].
  rewrite IH. simpl. by rewrite lookup_insert_ne by (intros <-; by eapply Hk).
Qed.

Lemma write_node_batch_rest nodes st :
  pending_updates (write_node_batch nodes st) = pending_updates st /\
  current_version (write_node_batch nodes st) = current_version st /\
  pruning_config (write_node_batch nodes st) = pruning_config st.
Proof.
  unfold write_node_batch. revert st.
  induction nodes as [|[nk n] nodes IH]; intros st; simpl; [done|].
  edestruct IH as (-> & -> & ->). by split_and!.
Qed.

Lemma store_values_rest l version st :
  pending_updates (store_values l version st) = pending_updates st /\
  current_version (store_values l version st) = current_version st /\
  pruning_config (store_values l version st) = pruning_config st.
Proof.
  unfold store_values. revert st.
  induction l as [|[kh b] l IH]; intros st; simpl; [done|].
  edestruct IH as (-> & -> & ->). by split_and!.
Qed.

Lemma store_latest_rest l version st :
  pending_updates (store_latest_versions l version st) = pending_updates st /\
  current_version (store_latest_versions l version st) = current_version st /\
  pruning_config (store_latest_versions l version st) = pruning_config st.
Proof.
  unfold store_latest_versions. revert st.
  induction l as [|kh l IH]; intros st; simpl; [done|].
  edestruct IH as (-> & -> & ->). by split_and!.
Qed.

Lemma store_values_db_other l version st k :
  (forall kh, k <> JmtValue kh version) -> db (store_values l version st) !! k = db st !! k.
Proof.
  intros Hk. unfold store_values. revert st.
  induction l as [|[kh b] l IH]; intros st; simpl; [done|].
  rewrite IH. simpl. by rewrite lookup_insert_ne by (intros <-; by eapply Hk).
Qed.

Lemma store_values_db l version st kh :
  NoDup l.*1 ->
  db (store_values l version st) !! JmtValue kh version =
  match (list_to_map l : gmap KeyHash Bytes) !! kh with
  | Some b => Some (DbBytes b)
  | None => db st !! JmtValue kh version
  end.
Proof.
  unfold store_values. revert st.
  induction l as [|[k b] l IH]; intros st Hnd; simpl; [by rewrite lookup_empty|].
  apply NoDup_cons in Hnd as [Hk Hnd]. rewrite IH by done. simpl.
  destruct (decide (k = kh)) as [->|Hne].
  - rewrite lookup_insert_eq, (not_elem_of_list_to_map_1 _ _ Hk).
    by rewrite lookup_insert_eq.
  - rewrite !lookup_insert_ne by congruence. done.
Qed.

Lemma store_latest_db_other l version st k :
  (forall kh, k <> LatestVersion kh) ->
  db (store_latest_versions l version st) !! k = db st !! k.
Proof.
  intros Hk. unfold store_latest_versions. revert st.
  induction l as [|kh l IH]; intros st; simpl; [done|].
  rewrite IH. simpl. by rewrite lookup_insert_ne by (intros <-; by eapply Hk).
Qed.

Lemma store_latest_db l version st kh :
  db (store_latest_versions l version st) !! LatestVersion kh =
  if decide (kh ∈ l) then Some (DbVersion version) else db st !! LatestVersion kh.
Proof.
  unfold store_latest_versions. revert st.
  induction l as [|k l IH]; intros st; cbn [foldl].
  { by rewrite decide_False by set_solver. }
  rewrite IH. cbn [store_latest_version with_db db]. destruct (decide (kh ∈ l)).
  { by rewrite decide_True by set_solver. }
  destruct (decide (k = kh)) as [->|Hne].
  - rewrite decide_True by set_solver. by rewrite lookup_insert_eq.
  - rewrite decide_False by set_solver. by rewrite lookup_insert_ne by congruence.
Qed.

(** Batched deletion deletes the keys that satisfy the test, whatever the batch
    size. *)
Lemma batch_delete_lookup {K V} `{Countable K} keys (d : gmap K V) k :
  batch_delete keys d !! k = if decide (k ∈ keys) then None else d !! k.
Proof.
  unfold batch_delete. revert d.
  induction keys as [|x keys IH]; intros d; cbn [foldl].
  { by rewrite decide_False by set_solver. }
  rewrite IH. destruct (decide (k ∈ keys)).
  { by rewrite decide_True by set_solver. }
  destruct (decide (x = k)) as [->|Hne].
  - rewrite decide_True by set_solver. by rewrite lookup_delete_eq.
  - rewrite decide_False by set_solver. by rewrite lookup_delete_ne.
Qed.

Lemma collect_fold_lookup {K V} `{Countable K} limit (doomed : K -> bool) ks keys n (d : gmap K V) :
  let '(keys', n', d') := foldl (collect_step limit doomed) (keys, n, d) ks in
  n' = (n + length (filter (fun k => doomed k = true) ks))%nat /\
  forall k, batch_delete keys' d' !! k =
  if decide (k ∈ keys ++ filter (fun k => doomed k = true) ks) then None else d !! k.
Proof.
  revert keys n d. induction ks as [|x ks IH]; intros keys n d; simpl.
  { rewrite app_nil_r. split; [lia|]. intros k. apply batch_delete_lookup. }
  destruct (doomed x) eqn:Hx.
  - rewrite filter_cons_True by done. cbn [length].
    destruct (limit <=? length (keys ++ [x]))%nat.
    + specialize (IH [] (S n) (batch_delete (keys ++ [x]) d)).
      destruct (foldl _ _ ks) as [[keys' n'] d']. destruct IH as [-> IH].
      split; [lia|]. intros k. rewrite IH, batch_delete_lookup. repeat case_decide; set_solver.
    + specialize (IH (keys ++ [x]) (S n) d).
      destruct (foldl _ _ ks) as [[keys' n'] d']. destruct IH as [-> IH].
      split; [lia|]. intros k. rewrite IH. repeat case_decide; set_solver.
  - rewrite filter_cons_False by congruence. apply IH.
Qed.

Lemma prune_lookup before st k :
  db (prune_before_version before st) !! k =
  if should_delete before (snapshots_to_keep (pruning_config st) before) k then None
  else db st !! k.
Proof.
  unfold prune_before_version, collect_and_delete_old_versions.
  pose proof (collect_fold_lookup (Z.to_nat 10000)
    (should_delete before (snapshots_to_keep (pruning_config st) before))
    (map_to_list (db st)).*1 [] O (db st)) as H.
  destruct (foldl _ _ _) as [[keys n] d]. destruct H as [_ H].
  specialize (H k). simpl in *. rewrite H.
  destruct (should_delete _ _ k) eqn:Hk.
  - case_decide as Hin; [done|].
    destruct (db st !! k) as [v|] eqn:Hl; [|done]. exfalso. apply Hin.
    apply list_elem_of_filter. split; [done|]. apply list_elem_of_fmap.
    exists (k, v). split; [done|]. by apply elem_of_map_to_list.
  - rewrite decide_False; [done|]. rewrite list_elem_of_filter. intros [? _]. congruence.
Qed.

Lemma prune_rest before st :
  pending_updates (prune_before_version before st) = pending_updates st /\
  current_version (prune_before_version before st) = current_version st.
Proof.
  unfold prune_before_version, collect_and_delete_old_versions.
  by destruct (foldl _ _ _) as [[keys n] d].
Qed.

End lookups.

Section commit.
Context {B : Backend} {Bok : BackendOk B}.
Implicit Types (st : RocksDbStorage) (kh : KeyHash).

(** The keys a read looks at. *)
Definition value_key (k : StorageKey) : Prop :=
  match k with JmtValue _ _ | LatestVersion _ => True | _ => False end.

(** Draining the buffer writes each pending value at [version], makes [version]
    the latest one of its key, and touches no other value. *)
Lemma write_pending_spec version st u st' :
  write_pending version st = (Ok u, st') ->
  pending_updates st' = ∅ /\ current_version st' = current_version st /\
  pruning_config st' = pruning_config st /\
  forall k, value_key k ->
    db st' !! k =
    match k with
    | JmtValue kh w =>
        match pending_updates st !! kh with
        | Some b => if decide (w = version) then Some (DbBytes b) else db st !! k
        | None => db st !! k
        end
    | LatestVersion kh =>
        match pending_updates st !! kh with
        | Some _ => Some (DbVersion version)
        | None => db st !! k
        end
    | _ => db st !! k
    end.
Proof.
  unfold write_pending. intros H. inv_ok. rename H into H1.
  destruct (bool_decide_reflect (pending_updates st = ∅)) as [He|Hne].
  { inv_ok. simpl. split_and!; try done.
    intros [] Hk; try done; by rewrite He, lookup_empty. }
  inv_ok. set (updates := hash_order (map_to_list (pending_updates st))) in *.
  set (st0 := rehash (with_pending ∅ st)) in *.
  destruct (jmt_put_value_set _ _ _ _) as [[root nodes]|]; inv_ok.
  assert (Hperm : updates ≡ₚ map_to_list (pending_updates st)) by apply (hash_order_perm (HashOrderOk := hash_order_in_ok _)).
  assert (Hnd : NoDup updates.*1) by (rewrite Hperm; apply NoDup_fst_map_to_list).
  assert (Hmap : list_to_map updates = pending_updates st).
  { rewrite <- (list_to_map_to_list (pending_updates st)). by apply list_to_map_proper. }
  set (s1 := write_node_batch nodes st0).
  destruct (store_latest_rest updates.*1 version (store_values updates version s1)) as (-> & -> & ->).
  destruct (store_values_rest updates version s1) as (-> & -> & ->).
  destruct (write_node_batch_rest nodes st0) as (E1 & E2 & E3).
  fold s1 in E1, E2, E3. rewrite E1, E2, E3.
  split_and!; try done.
  assert (Hs1 : forall k, value_key k -> db s1 !! k = db st !! k).
  { intros k Hk. unfold s1. rewrite write_node_batch_db; [done|]. by intros n ->. }
  intros [| |kh w|kh| |] Hk; try done.
  - rewrite store_latest_db_other by done.
    destruct (decide (w = version)) as [->|Hw].
    + rewrite store_values_db, Hmap by done. rewrite Hs1 by done.
      by destruct (pending_updates st !! kh).
    + rewrite store_values_db_other by congruence. rewrite Hs1 by done.
      by destruct (pending_updates st !! kh).
  - rewrite store_latest_db, store_values_db_other, Hs1 by done.
    case_decide as Hin.
    + apply list_elem_of_fmap in Hin as ([k b] & -> & Hin). rewrite Hperm in Hin.
      apply elem_of_map_to_list in Hin. simpl. by rewrite Hin.
    + destruct (pending_updates st !! kh) as [b|] eqn:E; [|done].
      destruct Hin. apply list_elem_of_fmap. exists (kh, b). split; [done|].
      rewrite Hperm. by apply elem_of_map_to_list.
Qed.

(** Whether [commit version] prunes. *)
Definition commit_prunes (config : PruningConfig) (version : Z) : bool :=
  pruning_enabled config && (prune_before config <? version).

(** With the daemon's configuration it prunes above height 100000. *)
Lemma default_prunes version : commit_prunes PruningConfig_default version = true <-> 100000 < version.
Proof. unfold commit_prunes. simpl. by rewrite Z.ltb_lt. Qed.

(** A successful commit: the buffer is drained, the version is recorded in memory
    and on disk, and pruning removes what [should_delete] selects. *)
Lemma storage_commit_spec version st root st' :
  storage_commit version st = (Ok root, st') ->
  exists st1, write_pending version st = (Ok tt, st1) /\
    pending_updates st' = ∅ /\ current_version st' = version /\
    db st' !! CurrentVersion = Some (DbVersion version) /\
    forall k, value_key k ->
      db st' !! k =
      if commit_prunes (pruning_config st) version &&
         should_delete (version - prune_before (pruning_config st))
           (snapshots_to_keep (pruning_config st) (version - prune_before (pruning_config st))) k
      then None else db st1 !! k.
Proof.
  unfold storage_commit. intros H. inv_ok.
  match goal with Hx : write_pending _ _ = (Ok _, ?s) |- _ => rename Hx into Hw; rename s into st1 end.
  exists st1. split; [done|].
  destruct (write_pending_spec _ _ _ _ Hw) as (Hp & Hc & Hcf & _).
  simpl in *. rewrite Hcf in *. unfold commit_prunes.
  destruct (pruning_enabled (pruning_config st)); inv_ok; simpl.
  - assert (Hsnap : forall (b : bool) s u s', (if b then st_modify (create_snapshot version) else st_ret tt : ST RocksDbStorage StateError unit) s = (Ok u, s') ->
      pending_updates s' = pending_updates s /\ current_version s' = current_version s /\
      pruning_config s' = pruning_config s /\
      forall k, value_key k \/ k = CurrentVersion -> db s' !! k = db s !! k).
    { intros [] s u s' Hs; inv_ok; [|done]. simpl. split_and!; try done.
      intros k Hk. rewrite lookup_insert_ne; [done|]. destruct Hk; by destruct k. }
    match goal with Hs : (if is_multiple_of _ _ then _ else _) _ = _ |- _ =>
      apply Hsnap in Hs as (Hp1 & Hc1 & Hf1 & Hd1) end.
    simpl in *.
    destruct (prune_before (pruning_config st) <? version); inv_ok; simpl.
    + match goal with |- context [prune_before_version ?b ?s] =>
        destruct (prune_rest b s) as [-> ->]; pose proof (prune_lookup b s) as Hpl end.
      rewrite Hf1, Hcf in Hpl. split_and!; [congruence|congruence| |].
      * rewrite Hpl. simpl. rewrite Hd1 by (by right). by rewrite lookup_insert_eq.
      * intros k Hk. rewrite Hpl. destruct (should_delete _ _ k); [done|].
        rewrite Hd1 by (by left). rewrite lookup_insert_ne; [done|]. by destruct k.
    + split_and!; [congruence|congruence| |].
      * rewrite Hd1 by (by right). by rewrite lookup_insert_eq.
      * intros k Hk. rewrite Hd1 by (by left). rewrite lookup_insert_ne; [done|]. by destruct k.
  - split_and!; [done|done|by rewrite lookup_insert_eq|].
    intros k Hk. rewrite lookup_insert_ne; [done|]. by destruct k.
Qed.

(** The optional steps of a commit leave the fields they do not write. *)
Lemma if_modify_keeps {A} (g : RocksDbStorage -> A) (b : bool) f s u s' :
  (forall s0, g (f s0) = g s0) ->
  (if b then st_modify f else st_ret tt : ST RocksDbStorage StateError unit) s = (Ok u, s') ->
  g s' = g s.
Proof. intros Hf. destruct b; intros Hs; inv_ok; [apply Hf|done]. Qed.

Lemma prune_keeps before st :
  root_cache (prune_before_version before st) = root_cache st /\
  pruning_config (prune_before_version before st) = pruning_config st.
Proof.
  unfold prune_before_version, collect_and_delete_old_versions. by destruct (foldl _ _ _) as [[]].
Qed.

Ltac commit_steps g :=
  destruct (pruning_enabled _); inv_ok; repeat match goal with
    | Hs : (if _ then st_modify _ else st_ret tt) _ = _ |- _ =>
        apply (if_modify_keeps g) in Hs; [rewrite Hs; clear Hs|by intros; try apply prune_keeps]
    end.

(** The root a commit answers is the one cached for its version. *)
Lemma storage_commit_root version st root st' :
  storage_commit version st = (Ok root, st') -> get_root st' version = root.
Proof.
  unfold storage_commit. intros H. inv_ok. unfold get_root.
  commit_steps root_cache; simpl; by rewrite lookup_insert_eq.
Qed.

Lemma storage_commit_config version st root st' :
  storage_commit version st = (Ok root, st') -> pruning_config st' = pruning_config st.
Proof.
  unfold storage_commit. intros H. inv_ok.
  match goal with Hx : write_pending _ _ = (Ok _, ?s) |- _ =>
    destruct (write_pending_spec _ _ _ _ Hx) as (_ & _ & Hcf & _) end.
  commit_steps pruning_config; simpl; done.
Qed.

End commit.

(** * A concrete backend

    It instantiates the parameters so that theorems stated for every backend can
    be evaluated: the key hash is the key itself, a serialized value is a tagged
    copy of it, the merkle tree stores one node per version. *)

Inductive Blob :=
| BlobNum (z : Z) | BlobBool (b : bool) | BlobPosition (p : Position) | BlobOrder (o : Order)
| BlobMarket (m : Market) | BlobFunding (f : FundingRate) | BlobAsset (a : Asset)
| BlobNums (l : list Z) | BlobAddresses (l : list Z).

Definition mem_hash_order : HashOrder := fun A l => l.
(** Tables are listed forwards and backwards in turn. *)
Definition mem_hash_order_in (h : bool) : HashOrder := fun A l => if h then reverse l else l.

#[export] Instance mem_backend : Backend := {|
  KeyHash := StateKey;
  key_hash := fun k => k;
  Bytes := Blob;
  serde_num := {| to_vec z := Some (BlobNum z);
                  from_slice b := match b with BlobNum z => Some z | _ => None end |};
  serde_bool := {| to_vec z := Some (BlobBool z);
                   from_slice b := match b with BlobBool z => Some z | _ => None end |};
  serde_position := {| to_vec z := Some (BlobPosition z);
                       from_slice b := match b with BlobPosition z => Some z | _ => None end |};
  serde_order := {| to_vec z := Some (BlobOrder z);
                    from_slice b := match b with BlobOrder z => Some z | _ => None end |};
  serde_market := {| to_vec z := Some (BlobMarket z);
                     from_slice b := match b with BlobMarket z => Some z | _ => None end |};
  serde_funding := {| to_vec z := Some (BlobFunding z);
                      from_slice b := match b with BlobFunding z => Some z | _ => None end |};
  serde_asset := {| to_vec z := Some (BlobAsset z);
                    from_slice b := match b with BlobAsset z => Some z | _ => None end |};
  serde_nums := {| to_vec z := Some (BlobNums z);
                   from_slice b := match b with BlobNums z => Some z | _ => None end |};
  serde_addresses := {| to_vec z := Some (BlobAddresses z);
                        from_slice b := match b with BlobAddresses z => Some z | _ => None end |};
  NodeKey := Z;
  Node := Z;
  LeafNode := unit;
  jmt_put_value_set _ _ l v := Some (v + 1 + Z.of_nat (length l), [(v, v + 1 + Z.of_nat (length l))]);
  jmt_get_root_hash reader _ v :=
    match reader v with Some r => Ok r | None => Err RootNodeNotFound end;
  hash_order_backend := mem_hash_order;
  HashState := bool;
  next_hash := negb;
  hash_order_in := mem_hash_order_in;
|}.

#[export] Instance mem_backend_ok : BackendOk mem_backend.
Proof.
  split; try (intros x; eexists; split; reflexivity).
  - by intros k1 k2 ?.
  - by intros A l.
  - intros [] A l; cbn; [apply reverse_Permutation|done].
  - intros reader leaf l l' v _ Hl. cbn. by rewrite Hl.
Defined.

(** * Properties of the storage *)

Section properties.
Context {B : Backend} {Bok : BackendOk B}.
Implicit Types (st : RocksDbStorage) (kh : KeyHash).

(** Every committed value is covered by the latest-version index: the index
    points at a stored value and no stored version is newer. *)
Record storage_wf st : Prop := {
  wf_current : 0 <= current_version st;
  wf_latest kh l : get_latest_version st kh = Some l ->
    0 <= l <= current_version st /\ is_Some (db_value st kh l);
  wf_value kh v : is_Some (db_value st kh v) ->
    exists l, get_latest_version st kh = Some l /\ v <= l;
}.

Lemma storage_new_wf config h : storage_wf (storage_new ∅ config h).
Proof.
  split; simpl; [done| |].
  - unfold get_latest_version. simpl. by intros.
  - unfold db_value. simpl. by intros kh v [].
Qed.

Lemma scan_versions_none st kh n :
  (forall v, 0 <= v < Z.of_nat n -> db_value st kh v = None) -> scan_versions st kh n = None.
Proof.
  induction n as [|n IH]; simpl; intros H; [done|].
  rewrite H by lia. apply IH. intros v Hv. apply H. lia.
Qed.


(** At the current version and above, a read is the value of the latest version. *)
Lemma get_value_current st version kh :
  storage_wf st -> current_version st <= version ->
  get_value_option st version kh =
    match get_latest_version st kh with Some l => db_value st kh l | None => None end.
Proof.
  intros Hwf Hv. unfold get_value_option.
  destruct (get_latest_version st kh) as [l|] eqn:Hl.
  - destruct (wf_latest _ Hwf _ _ Hl) as [Hr _]. by destruct (Z.leb_spec l version); [|lia].
  - apply scan_versions_none. intros v _. destruct (db_value st kh v) eqn:E; [|done].
    destruct (wf_value _ Hwf kh v) as (l' & Hl' & _); congruence || by rewrite E.
Qed.


(** A well-formed store that is not pruned: what a commit leaves. *)
Lemma commit_reads version st root st' :
  storage_wf st -> current_version st <= version ->
  commit_prunes (pruning_config st) version = false ->
  storage_commit version st = (Ok root, st') ->
  storage_wf st' /\ current_version st' = version /\ pending_updates st' = ∅ /\
  db st' !! CurrentVersion = Some (DbVersion version) /\
  forall kh, get_value_option st' version kh = view st version kh.
Proof.
  intros Hwf Hv Hnp Hc.
  destruct (storage_commit_spec _ _ _ _ Hc) as (st1 & Hw & Hp & Hcv & Hcd & Hdb).
  destruct (write_pending_spec _ _ _ _ Hw) as (_ & _ & _ & Hdb1).
  rewrite Hnp in Hdb. simpl in Hdb. pose proof (wf_current _ Hwf) as H0.
  assert (HL : forall kh, get_latest_version st' kh =
    match pending_updates st !! kh with Some _ => Some version | None => get_latest_version st kh end).
  { intros kh. unfold get_latest_version. rewrite Hdb, Hdb1 by done.
    by destruct (pending_updates st !! kh). }
  assert (HV : forall kh w, db_value st' kh w =
    match pending_updates st !! kh with
    | Some b => if decide (w = version) then Some b else db_value st kh w
    | None => db_value st kh w end).
  { intros kh w. unfold db_value. rewrite Hdb, Hdb1 by done.
    destruct (pending_updates st !! kh); [|done]. by destruct (decide (w = version)). }
  split_and!; try done.
  - split; [lia| |].
    + intros kh l Hl. rewrite HL in Hl. rewrite HV.
      destruct (pending_updates st !! kh) as [b|].
      * simplify_eq. rewrite decide_True by done. split; [lia|done].
      * destruct (wf_latest _ Hwf _ _ Hl). split; [lia|done].
    + intros kh w Hs. rewrite HV in Hs. rewrite HL.
      destruct (pending_updates st !! kh) as [b|]; [|by apply (wf_value _ Hwf)].
      exists version. split; [done|]. case_decide; [lia|].
      destruct (wf_value _ Hwf _ _ Hs) as (l & Hl & ?).
      destruct (wf_latest _ Hwf _ _ Hl). lia.
  - intros kh. unfold view, get_value_option. rewrite HL.
    destruct (pending_updates st !! kh) as [b|] eqn:E.
    + rewrite Z.leb_refl, HV, E. by rewrite decide_True.
    + destruct (get_latest_version st kh) as [l|] eqn:Hl.
      * destruct (wf_latest _ Hwf _ _ Hl). destruct (Z.leb_spec l version); [|lia].
        by rewrite HV, E.
      * assert (Hnone : forall w, db_value st kh w = None).
        { intros w. destruct (db_value st kh w) eqn:Ew; [|done].
          destruct (wf_value _ Hwf kh w) as (? & ? & _); [by rewrite Ew|congruence]. }
        rewrite !scan_versions_none; [done|done|].
        intros w _. by rewrite HV, E.
Qed.


Lemma storage_wf_pending p st : storage_wf st -> storage_wf (with_pending p st).
Proof. intros [H1 H2 H3]. by split. Qed.

Lemma storage_set_wf {T} (S : Serde Bytes T) key (v : T) st :
  storage_wf st -> storage_wf (snd (storage_set key v st)).
Proof. intros H. unfold storage_set. destruct (to_vec v); [by apply storage_wf_pending|done]. Qed.

(** A value set is read back, at any version, and other keys are not affected. *)
Lemma storage_get_set_same {T} (S : Serde Bytes T) {Sok : SerdeOk S} key (v : T) st u st' version :
  storage_set key v st = (Ok u, st') -> storage_get st' key version = Ok (Some v).
Proof.
  unfold storage_set, storage_get. intros H.
  destruct (serde_roundtrip (S:=S) v) as (b & E1 & E2). rewrite E1 in H. simplify_eq. simpl.
  by rewrite lookup_insert_eq, E2.
Qed.

Lemma storage_set_ok {T} (S : Serde Bytes T) {Sok : SerdeOk S} key (v : T) st :
  exists st', storage_set key v st = (Ok tt, st').
Proof.
  unfold storage_set. destruct (serde_roundtrip (S:=S) v) as (b & E1 & E2). rewrite E1. eauto.
Qed.

Lemma storage_set_view {T} (S : Serde Bytes T) key key' (v : T) st r st' version :
  storage_set key v st = (r, st') -> key <> key' ->
  view st' version (key_hash key') = view st version (key_hash key').
Proof.
  unfold storage_set, view. intros H Hne.
  destruct (to_vec v); simplify_eq; [|done]. simpl.
  rewrite lookup_insert_ne by (intros ?%key_hash_inj; done).
  by rewrite get_value_option_pending.
Qed.

Lemma storage_get_set_other {T U} (S : Serde Bytes T) (S' : Serde Bytes U) key key' (v : T)
    st r st' version :
  storage_set key v st = (r, st') -> key <> key' ->
  storage_get (T:=U) st' key' version = storage_get st key' version.
Proof. intros H Hne. rewrite !storage_get_view. by rewrite (storage_set_view S key key' v st r st' version H Hne). Qed.

Lemma storage_delete_view key key' st r st' version :
  storage_delete key st = (r, st') -> key <> key' ->
  view st' version (key_hash key') = view st version (key_hash key').
Proof.
  unfold storage_delete, st_modify, view. intros H Hne. simplify_eq. simpl.
  rewrite lookup_delete_ne by (intros ?%key_hash_inj; done).
  by rewrite get_value_option_pending.
Qed.

Lemma storage_delete_same key st r st' version :
  storage_delete key st = (r, st') ->
  view st' version (key_hash key) = get_value_option st version (key_hash key).
Proof.
  unfold storage_delete, st_modify, view. intros H. simplify_eq. simpl.
  rewrite lookup_delete_eq. by rewrite get_value_option_pending.
Qed.

(** [delete] only drops the uncommitted write of a key.  After a
    commit, deleting a key changes nothing: it still reads the committed value,
    now and after the next commit. *)
Theorem delete_keeps_committed key version st root st1 st2 :
  storage_wf st -> current_version st <= version ->
  commit_prunes (pruning_config st) version = false ->
  storage_commit version st = (Ok root, st1) ->
  storage_delete key st1 = (Ok tt, st2) ->
  forall T (S : Serde Bytes T), storage_get st2 key version = storage_get st key version.
Proof.
  intros Hwf Hv Hnp Hc Hd T S. rewrite !storage_get_view.
  destruct (commit_reads _ _ _ _ Hwf Hv Hnp Hc) as (_ & _ & _ & _ & Hr).
  by rewrite (storage_delete_same _ _ _ _ version Hd), Hr.
Qed.

(** Pruning drops values that are still current.  If the last write of
    a key is older than the pruning horizon and was not made at a snapshot
    height, the key reads as absent once the commit has pruned, although no
    later write replaced the value. *)
Theorem prune_drops_live_values version st root st' key l b :
  storage_wf st ->
  commit_prunes (pruning_config st) version = true ->
  storage_commit version st = (Ok root, st') ->
  pending_updates st !! key_hash key = None ->
  get_latest_version st (key_hash key) = Some l ->
  l < version - prune_before (pruning_config st) ->
  is_multiple_of l (snapshot_interval (pruning_config st)) = false ->
  db_value st (key_hash key) l = Some b ->
  l <= version ->
  forall T (S : Serde Bytes T),
    storage_get st' key version = Ok None /\
    storage_get st key version = decode (Some b).
Proof.
  intros Hwf Hpr Hc Hpend Hl Hlt Hmul Hb Hle T S. rewrite !storage_get_view.
  destruct (storage_commit_spec _ _ _ _ Hc) as (st1 & Hw & Hp & Hcv & Hcd & Hdb).
  destruct (write_pending_spec _ _ _ _ Hw) as (_ & _ & _ & Hdb1).
  rewrite Hpr in Hdb. simpl in Hdb. unfold view at 1 2. rewrite Hp, lookup_empty, Hpend.
  unfold get_value_option. rewrite Hl.
  replace (get_latest_version st' (key_hash key)) with (Some l).
  2:{ unfold get_latest_version. rewrite Hdb, Hdb1 by done. simpl. rewrite Hpend. done. }
  destruct (Z.leb_spec l version); [|lia]. split; [|by rewrite Hb].
  unfold db_value. rewrite Hdb by done. simpl.
  destruct (Z.ltb_spec l (version - prune_before (pruning_config st))); [|lia].
  rewrite bool_decide_eq_true_2; [done|]. unfold snapshots_to_keep.
  rewrite elem_of_list_to_set, list_elem_of_filter. rewrite Hmul. by intros [? _].
Qed.

End properties.

(** * Witnesses: a balance written at height 1, then the chain moves on *)

Definition demo_config : PruningConfig :=
  {| snapshot_interval := 10; prune_before := 5; pruning_enabled := true |}.
Definition demo_hash : HashState (Backend := mem_backend) := false.
Definition demo_key : StateKey := SK_Balance 7 0.
Definition demo_pending : RocksDbStorage :=
  snd (storage_set demo_key 1000 (storage_new ∅ demo_config demo_hash)).
Definition demo_committed : RocksDbStorage := snd (storage_commit 1 demo_pending).

(** Written at heights 10 and 13; the commit of 19 deletes the value of 13 and
    keeps that of 10, which is a snapshot height.  The index still says 13, so the
    lookup finds nothing where the scan finds the value of 10. *)
Definition demo_pruned : RocksDbStorage :=
  let at10 := snd (storage_commit 10 (snd (storage_set demo_key 1000 (storage_new ∅ demo_config demo_hash)))) in
  let at13 := snd (storage_commit 13 (snd (storage_set demo_key 1300 at10))) in
  snd (storage_commit 19 at13).
Lemma pruned_lookup_differs :
  get_value_option demo_pruned 19 (key_hash demo_key) = None /\
  is_Some (scan_versions demo_pruned (key_hash demo_key) 20).
Proof. split; [vm_compute; reflexivity|]. eexists. vm_compute. reflexivity. Qed.

Lemma demo_pending_wf : storage_wf demo_pending.
Proof. apply storage_set_wf, storage_new_wf. Qed.

Lemma demo_commit : storage_commit 1 demo_pending = (Ok 3, demo_committed).
Proof.
  unfold demo_committed. apply (run_result (storage_commit 1) demo_pending (Ok 3)).
  vm_compute. reflexivity.
Qed.

Lemma demo_committed_wf : storage_wf demo_committed.
Proof.
  apply (commit_reads 1 demo_pending 3 demo_committed);
    [apply demo_pending_wf|vm_compute; congruence|reflexivity|apply demo_commit].
Qed.



Lemma delete_keeps_committed_witness :
  storage_get (snd (storage_delete demo_key demo_committed)) demo_key 1
    = storage_get (T:=Z) demo_pending demo_key 1.
Proof.
  apply (delete_keeps_committed demo_key 1 demo_pending 3 demo_committed);
    [apply demo_pending_wf|vm_compute; congruence|reflexivity|apply demo_commit|reflexivity].
Defined.

(** At height 7 the horizon is 2, so the balance of height 1 is gone. *)
Lemma prune_drops_live_values_witness :
  storage_get (T:=Z) (snd (storage_commit 7 demo_committed)) demo_key 7 = Ok None /\
  storage_get demo_committed demo_key 7 = Ok (Some 1000).
Proof.
  apply (prune_drops_live_values 7 demo_committed 0 (snd (storage_commit 7 demo_committed))
    demo_key 1 (BlobNum 1000) demo_committed_wf);
    [reflexivity
    |apply (run_result (storage_commit 7) demo_committed (Ok 0)); vm_compute; reflexivity
    |vm_compute; reflexivity..|lia].
Defined.

(** * The root of a version without writes *)

(** The tree is only written when something changed, and a version the tree has
    no root for is given the root zero: a commit that writes nothing answers
    zero whatever the state is. *)
Lemma empty_commit_root {B : Backend} version st :
  pending_updates st = ∅ -> pruning_enabled (pruning_config st) = false ->
  jmt_get_root_hash (get_node_option st) (get_rightmost_leaf st) version = Err RootNodeNotFound ->
  fst (storage_commit version st) = Ok B256_ZERO.
Proof.
  intros Hp Hc Hr. unfold storage_commit, write_pending, st_bind, st_gets, st_modify.
  rewrite Hp, bool_decide_true by done. cbn [st_ret]. unfold st_read, calculate_state_root.
  change (jmt_get_root_hash (get_node_option (rehash (with_pending ∅ st))) _ version)
    with (jmt_get_root_hash (get_node_option st) (get_rightmost_leaf st) version). rewrite Hr.
  cbn [pruning_config with_db with_current_version with_root_cache rehash with_hash_state with_pending]. by rewrite Hc.
Qed.

(** After a commit with a root of its own, an empty one. *)
Lemma empty_commit_demo :
  fst (storage_commit 1 demo_pending) = Ok 3 /\ fst (storage_commit 2 demo_committed) = Ok B256_ZERO.
Proof. split; vm_compute; reflexivity. Qed.
