(* ===== verification/State.v ===== *)
(** [StateManager] (crates/state/src/lib.rs): typed accessors over the storage at
    the current version, with the in-memory position index.

    Every accessor reads or writes a few state keys; [sv] is the value of a key
    as a reader sees it, [frame] states which keys a computation may change. *)
From stdpp Require Import base gmap sets list sorting strings.
From Stdlib Require Import ZArith Lia.
From S2P Require Import Prelude Types Storage.

Section state.
Context {B : Backend}.

Record StateManager := {
  sm_storage : RocksDbStorage;
  sm_version : Z;
  sm_position_index : gmap Z (gset Address);
}.

Definition with_storage (st : RocksDbStorage) (s : StateManager) : StateManager :=
  {| sm_storage := st; sm_version := sm_version s; sm_position_index := sm_position_index s |}.
Definition with_version (v : Z) (s : StateManager) : StateManager :=
  {| sm_storage := sm_storage s; sm_version := v; sm_position_index := sm_position_index s |}.
Definition with_position_index (i : gmap Z (gset Address)) (s : StateManager) : StateManager :=
  {| sm_storage := sm_storage s; sm_version := sm_version s; sm_position_index := i |}.

Definition on_storage {A} (m : ST RocksDbStorage StateError A) : ST StateManager StateError A :=
  st_zoom sm_storage with_storage m.

Definition StateManager_new (d : gmap StorageKey DbValue) (config : PruningConfig) (h : HashState)
    : StateManager :=
  let storage := storage_new d config h in
  {| sm_storage := storage; sm_version := current_version storage; sm_position_index := ∅ |}.

(** [StateManager::new]: [opened] is the answer of [DB::open] on the directory. *)
Definition StateManager_open (opened : result StateError (gmap StorageKey DbValue)) (config : PruningConfig)
    (h : HashState) : result StateError StateManager :=
  let* d := opened in Ok (StateManager_new d config h).

Definition state_root (s : StateManager) : B256 := get_root (sm_storage s) (sm_version s).
Definition begin_block (height : Z) : StateManager -> StateManager := with_version height.

Definition commit : ST StateManager StateError B256 :=
  let! v := st_gets sm_version in on_storage (storage_commit v).

Definition sm_create_snapshot : ST StateManager StateError unit :=
  let! v := st_gets sm_version in on_storage (storage_commit v) ;; st_ret tt.
Definition sm_list_snapshots (s : StateManager) : list Z := list_snapshots (sm_storage s).
Definition sm_restore_from_snapshot (version : Z) : ST StateManager StateError unit :=
  on_storage (restore_from_snapshot version).

(** [self.storage.get(&key, self.version)] and the getter with a default. *)
Definition sm_get {T} `{Serde Bytes T} (s : StateManager) (key : StateKey)
    : result StateError (option T) := storage_get (sm_storage s) key (sm_version s).

(** The hash tables of the process, as the next use finds them. *)
Definition sm_hash_state (s : StateManager) : HashState := hash_state (sm_storage s).

Definition get_or_default {T} `{Serde Bytes T} (dflt : T) (s : StateManager) (key : StateKey)
    : result StateError T := result_map (default dflt) (sm_get s key).

(** ** Balances and nonces *)

Definition get_balance (s : StateManager) (address : Address) (asset_id : Z)
    : result StateError Z := get_or_default 0 s (SK_Balance address asset_id).

Definition set_balance (address : Address) (asset_id amount : Z)
    : ST StateManager StateError unit := on_storage (storage_set (SK_Balance address asset_id) amount).

Definition get_nonce (s : StateManager) (address : Address) : result StateError Z :=
  get_or_default 0 s (SK_Nonce address).

Definition set_nonce (address : Address) (nonce : Z) : ST StateManager StateError unit :=
  on_storage (storage_set (SK_Nonce address) nonce).

Definition increment_nonce (address : Address) : ST StateManager StateError Z :=
  let! current := st_read (fun s => get_nonce s address) in
  let new_nonce := wadd64 current 1 in
  set_nonce address new_nonce ;;
  st_ret new_nonce.

(** ** Positions *)

Definition get_position (s : StateManager) (address : Address) (market_id : Z)
    : result StateError (option Position) := sm_get s (SK_Position address market_id).

Definition update_position_index (market_id : Z) : ST StateManager StateError unit :=
  let! index := st_gets sm_position_index in
  match index !! market_id with
  | Some addresses => on_storage (storage_set_hashed (SK_PositionIndex market_id) addresses)
  | None => on_storage (storage_delete (SK_PositionIndex market_id))
  end.

Definition set_position (address : Address) (market_id : Z) (position : Position)
    : ST StateManager StateError unit :=
  on_storage (storage_set (SK_Position address market_id) position) ;;
  st_modify (fun s => with_position_index
    (<[market_id := {[address]} ∪ default ∅ (sm_position_index s !! market_id)]>
       (sm_position_index s)) s) ;;
  update_position_index market_id.

Definition remove_from_position_index (market_id : Z) (address : Address) (s : StateManager)
    : StateManager :=
  match sm_position_index s !! market_id with
  | Some addresses =>
      let addresses' := addresses ∖ {[address]} in
      if bool_decide (addresses' = ∅)
      then with_position_index (delete market_id (sm_position_index s)) s
      else with_position_index (<[market_id := addresses']> (sm_position_index s)) s
  | None => s
  end.

Definition delete_position (address : Address) (market_id : Z)
    : ST StateManager StateError unit :=
  on_storage (storage_delete (SK_Position address market_id)) ;;
  st_modify (remove_from_position_index market_id address) ;;
  update_position_index market_id.

Definition get_position_addresses (s : StateManager) (market_id : Z)
    : result StateError (gset Address) :=
  match sm_position_index s !! market_id with
  | Some addresses => Ok addresses
  | None => get_or_default (H := serde_set (sm_hash_state s)) ∅ s (SK_PositionIndex market_id)
  end.

(** [.ok().flatten()] *)
Definition ok_flatten {T} (r : result StateError (option T)) : option T :=
  match r with Ok o => o | Err _ => None end.

Definition get_all_positions_in_market (s : StateManager) (market_id : Z)
    : result StateError (list (Address * Position)) :=
  let* addresses := get_position_addresses s market_id in
  Ok (omap (fun address =>
        match ok_flatten (get_position s address market_id) with
        | Some pos => if 0 <? pos_size pos then Some (address, pos) else None
        | None => None
        end) (hash_order (HashOrder := hash_order_in (sm_hash_state s)) (elements addresses))).

(** ** Markets, orders, funding, assets, bridge operators *)

Definition list_all_markets (s : StateManager) : result StateError (list Z) :=
  get_or_default [] s SK_MarketList.

Definition rebuild_position_index : ST StateManager StateError unit :=
  let! markets := st_read list_all_markets in
  st_modify (fun s => with_position_index
    (foldl (fun index market_id =>
       match ok_flatten (sm_get (H := serde_set (sm_hash_state s)) s (SK_PositionIndex market_id)) with
       | Some addresses => <[market_id := addresses]> index
       | None => index
       end) ∅ markets) s).

Definition get_order (s : StateManager) (order_id : Z) : result StateError (option Order) :=
  sm_get s (SK_Order order_id).
Definition set_order (order_id : Z) (order : Order) : ST StateManager StateError unit :=
  on_storage (storage_set (SK_Order order_id) order).
Definition delete_order (order_id : Z) : ST StateManager StateError unit :=
  on_storage (storage_delete (SK_Order order_id)).

Definition add_to_list (list_key : StateKey) (id : Z) : ST StateManager StateError unit :=
  let! l := st_read (fun s => get_or_default [] s list_key) in
  if bool_decide (id ∈ l) then st_ret tt
  else on_storage (storage_set list_key (l ++ [id])).

Definition get_market (s : StateManager) (market_id : Z) : result StateError (option Market) :=
  sm_get s (SK_Market market_id).
Definition set_market (market_id : Z) (info : Market) : ST StateManager StateError unit :=
  on_storage (storage_set (SK_Market market_id) info) ;; add_to_list SK_MarketList market_id.

Definition get_funding_rate (s : StateManager) (market_id : Z) : result StateError FundingRate :=
  get_or_default FundingRate_default s (SK_FundingRate market_id).
Definition set_funding_rate (market_id : Z) (rate : FundingRate)
    : ST StateManager StateError unit :=
  on_storage (storage_set (SK_FundingRate market_id) rate).

Definition next_order_id : ST StateManager StateError Z :=
  let! current := st_read (fun s => get_or_default 0 s SK_NextOrderId) in
  let! next := st_lift (ok_or StateOther (checked_add_u64 current 1)) in
  on_storage (storage_set SK_NextOrderId next) ;;
  st_ret current.

Definition is_bridge_operator (s : StateManager) (address : Address) : result StateError bool :=
  get_or_default false s (SK_BridgeOperator address).
Definition set_bridge_operator (address : Address) (is_operator : bool)
    : ST StateManager StateError unit :=
  if is_operator then on_storage (storage_set (SK_BridgeOperator address) true)
  else on_storage (storage_delete (SK_BridgeOperator address)).

Definition get_asset (s : StateManager) (asset_id : Z) : result StateError (option Asset) :=
  sm_get s (SK_AssetInfo asset_id).
Definition set_asset (asset_id : Z) (asset : Asset) : ST StateManager StateError unit :=
  on_storage (storage_set (SK_AssetInfo asset_id) asset) ;; add_to_list SK_AssetList asset_id.
Definition list_all_assets (s : StateManager) : result StateError (list Z) :=
  get_or_default [] s SK_AssetList.

(** ** Active orders *)

Definition get_active_orders_by_market (s : StateManager) (market_id : Z)
    : result StateError (list Z) := get_or_default [] s (SK_ActiveOrderList market_id).

Definition add_active_order (market_id order_id : Z) : ST StateManager StateError unit :=
  on_storage (storage_set (SK_ActiveOrder market_id order_id) true) ;;
  let! active_orders := st_read (fun s => get_or_default [] s (SK_ActiveOrderList market_id)) in
  if bool_decide (order_id ∈ active_orders) then st_ret tt
  else on_storage (storage_set (SK_ActiveOrderList market_id) (active_orders ++ [order_id])).

Definition remove_active_order (market_id order_id : Z) : ST StateManager StateError unit :=
  on_storage (storage_delete (SK_ActiveOrder market_id order_id)) ;;
  let! active_orders := st_read (fun s => get_or_default [] s (SK_ActiveOrderList market_id)) in
  on_storage (storage_set (SK_ActiveOrderList market_id)
    (filter (fun id => id <> order_id) active_orders)).

End state.

(** * Frames *)

Section frames.
Context {B : Backend} {Bok : BackendOk B}.
Implicit Types s : StateManager.

(** The bytes of a state key, as a reader at the current version sees them. *)
Definition sv s (key : StateKey) : option Bytes :=
  view (sm_storage s) (sm_version s) (key_hash key).

(** Nothing was written to the database, and the version is the same. *)
Definition same_disk s s' : Prop :=
  sm_version s' = sm_version s /\ db (sm_storage s') = db (sm_storage s) /\
  current_version (sm_storage s') = current_version (sm_storage s) /\
  pruning_config (sm_storage s') = pruning_config (sm_storage s).

(** [frame P s s']: going from [s] to [s'] changed no key outside [P]; nothing was
    written to the database, and the version is the same. *)
Definition frame (P : StateKey -> Prop) s s' : Prop :=
  same_disk s s' /\
  forall k, ~ P k -> sv s' k = sv s k.

(** [frames proj P m]: whatever it returns, [m] changes no key outside [P] of the
    state manager that [proj] finds in its state. *)
Definition frames {T E A} (proj : T -> StateManager) (P : StateKey -> Prop) (m : ST T E A) : Prop :=
  forall t, frame P (proj t) (proj (snd (m t))).

Lemma frame_refl P s : frame P s s.
Proof. by repeat split. Qed.
Lemma frame_trans P s1 s2 s3 : frame P s1 s2 -> frame P s2 s3 -> frame P s1 s3.
Proof.
  intros [(V1 & D1 & C1 & K1) H1] [(V2 & D2 & C2 & K2) H2].
  split; [repeat split; congruence|].
  intros k Hk. rewrite H2, H1; done.
Qed.
Lemma frame_weaken (P Q : StateKey -> Prop) s s' :
  (forall k, P k -> Q k) -> frame P s s' -> frame Q s s'.
Proof. intros HPQ [V H]. split; [done|]. intros k Hk. apply H. eauto. Qed.

Lemma sm_get_sv {T} (S : Serde Bytes T) s key : sm_get s key = decode (sv s key).
Proof. apply storage_get_view. Qed.

Lemma sm_get_frame {T} (S : Serde Bytes T) P s s' key :
  frame P s s' -> ~ P key -> sm_get s' key = sm_get s key.
Proof. intros [_ H] Hk. rewrite !sm_get_sv. by rewrite H. Qed.

Lemma get_or_default_frame {T} (S : Serde Bytes T) (d : T) P s s' key :
  frame P s s' -> ~ P key -> get_or_default d s' key = get_or_default d s key.
Proof. intros H Hk. unfold get_or_default. by erewrite sm_get_frame. Qed.

Lemma set_frame {T} (S : Serde Bytes T) key (v : T) s r s' :
  on_storage (storage_set key v) s = (r, s') -> frame (eq key) s s'.
Proof.
  unfold on_storage, st_zoom. intros H.
  destruct (storage_set key v (sm_storage s)) as [r' st'] eqn:E. simplify_eq.
  split; [repeat split; simpl; revert E; unfold storage_set;
          destruct (to_vec v); intros; by simplify_eq/=|]. intros k Hk. unfold sv. simpl.
  by rewrite (storage_set_view S key k v _ _ _ _ E Hk).
Qed.

Lemma delete_frame key s r s' :
  on_storage (storage_delete key) s = (r, s') -> frame (eq key) s s'.
Proof.
  unfold on_storage, st_zoom. intros H.
  destruct (storage_delete key (sm_storage s)) as [r' st'] eqn:E. simplify_eq.
  split; [repeat split; revert E; unfold storage_delete, st_modify; intros; by simplify_eq/=|].
  intros k Hk. unfold sv. simpl.
  by rewrite (storage_delete_view key k _ _ _ _ E Hk).
Qed.

Lemma set_read_back {T} (S : Serde Bytes T) {Sok : SerdeOk S} key (v : T) s u s' :
  on_storage (storage_set key v) s = (Ok u, s') -> sm_get s' key = Ok (Some v).
Proof.
  unfold on_storage, st_zoom, sm_get. intros H.
  destruct (storage_set key v (sm_storage s)) as [r' st'] eqn:E. simplify_eq. simpl.
  by eapply storage_get_set_same.
Qed.

Lemma set_succeeds {T} (S : Serde Bytes T) {Sok : SerdeOk S} key (v : T) s :
  exists s', on_storage (storage_set key v) s = (Ok tt, s').
Proof.
  unfold on_storage, st_zoom.
  destruct (storage_set_ok S key v (sm_storage s)) as [st' ->]. eauto.
Qed.

(** *** Rules *)

Lemma frames_bind {T E A C} (proj : T -> StateManager) P (m : ST T E A) (k : A -> ST T E C) :
  frames proj P m -> (forall a, frames proj P (k a)) -> frames proj P (st_bind m k).
Proof.
  intros Hm Hk t. specialize (Hm t). unfold st_bind.
  destruct (m t) as [[a|e] t1]; simpl in *; [|done].
  eapply frame_trans; [done|apply Hk].
Qed.
Lemma frames_id {T E A} (proj : T -> StateManager) P (m : ST T E A) :
  (forall t, proj (snd (m t)) = proj t) -> frames proj P m.
Proof. intros H t. rewrite H. apply frame_refl. Qed.
Lemma frames_map_err {T E E' A} (proj : T -> StateManager) P (f : E -> E') (m : ST T E A) :
  frames proj P m -> frames proj P (st_map_err f m).
Proof. intros H t. specialize (H t). unfold st_map_err. by destruct (m t). Qed.
Lemma frames_for {T E A} (proj : T -> StateManager) P (l : list A) (body : A -> ST T E unit) :
  (forall x, frames proj P (body x)) -> frames proj P (st_for l body).
Proof.
  intros H. induction l as [|x l IH]; simpl; [by apply frames_id|by apply frames_bind].
Qed.
Lemma frames_fold {T E A C} (proj : T -> StateManager) P (l : list A)
    (body : C -> A -> ST T E C) :
  (forall acc x, frames proj P (body acc x)) -> forall acc, frames proj P (st_fold l acc body).
Proof.
  intros H. induction l as [|x l IH]; simpl; intros acc; [by apply frames_id|].
  by apply frames_bind.
Qed.
Lemma frames_zoom {T U E A} (projT : T -> StateManager) (projU : U -> StateManager) P
    (get : T -> U) (put : U -> T -> T) (m : ST U E A) :
  (forall t, projT t = projU (get t)) -> (forall u t, projT (put u t) = projU u) ->
  frames projU P m -> frames projT P (st_zoom get put m).
Proof.
  intros Hg Hp Hm t. specialize (Hm (get t)). unfold st_zoom.
  destruct (m (get t)) as [r u]. simpl in *. by rewrite Hp, Hg.
Qed.
Lemma frames_weaken {T E A} (proj : T -> StateManager) (P Q : StateKey -> Prop) (m : ST T E A) :
  (forall k, P k -> Q k) -> frames proj P m -> frames proj Q m.
Proof. intros H Hm t. eapply frame_weaken; [exact H|apply Hm]. Qed.

Lemma frames_set {T} (S : Serde Bytes T) key (v : T) :
  frames id (eq key) (on_storage (storage_set key v)).
Proof. intros s. destruct (on_storage _ s) eqn:E. by eapply set_frame. Qed.
Lemma frames_rehash P : frames id P (on_storage (st_modify rehash)).
Proof.
  intros s. split; [by repeat split|]. intros k _. unfold sv, view. cbn.
  by rewrite (get_value_option_ext (sm_storage s)).
Qed.
Lemma frames_set_hashed key set : frames id (eq key) (on_storage (storage_set_hashed key set)).
Proof.
  intros s. unfold storage_set_hashed, on_storage, st_zoom, st_bind, st_gets.
  pose proof (frames_set (serde_set (hash_state (sm_storage s))) key set s) as F.
  unfold on_storage, st_zoom in F. destruct (storage_set key set (sm_storage s)) as [[[]|e] st]; [|exact F].
  eapply frame_trans; [exact F|]. exact (frames_rehash _ (with_storage st s)).
Qed.
Lemma frames_delete key : frames id (eq key) (on_storage (storage_delete key)).
Proof. intros s. destruct (on_storage _ s) eqn:E. by eapply delete_frame. Qed.

End frames.

Create HintDb frames.
#[export] Hint Resolve frames_map_err frame_refl : frames.

(** [solve_frames P]: walk through the computation; every write in it must be to
    a key of [P]. *)
Ltac frames_step :=
  match goal with
  | |- frames _ _ (st_bind _ _) => apply frames_bind; [|intros ?]
  | |- frames _ _ (st_map_err _ _) => apply frames_map_err
  | |- frames _ _ (st_for _ _) => apply frames_for; intros ?
  | |- frames _ _ (st_fold _ _ _) => apply frames_fold; intros ? ?
  | |- frames _ _ (on_storage (storage_set _ _)) =>
      eapply frames_weaken; [|apply frames_set]; intros ? <-
  | |- frames _ _ (on_storage (storage_set_hashed _ _)) =>
      eapply frames_weaken; [|apply frames_set_hashed]; intros ? <-
  | |- frames _ _ (on_storage (storage_delete _)) =>
      eapply frames_weaken; [|apply frames_delete]; intros ? <-
  | |- frames _ _ (if ?b then _ else _) => destruct b
  | |- frames _ _ (match ?x with _ => _ end) => destruct x
  | |- frames _ _ (let '_ := ?x in _) => destruct x
  | |- frames _ _ (st_lift _) => apply frames_id; done
  | |- frames _ _ (st_read _) => apply frames_id; done
  | |- frames _ _ (st_gets _) => apply frames_id; done
  | |- frames _ _ (st_ret _) => apply frames_id; done
  | |- frames _ _ (st_fail _) => apply frames_id; done
  | |- frames _ _ st_get => apply frames_id; done
  | |- frames _ _ (st_guard _ _) => unfold st_guard
  end.

Section footprints.
Context {B : Backend} {Bok : BackendOk B}.

(** Keys each mutator may write. *)
Lemma frames_set_balance a i v : frames id (eq (SK_Balance a i)) (set_balance a i v).
Proof. unfold set_balance. repeat frames_step; done. Qed.
Lemma frames_set_nonce a v : frames id (eq (SK_Nonce a)) (set_nonce a v).
Proof. unfold set_nonce. repeat frames_step; done. Qed.
Lemma frames_increment_nonce a : frames id (eq (SK_Nonce a)) (increment_nonce a).
Proof. unfold increment_nonce, set_nonce. repeat frames_step; done. Qed.
Lemma frames_set_order o v : frames id (eq (SK_Order o)) (set_order o v).
Proof. unfold set_order. repeat frames_step; done. Qed.
Lemma frames_set_funding_rate m v : frames id (eq (SK_FundingRate m)) (set_funding_rate m v).
Proof. unfold set_funding_rate. repeat frames_step; done. Qed.
Lemma frames_next_order_id : frames id (eq SK_NextOrderId) next_order_id.
Proof. unfold next_order_id. repeat frames_step; done. Qed.

Definition position_keys (a : Address) (m : Z) (k : StateKey) : Prop :=
  k = SK_Position a m \/ k = SK_PositionIndex m.

Lemma frames_update_position_index m :
  frames id (eq (SK_PositionIndex m)) (update_position_index m).
Proof. unfold update_position_index. repeat frames_step; done. Qed.

Lemma frame_position_index i s : frame (fun _ => False) s (with_position_index i s).
Proof. by split. Qed.

Lemma frames_set_position a m p : frames id (position_keys a m) (set_position a m p).
Proof.
  unfold set_position. repeat frames_step; [by left| |].
  - intros s. simpl. by eapply frame_weaken; [|apply frame_position_index].
  - eapply frames_weaken; [|apply frames_update_position_index]. intros k <-. by right.
Qed.

Lemma frames_delete_position a m : frames id (position_keys a m) (delete_position a m).
Proof.
  unfold delete_position. repeat frames_step; [by left| |].
  - intros s. simpl. unfold remove_from_position_index.
    destruct (_ !! m); [|apply frame_refl].
    by case_bool_decide; (eapply frame_weaken; [|apply frame_position_index]).
  - eapply frames_weaken; [|apply frames_update_position_index]. intros k <-. by right.
Qed.

Definition active_keys (m o : Z) (k : StateKey) : Prop :=
  k = SK_ActiveOrder m o \/ k = SK_ActiveOrderList m.

Lemma frames_add_active_order m o : frames id (active_keys m o) (add_active_order m o).
Proof. unfold add_active_order. repeat frames_step; (by left) || (by right). Qed.
Lemma frames_remove_active_order m o : frames id (active_keys m o) (remove_active_order m o).
Proof. unfold remove_active_order. repeat frames_step; (by left) || (by right). Qed.

End footprints.

#[export] Hint Resolve frames_set_balance frames_set_nonce frames_increment_nonce
  frames_set_order frames_set_funding_rate frames_next_order_id frames_set_position
  frames_delete_position frames_add_active_order frames_remove_active_order : frames.

(** * Functional lemmas *)

Section functional.
Context {B : Backend} {Bok : BackendOk B}.
Implicit Types s : StateManager.

(** What the last commits left under a key, ignoring the uncommitted buffer. *)
Definition committed s key : option Bytes :=
  get_value_option (sm_storage s) (sm_version s) (key_hash key).

Lemma committed_frame P s s' key : frame P s s' -> committed s' key = committed s key.
Proof.
  intros [(V & D & _) _]. unfold committed. rewrite V.
  apply get_value_option_ext; intros; by rewrite D.
Qed.

(** A trader's position as the last commits left it: what its key reads once the
    buffered write is withdrawn. *)
Definition committed_position s (a : Address) (m : Z) : result StateError (option Position) :=
  decode (committed s (SK_Position a m)).

Lemma get_position_withdrawn s s' a m :
  sv s' (SK_Position a m) = committed s (SK_Position a m) ->
  get_position s' a m = committed_position s a m.
Proof. intros H. unfold get_position. rewrite sm_get_sv. by unfold committed_position; rewrite H. Qed.

Lemma committed_position_frame P s s' a m :
  frame P s s' -> committed_position s' a m = committed_position s a m.
Proof. intros H. unfold committed_position. by rewrite (committed_frame _ _ _ _ H). Qed.

Lemma frames_run {T E A} (proj : T -> StateManager) P (m : ST T E A) t r t' :
  frames proj P m -> m t = (r, t') -> frame P (proj t) (proj t').
Proof. intros H E1. specialize (H t). by rewrite E1 in H. Qed.

Lemma frames_run_id {E A} P (m : ST StateManager E A) s r s' :
  frames id P m -> m s = (r, s') -> frame P s s'.
Proof. apply (frames_run id). Qed.

Lemma get_balance_set_same a i v s u s' :
  set_balance a i v s = (Ok u, s') -> get_balance s' a i = Ok v.
Proof.
  intros H. unfold get_balance, get_or_default. by rewrite (set_read_back _ _ _ _ _ _ H).
Qed.

Lemma get_balance_frame P s s' a i :
  frame P s s' -> ~ P (SK_Balance a i) -> get_balance s' a i = get_balance s a i.
Proof. apply get_or_default_frame. Qed.

Lemma get_balance_set_other a i v s r s' a' i' :
  set_balance a i v s = (r, s') -> (a, i) <> (a', i') ->
  get_balance s' a' i' = get_balance s a' i'.
Proof.
  intros H Hne. eapply get_balance_frame; [by eapply frames_run_id; [apply frames_set_balance|]|].
  simpl. congruence.
Qed.

Lemma set_balance_succeeds a i v s : exists s', set_balance a i v s = (Ok tt, s').
Proof. unfold set_balance. apply set_succeeds. apply _. Qed.

Lemma get_nonce_set_same a v s u s' : set_nonce a v s = (Ok u, s') -> get_nonce s' a = Ok v.
Proof. intros H. unfold get_nonce, get_or_default. by rewrite (set_read_back _ _ _ _ _ _ H). Qed.

Lemma get_nonce_frame P s s' a :
  frame P s s' -> ~ P (SK_Nonce a) -> get_nonce s' a = get_nonce s a.
Proof. apply get_or_default_frame. Qed.

Lemma get_position_frame P s s' a m :
  frame P s s' -> ~ P (SK_Position a m) -> get_position s' a m = get_position s a m.
Proof. apply sm_get_frame. Qed.

Lemma get_order_frame P s s' o :
  frame P s s' -> ~ P (SK_Order o) -> get_order s' o = get_order s o.
Proof. apply sm_get_frame. Qed.

Lemma get_order_set_same o v s u s' :
  set_order o v s = (Ok u, s') -> get_order s' o = Ok (Some v).
Proof. intros H. unfold get_order. by rewrite (set_read_back _ _ _ _ _ _ H). Qed.

Lemma set_order_succeeds o v s : exists s', set_order o v s = (Ok tt, s').
Proof. unfold set_order. apply set_succeeds. apply _. Qed.

Lemma get_market_frame P s s' m :
  frame P s s' -> ~ P (SK_Market m) -> get_market s' m = get_market s m.
Proof. apply sm_get_frame. Qed.

(** Writing a position to the index succeeds. *)
Lemma update_position_index_spec m s :
  exists s', update_position_index m s = (Ok tt, s') /\
    sm_position_index s' = sm_position_index s /\
    forall set h, sm_position_index s !! m = Some set ->
      sm_get (H := serde_set h) s' (SK_PositionIndex m) = Ok (Some set).
Proof.
  unfold update_position_index, st_bind, st_gets.
  destruct (sm_position_index s !! m) as [set|] eqn:E.
  - destruct (set_succeeds (serde_set (sm_hash_state s)) (SK_PositionIndex m) set s) as [s1 Hs].
    exists (with_storage (rehash (sm_storage s1)) s1).
    pose proof Hs as Hr. unfold on_storage, st_zoom in Hs.
    destruct (storage_set _ _ _) as [r st] eqn:Est. injection Hs as -> <-.
    split_and!.
    + unfold on_storage, storage_set_hashed, st_zoom, st_bind, st_gets. unfold sm_hash_state in Est. by rewrite Est.
    + done.
    + intros set' h ?. simplify_eq. rewrite <- (set_read_back _ _ _ _ _ _ Hr), !sm_get_sv.
      unfold sv, view. cbn. by rewrite (get_value_option_ext st).
  - eexists. split_and!; [reflexivity|done|done].
Qed.

Lemma set_position_spec a m p s :
  exists s', set_position a m p s = (Ok tt, s') /\
    get_position s' a m = Ok (Some p) /\
    sm_position_index s' =
      <[m := {[a]} ∪ default ∅ (sm_position_index s !! m)]> (sm_position_index s) /\
    frame (position_keys a m) s s'.
Proof.
  unfold set_position.
  destruct (set_succeeds serde_position (SK_Position a m) p s) as [s1 H1].
  erewrite st_bind_eq by exact H1. unfold st_modify at 1, st_bind at 1.
  set (idx := <[m := _]> (sm_position_index s1)).
  destruct (update_position_index_spec m (with_position_index idx s1)) as (s' & Hs' & Hi & _).
  exists s'. assert (Hidx : sm_position_index s1 = sm_position_index s).
  { revert H1. unfold on_storage, st_zoom. destruct (storage_set _ _ _). intros. by simplify_eq. }
  split_and!; [done| |by rewrite Hi; simpl; unfold idx; rewrite Hidx|].
  - rewrite (get_position_frame (eq (SK_PositionIndex m)) (with_position_index idx s1) s').
    + change (get_position s1 a m = Ok (Some p)). exact (set_read_back _ _ _ _ _ _ H1).
    + eapply frames_run_id; [apply frames_update_position_index|done].
    + done.
  - eapply frames_run_id; [apply frames_set_position|].
    unfold set_position. erewrite st_bind_eq by exact H1. done.
Qed.

Lemma delete_position_spec a m s :
  exists s', delete_position a m s = (Ok tt, s') /\
    sv s' (SK_Position a m) = committed s (SK_Position a m) /\
    frame (position_keys a m) s s'.
Proof.
  unfold delete_position.
  destruct (on_storage (storage_delete (SK_Position a m)) s) as [r s1] eqn:H1.
  assert (r = Ok tt /\ sv s1 (SK_Position a m) = committed s (SK_Position a m)) as [-> Hd].
  { revert H1. unfold on_storage, st_zoom.
    destruct (storage_delete _ (sm_storage s)) as [r' st'] eqn:E. intros. simplify_eq.
    split; [unfold storage_delete, st_modify in E; by simplify_eq|].
    unfold sv, committed. simpl. by eapply storage_delete_same. }
  erewrite st_bind_eq by exact H1. unfold st_modify at 1, st_bind at 1.
  set (s2 := remove_from_position_index m a s1).
  destruct (update_position_index_spec m s2) as (s' & Hs' & _ & _).
  exists s'. split_and!; [done| |].
  - assert (F : frame (eq (SK_PositionIndex m)) s2 s').
    { eapply frames_run_id; [apply frames_update_position_index|done]. }
    destruct F as [_ F]. rewrite F by done. rewrite <- Hd.
    unfold s2, remove_from_position_index. destruct (_ !! m); [|done]. by case_bool_decide.
  - eapply frames_run_id; [apply frames_delete_position|].
    unfold delete_position. erewrite st_bind_eq by exact H1. done.
Qed.

(** The listing of a market: the indexed addresses with a non-empty position. *)
Lemma get_all_positions_spec s m l a p :
  get_all_positions_in_market s m = Ok l ->
  (a, p) ∈ l <->
  exists set, get_position_addresses s m = Ok set /\ a ∈ set /\
    get_position s a m = Ok (Some p) /\ 0 < pos_size p.
Proof.
  unfold get_all_positions_in_market. intros H.
  apply result_bind_Ok in H as (set & Hset & H). simplify_eq. rewrite Hset.
  rewrite list_elem_of_omap. split.
  - intros (x & Hx & Hm). rewrite hash_order_perm in Hx. apply elem_of_elements in Hx.
    destruct (get_position s x m) as [[q|]|] eqn:E; simpl in Hm; try done.
    destruct (Z.ltb_spec 0 (pos_size q)); simplify_eq. eauto 10.
  - intros (set' & ? & Ha & Hp & Hs). simplify_eq. exists a. split.
    + rewrite hash_order_perm. by apply elem_of_elements.
    + rewrite Hp. simpl. by destruct (Z.ltb_spec 0 (pos_size p)); [|lia].
Qed.

(** The in-memory index knows every stored position of market [m]. *)
Definition index_complete s m : Prop :=
  forall a, is_Some (sv s (SK_Position a m)) ->
    exists set, sm_position_index s !! m = Some set /\ a ∈ set.

(** As long as the index of a market is loaded and complete, updating a
    position keeps it complete, and the market's listing shows exactly the
    non-empty positions that [get_position] returns. *)
Theorem set_position_listed s m b q s' l :
  index_complete s m ->
  set_position b m q s = (Ok tt, s') ->
  get_all_positions_in_market s' m = Ok l ->
  index_complete s' m /\
  forall a p, (a, p) ∈ l <-> get_position s' a m = Ok (Some p) /\ 0 < pos_size p.
Proof.
  intros Hc Hs Hl. destruct (set_position_spec b m q s) as (s0 & Hs0 & Hp & Hi & Hf).
  rewrite Hs0 in Hs. simplify_eq.
  assert (Hc' : index_complete s' m).
  { intros a Ha. rewrite Hi, lookup_insert_eq. eexists. split; [done|].
    destruct (decide (a = b)) as [->|Hne]; [set_solver|].
    destruct (Hc a) as (set & Hset & Hin).
    { destruct Hf as [_ Hf]. rewrite <- Hf; [done|]. intros [?|?]; congruence. }
    rewrite Hset. set_solver. }
  split; [done|]. intros a p. rewrite (get_all_positions_spec _ _ _ _ _ Hl). split.
  - intros (set & _ & _ & ? & ?). done.
  - intros [Ha Hsz]. destruct (Hc' a) as (set & Hset & Hin).
    { unfold get_position in Ha. rewrite sm_get_sv in Ha. unfold decode in Ha.
      destruct (sv s' _); [done|congruence]. }
    exists set. unfold get_position_addresses. rewrite Hset. done.
Qed.

(** After a restart the in-memory index is empty and nothing reloads
    it: the first position written in a market replaces the market's index by
    its single address, and every other position, although still stored, is
    missing from the listing. *)
Theorem restart_forgets_positions d config h m b q s' l :
  set_position b m q (StateManager_new d config h) = (Ok tt, s') ->
  get_all_positions_in_market s' m = Ok l ->
  (forall a p, (a, p) ∈ l -> a = b) /\
  (forall a, a <> b ->
     get_position s' a m = get_position (StateManager_new d config h) a m).
Proof.
  intros Hs Hl.
  destruct (set_position_spec b m q (StateManager_new d config h)) as (s0 & Hs0 & Hp & Hi & Hf).
  rewrite Hs0 in Hs. simplify_eq. split.
  - intros a p Hin. apply (get_all_positions_spec _ _ _ _ _ Hl) in Hin as (set & Hset & Hin & _).
    unfold get_position_addresses in Hset. rewrite Hi, lookup_insert_eq in Hset.
    simpl in Hset. rewrite lookup_empty in Hset. simplify_eq. set_solver.
  - intros a Hne. eapply get_position_frame; [done|]. intros [?|?]; congruence.
Qed.

(** ** Order identifiers *)

Lemma next_order_id_Ok s id0 s' :
  next_order_id s = (Ok id0, s') ->
  get_or_default 0 s SK_NextOrderId = Ok id0 /\
  id0 + 1 <= U64_MAX /\ get_or_default 0 s' SK_NextOrderId = Ok (id0 + 1).
Proof.
  unfold next_order_id. intros H. inv_ok.
  match goal with
  | Hc : checked_add_u64 ?c 1 = Some ?x, Hs : on_storage (storage_set _ ?x) _ = _ |- _ =>
      unfold checked_add_u64 in Hc; destruct (Z.leb_spec (c + 1) U64_MAX); simplify_eq;
      apply set_read_back in Hs; [|apply _]; rename Hs into Hback
  end.
  split_and!; [done|done|]. unfold get_or_default. by rewrite Hback.
Qed.

(** Order ids are never reused: whatever happens between two
    successful calls of [next_order_id], provided it does not write the counter,
    the second id is the successor of the first; at [u64::MAX] the call fails and
    changes nothing. *)
Theorem next_order_id_fresh s1 id1 s2 s3 id2 s4 :
  next_order_id s1 = (Ok id1, s2) ->
  frame (fun k => k <> SK_NextOrderId) s2 s3 ->
  next_order_id s3 = (Ok id2, s4) ->
  id2 = id1 + 1 /\ id2 < U64_MAX /\
  (forall s, get_or_default 0 s SK_NextOrderId = Ok U64_MAX ->
     next_order_id s = (Err StateOther, s)).
Proof.
  intros H1 F H2.
  apply next_order_id_Ok in H1 as (_ & _ & E1). apply next_order_id_Ok in H2 as (E2 & ? & _).
  rewrite (get_or_default_frame _ _ _ _ _ _ F) in E2 by tauto.
  rewrite E1 in E2. simplify_eq. split_and!; [done|lia|].
  intros s Hs. unfold next_order_id, st_bind, st_read. by rewrite Hs.
Qed.

(** ** Active orders *)

Lemma get_nums_set key l s u s' :
  on_storage (storage_set key l) s = (Ok u, s') ->
  get_or_default (T:=list Z) [] s' key = Ok l.
Proof. intros H. apply set_read_back in H; [|apply _]. unfold get_or_default. by rewrite H. Qed.

Lemma active_orders_flag m o s t :
  frame (eq (SK_ActiveOrder m o)) s t ->
  get_active_orders_by_market t m = get_active_orders_by_market s m.
Proof. intros F. eapply get_or_default_frame; [done|discriminate]. Qed.

Lemma add_active_order_spec m o s u s' :
  add_active_order m o s = (Ok u, s') ->
  exists l l', get_active_orders_by_market s m = Ok l /\
    get_active_orders_by_market s' m = Ok l' /\
    (NoDup l -> NoDup l') /\ forall x, x ∈ l' <-> x = o \/ x ∈ l.
Proof.
  unfold add_active_order. intros H. inv_ok.
  match goal with H1 : on_storage _ s = (Ok _, ?t) |- _ =>
    pose proof (active_orders_flag m o s t (set_frame _ _ _ _ _ _ H1)) as Hl end.
  unfold get_active_orders_by_market at 1 in Hl.
  match goal with Hr : _ = Ok ?l |- _ => rewrite Hr in Hl; symmetry in Hl; exists l end.
  case_bool_decide as Hin; inv_ok.
  - eexists. split_and!; [done|done|done|]. set_solver.
  - eexists. split_and!; [done|by eapply get_nums_set| |].
    + intros Hnd. apply NoDup_app. split_and!; [done|set_solver|apply NoDup_singleton].
    + set_solver.
Qed.

Lemma remove_active_order_spec m o s u s' :
  remove_active_order m o s = (Ok u, s') ->
  exists l l', get_active_orders_by_market s m = Ok l /\
    get_active_orders_by_market s' m = Ok l' /\
    (NoDup l -> NoDup l') /\ forall x, x ∈ l' <-> x <> o /\ x ∈ l.
Proof.
  unfold remove_active_order. intros H. inv_ok.
  match goal with H1 : on_storage _ s = (Ok _, ?t) |- _ =>
    pose proof (active_orders_flag m o s t (delete_frame _ _ _ _ H1)) as Hl end.
  unfold get_active_orders_by_market at 1 in Hl.
  match goal with Hr : _ = Ok ?l |- _ => rewrite Hr in Hl; symmetry in Hl; exists l end.
  eexists. split_and!; [done|by eapply get_nums_set| |].
  - intros Hnd. by apply NoDup_filter.
  - intros y. by rewrite list_elem_of_filter.
Qed.

End functional.

(** * Witnesses *)

Definition sm_demo : StateManager := StateManager_new ∅ demo_config demo_hash.

Lemma sm_demo_empty k : sv sm_demo k = None.
Proof. reflexivity. Qed.

Lemma sm_demo_wf : storage_wf (sm_storage sm_demo).
Proof. apply storage_new_wf. Qed.

Definition demo_position : Position :=
  {| pos_size := 10; pos_entry_price := 50000; pos_is_long := true; pos_margin := 50000;
     pos_funding_index := 0 |}.

Definition sm_one_position : StateManager := snd (set_position 1 0 demo_position sm_demo).
Definition sm_two_positions : StateManager := snd (set_position 2 0 demo_position sm_one_position).

(** The two addresses are listed. *)
Lemma set_position_listed_witness :
  exists l, get_all_positions_in_market sm_two_positions 0 = Ok l /\
    (1, demo_position) ∈ l /\ (2, demo_position) ∈ l.
Proof.
  assert (C1 : index_complete sm_one_position 0).
  { apply (set_position_listed sm_demo 0 1 demo_position sm_one_position
             [(1, demo_position)]);
      [by intros a [b Hb]; rewrite sm_demo_empty in Hb
      |apply (run_result (set_position 1 0 demo_position) sm_demo (Ok tt)); reflexivity
      |vm_compute; reflexivity]. }
  exists [(2, demo_position); (1, demo_position)].
  assert (L : get_all_positions_in_market sm_two_positions 0
              = Ok [(2, demo_position); (1, demo_position)]) by (vm_compute; reflexivity).
  split; [done|].
  pose proof (set_position_listed sm_one_position 0 2 demo_position sm_two_positions
    [(2, demo_position); (1, demo_position)] C1
    (run_result (set_position 2 0 demo_position) sm_one_position (Ok tt) eq_refl) L) as [_ H].
  split; apply H; (split; [vm_compute; reflexivity|reflexivity]).
Defined.

(** The database of a chain where address 1 holds a position, reopened. *)
Definition demo_disk : gmap StorageKey DbValue :=
  db (sm_storage (snd (commit (begin_block 1 sm_one_position)))).
Definition sm_reopened : StateManager := StateManager_new demo_disk demo_config demo_hash.
Definition sm_after_restart : StateManager := snd (set_position 2 0 demo_position sm_reopened).

Lemma restart_forgets_positions_witness :
  get_position sm_after_restart 1 0 = Ok (Some demo_position) /\
  forall a p, (a, p) ∈ [(2, demo_position)] -> a = 2.
Proof.
  assert (L : get_all_positions_in_market sm_after_restart 0 = Ok [(2, demo_position)])
    by (vm_compute; reflexivity).
  pose proof (restart_forgets_positions demo_disk demo_config demo_hash 0 2 demo_position sm_after_restart
    [(2, demo_position)]
    (run_result (set_position 2 0 demo_position) sm_reopened (Ok tt) eq_refl) L) as [H1 H2].
  split; [|exact H1]. rewrite (H2 1) by done. vm_compute. reflexivity.
Defined.

Lemma next_order_id_fresh_witness :
  fst (next_order_id (snd (next_order_id sm_demo))) = Ok 1 /\ 1 = 0 + 1.
Proof.
  split; [vm_compute; reflexivity|].
  set (s1 := snd (next_order_id sm_demo)).
  apply (next_order_id_fresh sm_demo 0 s1 s1 1 (snd (next_order_id s1)));
    [apply (run_result next_order_id sm_demo (Ok 0)); vm_compute; reflexivity
    |apply frame_refl
    |apply (run_result next_order_id s1 (Ok 1)); vm_compute; reflexivity].
Defined.
