(* ===== verification/Backup.v ===== *)
(** Checkpoints, backups and statistics of the storage (the last part of
    crates/state/src/rocksdb_storage.rs).  RocksDB's checkpoint and backup
    engine are parameters: each call may fail, and of a call that succeeds the
    theorems use what RocksDB documents. *)
From stdpp Require Import base gmap sets list strings.
From Stdlib Require Import ZArith Lia.
From S2P Require Import Prelude Types Storage State.

(** * RocksDB *)

Section rocksdb.
Context {B : Backend}.
Notation Db := (gmap StorageKey DbValue).

(** [World] holds the files; errors carry texts only. *)
Class RocksDb := {
  World : Type;
  Checkpoint : Type;
  BackupEngine : Type;
  BackupOpts : Type;
  Env : Type;
  checkpoint_new : Db -> ST World unit Checkpoint;
  checkpoint_create : Checkpoint -> string -> ST World unit unit;
  backup_options_new : string -> ST World unit BackupOpts;
  env_new : ST World unit Env;
  backup_open : BackupOpts -> Env -> ST World unit BackupEngine;
  create_new_backup : BackupEngine -> Db -> ST World unit unit;
  purge_old_backups : BackupEngine -> nat -> ST World unit unit;
  (** into a database directory and a directory of logs *)
  engine_restore : BackupEngine -> string -> string -> Z -> ST World unit unit;
  property_value : Db -> string -> option (option string);
  db_flush : ST World unit unit;
  (** the length of a value as RocksDB holds it *)
  value_len : DbValue -> Z;
}.

(** The backups under a path, oldest first, and the database in a directory. *)
Class RocksDbOk (R : RocksDb) := {
  backups : World -> string -> list (Z * Db);
  db_at : World -> string -> option Db;
  opts_path : BackupOpts -> string;
  engine_path : BackupEngine -> string;
  checkpoint_db : Checkpoint -> Db;
  checkpoint_new_ok d w c w' : checkpoint_new d w = (Ok c, w') -> checkpoint_db c = d;
  checkpoint_create_ok c path w w' :
    checkpoint_create c path w = (Ok tt, w') -> db_at w' path = Some (checkpoint_db c);
  options_ok path w : let '(r, w') := backup_options_new path w in
    (forall p, backups w' p = backups w p) /\
    match r with Ok o => opts_path o = path | Err _ => True end;
  env_ok w p : backups (env_new w).2 p = backups w p;
  open_ok o e w : let '(r, w') := backup_open o e w in
    (forall p, backups w' p = backups w p) /\
    match r with Ok en => engine_path en = opts_path o | Err _ => True end;
  create_ok en d w : let '(r, w') := create_new_backup en d w in
    (forall p, p <> engine_path en -> backups w' p = backups w p) /\
    match r with
    | Ok _ => exists id, id ∉ (backups w (engine_path en)).*1 /\
        backups w' (engine_path en) = backups w (engine_path en) ++ [(id, d)]
    | Err _ => backups w' (engine_path en) = backups w (engine_path en)
    end;
  (** a purge deletes the oldest, all but [n] if it succeeds *)
  purge_ok en n w : let '(r, w') := purge_old_backups en n w in
    (forall p, p <> engine_path en -> backups w' p = backups w p) /\
    exists k, backups w' (engine_path en) = drop k (backups w (engine_path en)) /\
      (k <= length (backups w (engine_path en)) - n)%nat /\
      (is_ok r = true -> k = length (backups w (engine_path en)) - n)%nat;
  restore_ok en q logs id w : let '(r, w') := engine_restore en q logs id w in
    (forall p, backups w' p = backups w p) /\
    match r with
    | Ok _ => exists d, (id, d) ∈ backups w (engine_path en) /\ db_at w' q = Some d
    | Err _ => True
    end;
}.

(** * The operations *)

Section operations.
Context {R : RocksDb}.
Notation Disk A := (ST World StateError A).

(** [map_err(|e| StateError::StorageError(format!(..)))] *)
Definition storage_error {A} (m : ST World unit A) : Disk A := st_map_err (fun _ => StorageError) m.

Definition get_current_version (st : RocksDbStorage) : Z := current_version st.

(** The values only; an entry that cannot be read is skipped, and the sum wraps. *)
Definition get_db_size (st : RocksDbStorage) : result StateError Z :=
  Ok (as_u64 (sumZ (fun kv => value_len kv.2) (map_to_list (db st)))).
Definition sm_get_db_size (s : StateManager) : result StateError Z := get_db_size (sm_storage s).

Definition create_checkpoint (checkpoint_path : string) (st : RocksDbStorage) : Disk unit :=
  let! checkpoint := storage_error (checkpoint_new (db st)) in
  storage_error (checkpoint_create checkpoint checkpoint_path).

Definition create_backup (backup_path : string) (st : RocksDbStorage) : Disk unit :=
  let! backup_opts := storage_error (backup_options_new backup_path) in
  let! env := storage_error env_new in
  let! backup_engine := storage_error (backup_open backup_opts env) in
  storage_error (create_new_backup backup_engine (db st)) ;;
  storage_error (purge_old_backups backup_engine 10) ;;
  st_ret tt.

Definition restore_from_backup (backup_path restore_path : string) (backup_id : Z) : Disk unit :=
  let! backup_opts := storage_error (backup_options_new backup_path) in
  let! env := storage_error env_new in
  let! backup_engine := storage_error (backup_open backup_opts env) in
  storage_error (engine_restore backup_engine restore_path restore_path backup_id) ;;
  st_ret tt.

(** [.ok().flatten()] *)
Definition get_statistics (st : RocksDbStorage) : option string :=
  mjoin (property_value (db st) "rocksdb.stats").

Definition flush : Disk unit := storage_error db_flush.
(** Dropping the storage: a failing flush is only logged. *)
Definition drop_storage : ST World unit unit := fun w => (Ok tt, (db_flush w).2).
End operations.

(** * Properties *)

Section properties.
Context {R : RocksDb} {Rok : RocksDbOk R}.
Implicit Types (w : World) (st : RocksDbStorage).

(** The steps that both operations start with: nothing changes, and the engine
    that opens works on the path. *)
Definition open_engine (path : string) : ST World StateError BackupEngine :=
  let! backup_opts := storage_error (backup_options_new path) in
  let! env := storage_error env_new in
  storage_error (backup_open backup_opts env).

Lemma open_engine_ok path w : let '(r, w') := open_engine path w in
  (forall p, backups w' p = backups w p) /\
  match r with Ok en => engine_path en = path | Err _ => True end.
Proof.
  unfold open_engine, storage_error, st_map_err, st_bind.
  pose proof (options_ok path w) as H1. destruct (backup_options_new path w) as [[o|[]] w1];
    cbn; [|by destruct H1]. destruct H1 as [H1 Ho].
  pose proof (env_ok w1) as H2. destruct (env_new w1) as [[e|[]] w2]; cbn in *;
    [|split; [intros p; by rewrite H2|done]].
  pose proof (open_ok o e w2) as H3. destruct (backup_open o e w2) as [[en|[]] w3]; cbn.
  - destruct H3 as [H3 He]. split; [intros p; by rewrite H3, H2, H1|congruence].
  - destruct H3 as [H3 _]. split; [intros p; by rewrite H3, H2, H1|done].
Qed.

Lemma open_engine_bind {A} path (k : BackupEngine -> ST World StateError A) w :
  (let! backup_opts := storage_error (backup_options_new path) in
   let! env := storage_error env_new in
   let! en := storage_error (backup_open backup_opts env) in k en) w =
  (let! en := open_engine path in k en) w.
Proof.
  unfold open_engine, st_bind. destruct (storage_error (backup_options_new path) w) as [[o|e] w1]; [|done].
  by destruct (storage_error env_new w1) as [[en|e] w2].
Qed.

(** A storage opened on the database of another reads what that one reads from
    disk, and has nothing pending. *)
Lemma reopened_reads st config h :
  let st' := storage_new (db st) config h in
  pending_updates st' = ∅ /\ list_snapshots st' = list_snapshots st /\
  forall version kh, get_value_option st' version kh = get_value_option st version kh.
Proof. split_and!; [done|done|]. intros version kh. by apply get_value_option_ext. Qed.

Lemma restore_run p q id w w' :
  restore_from_backup p q id w = (Ok tt, w') ->
  exists d, (id, d) ∈ backups w p /\ db_at w' q = Some d.
Proof.
  unfold restore_from_backup. rewrite open_engine_bind. unfold st_bind.
  pose proof (open_engine_ok p w) as Ho. destruct (open_engine p w) as [[en|e] w1]; [|done].
  destruct Ho as [Hb Hp]. unfold storage_error, st_map_err.
  pose proof (restore_ok en q q id w1) as Hr. destruct (engine_restore en q q id w1) as [[[]|[]] w2]; [|done].
  cbn. intros [= <-]. destruct Hr as (_ & d & Hin & Hd). exists d. by rewrite <- Hb, <- Hp.
Qed.

(** C18: Backups. A backup that succeeds holds exactly the committed database,
    under a new id, beside at most nine of the older ones, the newest; restoring
    that id anywhere and opening the storage there gives every read, at every
    version, and the snapshots of the original, without its uncommitted writes.
    One that fails, at whatever step, may still have been added, and costs none
    of the ten newest backups. Other backup directories are not touched. *)
Theorem backup_roundtrip p st w :
  let '(r, w') := create_backup p st w in
  let old := backups w p in
  (forall q, q <> p -> backups w' q = backups w q) /\
  match r with
  | Ok _ => exists id, id ∉ old.*1 /\
      backups w' p = drop (length old - 9) old ++ [(id, db st)] /\
      forall q w2 config h, restore_from_backup p q id w' = (Ok tt, w2) ->
        db_at w2 q = Some (db st) /\
        let st' := storage_new (db st) config h in
        pending_updates st' = ∅ /\ list_snapshots st' = list_snapshots st /\
        forall version kh, get_value_option st' version kh = get_value_option st version kh
  | Err _ =>
      backups w' p = old \/
      exists id k, backups w' p = drop k (old ++ [(id, db st)]) /\ (k <= length old - 9)%nat
  end.
Proof.
  unfold create_backup. rewrite open_engine_bind. unfold st_bind.
  pose proof (open_engine_ok p w) as Ho. destruct (open_engine p w) as [[en|e] w1];
    [|split; [intros q _; apply Ho|left; apply Ho]].
  destruct Ho as [Hb Hp]. unfold storage_error, st_map_err.
  pose proof (create_ok en (db st) w1) as Hc. destruct (create_new_backup en (db st) w1) as [[[]|[]] w2];
    destruct Hc as [Hcq Hc]; rewrite Hp in *; cbn [map_err];
    [|split; [intros q Hq; by rewrite Hcq, Hb|left; by rewrite Hc, Hb]].
  destruct Hc as (id & Hid & Hc). rewrite Hb in *.
  pose proof (purge_ok en 10 w2) as Hpu. destruct (purge_old_backups en 10 w2) as [r w3].
  destruct Hpu as [Hpq (k & Hk & Hle & Hall)]. rewrite Hp in *. rewrite Hc, length_app in Hle, Hall. cbn in Hle, Hall.
  assert (Hq : forall q, q <> p -> backups w3 q = backups w q) by (intros q Hq; by rewrite Hpq, Hcq, Hb).
  destruct r as [[]|[]]; cbn [map_err]; (split; [exact Hq|]).
  - exists id. split; [done|].
    assert (Hlist : backups w3 p = drop (length (backups w p) - 9) (backups w p) ++ [(id, db st)]).
    { rewrite Hk, Hall by done. rewrite Hc, drop_app_le by lia. f_equal. f_equal. lia. }
    split; [exact Hlist|]. intros q w4 config h Hre.
    destruct (restore_run _ _ _ _ _ Hre) as (d & Hin & Hd).
    assert (d = db st) as ->.
    { rewrite Hlist in Hin. apply elem_of_app in Hin as [Hin|Hin]; [|set_solver].
      destruct Hid. apply list_elem_of_fmap. exists (id, d). split; [done|].
      by eapply subseteq_drop, Hin. }
    split; [exact Hd|apply reopened_reads].
  - right. exists id, k. rewrite Hk, Hc. split; [done|lia].
Qed.

(** A checkpoint opens as the storage it was taken of. *)
Lemma checkpoint_opens path st w w' :
  create_checkpoint path st w = (Ok tt, w') -> db_at w' path = Some (db st).
Proof.
  unfold create_checkpoint, storage_error, st_map_err, st_bind.
  destruct (checkpoint_new (db st) w) as [[c|[]] w1] eqn:E1; cbn; [|done].
  destruct (checkpoint_create c path w1) as [[[]|[]] w2] eqn:E2; cbn; [|done]. intros [= <-].
  rewrite (checkpoint_create_ok _ _ _ _ E2). f_equal. by eapply checkpoint_new_ok.
Qed.
End properties.
End rocksdb.

(** * Witness *)

Section toy.
Context {B : Backend}.
Notation Db := (gmap StorageKey DbValue).

(** Backups by path, databases by directory; a new backup gets the number of the
    newest one plus 1, and only what is missing fails. *)
Definition ToyDisk : Type := gmap string (list (Z * Db)) * gmap string Db.
Definition toy_backups (w : ToyDisk) (p : string) : list (Z * Db) := default [] (w.1 !! p).
Definition next_id (l : list (Z * Db)) : Z := foldr (fun e m => Z.max (e.1 + 1) m) 1 l.

Definition toy_rocksdb : RocksDb := {|
  World := ToyDisk; Checkpoint := Db; BackupEngine := string; BackupOpts := string; Env := unit;
  checkpoint_new d := st_ret d;
  checkpoint_create d path := st_modify (fun w => (w.1, <[path := d]> w.2));
  backup_options_new path := st_ret path;
  env_new := st_ret tt;
  backup_open o _ := st_ret o;
  create_new_backup en d := st_modify (fun w =>
    (<[en := toy_backups w en ++ [(next_id (toy_backups w en), d)]]> w.1, w.2));
  purge_old_backups en n := st_modify (fun w =>
    (<[en := drop (length (toy_backups w en) - n) (toy_backups w en)]> w.1, w.2));
  engine_restore en q _ id := fun w =>
    match list_find (fun e => e.1 = id) (toy_backups w en) with
    | Some (_, (_, d)) => (Ok tt, (w.1, <[q := d]> w.2))
    | None => (Err tt, w)
    end;
  property_value _ _ := None;
  db_flush := st_ret tt;
  value_len _ := 1;
|}.

Lemma next_id_fresh l : next_id l ∉ l.*1.
Proof.
  assert (H : forall x, x ∈ l.*1 -> x < next_id l).
  { induction l as [|e l IH]; intros x; [by intros ?%elem_of_nil|].
    change (next_id (e :: l)) with (Z.max (e.1 + 1) (next_id l)). cbn [fmap list_fmap].
    intros [->|Hx]%elem_of_cons; [lia|]. specialize (IH x Hx). lia. }
  intros Hin. specialize (H _ Hin). lia.
Qed.

Lemma toy_backups_other (m : gmap string (list (Z * Db))) d p q l :
  q <> p -> toy_backups (<[p := l]> m, d) q = toy_backups (m, d) q.
Proof. intros H. unfold toy_backups. cbn. by rewrite lookup_insert_ne by congruence. Qed.
Lemma toy_backups_same (m : gmap string (list (Z * Db))) d p l : toy_backups (<[p := l]> m, d) p = l.
Proof. unfold toy_backups. cbn. by rewrite lookup_insert_eq. Qed.

Definition toy_rocksdb_ok : RocksDbOk toy_rocksdb.
Proof.
  unshelve refine {|
    backups := toy_backups : @World B toy_rocksdb -> _;
    db_at := fun w q => w.2 !! q;
    opts_path := fun o => o; engine_path := fun e => e; checkpoint_db := fun c => c |}.
  - by intros d w c w' [= <- <-].
  - intros c path w w' [= <-]. cbn. by rewrite lookup_insert_eq.
  - done.
  - done.
  - done.
  - intros en d [m f]. cbn. split; [by intros p Hp; apply toy_backups_other|].
    exists (next_id (toy_backups (m, f) en)). split; [apply next_id_fresh|apply toy_backups_same].
  - intros en n [m f]. cbn. split; [by intros p Hp; apply toy_backups_other|].
    exists (length (toy_backups (m, f) en) - n)%nat. split; [apply toy_backups_same|done].
  - intros en q logs id [m f]. cbn.
    destruct (list_find _ _) as [[i [id' d]]|] eqn:E; [|done].
    apply list_find_Some in E as (Hi & He & _). cbn in He. subst id'. split; [done|].
    exists d. split; [by eapply list_elem_of_lookup_2|]. cbn. by rewrite lookup_insert_eq.
Defined.

Lemma toy_backup_succeeds p st (w : World (RocksDb := toy_rocksdb)) :
  create_backup p st w = (Ok tt, (create_backup p st w).2).
Proof. reflexivity. Qed.
End toy.

#[local] Existing Instance toy_rocksdb.
#[local] Existing Instance toy_rocksdb_ok.

(** A store at version 3, with a write pending, after ten backups of an empty one. *)
Definition demo_stored : RocksDbStorage (B := mem_backend) :=
  with_pending {[SK_Nonce 7 := BlobNum 5]} (storage_new {[CurrentVersion := DbVersion 3]} demo_config demo_hash).
Definition demo_disk_world : World (RocksDb := toy_rocksdb (B := mem_backend)) := Nat.iter 10
  (fun w => (create_backup "/backup" (storage_new ∅ demo_config demo_hash) w).2) (∅, ∅).
Definition demo_backed_up : World (RocksDb := toy_rocksdb (B := mem_backend)) :=
  (create_backup "/backup" demo_stored demo_disk_world).2.

Lemma run_Ok {S E} (x : result E unit * S) : is_ok x.1 = true -> x = (Ok tt, x.2).
Proof. by destruct x as [[[]|e] s]. Qed.

Lemma backup_roundtrip_witness :
  map fst (backups demo_backed_up "/backup"%string) = [2; 3; 4; 5; 6; 7; 8; 9; 10; 11] /\
  db_at (restore_from_backup "/backup" "/restored" 11 demo_backed_up).2 "/restored"%string =
    Some (db demo_stored).
Proof.
  assert (Hids : map fst (backups demo_backed_up "/backup"%string) = [2; 3; 4; 5; 6; 7; 8; 9; 10; 11])
    by (vm_compute; reflexivity).
  split; [exact Hids|].
  pose proof (backup_roundtrip "/backup" demo_stored demo_disk_world) as H.
  pose proof (toy_backup_succeeds "/backup" demo_stored demo_disk_world) as E.
  fold demo_backed_up in E. rewrite E in H. clear E.
  destruct H as (_ & id & _ & Hl & Hre).
  assert (Hid : id = 11).
  { apply (f_equal (map fst)) in Hl. rewrite Hids, map_app in Hl. cbn [map fst] in Hl.
    apply (f_equal last) in Hl. rewrite last_snoc in Hl. by injection Hl as <-. }
  rewrite Hid in Hre. clear Hl Hids Hid.
  assert (Hok : is_ok (restore_from_backup "/backup" "/restored" 11 demo_backed_up).1 = true)
    by (vm_compute; reflexivity).
  exact (proj1 (Hre "/restored"%string _ demo_config demo_hash (run_Ok _ Hok))).
Defined.
