(* ===== verification/Index.v ===== *)
(** Index managers (crates/state/src/index_manager.rs): the addresses with a
    position in a market and the active orders of a market, kept in memory and
    mirrored to the store after each change. *)
From stdpp Require Import base gmap sets list sorting strings.
From Stdlib Require Import ZArith Lia.
From S2P Require Import Prelude Types Storage State.

(** * The maps from markets to sets *)

Notation SetIndex := (gmap Z (gset Z)) (only parsing).

(** [index.entry(market_id).or_default().insert(x)] *)
Definition index_insert (market_id x : Z) (index : SetIndex) : SetIndex :=
  <[market_id := {[x]} ∪ default ∅ (index !! market_id)]> index.

(** Remove [x], and the entry with its last element. *)
Definition index_remove (market_id x : Z) (index : SetIndex) : SetIndex :=
  match index !! market_id with
  | Some set =>
      let set' := set ∖ {[x]} in
      if bool_decide (set' = ∅) then delete market_id index else <[market_id := set']> index
  | None => index
  end.

(** The operations, and the relation they maintain. *)
Inductive IndexOp := IdxAdd (market_id x : Z) | IdxRemove (market_id x : Z).
Definition index_step (index : SetIndex) (op : IndexOp) : SetIndex :=
  match op with IdxAdd m x => index_insert m x index | IdxRemove m x => index_remove m x index end.
Definition pairs_step (pairs : gset (Z * Z)) (op : IndexOp) : gset (Z * Z) :=
  match op with IdxAdd m x => {[(m, x)]} ∪ pairs | IdxRemove m x => pairs ∖ {[(m, x)]} end.

(** The map holds the relation and no empty set. *)
Definition index_of_pairs (index : SetIndex) (pairs : gset (Z * Z)) : Prop :=
  (forall m x, x ∈ default ∅ (index !! m) <-> (m, x) ∈ pairs) /\
  (forall m set, index !! m = Some set -> set <> ∅).

Lemma index_step_pairs index pairs op :
  index_of_pairs index pairs -> index_of_pairs (index_step index op) (pairs_step pairs op).
Proof.
  intros [Hp Hne]. destruct op as [m x|m x]; cbn [index_step pairs_step].
  - unfold index_insert. split.
    + intros m' x'. destruct (decide (m' = m)) as [->|Hm].
      * rewrite lookup_insert_eq. cbn. specialize (Hp m x'). set_solver.
      * rewrite lookup_insert_ne by done. rewrite Hp. set_solver.
    + intros m' set. rewrite lookup_insert_Some. intros [[<- <-]|[_ H]]; [set_solver|by eapply Hne].
  - unfold index_remove. pose proof (Hp m) as Hm. destruct (index !! m) as [set|] eqn:E; cbn in Hm.
    + case_bool_decide as Hd; split.
      * intros m' x'. destruct (decide (m' = m)) as [->|Hne'].
        -- rewrite lookup_delete_eq. cbn. specialize (Hm x'). set_solver.
        -- rewrite lookup_delete_ne by done. rewrite Hp. set_solver.
      * intros m' set'. rewrite lookup_delete_Some. intros [_ H]. by eapply Hne.
      * intros m' x'. destruct (decide (m' = m)) as [->|Hne'].
        -- rewrite lookup_insert_eq. cbn. specialize (Hm x'). set_solver.
        -- rewrite lookup_insert_ne by done. rewrite Hp. set_solver.
      * intros m' set'. rewrite lookup_insert_Some. intros [[<- <-]|[_ H]]; [done|by eapply Hne].
    + split; [|done]. intros m' x'. rewrite Hp. specialize (Hm x). set_solver.
Qed.

Lemma index_step_other index op m :
  m <> match op with IdxAdd m _ | IdxRemove m _ => m end -> index_step index op !! m = index !! m.
Proof.
  destruct op as [m' x|m' x]; cbn; intros Hm.
  - unfold index_insert. by rewrite lookup_insert_ne.
  - unfold index_remove. destruct (index !! m'); [|done].
    case_bool_decide; by rewrite ?lookup_delete_ne, ?lookup_insert_ne.
Qed.

(** * The managers *)

Section managers.
Context {B : Backend}.

Record IndexManager := {
  im_index : SetIndex;
  im_storage : RocksDbStorage;
  im_version : Z;
}.
Notation IndexM := (ST IndexManager StateError).

Definition IndexManager_new (storage : RocksDbStorage) (version : Z) : IndexManager :=
  {| im_index := ∅; im_storage := storage; im_version := version |}.
Definition with_im_index (index : SetIndex) (t : IndexManager) : IndexManager :=
  {| im_index := index; im_storage := im_storage t; im_version := im_version t |}.
Definition with_im_storage (st : RocksDbStorage) (t : IndexManager) : IndexManager :=
  {| im_index := im_index t; im_storage := st; im_version := im_version t |}.
Definition set_version (version : Z) (t : IndexManager) : IndexManager :=
  {| im_index := im_index t; im_storage := im_storage t; im_version := version |}.
Definition on_index_storage {A} (m : ST RocksDbStorage StateError A) : IndexM A :=
  st_zoom im_storage with_im_storage m.

(** ** [PositionIndexManager] *)
Definition persist_index (market_id : Z) : IndexM unit :=
  let! index := st_gets (fun t => default ∅ (im_index t !! market_id)) in
  on_index_storage (storage_set_hashed (SK_PositionIndex market_id) index).

Definition persist_or_delete_index (market_id : Z) : IndexM unit :=
  let! found := st_gets (fun t => im_index t !! market_id) in
  match found with
  | Some index => on_index_storage (storage_set_hashed (SK_PositionIndex market_id) index)
  | None => on_index_storage (storage_delete (SK_PositionIndex market_id))
  end.

Definition add_position (market_id : Z) (address : Address) : IndexM unit :=
  st_modify (fun t => with_im_index (index_insert market_id address (im_index t)) t) ;;
  persist_index market_id.

Definition remove_position (market_id : Z) (address : Address) : IndexM unit :=
  st_modify (fun t => with_im_index (index_remove market_id address (im_index t)) t) ;;
  persist_or_delete_index market_id.

Definition get_addresses (t : IndexManager) (market_id : Z) : option (gset Address) :=
  im_index t !! market_id.

(** Collecting pairs into a map: a later pair replaces an earlier one. *)
Definition collect_index (found : list (Z * gset Z)) : SetIndex :=
  foldl (fun index kv => <[kv.1 := kv.2]> index) ∅ found.

Definition position_rebuild (markets : list Z) : IndexM unit :=
  st_modify (fun t => with_im_index (collect_index (omap (fun market_id =>
    (fun addresses => (market_id, addresses)) <$>
      ok_flatten (storage_get (H := serde_set (hash_state (im_storage t))) (im_storage t)
        (SK_PositionIndex market_id) (im_version t))) markets)) t).

(** ** [OrderIndexManager] *)
Definition OrderIndexManager_new (storage : RocksDbStorage) (version : Z) : IndexManager :=
  {| im_index := ∅; im_storage := storage; im_version := version |}.
Definition order_set_version (version : Z) (t : IndexManager) : IndexManager :=
  {| im_index := im_index t; im_storage := im_storage t; im_version := version |}.
Definition order_list (h : HashState) (orders : gset Z) : list Z :=
  hash_order (HashOrder := hash_order_in h) (elements orders).
Definition store_order_list (market_id : Z) (orders : gset Z) : ST RocksDbStorage StateError unit :=
  let! h := st_gets hash_state in
  storage_set (SK_ActiveOrderList market_id) (order_list h orders) ;;
  st_modify rehash.

Definition persist_order_list (market_id : Z) : IndexM unit :=
  let! found := st_gets (fun t => im_index t !! market_id) in
  on_index_storage (match found with
    | Some orders => store_order_list market_id orders
    | None => storage_set (SK_ActiveOrderList market_id) ([] : list Z)
    end).

Definition persist_or_delete_order_list (market_id : Z) : IndexM unit :=
  let! found := st_gets (fun t => im_index t !! market_id) in
  match found with
  | Some orders => on_index_storage (store_order_list market_id orders)
  | None => on_index_storage (storage_delete (SK_ActiveOrderList market_id))
  end.

Definition add_order (market_id order_id : Z) : IndexM unit :=
  st_modify (fun t => with_im_index (index_insert market_id order_id (im_index t)) t) ;;
  on_index_storage (storage_set (SK_ActiveOrder market_id order_id) true) ;;
  persist_order_list market_id.

Definition remove_order (market_id order_id : Z) : IndexM unit :=
  st_modify (fun t => with_im_index (index_remove market_id order_id (im_index t)) t) ;;
  on_index_storage (storage_delete (SK_ActiveOrder market_id order_id)) ;;
  persist_or_delete_order_list market_id.

Definition get_orders (t : IndexManager) (market_id : Z) : list Z :=
  default [] (order_list (hash_state (im_storage t)) <$> im_index t !! market_id).

Definition order_rebuild (markets : list Z) : IndexM unit :=
  st_modify (fun t => with_im_index (collect_index (omap (fun market_id =>
    (fun order_list : list Z => (market_id, list_to_set order_list)) <$>
      ok_flatten (storage_get (im_storage t) (SK_ActiveOrderList market_id) (im_version t))) markets)) t).

(** One operation on each. *)
Definition position_op (op : IndexOp) : IndexM unit :=
  match op with IdxAdd m a => add_position m a | IdxRemove m a => remove_position m a end.
Definition order_op (op : IndexOp) : IndexM unit :=
  match op with IdxAdd m o => add_order m o | IdxRemove m o => remove_order m o end.

End managers.

(** * The stored mirror *)

Lemma collect_lookup {A} (f : Z -> option A) (markets : list Z) (m0 : gmap Z A) m :
  foldl (fun index kv => <[kv.1 := kv.2]> index) m0 (omap (fun m => (fun x => (m, x)) <$> f m) markets) !! m =
  match (if decide (m ∈ markets) then f m else None) with Some x => Some x | None => m0 !! m end.
Proof.
  revert m0. induction markets as [|k markets IH]; intros m0.
  { cbn. rewrite decide_False by apply not_elem_of_nil. done. }
  cbn [omap list_omap].
  destruct (f k) as [x|] eqn:Ek; cbn [fmap option_fmap option_map foldl fst snd]; rewrite IH.
  - destruct (decide (m = k)) as [->|Hne].
    + rewrite (decide_True (P := k ∈ k :: markets)) by left. rewrite Ek, lookup_insert_eq.
      by destruct (decide (k ∈ markets)).
    + rewrite lookup_insert_ne by done. destruct (decide (m ∈ markets)) as [H|H].
      * rewrite decide_True by (by right). done.
      * rewrite decide_False; [done|]. intros [?|?]%elem_of_cons; done.
  - destruct (decide (m = k)) as [->|Hne].
    + rewrite (decide_True (P := k ∈ k :: markets)) by left. rewrite Ek.
      by destruct (decide (k ∈ markets)).
    + destruct (decide (m ∈ markets)) as [H|H].
      * rewrite decide_True by (by right). done.
      * rewrite decide_False; [done|]. intros [?|?]%elem_of_cons; done.
Qed.

Section mirror.
Context {B : Backend} {Bok : BackendOk B}.
(** How a set is stored: under which key, which bytes stand for it, and what
    writes them. *)
Context (key : Z -> StateKey) (reads : Bytes -> option (gset Z)).
Context (put : Z -> gset Z -> ST RocksDbStorage StateError unit).
Definition puts : Prop := forall m set st, exists b h,
  reads b = Some set /\
  put m set st = (Ok tt, with_hash_state h (with_pending (<[key_hash (key m) := b]> (pending_updates st)) st)).
Context (st0 : RocksDbStorage).

(** The bytes, if any, stand for the set, if any. *)
Definition stands_for (bytes : option Bytes) (found : option (gset Z)) : Prop :=
  match found with
  | Some set => exists b, bytes = Some b /\ reads b = Some set
  | None => bytes = None
  end.

(** The uncommitted writes of the manager's keys are its sets. *)
Definition mirrored (t : IndexManager) : Prop :=
  exists p h, im_storage t = with_hash_state h (with_pending p st0) /\
    forall m, stands_for (p !! key_hash (key m)) (im_index t !! m).

(** Reading the mirror back after a commit and a restart. *)
Lemma mirror_committed t v root st' config h m :
  pending_updates st0 = ∅ -> storage_wf st0 -> current_version st0 <= v ->
  commit_prunes (pruning_config st0) v = false ->
  mirrored t -> storage_commit v (im_storage t) = (Ok root, st') ->
  match im_index t !! m with
  | Some set => stands_for (view (storage_new (db st') config h) v (key_hash (key m))) (Some set)
  | None => view (storage_new (db st') config h) v (key_hash (key m)) = view st0 v (key_hash (key m))
  end.
Proof.
  intros Hp0 Hwf Hv Hc (p & h0 & Hst & Hp) Hcm. rewrite Hst in Hcm.
  destruct (commit_reads v (with_hash_state h0 (with_pending p st0)) root st')
    as (_ & _ & _ & _ & Hr); [|exact Hv|exact Hc|exact Hcm|].
  { by destruct (storage_wf_pending p st0 Hwf). }
  specialize (Hp m). assert (E : view (storage_new (db st') config h) v (key_hash (key m)) =
    view (with_hash_state h0 (with_pending p st0)) v (key_hash (key m))).
  { rewrite <- Hr. unfold view at 1. cbn [storage_new pending_updates].
    rewrite lookup_empty. by apply get_value_option_ext. }
  rewrite E. unfold view. cbn [pending_updates with_hash_state with_pending].
  destruct (im_index t !! m) as [set|].
  - destruct Hp as (b & -> & Hb). by exists b.
  - cbn in Hp. rewrite Hp, Hp0, lookup_empty. by apply get_value_option_ext.
Qed.

(** Storing or deleting the set of the market an operation touched restores the
    mirror. *)
Definition op_market (op : IndexOp) : Z := match op with IdxAdd m _ | IdxRemove m _ => m end.

Lemma store_mirrored {key_inj : Inj (=) (=) key} (index : SetIndex) op t p h :
  puts -> im_index t = index_step index op -> im_storage t = with_hash_state h (with_pending p st0) ->
  (forall m, stands_for (p !! key_hash (key m)) (index !! m)) ->
  let m := op_market op in
  exists t',
    on_index_storage (match im_index t !! m with
                      | Some set => put m set
                      | None => storage_delete (key m) end) t = (Ok tt, t') /\
    im_index t' = im_index t /\ mirrored t'.
Proof.
  intros Hput Hi Hst Hp m.
  assert (Hmir : forall p' h', stands_for (p' !! key_hash (key m)) (im_index t !! m) ->
    (forall k, key_hash (key k) <> key_hash (key m) -> p' !! key_hash (key k) = p !! key_hash (key k)) ->
    mirrored (with_im_storage (with_hash_state h' (with_pending p' st0)) t)).
  { intros p' h' Hm Ho. exists p', h'. split; [done|]. intros k. cbn [im_index with_im_storage].
    destruct (decide (k = m)) as [->|Hne]; [done|].
    rewrite Ho, Hi by (intros H%key_hash_inj%key_inj; done). rewrite index_step_other by done. apply Hp. }
  unfold on_index_storage, st_zoom. destruct (im_index t !! m) as [set|].
  - destruct (Hput m set (im_storage t)) as (b & h' & Hb & ->).
    assert (E : with_hash_state h' (with_pending (<[key_hash (key m) := b]> (pending_updates (im_storage t))) (im_storage t)) =
      with_hash_state h' (with_pending (<[key_hash (key m) := b]> p) st0)) by (by rewrite Hst).
    rewrite E. eexists. split; [done|]. split; [done|]. apply Hmir.
    + exists b. by rewrite lookup_insert_eq.
    + intros k Hk. apply lookup_insert_ne. congruence.
  - assert (E : with_pending (delete (key_hash (key m)) (pending_updates (im_storage t))) (im_storage t) =
      with_hash_state h (with_pending (delete (key_hash (key m)) p) st0)) by (by rewrite Hst).
    unfold storage_delete, st_modify. rewrite E. eexists. split; [done|]. split; [done|]. apply Hmir.
    + by apply lookup_delete_eq.
    + intros k Hk. apply lookup_delete_ne. congruence.
Qed.

Lemma start_mirrored st v : st0 = st -> pending_updates st = ∅ -> mirrored (IndexManager_new st v).
Proof.
  intros -> Hp. exists ∅, (hash_state st). split; [by destruct st; cbn in *; subst|]. intros m. cbn.
  by rewrite !lookup_empty.
Qed.

(** A run of operations that each succeed and keep the mirror. *)
Lemma run_mirrored (op_run : IndexOp -> ST IndexManager StateError unit) :
  (forall op t, mirrored t -> exists t',
     op_run op t = (Ok tt, t') /\ im_index t' = index_step (im_index t) op /\ mirrored t') ->
  forall ops t pairs, mirrored t -> index_of_pairs (im_index t) pairs ->
  exists t', st_for ops op_run t = (Ok tt, t') /\ mirrored t' /\
    index_of_pairs (im_index t') (foldl pairs_step pairs ops).
Proof.
  intros Hop ops. induction ops as [|op ops IH]; intros t pairs Hm Hp; [by exists t|].
  destruct (Hop op t Hm) as (t1 & E1 & Hi & Hm1).
  destruct (IH t1 (pairs_step pairs op) Hm1) as (t2 & E2 & H2).
  { rewrite Hi. by apply index_step_pairs. }
  exists t2. split; [|done]. cbn [st_for]. by rewrite (st_bind_eq _ _ _ _ _ E1).
Qed.

End mirror.

Section runs.
Context {B : Backend} {Bok : BackendOk B}.
Implicit Types t : IndexManager.

#[export] Instance position_key_inj : Inj (=) (=) SK_PositionIndex.
Proof. by intros x y [= ->]. Qed.
#[export] Instance order_key_inj : Inj (=) (=) SK_ActiveOrderList.
Proof. by intros x y [= ->]. Qed.

(** The two ways a set is stored: as a set, and as the list of its elements. *)
Definition reads_set (h : HashState) (b : Bytes) : option (gset Z) := @from_slice _ _ (serde_set h) b.
Definition reads_list (b : Bytes) : option (gset Z) := list_to_set <$> @from_slice _ (list Z) serde_nums b.
Notation set_mirror h := (mirrored SK_PositionIndex (reads_set h)).
Notation list_mirror := (mirrored SK_ActiveOrderList reads_list).

Lemma puts_set h : puts SK_PositionIndex (reads_set h) (fun m => storage_set_hashed (SK_PositionIndex m)).
Proof.
  intros m set st. destruct (serde_roundtrip (S := serde_set (hash_state st)) set) as (b & E1 & E2).
  exists b, (next_hash (hash_state st)). split; [exact E2|].
  unfold storage_set_hashed, st_bind, st_gets, storage_set. by rewrite E1.
Qed.

Lemma order_list_set h (s : gset Z) : list_to_set (order_list h s) = s.
Proof.
  unfold order_list. apply set_eq. intros x. rewrite elem_of_list_to_set.
  rewrite (hash_order_perm (HashOrderOk := hash_order_in_ok h)). apply elem_of_elements.
Qed.

Lemma puts_list : puts SK_ActiveOrderList reads_list store_order_list.
Proof.
  intros m set st. destruct (serde_roundtrip (S := serde_nums) (order_list (hash_state st) set)) as (b & E1 & E2).
  exists b, (next_hash (hash_state st)). split.
  - unfold reads_list. rewrite E2. cbn. by rewrite order_list_set.
  - unfold store_order_list, st_bind, st_gets, storage_set. by rewrite E1.
Qed.

Lemma insert_present m x (index : gmap Z (gset Z)) :
  exists set, index_insert m x index !! m = Some set.
Proof. eexists. unfold index_insert. by rewrite lookup_insert_eq. Qed.

Lemma position_op_mirrored h0 st0 op t :
  set_mirror h0 st0 t ->
  exists t', position_op op t = (Ok tt, t') /\ im_index t' = index_step (im_index t) op /\
    set_mirror h0 st0 t'.
Proof.
  intros (p & h & Hst & Hp).
  destruct (store_mirrored SK_PositionIndex (reads_set h0) _ st0 (im_index t) op
    (with_im_index (index_step (im_index t) op) t) p h (puts_set h0) eq_refl Hst Hp) as (t' & E & Hi & Hm).
  exists t'. split; [|done]. rewrite <- E. cbn [im_index with_im_index].
  destruct op as [m a|m a]; cbn [position_op index_step op_market].
  - unfold add_position, persist_index, st_bind, st_modify, st_gets. cbn [im_index with_im_index].
    by destruct (insert_present m a (im_index t)) as [set ->].
  - unfold remove_position, persist_or_delete_index, st_bind, st_modify, st_gets. cbn [im_index with_im_index].
    by destruct (index_remove m a (im_index t) !! m).
Qed.

Lemma order_op_mirrored st0 op t :
  list_mirror st0 t ->
  exists t', order_op op t = (Ok tt, t') /\ im_index t' = index_step (im_index t) op /\
    list_mirror st0 t'.
Proof.
  intros (p & h & Hst & Hp).
  assert (Hflag : exists p1, (forall m, p1 !! key_hash (SK_ActiveOrderList m) = p !! key_hash (SK_ActiveOrderList m)) /\
    on_index_storage (match op with IdxAdd m o => storage_set (SK_ActiveOrder m o) true
                      | IdxRemove m o => storage_delete (SK_ActiveOrder m o) end)
      (with_im_index (index_step (im_index t) op) t) =
    (Ok tt, with_im_storage (with_hash_state h (with_pending p1 st0)) (with_im_index (index_step (im_index t) op) t))).
  { unfold on_index_storage, st_zoom. cbn [im_storage with_im_index]. destruct op as [m o|m o].
    - destruct (serde_roundtrip (S := serde_bool) true) as (b & Eb & _).
      exists (<[key_hash (SK_ActiveOrder m o) := b]> p). split.
      + intros k. apply lookup_insert_ne. by intros H%key_hash_inj.
      + unfold storage_set. by rewrite Eb, Hst.
    - exists (delete (key_hash (SK_ActiveOrder m o)) p). split.
      + intros k. apply lookup_delete_ne. by intros H%key_hash_inj.
      + unfold storage_delete, st_modify. by rewrite Hst. }
  destruct Hflag as (p1 & Hp1 & Ef).
  destruct (store_mirrored SK_ActiveOrderList reads_list _ st0 (im_index t) op
    (with_im_storage (with_hash_state h (with_pending p1 st0)) (with_im_index (index_step (im_index t) op) t))
    p1 h puts_list eq_refl eq_refl) as (t' & E & Hi & Hm); [intros m; by rewrite Hp1|].
  exists t'. split; [|done]. rewrite <- E. cbn [im_index with_im_index with_im_storage].
  destruct op as [m o|m o]; cbn [order_op index_step op_market] in *.
  - unfold add_order, persist_order_list. unfold st_bind at 1, st_modify.
    rewrite (st_bind_eq _ _ _ _ _ Ef). unfold st_bind, st_gets. cbn [im_index with_im_index with_im_storage].
    by destruct (insert_present m o (im_index t)) as [set ->].
  - unfold remove_order, persist_or_delete_order_list. unfold st_bind at 1, st_modify.
    rewrite (st_bind_eq _ _ _ _ _ Ef). unfold st_bind, st_gets. cbn [im_index with_im_index with_im_storage].
    by destruct (index_remove m o (im_index t) !! m).
Qed.

(** Both index managers hold exactly the pairs that were added and not
    removed, no operation fails, and after a commit and a restart rebuilding
    gives back, for every market asked for, the set that was there. A market
    that was emptied (or never touched) instead gets what had been committed
    before, because deleting drops only the uncommitted write. *)
Theorem index_rebuilt st v ops markets config h :
  storage_wf st -> pending_updates st = ∅ -> current_version st <= v ->
  commit_prunes (pruning_config st) v = false ->
  let pairs := foldl pairs_step ∅ ops in
  let rebuilt (rebuild : list Z -> ST IndexManager StateError unit) st' :=
    im_index (snd (rebuild markets (IndexManager_new (storage_new (db st') config h) v))) in
  (exists t, st_for ops position_op (IndexManager_new st v) = (Ok tt, t) /\
     index_of_pairs (im_index t) pairs /\
     forall root st', storage_commit v (im_storage t) = (Ok root, st') -> forall m, m ∈ markets ->
       rebuilt position_rebuild st' !! m =
         match im_index t !! m with
         | Some set => Some set
         | None => ok_flatten (storage_get (H := serde_set h) st (SK_PositionIndex m) v)
         end) /\
  (exists t, st_for ops order_op (IndexManager_new st v) = (Ok tt, t) /\
     index_of_pairs (im_index t) pairs /\
     forall root st', storage_commit v (im_storage t) = (Ok root, st') -> forall m, m ∈ markets ->
       rebuilt order_rebuild st' !! m =
         match im_index t !! m with
         | Some set => Some set
         | None => list_to_set <$> ok_flatten (storage_get (T := list Z) st (SK_ActiveOrderList m) v)
         end).
Proof.
  intros Hwf Hp Hv Hc pairs rebuilt.
  assert (H0 : index_of_pairs (im_index (IndexManager_new st v)) ∅) by (split; [intros m x; cbn; by rewrite lookup_empty|done]).
  split.
  - destruct (run_mirrored _ _ st position_op (position_op_mirrored h st) ops
      (IndexManager_new st v) ∅ (start_mirrored _ _ st st v eq_refl Hp) H0) as (t & E & Hm & Hi).
    exists t. split_and!; [done|done|]. intros root st' Hcm m Hin.
    unfold rebuilt, position_rebuild, st_modify, collect_index. cbn [snd im_index with_im_index].
    rewrite (collect_lookup (fun m => ok_flatten _)), decide_True by done. cbn [im_storage im_version IndexManager_new].
    rewrite storage_get_view.
    pose proof (mirror_committed _ _ st t v root st' config h m Hp Hwf Hv Hc Hm Hcm) as Hv'.
    destruct (im_index t !! m) as [set|].
    + destruct Hv' as (b & -> & Hb). unfold decode. cbn [hash_state storage_new]. unfold reads_set in Hb. by rewrite Hb.
    + rewrite Hv', <- storage_get_view. by destruct (ok_flatten _).
  - destruct (run_mirrored _ _ st order_op (order_op_mirrored st) ops
      (IndexManager_new st v) ∅ (start_mirrored _ _ st st v eq_refl Hp) H0) as (t & E & Hm & Hi).
    exists t. split_and!; [done|done|]. intros root st' Hcm m Hin.
    unfold rebuilt, order_rebuild, st_modify, collect_index. cbn [snd im_index with_im_index].
    set (f := fun m => list_to_set (C := gset Z) <$> ok_flatten
      (storage_get (T := list Z) (storage_new (db st') config h) (SK_ActiveOrderList m) v)).
    transitivity (foldl (fun index kv => <[kv.1 := kv.2]> index) (∅ : SetIndex)
      (omap (fun m => (fun x => (m, x)) <$> f m) markets) !! m).
    { do 2 f_equal. apply list_omap_ext, Forall_Forall2_diag, Forall_true. intros k. unfold f.
      cbn [im_storage im_version IndexManager_new]. by destruct (ok_flatten _). }
    rewrite collect_lookup, decide_True by done. unfold f. rewrite storage_get_view.
    pose proof (mirror_committed _ _ st t v root st' config h m Hp Hwf Hv Hc Hm Hcm) as Hv'.
    destruct (im_index t !! m) as [set|].
    + destruct Hv' as (b & -> & Hb). unfold decode. unfold reads_list in Hb.
      destruct (from_slice b) as [l|]; [|done]. cbn in Hb |- *. by injection Hb as ->.
    + rewrite Hv', <- storage_get_view. by destruct (ok_flatten _).
Qed.
End runs.

(** * Witnesses *)

Definition demo_index_ops : list IndexOp := [IdxAdd 0 7; IdxAdd 0 8; IdxAdd 1 5; IdxRemove 0 7].

Lemma index_rebuilt_witness :
  exists t, st_for demo_index_ops position_op (IndexManager_new (storage_new ∅ demo_config demo_hash) 1) = (Ok tt, t) /\
    (0, 8) ∈ foldl pairs_step ∅ demo_index_ops /\ default ∅ (get_addresses t 0) <> ∅.
Proof.
  destruct (index_rebuilt (storage_new ∅ demo_config demo_hash) 1 demo_index_ops [0; 1] demo_config demo_hash
    (storage_new_wf demo_config demo_hash) eq_refl ltac:(vm_compute; congruence) eq_refl) as ((t & E & Hi & _) & _).
  exists t. assert (Hin : (0, 8) ∈ foldl pairs_step ∅ demo_index_ops) by (vm_compute; reflexivity).
  split; [exact E|]. split; [exact Hin|]. apply (proj1 Hi) in Hin. unfold get_addresses.
  intros H. rewrite H in Hin. by apply not_elem_of_empty in Hin.
Defined.

(** A market emptied after its index was committed comes back after a restart. *)
Lemma emptied_index_reappears :
  let t1 := snd (add_position 0 7 (IndexManager_new (storage_new ∅ demo_config demo_hash) 1)) in
  let st1 := snd (storage_commit 1 (im_storage t1)) in
  let t2 := snd (remove_position 0 7 (with_im_storage st1 t1)) in
  let st2 := snd (storage_commit 2 (im_storage t2)) in
  let t3 := snd (position_rebuild [0] (IndexManager_new (storage_new (db st2) demo_config demo_hash) 2)) in
  get_addresses t2 0 = None /\ get_addresses t3 0 = Some {[7]}.
Proof. vm_compute. split; reflexivity. Qed.
