(* ===== verification/Tx.v ===== *)
(** The [pranklin-tx] crate: transactions, their hashes and EIP-712 encoding, and
    the state accesses they declare.  The hash functions and the borsh
    serializer come from other crates: they are the fields of [TxEnv]. *)
From stdpp Require Import base gmap sets list sorting strings.
From Stdlib Require Import ZArith Lia.
From S2P Require Import Prelude Types.

(** * Errors (crates/tx/src/error.rs); message texts are left out *)

Inductive TxError :=
| DecodeError
| EncodeError
| InvalidSignature
| TxInvalidNonce (expected got : Z)
| TxInsufficientBalance
| TxOrderNotFound
| TxPositionNotFound
| TxInvalidOrderParams
| AgentNotAuthorized
| TxSelfTrade
| TxMarketNotFound
| TxPostOnlyWouldTake
| TxReduceOnlyWouldIncrease
| TxTooLarge (len max : Z).   (* TxError::Other with the size message *)

#[export] Instance TxError_eq_dec : EqDecision TxError.
Proof. solve_decision. Defined.

(** * Payloads *)

Record DepositTx := { dep_amount : Z; dep_asset_id : Z }.
Record WithdrawTx := { wd_amount : Z; wd_asset_id : Z; wd_to : Address }.
Record PlaceOrderTx := {
  po_market_id : Z;
  po_is_buy : bool;
  po_order_type : OrderType;
  po_price : Z;
  po_size : Z;
  po_time_in_force : TimeInForce;
  po_reduce_only : bool;
  po_post_only : bool;
}.
Record CancelOrderTx := { co_order_id : Z }.
Record ModifyOrderTx := { mo_order_id : Z; mo_new_price : Z; mo_new_size : Z }.
Record ClosePositionTx := { cp_market_id : Z; cp_size : Z }.
Record SetAgentTx := { sa_agent : Address; sa_permissions : Z }.
Record RemoveAgentTx := { ra_agent : Address }.
Record TransferTx := { tr_to : Address; tr_amount : Z; tr_asset_id : Z }.
Record BridgeDepositTx := {
  bd_user : Address; bd_amount : Z; bd_asset_id : Z; bd_external_tx_hash : B256 }.
Record BridgeWithdrawTx := {
  bw_user : Address; bw_amount : Z; bw_asset_id : Z; bw_destination : Address;
  bw_external_tx_hash : B256 }.

Inductive TxPayload :=
| Deposit (d : DepositTx)
| Withdraw (w : WithdrawTx)
| PlaceOrder (o : PlaceOrderTx)
| CancelOrder (c : CancelOrderTx)
| ModifyOrder (m : ModifyOrderTx)
| ClosePosition (c : ClosePositionTx)
| SetAgent (a : SetAgentTx)
| RemoveAgent (a : RemoveAgentTx)
| Transfer (t : TransferTx)
| BridgeDeposit (b : BridgeDepositTx)
| BridgeWithdraw (b : BridgeWithdrawTx).

(** * Signatures and transactions *)

Record TypedDataDomain := {
  dom_name : string;
  dom_version : string;
  dom_chain_id : Z;  (* U256 *)
  dom_verifying_contract : option Address;
}.

Definition TypedDataDomain_default : TypedDataDomain :=
  {| dom_name := "Pranklin"; dom_version := "1"; dom_chain_id := 1337;
     dom_verifying_contract := None |}.

Definition TypedDataDomain_new (name version : string) (chain_id : Z) : TypedDataDomain :=
  {| dom_name := name; dom_version := version; dom_chain_id := chain_id;
     dom_verifying_contract := None |}.

(** A signature is 65 bytes: r, s and the parity. *)
Inductive TxSignature :=
| EIP712 (domain : TypedDataDomain) (signature : list Z)
| RawBorsh (signature : list Z).

Definition no_signature : list Z := replicate 65 0.

(** [as_ref] and the assignment through [as_mut]. *)
Definition sig_as_ref (s : TxSignature) : list Z :=
  match s with RawBorsh signature | EIP712 _ signature => signature end.
Definition sig_set (bytes : list Z) (s : TxSignature) : TxSignature :=
  match s with RawBorsh _ => RawBorsh bytes | EIP712 d _ => EIP712 d bytes end.

Record Transaction := {
  tx_nonce : Z;
  tx_from : Address;
  tx_payload : TxPayload;
  tx_signature : TxSignature;
}.

#[export] Instance DepositTx_eq_dec : EqDecision DepositTx.
Proof. solve_decision. Defined.
#[export] Instance WithdrawTx_eq_dec : EqDecision WithdrawTx.
Proof. solve_decision. Defined.
#[export] Instance PlaceOrderTx_eq_dec : EqDecision PlaceOrderTx.
Proof. solve_decision. Defined.
#[export] Instance CancelOrderTx_eq_dec : EqDecision CancelOrderTx.
Proof. solve_decision. Defined.
#[export] Instance ModifyOrderTx_eq_dec : EqDecision ModifyOrderTx.
Proof. solve_decision. Defined.
#[export] Instance ClosePositionTx_eq_dec : EqDecision ClosePositionTx.
Proof. solve_decision. Defined.
#[export] Instance SetAgentTx_eq_dec : EqDecision SetAgentTx.
Proof. solve_decision. Defined.
#[export] Instance RemoveAgentTx_eq_dec : EqDecision RemoveAgentTx.
Proof. solve_decision. Defined.
#[export] Instance TransferTx_eq_dec : EqDecision TransferTx.
Proof. solve_decision. Defined.
#[export] Instance BridgeDepositTx_eq_dec : EqDecision BridgeDepositTx.
Proof. solve_decision. Defined.
#[export] Instance BridgeWithdrawTx_eq_dec : EqDecision BridgeWithdrawTx.
Proof. solve_decision. Defined.
#[export] Instance TxPayload_eq_dec : EqDecision TxPayload.
Proof. solve_decision. Defined.
#[export] Instance TypedDataDomain_eq_dec : EqDecision TypedDataDomain.
Proof. solve_decision. Defined.
#[export] Instance TxSignature_eq_dec : EqDecision TxSignature.
Proof. solve_decision. Defined.
#[export] Instance Transaction_eq_dec : EqDecision Transaction.
Proof. solve_decision. Defined.

Definition new_raw (nonce : Z) (from : Address) (payload : TxPayload) : Transaction :=
  {| tx_nonce := nonce; tx_from := from; tx_payload := payload;
     tx_signature := RawBorsh no_signature |}.

Definition new_eip712_with_domain (nonce : Z) (from : Address) (payload : TxPayload)
    (domain : TypedDataDomain) : Transaction :=
  {| tx_nonce := nonce; tx_from := from; tx_payload := payload;
     tx_signature := EIP712 domain no_signature |}.

Definition new_eip712 (nonce : Z) (from : Address) (payload : TxPayload) : Transaction :=
  new_eip712_with_domain nonce from payload TypedDataDomain_default.

Definition set_signature (sig : list Z) (tx : Transaction) : Transaction :=
  {| tx_nonce := tx_nonce tx; tx_from := tx_from tx; tx_payload := tx_payload tx;
     tx_signature := sig_set sig (tx_signature tx) |}.
Definition with_signature (tx : Transaction) (sig : list Z) : Transaction := set_signature sig tx.
Definition signature_bytes (tx : Transaction) : list Z := sig_as_ref (tx_signature tx).

(** * Hashes and encodings *)

Class TxEnv := {
  keccak256 : list Z -> B256;
  sha256 : list Z -> B256;
  borsh_payload : TxPayload -> list Z;
  borsh_tx : Transaction -> list Z;
  borsh_tx_decode : list Z -> option Transaction;
}.
(** borsh decodes what it encoded. *)
Class TxEnvOk (V : TxEnv) := {
  borsh_tx_roundtrip : forall tx, borsh_tx_decode (borsh_tx tx) = Some tx;
}.

(** [as_slice] of an address or a hash. *)
Definition address_slice (a : Address) : list Z := be_bytes 20 a.
Definition b256_slice (h : B256) : list Z := be_bytes 32 h.

(** [encode_as_bytes32]: addresses are left-padded, integers are widened to
    [U256], booleans go through [u8]. *)
Definition encode_address (a : Address) : list Z := replicate 12 0 ++ address_slice a.
Definition encode_uint (z : Z) : list Z := be_bytes 32 z.
Definition encode_bool (b : bool) : list Z := encode_uint (if b then 1 else 0).

Section hashing.
Context {V : TxEnv}.

Definition domain_hash (d : TypedDataDomain) : B256 :=
  keccak256
    (b256_slice (keccak256 (as_bytes "EIP712Domain(string name,string version,uint256 chainId)"))
     ++ b256_slice (keccak256 (as_bytes (dom_name d)))
     ++ b256_slice (keccak256 (as_bytes (dom_version d)))
     ++ be_bytes 32 (dom_chain_id d)).

Definition type_hash_deposit : B256 :=
  keccak256 (as_bytes "Deposit(uint64 nonce,address from,uint128 amount,uint32 assetId)").
Definition type_hash_withdraw : B256 :=
  keccak256 (as_bytes "Withdraw(uint64 nonce,address from,uint128 amount,uint32 assetId,address to)").
Definition type_hash_place_order : B256 :=
  keccak256 (as_bytes "PlaceOrder(uint64 nonce,address from,uint32 marketId,bool isBuy,uint8 orderType,uint64 price,uint64 size,uint8 timeInForce,bool reduceOnly,bool postOnly)").
Definition type_hash_cancel_order : B256 :=
  keccak256 (as_bytes "CancelOrder(uint64 nonce,address from,uint64 orderId)").
Definition type_hash_transfer : B256 :=
  keccak256 (as_bytes "Transfer(uint64 nonce,address from,address to,uint128 amount,uint32 assetId)").
Definition type_hash_generic : B256 :=
  keccak256 (as_bytes "GenericTx(uint64 nonce,address from,bytes payload)").

Definition eip712_type_hash (p : TxPayload) : B256 :=
  match p with
  | Deposit _ => type_hash_deposit
  | Withdraw _ => type_hash_withdraw
  | PlaceOrder _ => type_hash_place_order
  | CancelOrder _ => type_hash_cancel_order
  | Transfer _ => type_hash_transfer
  | _ => type_hash_generic
  end.

(** [Eip712DataEncoder]: the bytes gathered before [finish]. *)
Definition encoder_new (nonce : Z) (from : Address) : list Z :=
  encode_uint nonce ++ encode_address from.
Definition encoder_add_uint (data : list Z) (z : Z) : list Z := data ++ encode_uint z.
Definition encoder_add_address (data : list Z) (a : Address) : list Z := data ++ encode_address a.
Definition encoder_add_bool (data : list Z) (b : bool) : list Z := data ++ encode_bool b.
Definition encoder_add_hash (data : list Z) (h : B256) : list Z := data ++ b256_slice h.
Definition encoder_finish (data : list Z) : B256 := keccak256 data.

Definition eip712_data (p : TxPayload) (nonce : Z) (from : Address) : list Z :=
  let e := encoder_new nonce from in
  match p with
  | Deposit d => encoder_add_uint (encoder_add_uint e (dep_amount d)) (dep_asset_id d)
  | Withdraw w =>
      encoder_add_address
        (encoder_add_uint (encoder_add_uint e (wd_amount w)) (wd_asset_id w)) (wd_to w)
  | PlaceOrder o =>
      let e := encoder_add_uint e (po_market_id o) in
      let e := encoder_add_bool e (po_is_buy o) in
      let e := encoder_add_uint e (OrderType_as_u8 (po_order_type o)) in
      let e := encoder_add_uint e (po_price o) in
      let e := encoder_add_uint e (po_size o) in
      let e := encoder_add_uint e (TimeInForce_as_u8 (po_time_in_force o)) in
      let e := encoder_add_bool e (po_reduce_only o) in
      encoder_add_bool e (po_post_only o)
  | CancelOrder c => encoder_add_uint e (co_order_id c)
  | Transfer t =>
      encoder_add_uint
        (encoder_add_uint (encoder_add_address e (tr_to t)) (tr_amount t)) (tr_asset_id t)
  | _ => encoder_add_hash e (keccak256 (borsh_payload p))
  end.

Definition eip712_encode_data (p : TxPayload) (nonce : Z) (from : Address) : B256 :=
  encoder_finish (eip712_data p nonce from).

Definition raw_signing_hash (tx : Transaction) : B256 :=
  sha256 (le_bytes 8 (tx_nonce tx) ++ address_slice (tx_from tx) ++ borsh_payload (tx_payload tx)).

Definition eip712_signing_hash (tx : Transaction) (domain : TypedDataDomain) : B256 :=
  let struct_hash_data :=
    b256_slice (eip712_type_hash (tx_payload tx)) ++
    b256_slice (eip712_encode_data (tx_payload tx) (tx_nonce tx) (tx_from tx)) in
  let struct_hash := keccak256 struct_hash_data in
  keccak256 ([25; 1] ++ b256_slice (domain_hash domain) ++ b256_slice struct_hash).

Definition signing_hash (tx : Transaction) : B256 :=
  match tx_signature tx with
  | RawBorsh _ => raw_signing_hash tx
  | EIP712 domain _ => eip712_signing_hash tx domain
  end.

Definition encode (tx : Transaction) : list Z := borsh_tx tx.
Definition tx_hash (tx : Transaction) : B256 := sha256 (encode tx).

Definition MAX_TX_SIZE : Z := 100000.

(** [Transaction::try_from(&[u8])] *)
Definition tx_try_from (data : list Z) : result TxError Transaction :=
  if MAX_TX_SIZE <? Z.of_nat (length data)
  then Err (TxTooLarge (Z.of_nat (length data)) MAX_TX_SIZE)
  else match borsh_tx_decode data with Some tx => Ok tx | None => Err DecodeError end.
Definition decode_tx (data : list Z) : result TxError Transaction := tx_try_from data.
Definition tx_try_from_vec (data : list Z) : result TxError Transaction := tx_try_from data.
Definition vec_of_tx (tx : Transaction) : list Z := encode tx.

(** [mod signature_serde]: a signature is written as a sequence of bytes and
    read back only at its length; the error carries the length seen. *)
Definition signature_serialize (bytes : list Z) : list Z := bytes.
Definition signature_deserialize (v : list Z) : result nat (list Z) :=
  if bool_decide (length v = 65%nat) then Ok v else Err (length v).

End hashing.

(** * State accesses (crates/state/src/access.rs and the impl for [Transaction]) *)

Inductive StateAccess :=
| SA_Balance (address : Address) (asset_id : Z)
| SA_Nonce (address : Address)
| SA_Position (address : Address) (market_id : Z)
| SA_Order (order_id : Z)
| SA_OrderList (market_id : Z)
| SA_Market (market_id : Z)
| SA_FundingRate (market_id : Z)
| SA_AssetInfo (asset_id : Z)
| SA_BridgeOperator (address : Address).

Inductive AccessMode := Read | Write.

#[export] Instance StateAccess_eq_dec : EqDecision StateAccess.
Proof. solve_decision. Defined.
#[export] Instance AccessMode_eq_dec : EqDecision AccessMode.
Proof. solve_decision. Defined.

Definition balance_access (a : Address) (asset_id : Z) (mode : AccessMode)
    : StateAccess * AccessMode := (SA_Balance a asset_id, mode).
Definition asset_info_access (asset_id : Z) : StateAccess * AccessMode :=
  (SA_AssetInfo asset_id, Read).
Definition balance_with_asset (accesses : list (StateAccess * AccessMode)) (a : Address)
    (asset_id : Z) : list (StateAccess * AccessMode) :=
  accesses ++ [balance_access a asset_id Write] ++ [asset_info_access asset_id].

Definition declare_accesses (tx : Transaction) : list (StateAccess * AccessMode) :=
  let from := tx_from tx in
  let accesses := [(SA_Nonce from, Write)] in
  match tx_payload tx with
  | Deposit d => balance_with_asset accesses from (dep_asset_id d)
  | Withdraw w => balance_with_asset accesses from (wd_asset_id w)
  | PlaceOrder o =>
      accesses ++ [balance_access from 0 Write] ++
      [(SA_Position from (po_market_id o), Write);
       (SA_OrderList (po_market_id o), Write);
       (SA_Market (po_market_id o), Read);
       (SA_FundingRate (po_market_id o), Read)]
  | CancelOrder c => accesses ++ [(SA_Order (co_order_id c), Write)]
  | ModifyOrder m => accesses ++ [(SA_Order (mo_order_id m), Write)]
  | ClosePosition c =>
      accesses ++
      [(SA_Position from (cp_market_id c), Write);
       (SA_OrderList (cp_market_id c), Write);
       (SA_Market (cp_market_id c), Read)]
  | SetAgent _ | RemoveAgent _ => accesses
  | Transfer t =>
      accesses ++ [balance_access from (tr_asset_id t) Write] ++
      [balance_access (tr_to t) (tr_asset_id t) Write] ++ [asset_info_access (tr_asset_id t)]
  | BridgeDeposit b =>
      balance_with_asset (accesses ++ [(SA_BridgeOperator from, Read)]) (bd_user b) (bd_asset_id b)
  | BridgeWithdraw b =>
      balance_with_asset (accesses ++ [(SA_BridgeOperator from, Read)]) (bw_user b) (bw_asset_id b)
  end.

(** * Properties *)

(** The values of the Rust field types of a payload. *)
Definition payload_ok (p : TxPayload) : Prop :=
  match p with
  | Deposit d => is_u128 (dep_amount d) /\ is_u32 (dep_asset_id d)
  | Withdraw w => is_u128 (wd_amount w) /\ is_u32 (wd_asset_id w) /\ is_address (wd_to w)
  | PlaceOrder o => is_u32 (po_market_id o) /\ is_u64 (po_price o) /\ is_u64 (po_size o)
  | CancelOrder c => is_u64 (co_order_id c)
  | Transfer t => is_address (tr_to t) /\ is_u128 (tr_amount t) /\ is_u32 (tr_asset_id t)
  | _ => True
  end.

(** Payloads with an EIP-712 type of their own. *)
Definition typed_payload (p : TxPayload) : bool :=
  match p with
  | Deposit _ | Withdraw _ | PlaceOrder _ | CancelOrder _ | Transfer _ => true
  | _ => false
  end.

Definition same_kind (p q : TxPayload) : bool :=
  match p, q with
  | Deposit _, Deposit _ | Withdraw _, Withdraw _ | PlaceOrder _, PlaceOrder _
  | CancelOrder _, CancelOrder _ | Transfer _, Transfer _ => true
  | _, _ => false
  end.

Lemma encode_uint_inj y z :
  0 <= y < 2 ^ 256 -> 0 <= z < 2 ^ 256 -> encode_uint y = encode_uint z -> y = z.
Proof. intros Hy Hz. apply be_bytes_inj; [exact Hy|exact Hz]. Qed.

Lemma encode_address_inj a b :
  is_address a -> is_address b -> encode_address a = encode_address b -> a = b.
Proof.
  intros Ha Hb H. apply app_inj_len in H as [_ H]; [|done].
  apply be_bytes_inj in H; [done|exact Ha|exact Hb].
Qed.

Lemma encode_bool_inj a b : encode_bool a = encode_bool b -> a = b.
Proof. by destruct a, b. Qed.

Lemma length_encode_uint z : length (encode_uint z) = 32%nat.
Proof. apply length_be_bytes. Qed.
Lemma length_encode_bool b : length (encode_bool b) = 32%nat.
Proof. apply length_encode_uint. Qed.
Lemma length_encode_address a : length (encode_address a) = 32%nat.
Proof.
  unfold encode_address, address_slice. by rewrite length_app, length_replicate, length_be_bytes.
Qed.

Lemma OrderType_as_u8_inj a b : OrderType_as_u8 a = OrderType_as_u8 b -> a = b.
Proof. by destruct a, b. Qed.
Lemma TimeInForce_as_u8_inj a b : TimeInForce_as_u8 a = TimeInForce_as_u8 b -> a = b.
Proof. by destruct a, b. Qed.
Lemma OrderType_as_u8_range t : 0 <= OrderType_as_u8 t < 2 ^ 256.
Proof. destruct t; simpl; lia. Qed.
Lemma TimeInForce_as_u8_range t : 0 <= TimeInForce_as_u8 t < 2 ^ 256.
Proof. destruct t; simpl; lia. Qed.

Lemma is_u32_256 z : is_u32 z -> 0 <= z < 2 ^ 256.
Proof. unfold is_u32, U32_MAX. lia. Qed.
Lemma is_u64_256 z : is_u64 z -> 0 <= z < 2 ^ 256.
Proof. unfold is_u64, U64_MAX. lia. Qed.
Lemma is_u128_256 z : is_u128 z -> 0 <= z < 2 ^ 256.
Proof. unfold is_u128, U128_MAX. lia. Qed.

(** Split an equality of concatenated 32-byte words into equalities of words. *)
Ltac split_words H :=
  rewrite <- ?app_assoc in H;
  repeat lazymatch type of H with
  | _ ++ _ = _ ++ _ =>
      let W := fresh "W" in
      apply app_inj_len in H;
      [destruct H as [W H]
      |by rewrite ?length_encode_uint, ?length_encode_address, ?length_encode_bool]
  end.

Ltac words_inj :=
  repeat match goal with
  | H : encode_uint (OrderType_as_u8 _) = _ |- _ =>
      apply encode_uint_inj in H;
        [|apply OrderType_as_u8_range|apply OrderType_as_u8_range]; apply OrderType_as_u8_inj in H
  | H : encode_uint (TimeInForce_as_u8 _) = _ |- _ =>
      apply encode_uint_inj in H;
        [|apply TimeInForce_as_u8_range|apply TimeInForce_as_u8_range];
        apply TimeInForce_as_u8_inj in H
  | H : encode_uint _ = encode_uint _ |- _ =>
      apply encode_uint_inj in H;
        [|by auto using is_u32_256, is_u64_256, is_u128_256
         |by auto using is_u32_256, is_u64_256, is_u128_256]
  | H : encode_address _ = encode_address _ |- _ =>
      apply encode_address_inj in H; [|done|done]
  | H : encode_bool _ = encode_bool _ |- _ => apply encode_bool_inj in H
  end.

(** C36: the EIP-712 data a wallet signs determines the transaction: two
    well-typed transactions of the same typed kind with the same encoded data
    have the same nonce, sender and payload. *)
Theorem eip712_data_inj {V : TxEnv} p q n1 n2 from1 from2 :
  same_kind p q = true -> payload_ok p -> payload_ok q ->
  is_u64 n1 -> is_u64 n2 -> is_address from1 -> is_address from2 ->
  eip712_data p n1 from1 = eip712_data q n2 from2 ->
  p = q /\ n1 = n2 /\ from1 = from2.
Proof.
  intros Hk Hp Hq Hn1 Hn2 Ha1 Ha2 H.
  destruct p as [[]|[]|[]|[]| | | | |[]| |], q as [[]|[]|[]|[]| | | | |[]| |];
    try discriminate Hk; simpl in Hp, Hq; destruct_and?;
    cbv [eip712_data encoder_new encoder_add_uint encoder_add_address encoder_add_bool] in H;
    cbn -[encode_uint encode_address encode_bool] in H; split_words H; words_inj; by subst.
Qed.

(** The domain separator does not depend on the verifying contract. *)
Theorem domain_hash_ignores_contract {V : TxEnv} d c :
  domain_hash {| dom_name := dom_name d; dom_version := dom_version d;
                 dom_chain_id := dom_chain_id d; dom_verifying_contract := c |} = domain_hash d.
Proof. reflexivity. Qed.

(** Decoding an encoded transaction of at most 100 kB gives it back; a
    longer one is refused before decoding. *)
Theorem encode_decode {V : TxEnv} {Vok : TxEnvOk V} tx :
  decode_tx (encode tx) =
  if MAX_TX_SIZE <? Z.of_nat (length (encode tx))
  then Err (TxTooLarge (Z.of_nat (length (encode tx))) MAX_TX_SIZE) else Ok tx.
Proof.
  unfold decode_tx, tx_try_from, encode. destruct (_ <? _); [done|].
  by rewrite borsh_tx_roundtrip.
Qed.

(** * Witnesses *)

(** An environment with a toy serializer: a payload is a tag and its fields, a
    transaction is numbered through stdpp's [Countable]; the hashes are sums. *)
Definition z_of_bool (b : bool) : Z := if b then 1 else 0.
Definition bool_of_z (z : Z) : bool := z =? 1.
Definition order_type_of_z (z : Z) : OrderType :=
  match z with
  | 0 => OT_Market | 1 => OT_Limit | 2 => OT_StopMarket | 3 => OT_StopLimit
  | 4 => OT_TakeProfitMarket | _ => OT_TakeProfitLimit
  end.
Definition time_in_force_of_z (z : Z) : TimeInForce :=
  match z with 0 => GTC | 1 => IOC | 2 => FOK | _ => PostOnly end.

Definition payload_fields (p : TxPayload) : list Z :=
  match p with
  | Deposit d => [0; dep_amount d; dep_asset_id d]
  | Withdraw w => [1; wd_amount w; wd_asset_id w; wd_to w]
  | PlaceOrder o =>
      [2; po_market_id o; z_of_bool (po_is_buy o); OrderType_as_u8 (po_order_type o);
       po_price o; po_size o; TimeInForce_as_u8 (po_time_in_force o);
       z_of_bool (po_reduce_only o); z_of_bool (po_post_only o)]
  | CancelOrder c => [3; co_order_id c]
  | ModifyOrder m => [4; mo_order_id m; mo_new_price m; mo_new_size m]
  | ClosePosition c => [5; cp_market_id c; cp_size c]
  | SetAgent a => [6; sa_agent a; sa_permissions a]
  | RemoveAgent a => [7; ra_agent a]
  | Transfer t => [8; tr_to t; tr_amount t; tr_asset_id t]
  | BridgeDeposit b => [9; bd_user b; bd_amount b; bd_asset_id b; bd_external_tx_hash b]
  | BridgeWithdraw b =>
      [10; bw_user b; bw_amount b; bw_asset_id b; bw_destination b; bw_external_tx_hash b]
  end.

Definition payload_of_fields (l : list Z) : TxPayload :=
  match l with
  | [0; a; i] => Deposit {| dep_amount := a; dep_asset_id := i |}
  | [1; a; i; t] => Withdraw {| wd_amount := a; wd_asset_id := i; wd_to := t |}
  | [2; m; b; t; p; s; f; r; q] =>
      PlaceOrder {| po_market_id := m; po_is_buy := bool_of_z b;
        po_order_type := order_type_of_z t; po_price := p; po_size := s;
        po_time_in_force := time_in_force_of_z f; po_reduce_only := bool_of_z r;
        po_post_only := bool_of_z q |}
  | [4; o; p; s] => ModifyOrder {| mo_order_id := o; mo_new_price := p; mo_new_size := s |}
  | [5; m; s] => ClosePosition {| cp_market_id := m; cp_size := s |}
  | [6; a; p] => SetAgent {| sa_agent := a; sa_permissions := p |}
  | [7; a] => RemoveAgent {| ra_agent := a |}
  | [8; t; a; i] => Transfer {| tr_to := t; tr_amount := a; tr_asset_id := i |}
  | [9; u; a; i; h] => BridgeDeposit
      {| bd_user := u; bd_amount := a; bd_asset_id := i; bd_external_tx_hash := h |}
  | [10; u; a; i; d; h] => BridgeWithdraw
      {| bw_user := u; bw_amount := a; bw_asset_id := i; bw_destination := d;
         bw_external_tx_hash := h |}
  | [_; o] => CancelOrder {| co_order_id := o |}
  | _ => CancelOrder {| co_order_id := 0 |}
  end.

#[export] Instance TxPayload_countable : Countable TxPayload.
Proof.
  apply (inj_countable' payload_fields payload_of_fields).
  intros [[]|[]|[? [] [] ? ? [] [] []]|[]|[]|[]|[]|[]|[]|[]|[]]; reflexivity.
Defined.

#[export] Instance TypedDataDomain_countable : Countable TypedDataDomain.
Proof.
  apply (inj_countable'
    (fun d => (dom_name d, dom_version d, dom_chain_id d, dom_verifying_contract d))
    (fun '(n, v, c, k) => {| dom_name := n; dom_version := v; dom_chain_id := c;
                             dom_verifying_contract := k |})).
  by intros [].
Defined.

#[export] Instance Transaction_countable : Countable Transaction.
Proof.
  apply (inj_countable'
    (fun t => (tx_nonce t, tx_from t, tx_payload t,
       match tx_signature t with EIP712 d s => inl (d, s) | RawBorsh s => inr s end))
    (fun '(n, f, p, s) => {| tx_nonce := n; tx_from := f; tx_payload := p;
       tx_signature := match s with inl (d, s) => EIP712 d s | inr s => RawBorsh s end |})).
  by intros [? ? ? []].
Defined.

#[export] Instance toy_env : TxEnv := {|
  keccak256 l := foldr Z.add 1 l;
  sha256 l := foldr Z.add 2 l;
  borsh_payload := payload_fields;
  borsh_tx t := [Zpos (countable.encode t)];
  borsh_tx_decode l := match l with [Zpos n] => countable.decode n | _ => None end;
|}.
#[export] Instance toy_env_ok : TxEnvOk toy_env.
Proof. constructor. intros tx. simpl. apply decode_encode. Defined.

Definition demo_transfer (amount : Z) : TxPayload :=
  Transfer {| tr_to := 2; tr_amount := amount; tr_asset_id := 0 |}.

Lemma eip712_data_inj_witness :
  eip712_data (demo_transfer 5) 0 1 <> eip712_data (demo_transfer 6) 0 1.
Proof.
  intros H.
  destruct (eip712_data_inj (demo_transfer 5) (demo_transfer 6) 0 0 1 1) as (E & _ & _);
    [reflexivity
    |vm_compute; intuition congruence|vm_compute; intuition congruence
    |vm_compute; intuition congruence|vm_compute; intuition congruence
    |vm_compute; intuition congruence|vm_compute; intuition congruence
    |exact H|discriminate E].
Defined.

Lemma encode_decode_witness :
  decode_tx (encode (new_raw 7 1 (demo_transfer 5))) = Ok (new_raw 7 1 (demo_transfer 5)).
Proof. exact (encode_decode (new_raw 7 1 (demo_transfer 5))). Defined.
