(* ===== verification/EngineBase.v ===== *)
(** Errors and constants of the [pranklin-engine] crate (crates/engine/src/error.rs
    and constants.rs). *)
From stdpp Require Import base gmap sets list sorting strings.
From Stdlib Require Import ZArith Lia.
From S2P Require Import Prelude Types Storage Tx.

(** The messages of [EngineError::Other], with the values they print. *)
Inductive OtherError :=
| InvalidMarkPrice
| CannotPartiallyLiquidateZero
| CannotPartiallyAdlZero
| CannotReduceZero
| TransferToSelf
| AssetNotFound
| AssetNotTransferrable
| PriceOffTick (price tick_size : Z)
| SizeBelowMin (size min : Z)
| SizeAboveMax (size max : Z).

Inductive EngineError :=
| MarketNotFound
| OrderNotFound
| PositionNotFound
| InsufficientBalance
| InsufficientMargin
| Unauthorized
| InvalidOrderParams
| OrderNotFilled
| SelfTrade
| PostOnlyWouldTake
| ReduceOnlyWouldIncrease
| LeverageTooHigh
| WouldBeLiquidated
| Overflow
| DivisionByZero
| EngStateError (e : StateError)
| EngTxError (e : TxError)
| EngOther (e : OtherError).

#[export] Instance OtherError_eq_dec : EqDecision OtherError.
Proof. solve_decision. Defined.
#[export] Instance EngineError_eq_dec : EqDecision EngineError.
Proof. solve_decision. Defined.

Definition BASIS_POINTS : Z := 10000.
Definition DEFAULT_LIQUIDATOR_FEE_BPS : Z := 5000.
Definition DEFAULT_INSURANCE_FEE_BPS : Z := 5000.
Definition DEFAULT_MIN_INSURANCE_RATIO_BPS : Z := 100.
Definition MARGIN_BUFFER_BPS : Z := 200.
Definition MIN_LIQUIDATION_PCT : Z := 10.
Definition DEFAULT_MAX_FUNDING_RATE_BPS : Z := 1000.

(** [state.op()?] inside the engine: the [From<StateError>] conversion. *)
Definition lift_state {S A} (m : ST S StateError A) : ST S EngineError A :=
  st_map_err EngStateError m.
Definition state_result {A} (r : result StateError A) : result EngineError A :=
  map_err EngStateError r.

(** [a.checked_mul(b).ok_or(EngineError::Overflow)?] and the like. *)
Definition mul_or_overflow (a b : Z) : result EngineError Z := ok_or Overflow (checked_mul_u128 a b).
Definition add_or_overflow (a b : Z) : result EngineError Z := ok_or Overflow (checked_add_u128 a b).
Definition sub_or_overflow (a b : Z) : result EngineError Z := ok_or Overflow (checked_sub_u128 a b).

Lemma mul_or_overflow_Ok a b c : mul_or_overflow a b = Ok c <-> c = a * b /\ a * b <= U128_MAX.
Proof. unfold mul_or_overflow. by rewrite ok_or_Ok, checked_mul_u128_Some. Qed.
Lemma add_or_overflow_Ok a b c : add_or_overflow a b = Ok c <-> c = a + b /\ a + b <= U128_MAX.
Proof. unfold add_or_overflow. by rewrite ok_or_Ok, checked_add_u128_Some. Qed.
Lemma sub_or_overflow_Ok a b c : sub_or_overflow a b = Ok c <-> c = a - b /\ b <= a.
Proof. unfold sub_or_overflow. by rewrite ok_or_Ok, checked_sub_u128_Some. Qed.

Lemma mul_fits a b : a * b <= U128_MAX -> mul_or_overflow a b = Ok (a * b).
Proof. intros. by apply mul_or_overflow_Ok. Qed.
Lemma add_fits a b : a + b <= U128_MAX -> add_or_overflow a b = Ok (a + b).
Proof. intros. by apply add_or_overflow_Ok. Qed.
(** The product of two [u64] never overflows a [u128]. *)
Lemma mul_u64_fits a b : is_u64 a -> is_u64 b -> mul_or_overflow a b = Ok (a * b).
Proof. intros Ha Hb. apply mul_fits. by apply mul_u64_u128. Qed.

(** Take a successful checked computation apart, arithmetic included. *)
Ltac inv_checked :=
  repeat (inv_ok; match goal with
  | H : mul_or_overflow _ _ = Ok _ |- _ => apply mul_or_overflow_Ok in H; destruct H
  | H : add_or_overflow _ _ = Ok _ |- _ => apply add_or_overflow_Ok in H; destruct H
  | H : sub_or_overflow _ _ = Ok _ |- _ => apply sub_or_overflow_Ok in H; destruct H
  | H : checked_div _ _ = Some _ |- _ => apply checked_div_Some in H; destruct H
  end); inv_ok;
  repeat match goal with H : _ = ?x |- _ => is_var x; subst x end.
