(* ===== verification/Orderbook.v ===== *)
(** The order book of the engine (crates/engine/src/orderbook.rs): price levels,
    insertion and removal, matching, best prices and depth. *)
From stdpp Require Import base gmap sets list sorting strings.
From Stdlib Require Import ZArith Lia.
From S2P Require Import Prelude Types Storage State EngineBase.

(** * Price levels *)

Record PriceLevel := { pl_orders : list Z; pl_total_size : Z }.

#[export] Instance PriceLevel_eq_dec : EqDecision PriceLevel.
Proof. solve_decision. Defined.

Definition PriceLevel_new : PriceLevel := {| pl_orders := []; pl_total_size := 0 |}.

Definition level_add_order (order_id size : Z) (level : PriceLevel) : PriceLevel :=
  {| pl_orders := pl_orders level ++ [order_id];
     pl_total_size := wadd64 (pl_total_size level) size |}.

(** Returns whether the order was found; only then the level changes. *)
Definition level_remove_order (order_id size : Z) (level : PriceLevel) : bool * PriceLevel :=
  match position order_id (pl_orders level) with
  | Some pos =>
      (true, {| pl_orders := delete pos (pl_orders level);
                pl_total_size := saturating_sub (pl_total_size level) size |})
  | None => (false, level)
  end.

Definition level_is_empty (level : PriceLevel) : bool :=
  match pl_orders level with [] => true | _ => false end.

(** [level.total_size -= size] *)
Definition level_reduce (size : Z) (level : PriceLevel) : PriceLevel :=
  {| pl_orders := pl_orders level; pl_total_size := wsub64 (pl_total_size level) size |}.

(** * The manager *)

Notation Book := (gmap Z PriceLevel) (only parsing).

Record OrderbookManager := {
  ob_orders : gmap Z Order;
  ob_orders_by_market : gmap Z (gset Z);
  ob_bids : gmap Z (gmap Z PriceLevel);
  ob_asks : gmap Z (gmap Z PriceLevel);
}.

Definition OrderbookManager_new : OrderbookManager :=
  {| ob_orders := ∅; ob_orders_by_market := ∅; ob_bids := ∅; ob_asks := ∅ |}.

(** The books of one side: [true] for the bids. *)
Definition ob_side (is_buy : bool) (ob : OrderbookManager) : gmap Z (gmap Z PriceLevel) :=
  if is_buy then ob_bids ob else ob_asks ob.
Definition with_ob_side (is_buy : bool) (books : gmap Z (gmap Z PriceLevel))
    (ob : OrderbookManager) : OrderbookManager :=
  if is_buy
  then {| ob_orders := ob_orders ob; ob_orders_by_market := ob_orders_by_market ob;
          ob_bids := books; ob_asks := ob_asks ob |}
  else {| ob_orders := ob_orders ob; ob_orders_by_market := ob_orders_by_market ob;
          ob_bids := ob_bids ob; ob_asks := books |}.
Definition with_ob_index (orders : gmap Z Order) (by_market : gmap Z (gset Z))
    (ob : OrderbookManager) : OrderbookManager :=
  {| ob_orders := orders; ob_orders_by_market := by_market;
     ob_bids := ob_bids ob; ob_asks := ob_asks ob |}.

Definition add_order (order_id : Z) (order : Order) (ob : OrderbookManager) : OrderbookManager :=
  let by_market := ob_orders_by_market ob in
  let ob := with_ob_index
    (<[order_id := order]> (ob_orders ob))
    (<[o_market_id order := {[order_id]} ∪ default ∅ (by_market !! o_market_id order)]> by_market)
    ob in
  let side := ob_side (o_is_buy order) ob in
  let book := default ∅ (side !! o_market_id order) in
  let level := default PriceLevel_new (book !! o_price order) in
  let level := level_add_order order_id (o_remaining_size order) level in
  with_ob_side (o_is_buy order)
    (<[o_market_id order := <[o_price order := level]> book]> side) ob.

Definition remove_order (order_id : Z) (order : Order) (ob : OrderbookManager)
    : OrderbookManager :=
  let by_market := ob_orders_by_market ob in
  let by_market := match by_market !! o_market_id order with
    | Some orders => <[o_market_id order := orders ∖ {[order_id]}]> by_market
    | None => by_market
    end in
  let ob := with_ob_index (delete order_id (ob_orders ob)) by_market ob in
  let side := ob_side (o_is_buy order) ob in
  match side !! o_market_id order with
  | Some book =>
      match book !! o_price order with
      | Some level =>
          let '(_, level) := level_remove_order order_id (o_remaining_size order) level in
          let book :=
            if level_is_empty level then delete (o_price order) book
            else <[o_price order := level]> book in
          with_ob_side (o_is_buy order) (<[o_market_id order := book]> side) ob
      | None => ob
      end
  | None => ob
  end.

(** The price at the head of a book: the lowest ask, the highest bid. *)
Definition best_of (is_buy : bool) (book : gmap Z PriceLevel) : option Z :=
  if is_buy then last (btree_keys book) else head (btree_keys book).

Definition would_match (ob : OrderbookManager) (order : Order) : result EngineError bool :=
  match ob_side (negb (o_is_buy order)) ob !! o_market_id order with
  | Some book =>
      match best_of (negb (o_is_buy order)) book with
      | Some best_price =>
          if o_price order =? 0 then Ok true
          else if o_is_buy order && (best_price <=? o_price order) then Ok true
          else if negb (o_is_buy order) && (o_price order <=? best_price) then Ok true
          else Ok false
      | None => Ok false
      end
  | None => Ok false
  end.

Definition get_best_bid (ob : OrderbookManager) (market_id : Z) : option Z :=
  book ← ob_bids ob !! market_id; last (btree_keys book).
Definition get_best_ask (ob : OrderbookManager) (market_id : Z) : option Z :=
  book ← ob_asks ob !! market_id; head (btree_keys book).

Definition depth_of (book : gmap Z PriceLevel) (prices : list Z) : list (Z * Z) :=
  omap (fun price => (fun level => (price, pl_total_size level)) <$> book !! price) prices.

Definition get_depth (ob : OrderbookManager) (market_id : Z) (levels : nat)
    : list (Z * Z) * list (Z * Z) :=
  let bids := match ob_bids ob !! market_id with
    | Some book => depth_of book (take levels (rev (btree_keys book))) | None => [] end in
  let asks := match ob_asks ob !! market_id with
    | Some book => depth_of book (take levels (btree_keys book)) | None => [] end in
  (bids, asks).

Section matching.
Context {B : Backend}.

Definition get_orders_for_market (ob : OrderbookManager) (market_id : Z) : list Z :=
  match ob_orders_by_market ob !! market_id with
  | Some orders => hash_order (elements orders)
  | None => []
  end.

(** * Matching *)

(** The state below the loops: the level being matched, the book that holds it,
    each with the state manager. *)
Notation LevelST A := (ST (PriceLevel * StateManager) EngineError A).
Notation BookST A := (ST (gmap Z PriceLevel * StateManager) EngineError A).

Definition on_sm {T A} (m : ST StateManager StateError A) : ST (T * StateManager) EngineError A :=
  st_zoom snd (fun s t => (fst t, s)) (lift_state m).
Definition read_sm {T A} (f : StateManager -> result StateError A)
    : ST (T * StateManager) EngineError A := st_read (fun t => state_result (f (snd t))).

(** The acceptable prices of a limit order; price 0 is a market order. *)
Definition price_acceptable (order : Order) (price : Z) : bool :=
  if o_is_buy order && (0 <? o_price order) && (o_price order <? price) then false
  else if negb (o_is_buy order) && (0 <? o_price order) && (price <? o_price order) then false
  else true.

Definition make_fill (order : Order) (price : Z) (maker_order_id : Z) (maker_order : Order)
    (fill_size : Z) : Fill :=
  {| f_maker := o_owner maker_order; f_taker := o_owner order;
     f_market_id := o_market_id order; f_price := price; f_size := fill_size;
     f_taker_is_buy := o_is_buy order; f_maker_order_id := maker_order_id;
     f_taker_order_id := o_id order |}.

(** What a maker order becomes. *)
Definition update_maker (maker_order_id : Z) (maker_order : Order) (fill_size : Z) : LevelST unit :=
  let updated_maker :=
    set_remaining_size (wsub64 (o_remaining_size maker_order) fill_size) maker_order in
  if o_remaining_size updated_maker =? 0 then
    let updated_maker := set_status Filled updated_maker in
    on_sm (set_order maker_order_id updated_maker) ;;
    on_sm (remove_active_order (o_market_id updated_maker) maker_order_id) ;;
    st_modify (fun '(level, s) => (snd (level_remove_order maker_order_id fill_size level), s))
  else
    on_sm (set_order maker_order_id updated_maker) ;;
    st_modify (fun '(level, s) => (level_reduce fill_size level, s)).

(** The body of [for maker_order_id in orders_to_match]; the accumulator is
    [(remaining_size, fills)]. *)
Definition match_maker (order : Order) (price : Z) (acc : Z * list Fill) (maker_order_id : Z)
    : LevelST (Z * list Fill) :=
  let '(remaining_size, fills) := acc in
  let! found := read_sm (fun s => get_order s maker_order_id) in
  match found with
  | None => st_ret acc
  | Some maker_order =>
      if o_owner maker_order =? o_owner order then st_ret acc
      else
        let fill_size := Z.min remaining_size (o_remaining_size maker_order) in
        let fill := make_fill order price maker_order_id maker_order fill_size in
        update_maker maker_order_id maker_order fill_size ;;
        st_ret (wsub64 remaining_size fill_size, fills ++ [fill])
  end.

Fixpoint match_level (order : Order) (price : Z) (orders_to_match : list Z)
    (acc : Z * list Fill) : LevelST (Z * list Fill) :=
  match orders_to_match with
  | [] => st_ret acc
  | maker_order_id :: rest =>
      if fst acc =? 0 then st_ret acc
      else let! acc := match_maker order price acc maker_order_id in
           match_level order price rest acc
  end.

Definition on_level {A} (price : Z) (m : LevelST A) : BookST A :=
  st_zoom (fun '(book, s) => (default PriceLevel_new (book !! price), s))
          (fun '(level, s) '(book, _) => (<[price := level]> book, s)) m.

Definition match_price (order : Order) (price : Z) (acc : Z * list Fill)
    : BookST (Z * list Fill) :=
  let! entry := st_gets (fun '(book, _) => book !! price) in
  match entry with
  | None => st_ret acc
  | Some level =>
      let! acc := on_level price (match_level order price (pl_orders level) acc) in
      st_modify (fun '(book, s) =>
        if level_is_empty (default PriceLevel_new (book !! price))
        then (delete price book, s) else (book, s)) ;;
      st_ret acc
  end.

Fixpoint match_prices (order : Order) (prices : list Z) (acc : Z * list Fill)
    : BookST (Z * list Fill) :=
  match prices with
  | [] => st_ret acc
  | price :: rest =>
      if negb (price_acceptable order price) then st_ret acc
      else let! acc := match_price order price acc in
           if fst acc =? 0 then st_ret acc else match_prices order rest acc
  end.

Definition on_book {A} (is_buy : bool) (market_id : Z) (m : BookST A)
    : ST (OrderbookManager * StateManager) EngineError A :=
  st_zoom (fun '(ob, s) => (default ∅ (ob_side is_buy ob !! market_id), s))
          (fun '(book, s) '(ob, _) =>
             (with_ob_side is_buy (<[market_id := book]> (ob_side is_buy ob)) ob, s)) m.

(** The prices of the opposing book, best first for the taker. *)
Definition opposing_prices (order : Order) (book : gmap Z PriceLevel) : list Z :=
  if o_is_buy order then btree_keys book else rev (btree_keys book).

Definition match_order (order : Order) (_market : Market)
    : ST (OrderbookManager * StateManager) EngineError (list Fill) :=
  let! violation :=
    if o_post_only order then st_read (fun '(ob, _) => would_match ob order) else st_ret false in
  st_guard (negb violation) PostOnlyWouldTake ;;
  let! opposing_book :=
    st_gets (fun '(ob, _) => ob_side (negb (o_is_buy order)) ob !! o_market_id order) in
  match opposing_book with
  | None => st_ret []
  | Some book =>
      let! (_, fills) :=
        on_book (negb (o_is_buy order)) (o_market_id order)
          (match_prices order (opposing_prices order book) (o_remaining_size order, [])) in
      st_ret fills
  end.

End matching.
