(* ===== verification/Matching.v ===== *)
(** The specification of the order book and of [match_order].

    The order book is a cache: at every moment it is determined by the state
    ([book_synced]): the level of a market, side and price lists, in arrival
    order, the active orders of the state with that side and price, and its
    total is the sum of their remaining sizes.  Matching is specified by
    [reference_match], the textbook greedy walk over the queue of acceptable
    makers in price-time order, and by [fills_run], the sequence of atomic
    updates the fills make to the state. *)
From stdpp Require Import base gmap sets list sorting strings.
From Stdlib Require Import ZArith Lia.
From S2P Require Import Prelude Types Storage State EngineBase Orderbook.

Section spec.
Context {B : Backend}.

Definition order_of (s : StateManager) (id : Z) : option Order := ok_flatten (get_order s id).
Definition active (s : StateManager) (m : Z) : list Z :=
  match get_active_orders_by_market s m with Ok l => l | Err _ => [] end.

Definition at_price (s : StateManager) (side : bool) (p : Z) (id : Z) : bool :=
  match order_of s id with
  | Some o => Bool.eqb (o_is_buy o) side && (o_price o =? p)
  | None => false
  end.

(** The active orders of a market at a side and price, oldest first. *)
Definition queue (s : StateManager) (m : Z) (side : bool) (p : Z) : list Z :=
  filter (fun id => at_price s side p id = true) (active s m).

Definition remaining_of (s : StateManager) (id : Z) : Z :=
  match order_of s id with Some o => o_remaining_size o | None => 0 end.

Definition level_of (s : StateManager) (m : Z) (side : bool) (p : Z) : PriceLevel :=
  {| pl_orders := queue s m side p; pl_total_size := sumZ (remaining_of s) (queue s m side p) |}.

Definition expected_level (s : StateManager) (m : Z) (side : bool) (p : Z) : option PriceLevel :=
  if level_is_empty (level_of s m side p) then None else Some (level_of s m side p).

Definition level_at (ob : OrderbookManager) (m : Z) (side : bool) (p : Z) : option PriceLevel :=
  book ← ob_side side ob !! m; book !! p.

(** The active orders of a market are distinct, stored, of that market, active
    and not exhausted; no level overflows a [u64]. *)
Record market_ok (s : StateManager) (m : Z) : Prop := {
  mok_readable : get_active_orders_by_market s m = Ok (active s m);
  mok_nodup : NoDup (active s m);
  mok_live : forall id, id ∈ active s m -> exists o,
    get_order s id = Ok (Some o) /\ o_market_id o = m /\ o_status o = Active /\
    0 < o_remaining_size o;
  mok_total : forall side p, pl_total_size (level_of s m side p) <= U64_MAX;
}.
Definition state_ok (s : StateManager) : Prop := forall m, market_ok s m.

Definition book_synced (ob : OrderbookManager) (s : StateManager) : Prop :=
  state_ok s /\ forall m side p, level_at ob m side p = expected_level s m side p.

(** ** Reference matching *)

(** The makers of one price that the taker may trade with. *)
Definition resting (order : Order) (s : StateManager) (price : Z) (ids : list Z)
    : list (Z * Z * Order) :=
  omap (fun id => match order_of s id with
    | Some maker => if o_owner maker =? o_owner order then None else Some (price, id, maker)
    | None => None
    end) ids.

Fixpoint greedy (order : Order) (remaining : Z) (makers : list (Z * Z * Order)) : list Fill :=
  match makers with
  | [] => []
  | (price, id, maker) :: rest =>
      if remaining =? 0 then []
      else let size := Z.min remaining (o_remaining_size maker) in
           make_fill order price id maker size :: greedy order (remaining - size) rest
  end.

Definition makers_at (order : Order) (s : StateManager) (price : Z) : list (Z * Z * Order) :=
  resting order s price (queue s (o_market_id order) (negb (o_is_buy order)) price).

Definition acceptable_prices (order : Order) (ob : OrderbookManager) : list Z :=
  take_while (price_acceptable order)
    (opposing_prices order
       (default ∅ (ob_side (negb (o_is_buy order)) ob !! o_market_id order))).

Definition reference_match (ob : OrderbookManager) (s : StateManager) (order : Order) : list Fill :=
  greedy order (o_remaining_size order)
    (flat_map (makers_at order s) (acceptable_prices order ob)).

(** ** The effect of fills on the state *)

Definition after_fill (size : Z) (o : Order) : Order :=
  let o' := set_remaining_size (o_remaining_size o - size) o in
  if o_remaining_size o' =? 0 then set_status Filled o' else o'.

(** Is the maker order exhausted by the fill? *)
Definition exhausts (f : Fill) (maker : Order) : bool := o_remaining_size maker - f_size f =? 0.

Inductive fill_step (s : StateManager) (f : Fill) (s' : StateManager) : Prop :=
| fill_step_intro (maker : Order)
    (fs_order : get_order s (f_maker_order_id f) = Ok (Some maker))
    (fs_active : f_maker_order_id f ∈ active s (f_market_id f))
    (fs_owner : o_owner maker = f_maker f)
    (fs_price : o_price maker = f_price f)
    (fs_side : o_is_buy maker = negb (f_taker_is_buy f))
    (fs_size : 0 < f_size f <= o_remaining_size maker)
    (fs_after : get_order s' (f_maker_order_id f) = Ok (Some (after_fill (f_size f) maker)))
    (fs_others : forall id, id <> f_maker_order_id f -> get_order s' id = get_order s id)
    (fs_lists : forall m, m <> f_market_id f ->
       get_active_orders_by_market s' m = get_active_orders_by_market s m)
    (fs_list : get_active_orders_by_market s' (f_market_id f) =
       Ok (if exhausts f maker
           then filter (fun id => id <> f_maker_order_id f) (active s (f_market_id f))
           else active s (f_market_id f))).

Inductive fills_run : StateManager -> list Fill -> StateManager -> Prop :=
| run_nil s : fills_run s [] s
| run_cons s f s1 fs s2 : fill_step s f s1 -> fills_run s1 fs s2 -> fills_run s (f :: fs) s2.

End spec.

Section level_facts.
Context {B : Backend} {Bok : BackendOk B}.
Implicit Types s : StateManager.

Lemma order_of_eq s s' id : get_order s' id = get_order s id -> order_of s' id = order_of s id.
Proof. unfold order_of. by intros ->. Qed.
Lemma order_of_Ok s id o : get_order s id = Ok (Some o) -> order_of s id = Some o.
Proof. unfold order_of. by intros ->. Qed.
Lemma at_price_eq s s' side p id :
  order_of s' id = order_of s id -> at_price s' side p id = at_price s side p id.
Proof. unfold at_price. by intros ->. Qed.
Lemma remaining_of_eq s s' id :
  order_of s' id = order_of s id -> remaining_of s' id = remaining_of s id.
Proof. unfold remaining_of. by intros ->. Qed.

Lemma elem_of_queue s m side p id :
  id ∈ queue s m side p <-> at_price s side p id = true /\ id ∈ active s m.
Proof. unfold queue. by rewrite list_elem_of_filter. Qed.

Lemma at_price_order s side p id :
  at_price s side p id = true <->
  exists o, order_of s id = Some o /\ o_is_buy o = side /\ o_price o = p.
Proof.
  unfold at_price. destruct (order_of s id) as [o|]; split.
  - intros [?%eqb_prop ?%Z.eqb_eq]%andb_true_iff. eauto.
  - intros (? & [= <-] & -> & ->). by rewrite eqb_reflx, Z.eqb_refl.
  - done.
  - by intros (? & ? & _).
Qed.

Lemma queue_NoDup s m side p : market_ok s m -> NoDup (queue s m side p).
Proof. intros H. apply NoDup_filter. apply H. Qed.

Lemma live_remaining s m id : market_ok s m -> id ∈ active s m -> 0 < remaining_of s id.
Proof.
  intros H Hid. destruct (mok_live _ _ H id Hid) as (o & Ho & _ & _ & Hr).
  unfold remaining_of. by rewrite (order_of_Ok _ _ _ Ho).
Qed.

Lemma queue_remaining s m side p id :
  market_ok s m -> id ∈ queue s m side p ->
  0 < remaining_of s id <= pl_total_size (level_of s m side p) /\
  pl_total_size (level_of s m side p) <= U64_MAX.
Proof.
  intros H Hid. pose proof (proj2 (proj1 (elem_of_queue _ _ _ _ _) Hid)) as Ha.
  split_and!; [by eapply live_remaining| |apply H].
  simpl. apply (sumZ_elem (remaining_of s)); [|done].
  intros y Hy. apply elem_of_queue in Hy as [_ Hy].
  pose proof (live_remaining s m y H Hy). lia.
Qed.

(** An active order belongs to one market only. *)
Lemma active_market s m m' id : state_ok s -> id ∈ active s m -> id ∈ active s m' -> m = m'.
Proof.
  intros H H1 H2. destruct (mok_live _ _ (H m) id H1) as (o & Ho & Hm & _).
  destruct (mok_live _ _ (H m') id H2) as (o' & Ho' & Hm' & _). congruence.
Qed.

(** The level depends on the active list and on the orders in it. *)
Lemma level_of_ext s s' m side p :
  active s' m = active s m ->
  (forall id, id ∈ active s m -> order_of s' id = order_of s id) ->
  level_of s' m side p = level_of s m side p.
Proof.
  intros Ha Ho. unfold level_of.
  assert (Hq : queue s' m side p = queue s m side p).
  { unfold queue. rewrite Ha. apply filter_ext_on. intros id Hid.
    by rewrite (at_price_eq s s') by auto. }
  rewrite Hq. f_equal. apply sumZ_ext. intros id [_ Hid]%elem_of_queue.
  apply remaining_of_eq. auto.
Qed.

Lemma expected_level_ext s s' m side p :
  level_of s' m side p = level_of s m side p ->
  expected_level s' m side p = expected_level s m side p.
Proof. unfold expected_level. by intros ->. Qed.

Lemma expected_level_Some s m side p lvl :
  expected_level s m side p = Some lvl -> lvl = level_of s m side p /\ pl_orders lvl <> [].
Proof.
  unfold expected_level, level_is_empty. destruct (pl_orders (level_of s m side p)) eqn:E; [done|].
  intros [= <-]. split; [done|]. by rewrite E.
Qed.

Lemma expected_level_None s m side p :
  expected_level s m side p = None -> level_of s m side p = PriceLevel_new.
Proof.
  unfold expected_level, level_is_empty, level_of. simpl.
  by destruct (queue s m side p).
Qed.

Lemma expected_level_default s m side p :
  default PriceLevel_new (expected_level s m side p) = level_of s m side p.
Proof.
  destruct (expected_level s m side p) eqn:E; simpl.
  - by apply expected_level_Some in E as [-> _].
  - symmetry. by apply expected_level_None.
Qed.

End level_facts.

(** * One fill *)

Section step_facts.
Context {B : Backend} {Bok : BackendOk B}.
Context (s : StateManager) (f : Fill) (s' : StateManager).
Context (Hs : state_ok s) (Hf : fill_step s f s').
Notation id := (f_maker_order_id f).
Notation out := (remaining_of s id - f_size f =? 0).

Lemma fill_step_maker : exists maker,
  order_of s id = Some maker /\ order_of s' id = Some (after_fill (f_size f) maker).
Proof using Hf.
  destruct Hf as [maker]. exists maker. by split; apply order_of_Ok.
Qed.

Lemma after_fill_fields size o :
  o_owner (after_fill size o) = o_owner o /\ o_market_id (after_fill size o) = o_market_id o /\
  o_is_buy (after_fill size o) = o_is_buy o /\ o_price (after_fill size o) = o_price o /\
  o_remaining_size (after_fill size o) = o_remaining_size o - size /\
  (o_remaining_size o - size <> 0 -> o_status (after_fill size o) = o_status o).
Proof.
  unfold after_fill. simpl. destruct (Z.eqb_spec (o_remaining_size o - size) 0); by split_and!.
Qed.

Lemma fill_step_remaining i :
  remaining_of s' i = if decide (i = id) then remaining_of s id - f_size f else remaining_of s i.
Proof using Hf.
  destruct (decide (i = id)) as [->|Hne].
  - destruct fill_step_maker as (mk & H1 & H2). unfold remaining_of. rewrite H1, H2.
    apply after_fill_fields.
  - apply remaining_of_eq, order_of_eq. by destruct Hf; auto.
Qed.

Lemma fill_step_at_price side p i : at_price s' side p i = at_price s side p i.
Proof using Hf.
  destruct (decide (i = id)) as [->|Hne].
  - destruct fill_step_maker as (mk & H1 & H2). unfold at_price. rewrite H1, H2.
    destruct (after_fill_fields (f_size f) mk) as (_ & _ & -> & -> & _). done.
  - apply at_price_eq, order_of_eq. by destruct Hf; auto.
Qed.

Lemma fill_step_size : 0 < f_size f <= remaining_of s id.
Proof using Hf.
  destruct Hf as [mk Ho]. unfold remaining_of. by rewrite (order_of_Ok _ _ _ Ho).
Qed.

Lemma fill_step_in_queue :
  id ∈ queue s (f_market_id f) (negb (f_taker_is_buy f)) (f_price f).
Proof using Hf.
  destruct Hf as [mk Ho]. apply elem_of_queue. split; [|done].
  apply at_price_order. exists mk. split; [by apply order_of_Ok|done].
Qed.

Lemma fill_step_active m :
  get_active_orders_by_market s' m =
  Ok (if out then filter (fun i => i <> id) (active s m) else active s m).
Proof using Hf Hs.
  destruct Hf as [mk Ho Ha _ _ _ _ _ _ Hl Hlm].
  assert (E : out = exhausts f mk).
  { unfold exhausts, remaining_of. by rewrite (order_of_Ok _ _ _ Ho). }
  rewrite E. destruct (decide (m = f_market_id f)) as [->|Hne]; [done|].
  rewrite Hl by done. rewrite (mok_readable _ _ (Hs m)).
  destruct (exhausts f mk); [|done]. f_equal. symmetry. apply filter_all.
  intros i Hi ->. apply Hne. by eapply active_market.
Qed.

Lemma fill_step_active' m :
  active s' m = if out then filter (fun i => i <> id) (active s m) else active s m.
Proof using Hf Hs. unfold active at 1. by rewrite fill_step_active. Qed.

Lemma fill_step_queue m side p :
  queue s' m side p =
  if out then filter (fun i => i <> id) (queue s m side p) else queue s m side p.
Proof using Hf Hs.
  unfold queue. rewrite fill_step_active'.
  rewrite (filter_ext_on (fun i => at_price s' side p i = true)
             (fun i => at_price s side p i = true))
    by (intros; by rewrite fill_step_at_price).
  destruct out; [|done]. rewrite !list_filter_filter. apply filter_ext_on. tauto.
Qed.

Lemma fill_step_total m side p :
  sumZ (remaining_of s') (queue s' m side p) =
  sumZ (remaining_of s) (queue s m side p) -
  (if decide (id ∈ queue s m side p) then f_size f else 0).
Proof using Hf Hs.
  rewrite fill_step_queue.
  assert (Hn : NoDup (queue s m side p)) by (by apply queue_NoDup).
  assert (Hext : forall l, id ∉ l -> sumZ (remaining_of s') l = sumZ (remaining_of s) l).
  { intros l Hl. apply sumZ_ext. intros i Hi. rewrite fill_step_remaining.
    by destruct (decide (i = id)) as [->|]. }
  destruct (decide (id ∈ queue s m side p)) as [Hin|Hout].
  - assert (Hu : sumZ (remaining_of s') (queue s m side p) =
      sumZ (remaining_of s) (queue s m side p) - f_size f).
    { rewrite (sumZ_update (remaining_of s) (remaining_of s') _ id); [|done|done|].
      - rewrite fill_step_remaining, decide_True by done. lia.
      - intros i Hi. by rewrite fill_step_remaining, decide_False. }
    destruct (Z.eqb_spec (remaining_of s id - f_size f) 0); [|done].
    rewrite sumZ_filter_ne, Hu by done. rewrite fill_step_remaining, decide_True by done. lia.
  - rewrite Hext; [|by destruct out; [rewrite list_elem_of_filter; tauto|]].
    destruct out; [|lia]. rewrite filter_all; [lia|]. by intros i Hi ->.
Qed.

Lemma fill_step_level_other m side p :
  (m, side, p) <> (f_market_id f, negb (f_taker_is_buy f), f_price f) ->
  level_of s' m side p = level_of s m side p.
Proof using Hf Hs.
  intros Hne.
  assert (Hout : id ∉ queue s m side p).
  { intros [Hp Ha]%elem_of_queue. pose proof fill_step_in_queue as [Hp' Ha']%elem_of_queue.
    apply at_price_order in Hp as (o & Ho & Hb & Hq).
    apply at_price_order in Hp' as (o' & Ho' & Hb' & Hq').
    apply Hne. rewrite (active_market s m (f_market_id f) id) by done. congruence. }
  pose proof (fill_step_total m side p) as Ht. rewrite decide_False in Ht by done.
  unfold level_of. rewrite Ht, fill_step_queue. f_equal; [|lia].
  destruct out; [|done]. apply filter_all. by intros i Hi ->.
Qed.

Lemma fill_step_state_ok : state_ok s'.
Proof using Hf Hs.
  intros m. specialize (Hs m) as Hm. constructor.
  - by rewrite fill_step_active', fill_step_active.
  - rewrite fill_step_active'. destruct out; [apply NoDup_filter|]; apply Hm.
  - intros i Hi. rewrite fill_step_active' in Hi.
    assert (Hi' : i ∈ active s m).
    { destruct out; [|done]. by apply list_elem_of_filter in Hi as [_ ?]. }
    destruct (mok_live _ _ Hm i Hi') as (o & Ho & Hmk & Hst & Hr).
    destruct (decide (i = id)) as [->|Hne].
    + destruct Hf as [mk Hmo _ _ _ _ Hsz Haft _ _ _]. rewrite Hmo in Ho. simplify_eq.
      destruct (after_fill_fields (f_size f) o) as (_ & F2 & _ & _ & F5 & F6).
      assert (Hrem : remaining_of s id = o_remaining_size o).
      { unfold remaining_of. by rewrite (order_of_Ok _ _ _ Hmo). }
      destruct (Z.eqb_spec (remaining_of s id - f_size f) 0) as [E|E].
      { by apply list_elem_of_filter in Hi as [? _]. }
      exists (after_fill (f_size f) o). rewrite F2, F5, F6 by lia. split_and!; [done..|lia].
    + exists o. split_and!; try done. rewrite <- Ho. by destruct Hf; auto.
  - intros side p. simpl. rewrite fill_step_total.
    pose proof (mok_total _ _ Hm side p) as Ht. simpl in Ht.
    pose proof fill_step_size. destruct (decide _); lia.
Qed.

End step_facts.

(** * The code's updates *)

Section updates.
Context {B : Backend} {Bok : BackendOk B}.
Implicit Types s : StateManager.

Lemma set_order_spec id o s :
  exists s', set_order id o s = (Ok tt, s') /\ frame (eq (SK_Order id)) s s' /\
    get_order s' id = Ok (Some o) /\
    (forall i, i <> id -> get_order s' i = get_order s i) /\
    (forall m, get_active_orders_by_market s' m = get_active_orders_by_market s m).
Proof.
  destruct (set_order_succeeds id o s) as [s' H]. exists s'.
  assert (F : frame (eq (SK_Order id)) s s') by (by eapply frames_run_id; [apply frames_set_order|]).
  split_and!; [done|done|by eapply get_order_set_same| |].
  - intros i Hi. eapply get_order_frame; [done|]. congruence.
  - intros m. eapply get_or_default_frame; [done|]. discriminate.
Qed.

Lemma remove_active_order_run m id s l :
  get_active_orders_by_market s m = Ok l ->
  exists s', remove_active_order m id s = (Ok tt, s') /\ frame (active_keys m id) s s' /\
    (forall i, get_order s' i = get_order s i) /\
    get_active_orders_by_market s' m = Ok (filter (fun i => i <> id) l) /\
    (forall m', m' <> m ->
       get_active_orders_by_market s' m' = get_active_orders_by_market s m').
Proof.
  intros Hl.
  destruct (on_storage (storage_delete (SK_ActiveOrder m id)) s) as [r s1] eqn:E1.
  assert (r = Ok tt) as ->.
  { revert E1. unfold on_storage, st_zoom, storage_delete, st_modify. intros. by simplify_eq. }
  pose proof (delete_frame _ _ _ _ E1) as F1.
  pose proof (active_orders_flag m id s s1 F1) as A1. rewrite Hl in A1.
  destruct (set_succeeds serde_nums (SK_ActiveOrderList m) (filter (fun i => i <> id) l) s1)
    as [s' E2].
  assert (Hrun : remove_active_order m id s = (Ok tt, s')).
  { unfold remove_active_order. erewrite st_bind_eq by exact E1.
    erewrite st_read_bind by exact A1. exact E2. }
  assert (F : frame (active_keys m id) s s')
    by (eapply frames_run_id; [apply frames_remove_active_order|exact Hrun]).
  exists s'. split_and!; [done|done| | |].
  - intros i. eapply get_order_frame; [done|]. by intros [?|?].
  - by eapply get_nums_set.
  - intros m' Hne. eapply get_or_default_frame; [done|]. intros [?|?]; congruence.
Qed.

(** [state.op()?] under the pair of states of the loops. *)
Lemma on_sm_Ok {T A} (m : ST StateManager StateError A) (t : T) s a s' :
  m s = (Ok a, s') -> on_sm m (t, s) = (Ok a, (t, s')).
Proof. intros H. unfold on_sm, st_zoom, lift_state, st_map_err. simpl. by rewrite H. Qed.

Lemma read_sm_Ok {T A} (g : StateManager -> result StateError A) (t : T) s a :
  g s = Ok a -> read_sm g (t, s) = (Ok a, (t, s)).
Proof. intros H. unfold read_sm, st_read, state_result. simpl. by rewrite H. Qed.

(** A fill takes its size off the level of its maker, and the maker itself when
    nothing remains. *)
Lemma fill_step_own_level s f s' m side p :
  state_ok s -> fill_step s f s' -> f_maker_order_id f ∈ queue s m side p ->
  level_of s' m side p = {|
    pl_orders := if remaining_of s (f_maker_order_id f) - f_size f =? 0
                 then filter (fun i => i <> f_maker_order_id f) (queue s m side p) else queue s m side p;
    pl_total_size := pl_total_size (level_of s m side p) - f_size f |}.
Proof.
  intros Hs Hstep Hq. unfold level_of. rewrite (fill_step_total s f s' Hs Hstep).
  rewrite (fill_step_queue s f s' Hs Hstep). by rewrite decide_True.
Qed.

(** What a fill step leaves at the price level the maker rests at. *)
Lemma level_after_fill s order id maker size s' :
  let m := o_market_id order in let side := negb (o_is_buy order) in let p := o_price maker in
  state_ok s -> id ∈ queue s m side p -> get_order s id = Ok (Some maker) ->
  fill_step s (make_fill order p id maker size) s' ->
  level_of s' m side p = {|
    pl_orders := if o_remaining_size maker - size =? 0
                 then filter (fun i => i <> id) (queue s m side p) else queue s m side p;
    pl_total_size := pl_total_size (level_of s m side p) - size |}.
Proof.
  intros m side p Hs Hq Hid Hstep.
  pose proof (fill_step_own_level s _ s' m side p Hs Hstep Hq) as E.
  cbn [f_maker_order_id f_size make_fill] in E.
  unfold remaining_of in E. by rewrite (order_of_Ok _ _ _ Hid) in E.
Qed.

(** Updating a maker of the level makes one [fill_step]. *)
Lemma update_maker_spec s order id maker size f :
  state_ok s ->
  o_market_id maker = o_market_id order ->
  id ∈ queue s (o_market_id order) (negb (o_is_buy order)) (o_price maker) ->
  get_order s id = Ok (Some maker) ->
  0 < size <= o_remaining_size maker ->
  f = make_fill order (o_price maker) id maker size ->
  let lvl := level_of s (o_market_id order) (negb (o_is_buy order)) (o_price maker) in
  exists s', fill_step s f s' /\
    update_maker id maker size (lvl, s) =
    (Ok tt, (level_of s' (o_market_id order) (negb (o_is_buy order)) (o_price maker), s')).
Proof.
  intros Hs Hm Hq Hid Hsz Hf lvl.
  set (side := negb (o_is_buy order)) in *. set (m := o_market_id order) in *.
  set (p := o_price maker) in *.
  pose proof (proj1 (elem_of_queue _ _ _ _ _) Hq) as [Hp Ha].
  apply at_price_order in Hp as (mk & Hmk & Hside & Hpr).
  rewrite (order_of_Ok _ _ _ Hid) in Hmk. injection Hmk as <-. rewrite Hf. clear Hf f.
  destruct (queue_remaining s m side p id (Hs m) Hq) as [[_ Hrt] Htot].
  unfold remaining_of in Hrt. rewrite (order_of_Ok _ _ _ Hid) in Hrt. cbn [from_option] in Hrt.
  assert (Hw : wsub64 (o_remaining_size maker) size = o_remaining_size maker - size).
  { unfold wsub64. apply as_u64_id. unfold is_u64. lia. }
  pose proof (fun s' => level_after_fill s order id maker size s' Hs Hq Hid) as Hlvl.
  cbv zeta in Hlvl. fold m side p in Hlvl.
  unfold update_maker. rewrite Hw. cbv zeta.
  cbn [o_remaining_size set_remaining_size].
  destruct (Z.eqb_spec (o_remaining_size maker - size) 0) as [E|E].
  - set (upd := set_status Filled (set_remaining_size (o_remaining_size maker - size) maker)).
    destruct (set_order_spec id upd s) as (s1 & R1 & _ & G1 & O1 & L1).
    destruct (remove_active_order_run m id s1 (active s m)) as (s2 & R2 & _ & O2 & L2 & L2').
    { rewrite L1. apply Hs. }
    assert (Hstep : fill_step s (make_fill order p id maker size) s2).
    { apply (fill_step_intro _ _ _ maker); simpl; try done.
      - rewrite O2, G1. unfold after_fill, upd. simpl. by rewrite E.
      - intros i Hi. by rewrite O2, O1.
      - intros m' Hm'. by rewrite L2', L1.
      - unfold exhausts. simpl. rewrite E. exact L2. }
    exists s2. split; [done|].
    erewrite st_bind_eq by (by apply on_sm_Ok).
    erewrite st_bind_eq by (apply on_sm_Ok; change (o_market_id upd) with (o_market_id maker);
      rewrite Hm; exact R2).
    unfold st_modify. f_equal. f_equal.
    rewrite Hlvl by done. unfold level_remove_order. simpl pl_orders.
    destruct (delete_position_filter id (queue s m side p)) as (i & -> & ->);
      [by apply queue_NoDup|done|].
    simpl. rewrite saturating_sub_le by (simpl in *; lia). done.
  - set (upd := set_remaining_size (o_remaining_size maker - size) maker).
    destruct (set_order_spec id upd s) as (s1 & R1 & _ & G1 & O1 & L1).
    assert (Hstep : fill_step s (make_fill order p id maker size) s1).
    { apply (fill_step_intro _ _ _ maker); simpl; try done.
      - rewrite G1. unfold after_fill. simpl. by destruct (Z.eqb_spec (o_remaining_size maker - size) 0).
      - unfold exhausts. simpl. destruct (Z.eqb_spec (o_remaining_size maker - size) 0); [done|].
        rewrite L1. apply Hs. }
    exists s1. split; [done|].
    erewrite st_bind_eq by (by apply on_sm_Ok).
    unfold st_modify. f_equal. f_equal. rewrite Hlvl by done.
    unfold level_reduce, wsub64. f_equal. simpl. apply as_u64_id. unfold is_u64. simpl in *. lia.
Qed.

End updates.

(** * The loops *)

Section greedy_facts.
Context {B : Backend}.

Lemma greedy_zero order l : greedy order 0 l = [].
Proof. by destruct l as [|[[? ?] ?] ?]. Qed.

Lemma greedy_app order rem l1 l2 :
  greedy order rem (l1 ++ l2) =
  greedy order rem l1 ++ greedy order (rem - sumZ f_size (greedy order rem l1)) l2.
Proof.
  revert rem. induction l1 as [|[[p id] mk] l1 IH]; intros rem; simpl.
  - f_equal. lia.
  - destruct (Z.eqb_spec rem 0) as [->|Hne]; simpl; [by rewrite greedy_zero|].
    rewrite IH. do 3 f_equal. lia.
Qed.

Lemma greedy_bounds order rem l :
  0 <= rem -> (forall p id mk, (p, id, mk) ∈ l -> 0 < o_remaining_size mk) ->
  0 <= sumZ f_size (greedy order rem l) <= rem.
Proof.
  revert rem. induction l as [|[[p id] mk] l IH]; intros rem Hr Hl; cbn [greedy]; [simpl; lia|].
  destruct (Z.eqb_spec rem 0) as [->|Hne]; [simpl; lia|]. rewrite sumZ_cons. simpl f_size.
  pose proof (Hl p id mk ltac:(set_solver)).
  specialize (IH (rem - Z.min rem (o_remaining_size mk)) ltac:(lia)).
  specialize (IH (fun p' i' mk' H => Hl p' i' mk' (list_elem_of_further _ _ _ H))).
  lia.
Qed.

Lemma greedy_in order rem l f :
  f ∈ greedy order rem l ->
  exists price id mk size, (price, id, mk) ∈ l /\ f = make_fill order price id mk size.
Proof.
  revert rem. induction l as [|[[p id] mk] l IH]; intros rem; simpl; [set_solver|].
  destruct (Z.eqb_spec rem 0) as [->|Hne]; [set_solver|].
  intros [->|Hf]%elem_of_cons.
  - repeat eexists. set_solver.
  - destruct (IH _ Hf) as (p' & id' & mk' & sz & Hin & ->). repeat eexists. set_solver.
Qed.

Lemma elem_of_resting order s price ids p id mk :
  (p, id, mk) ∈ resting order s price ids <->
  p = price /\ id ∈ ids /\ order_of s id = Some mk /\ o_owner mk <> o_owner order.
Proof.
  unfold resting. rewrite list_elem_of_omap. split.
  - intros (i & Hi & Hm). destruct (order_of s i) as [o|] eqn:E; [|done].
    destruct (Z.eqb_spec (o_owner o) (o_owner order)); simplify_eq. done.
  - intros (-> & Hi & Ho & Hne). exists id. split; [done|]. rewrite Ho.
    by destruct (Z.eqb_spec (o_owner mk) (o_owner order)).
Qed.

Lemma resting_cons order s price id ids :
  resting order s price (id :: ids) =
  match order_of s id with
  | Some maker => if o_owner maker =? o_owner order then resting order s price ids
                  else (price, id, maker) :: resting order s price ids
  | None => resting order s price ids
  end.
Proof.
  unfold resting. simpl. destruct (order_of s id) as [mk|]; [|done].
  by destruct (o_owner mk =? o_owner order).
Qed.

Lemma resting_ext order s s' price ids :
  (forall id, id ∈ ids -> order_of s' id = order_of s id) ->
  resting order s' price ids = resting order s price ids.
Proof.
  intros H. induction ids as [|i ids IH]; [done|]. rewrite !resting_cons.
  by rewrite (H i), IH by set_solver.
Qed.

End greedy_facts.

Section loops.
Context {B : Backend} {Bok : BackendOk B}.
Implicit Types s : StateManager.
Context (order : Order).
Notation m := (o_market_id order).
Notation side := (negb (o_is_buy order)).

(** Every fill of a run was made by this taker at price [p]. *)
Definition fills_at (p : Z) (fs : list Fill) : Prop :=
  Forall (fun f => f_market_id f = m /\ f_taker_is_buy f = o_is_buy order /\ f_price f = p) fs.

Lemma fills_run_app s fs s1 gs s2 :
  fills_run s fs s1 -> fills_run s1 gs s2 -> fills_run s (fs ++ gs) s2.
Proof. induction 1; intros; [done|]. simpl. econstructor; eauto. Qed.

Lemma fills_run_size s fs s' f : fills_run s fs s' -> f ∈ fs -> 0 < f_size f.
Proof.
  induction 1 as [|s g s1 fs s2 Hg _ IH]; [set_solver|].
  intros [->|Hf]%elem_of_cons; [|auto]. apply fill_step_size in Hg. lia.
Qed.

Lemma fills_run_state_ok s fs s' : state_ok s -> fills_run s fs s' -> state_ok s'.
Proof. intros Hs H. induction H; [done|]. eauto using fill_step_state_ok. Qed.

Lemma fills_run_order s fs s' id :
  fills_run s fs s' -> (forall f, f ∈ fs -> f_maker_order_id f <> id) ->
  order_of s' id = order_of s id.
Proof.
  induction 1 as [|s f s1 fs s2 Hf _ IH]; intros Hid; [done|].
  rewrite IH by set_solver. apply order_of_eq. destruct Hf as [mk ? ? ? ? ? ? ? Ho].
  apply Ho. intros ->. eapply Hid; [|reflexivity]. set_solver.
Qed.

Lemma fills_run_level_other fs s s' m2 side2 p2 :
  state_ok s -> fills_run s fs s' ->
  (forall f, f ∈ fs -> (m2, side2, p2) <> (f_market_id f, negb (f_taker_is_buy f), f_price f)) ->
  level_of s' m2 side2 p2 = level_of s m2 side2 p2.
Proof.
  intros Hs H Hne. induction H as [|s f s1 fs s2 Hf Hr IH]; [done|].
  rewrite IH by (eauto using fill_step_state_ok; set_solver).
  apply (fill_step_level_other s f s1 Hs Hf). set_solver.
Qed.

Lemma fills_at_other p fs m2 side2 p2 :
  fills_at p fs -> (m2, side2, p2) <> (m, side, p) ->
  forall f, f ∈ fs -> (m2, side2, p2) <> (f_market_id f, negb (f_taker_is_buy f), f_price f).
Proof.
  intros Hp Hne f Hf. unfold fills_at in Hp. rewrite Forall_forall in Hp.
  destruct (Hp f Hf) as (-> & -> & ->). done.
Qed.

Lemma match_maker_spec s rem fills price id maker :
  state_ok s -> 0 < rem <= U64_MAX -> id ∈ queue s m side price ->
  get_order s id = Ok (Some maker) -> o_owner maker <> o_owner order ->
  let size := Z.min rem (o_remaining_size maker) in
  let f := make_fill order price id maker size in
  exists s', fill_step s f s' /\
    match_maker order price (rem, fills) id (level_of s m side price, s) =
    (Ok (rem - size, fills ++ [f]), (level_of s' m side price, s')).
Proof.
  intros Hs Hrem Hq Hid Hne size f.
  pose proof (proj1 (elem_of_queue _ _ _ _ _) Hq) as [Hp Ha].
  apply at_price_order in Hp as (mk & Hmk & _ & Hpr).
  rewrite (order_of_Ok _ _ _ Hid) in Hmk. injection Hmk as <-.
  destruct (mok_live _ _ (Hs m) id Ha) as (o & Ho & Hmm & _ & Hpos).
  rewrite Hid in Ho. injection Ho as <-. subst price.
  destruct (update_maker_spec s order id maker size f Hs Hmm Hq Hid) as (s' & Hstep & Hrun);
    [lia|done|].
  exists s'. split; [done|]. unfold match_maker.
  erewrite st_bind_eq by (by apply read_sm_Ok). cbv beta iota.
  destruct (Z.eqb_spec (o_owner maker) (o_owner order)); [done|]. fold size f.
  erewrite st_bind_eq by exact Hrun. unfold st_ret, wsub64.
  rewrite as_u64_id by (unfold is_u64; lia). done.
Qed.

(** The loop over the orders of a level is [greedy] on the orders read from the
    state before the loop. *)
Lemma match_level_spec ids : forall s rem fills price,
  state_ok s -> 0 <= rem <= U64_MAX -> NoDup ids ->
  (forall id, id ∈ ids -> id ∈ queue s m side price) ->
  let fs := greedy order rem (resting order s price ids) in
  exists s', fills_run s fs s' /\ fills_at price fs /\
    match_level order price ids (rem, fills) (level_of s m side price, s) =
    (Ok (rem - sumZ f_size fs, fills ++ fs), (level_of s' m side price, s')).
Proof.
  induction ids as [|id ids IH]; intros s rem fills price Hs Hrem Hnd Hin fs.
  { exists s. unfold fs. simpl. rewrite app_nil_r, Z.sub_0_r. repeat constructor. }
  apply NoDup_cons in Hnd as [Hni Hnd].
  assert (Hq : id ∈ queue s m side price) by (apply Hin; set_solver).
  cbn [match_level fst]. destruct (Z.eqb_spec rem 0) as [->|Hrz].
  { exists s. unfold fs. rewrite greedy_zero, app_nil_r. simpl. repeat constructor. }
  pose proof (proj2 (proj1 (elem_of_queue _ _ _ _ _) Hq)) as Ha.
  destruct (mok_live _ _ (Hs m) id Ha) as (mk & Hmk & _ & _ & Hpos).
  unfold fs. clear fs. rewrite resting_cons, (order_of_Ok _ _ _ Hmk).
  destruct (Z.eqb_spec (o_owner mk) (o_owner order)) as [Hown|Hown].
  - destruct (IH s rem fills price) as (s' & R & A & E); [done|done|done|set_solver|].
    exists s'. split_and!; [exact R|exact A|].
    assert (Hskip : match_maker order price (rem, fills) id (level_of s m side price, s) =
      (Ok (rem, fills), (level_of s m side price, s))).
    { unfold match_maker. erewrite st_bind_eq by (by apply read_sm_Ok). cbv beta iota.
      by destruct (Z.eqb_spec (o_owner mk) (o_owner order)). }
    erewrite st_bind_eq by exact Hskip. exact E.
  - destruct (match_maker_spec s rem fills price id mk) as (s1 & Hstep & Hrun); [done|lia|done..|].
    set (size := Z.min rem (o_remaining_size mk)) in *.
    set (f := make_fill order price id mk size) in *.
    erewrite st_bind_eq by exact Hrun.
    assert (Hs1 : state_ok s1) by (by eapply fill_step_state_ok).
    destruct (IH s1 (rem - size) (fills ++ [f]) price) as (s' & R & A & E); [done|lia|done| |].
    { intros i Hi. rewrite (fill_step_queue s f s1 Hs Hstep).
      assert (i <> id) by (by intros ->).
      destruct (_ =? 0); [apply list_elem_of_filter; split; [done|]|]; apply Hin; set_solver. }
    assert (Hres : resting order s1 price ids = resting order s price ids).
    { apply resting_ext. intros i Hi. apply (fills_run_order s [f]).
      - econstructor; [done|constructor].
      - intros g ->%list_elem_of_singleton. simpl. by intros ->. }
    rewrite Hres in R, A, E. cbn [greedy].
    destruct (Z.eqb_spec rem 0); [done|]. fold size f.
    exists s'. split_and!; [by econstructor| |].
    + constructor; [done|exact A].
    + rewrite E, sumZ_cons, <- app_assoc. by rewrite Z.sub_add_distr.
Qed.

(** *** The loop over the prices *)

Definition side_synced (book : gmap Z PriceLevel) s : Prop :=
  forall p, book !! p = expected_level s m side p.

Lemma makers_at_remaining s price p id mk :
  state_ok s -> (p, id, mk) ∈ makers_at order s price -> 0 < o_remaining_size mk.
Proof.
  intros Hs (-> & Hq & Ho & _)%elem_of_resting.
  destruct (queue_remaining s _ _ _ _ (Hs m) Hq) as [[Hr _] _].
  unfold remaining_of in Hr. by rewrite Ho in Hr.
Qed.

(** Fills at one price do not change the makers at another. *)
Lemma makers_at_other p p2 rem s s' :
  state_ok s -> p2 <> p -> fills_at p (greedy order rem (makers_at order s p)) ->
  fills_run s (greedy order rem (makers_at order s p)) s' ->
  makers_at order s' p2 = makers_at order s p2.
Proof.
  intros Hs Hne Hp H. unfold makers_at at 1.
  assert (Hl : level_of s' m side p2 = level_of s m side p2).
  { apply (fills_run_level_other _ _ _ _ _ _ Hs H), (fills_at_other p); [done|]. congruence. }
  injection Hl as Hq _. rewrite Hq. apply resting_ext.
  intros i [Hi _]%elem_of_queue. apply (fills_run_order _ _ _ _ H).
  intros f (p' & id & mk & sz & Hin & ->)%greedy_in. simpl. intros ->.
  apply elem_of_resting in Hin as (-> & [Hi' _]%elem_of_queue & _ & _).
  apply at_price_order in Hi as (o & Ho & _ & Hpr).
  apply at_price_order in Hi' as (o' & Ho' & _ & Hpr'). congruence.
Qed.

Lemma match_price_spec s book rem fills p :
  state_ok s -> side_synced book s -> 0 <= rem <= U64_MAX ->
  let fs := greedy order rem (makers_at order s p) in
  exists book' s', fills_run s fs s' /\ fills_at p fs /\ side_synced book' s' /\
    match_price order p (rem, fills) (book, s) =
    (Ok (rem - sumZ f_size fs, fills ++ fs), (book', s')).
Proof.
  intros Hs Hb Hrem fs. unfold match_price, st_bind at 1, st_gets.
  destruct (book !! p) as [lvl|] eqn:E; rewrite Hb in E.
  - apply expected_level_Some in E as [-> _].
    destruct (match_level_spec (queue s m side p) s rem fills p) as (s' & R & A & Run);
      [done|done|by apply queue_NoDup|done|]. fold (makers_at order s p) fs in R, A, Run.
    set (book1 := <[p := level_of s' m side p]> book).
    assert (Hlev : on_level p (match_level order p (queue s m side p) (rem, fills)) (book, s) =
      (Ok (rem - sumZ f_size fs, fills ++ fs), (book1, s'))).
    { unfold on_level, st_zoom. rewrite Hb, expected_level_default, Run. done. }
    erewrite st_bind_eq by exact Hlev. unfold st_modify, st_bind, st_ret.
    exists (if level_is_empty (level_of s' m side p) then delete p book1 else book1), s'.
    split_and!; [done|done| |].
    + intros p2. destruct (decide (p2 = p)) as [->|Hne].
      * unfold expected_level. destruct (level_is_empty _).
        -- by rewrite lookup_delete_eq.
        -- unfold book1. by rewrite lookup_insert_eq.
      * assert (Hl : level_of s' m side p2 = level_of s m side p2).
        { apply (fills_run_level_other _ _ _ _ _ _ Hs R), (fills_at_other p); [done|]. congruence. }
        rewrite (expected_level_ext _ _ _ _ _ Hl), <- Hb. unfold book1.
        destruct (level_is_empty _); by rewrite ?lookup_delete_ne, lookup_insert_ne by done.
    + unfold book1 at 1. rewrite lookup_insert_eq. simpl.
      by destruct (level_is_empty (level_of s' m side p)).
  - apply expected_level_None in E. exists book, s.
    assert (Hq : queue s m side p = []) by (by injection E).
    unfold fs, makers_at. rewrite Hq. simpl. rewrite app_nil_r, Z.sub_0_r.
    split_and!; [constructor|constructor|done|done].
Qed.

Definition fills_of (fs : list Fill) : Prop :=
  Forall (fun f => f_market_id f = m /\ f_taker_is_buy f = o_is_buy order) fs.

Lemma fills_at_of p fs : fills_at p fs -> fills_of fs.
Proof. intros H. eapply List.Forall_impl; [|exact H]. simpl. tauto. Qed.

Lemma match_prices_spec prices : forall s book rem fills,
  state_ok s -> side_synced book s -> 0 <= rem <= U64_MAX -> NoDup prices ->
  let fs := greedy order rem
    (flat_map (makers_at order s) (take_while (price_acceptable order) prices)) in
  exists book' s', fills_run s fs s' /\ fills_of fs /\ side_synced book' s' /\
    match_prices order prices (rem, fills) (book, s) =
    (Ok (rem - sumZ f_size fs, fills ++ fs), (book', s')).
Proof.
  induction prices as [|p prices IH]; intros s book rem fills Hs Hb Hrem Hnd fs.
  { exists book, s. unfold fs. simpl. rewrite app_nil_r, Z.sub_0_r. repeat constructor; done. }
  apply NoDup_cons in Hnd as [Hp Hnd]. unfold fs. clear fs. cbn [match_prices take_while].
  destruct (price_acceptable order p); cbn [negb].
  2:{ exists book, s. simpl. rewrite app_nil_r, Z.sub_0_r. repeat constructor; done. }
  destruct (match_price_spec s book rem fills p Hs Hb Hrem) as (book1 & s1 & R1 & A1 & B1 & E1).
  set (fs1 := greedy order rem (makers_at order s p)) in *.
  erewrite st_bind_eq by exact E1. cbn [flat_map fst]. rewrite greedy_app. fold fs1.
  assert (Hfs1 : 0 <= sumZ f_size fs1 <= rem).
  { apply greedy_bounds; [lia|]. intros p' i mk. by apply makers_at_remaining. }
  destruct (Z.eqb_spec (rem - sumZ f_size fs1) 0) as [Ez|Ez].
  { rewrite Ez, greedy_zero, app_nil_r. exists book1, s1.
    split_and!; [done|by eapply fills_at_of|done|]. unfold st_ret. by rewrite Ez. }
  destruct (IH s1 book1 (rem - sumZ f_size fs1) (fills ++ fs1)) as (book2 & s2 & R2 & A2 & B2 & E2);
    [by eapply fills_run_state_ok|done|lia|done|].
  assert (Hm : flat_map (makers_at order s1) (take_while (price_acceptable order) prices) =
               flat_map (makers_at order s) (take_while (price_acceptable order) prices)).
  { rewrite !flat_map_concat_map. f_equal. apply map_ext_in. intros p2 Hp2.
    apply (makers_at_other p p2 rem); [done| |done|done]. intros ->. apply Hp.
    apply list_elem_of_In in Hp2. by apply take_while_elem in Hp2 as [_ ?]. }
  rewrite Hm in R2, A2, E2. exists book2, s2. split_and!.
  - by eapply fills_run_app.
  - apply Forall_app. split; [by eapply fills_at_of|done].
  - done.
  - rewrite E2, sumZ_app, <- app_assoc. by rewrite Z.sub_add_distr.
Qed.

End loops.

(** * [match_order] *)

Lemma level_at_with_side ob b m book m2 b2 p2 :
  level_at (with_ob_side b (<[m := book]> (ob_side b ob)) ob) m2 b2 p2 =
  if decide ((m2, b2) = (m, b)) then book !! p2 else level_at ob m2 b2 p2.
Proof.
  unfold level_at. destruct (decide ((m2, b2) = (m, b))) as [[= -> ->]|Hne].
  - destruct b; simpl; by rewrite lookup_insert_eq.
  - destruct b, b2; simpl; try done; rewrite lookup_insert_ne; try done; congruence.
Qed.

Lemma with_ob_side_same b m book ob :
  ob_side b ob !! m = Some book -> with_ob_side b (<[m := book]> (ob_side b ob)) ob = ob.
Proof.
  intros H. destruct ob, b; simpl in *; unfold with_ob_side; simpl; by rewrite insert_id.
Qed.

Section match_order.
Context {B : Backend} {Bok : BackendOk B}.
Implicit Types s : StateManager.

Lemma opposing_prices_NoDup order book : NoDup (opposing_prices order book).
Proof.
  unfold opposing_prices. destruct (o_is_buy order); [apply btree_keys_NoDup|].
  apply NoDup_ListNoDup, List.NoDup_rev, NoDup_ListNoDup, btree_keys_NoDup.
Qed.

Lemma side_synced_of ob s order book :
  book_synced ob s ->
  ob_side (negb (o_is_buy order)) ob !! o_market_id order = Some book ->
  side_synced order book s.
Proof.
  intros [_ H] Hb p. rewrite <- H. unfold level_at. by rewrite Hb.
Qed.

Lemma match_order_spec ob s order market :
  book_synced ob s -> is_u64 (o_remaining_size order) ->
  (o_post_only order = true -> would_match ob order = Ok false) ->
  exists ob' s', match_order order market (ob, s) = (Ok (reference_match ob s order), (ob', s')) /\
    book_synced ob' s' /\ fills_run s (reference_match ob s order) s'.
Proof.
  intros Hsync Hrem Hpost. pose proof (proj1 Hsync) as Hs. unfold match_order.
  assert (Hv : (if o_post_only order then st_read (fun '(ob, _) => would_match ob order)
                else st_ret false) (ob, s) = (Ok false, (ob, s))).
  { destruct (o_post_only order); [|done]. unfold st_read. by rewrite Hpost. }
  erewrite st_bind_eq by exact Hv. unfold st_guard, negb at 1.
  unfold st_bind at 1, st_ret at 1. unfold st_bind at 1, st_gets.
  unfold reference_match, acceptable_prices.
  destruct (ob_side (negb (o_is_buy order)) ob !! o_market_id order) as [book|] eqn:Eb.
  - simpl default.
    destruct (match_prices_spec order (opposing_prices order book) s book
      (o_remaining_size order) []) as (book' & s' & R & A & Bs & E);
      [done|by eapply side_synced_of|done|apply opposing_prices_NoDup|].
    set (fs := greedy _ _ _) in *.
    exists (with_ob_side (negb (o_is_buy order))
      (<[o_market_id order := book']> (ob_side (negb (o_is_buy order)) ob)) ob), s'.
    split_and!; [| |done].
    + erewrite st_bind_eq.
      2:{ unfold on_book, st_zoom. rewrite Eb. simpl default. rewrite E. reflexivity. }
      reflexivity.
    + split; [by eapply fills_run_state_ok|]. intros m2 b2 p2. rewrite level_at_with_side.
      destruct (decide _) as [[= -> ->]|Hne]; [apply Bs|].
      rewrite (proj2 Hsync). symmetry. apply expected_level_ext.
      apply (fills_run_level_other fs _ _ _ _ _ Hs R).
      intros f Hf. unfold fills_of in A. rewrite Forall_forall in A.
      destruct (A f Hf) as [-> ->]. congruence.
  - exists ob, s. simpl default.
    replace (flat_map _ _) with ([] : list (Z * Z * Order)).
    2:{ unfold opposing_prices. by destruct (o_is_buy order). }
    split_and!; [done|done|constructor].
Qed.

(** ** What the fills are *)

Lemma greedy_keys order rem l : exists k,
  map (fun f => (f_price f, f_maker_order_id f)) (greedy order rem l) =
  take k (map fst l).
Proof.
  revert rem. induction l as [|[[p id] mk] l IH]; intros rem; cbn [greedy map].
  - by exists O.
  - destruct (rem =? 0); [by exists O|].
    destruct (IH (rem - Z.min rem (o_remaining_size mk))) as [k Hk].
    exists (S k). cbn [map take]. by rewrite Hk.
Qed.

(** When the taker is not filled, no maker is left. *)
Lemma greedy_exhausts order rem l p id mk :
  sumZ f_size (greedy order rem l) < rem -> (p, id, mk) ∈ l ->
  exists f, f ∈ greedy order rem l /\ f = make_fill order p id mk (o_remaining_size mk).
Proof.
  revert rem. induction l as [|[[p' id'] mk'] l IH]; intros rem; [set_solver|].
  cbn [greedy]. destruct (Z.eqb_spec rem 0) as [->|Hne]; [simpl; lia|].
  rewrite sumZ_cons. cbn [f_size make_fill]. intros Hlt Hin.
  assert (Hc : (p, id, mk) = (p', id', mk') \/ (p, id, mk) ∈ l) by (by apply elem_of_cons).
  destruct Hc as [[= -> -> ->]|Hc].
  - eexists. split; [left|].
    destruct (Z.le_gt_cases rem (o_remaining_size mk')) as [Hle|Hgt].
    + rewrite Z.min_l in Hlt by done. rewrite Z.sub_diag, greedy_zero in Hlt. simpl in Hlt. lia.
    + by rewrite Z.min_r by lia.
  - destruct (IH (rem - Z.min rem (o_remaining_size mk'))) as (f & Hf & E); [lia|done|].
    exists f. split; [by right|done].
Qed.

(** Prices in the taker's favour first. *)
Definition no_worse (order : Order) (p q : Z) : Prop := if o_is_buy order then p <= q else q <= p.

Lemma StronglySorted_app_inv_mid {A} (R : A -> A -> Prop) l1 l2 :
  StronglySorted R (l1 ++ l2) -> StronglySorted R l1.
Proof.
  induction l1 as [|x l1 IH]; intros H; [constructor|].
  apply StronglySorted_inv in H as [H1 H2]. constructor; [by apply IH|].
  by apply Forall_app in H2 as [? _].
Qed.

Lemma StronglySorted_rev {A} (R : A -> A -> Prop) l :
  StronglySorted R l -> StronglySorted (flip R) (rev l).
Proof.
  induction 1 as [|x l Hl IH Hx]; [constructor|]. simpl.
  assert (Hs : forall k, StronglySorted (flip R) k -> Forall (fun y => R x y) k ->
    StronglySorted (flip R) (k ++ [x])).
  { intros k Hk. induction Hk as [|y k Hk IHk Hy]; intros Hall; [repeat constructor|].
    apply Forall_cons in Hall as [Hxy Hall]. constructor; [by apply IHk|].
    apply Forall_app. split; [done|by constructor]. }
  apply Hs; [done|]. rewrite Forall_forall in *. intros y Hy. apply Hx.
  by rewrite list_elem_of_In, <- in_rev, <- list_elem_of_In in Hy.
Qed.

Lemma opposing_prices_sorted order book :
  StronglySorted (no_worse order) (opposing_prices order book).
Proof.
  unfold opposing_prices, no_worse. pose proof (btree_keys_sorted book) as H.
  destruct (o_is_buy order); [done|]. by apply StronglySorted_rev in H.
Qed.

Lemma take_while_prefix {A} (p : A -> bool) l : exists l2, l = take_while p l ++ l2.
Proof.
  induction l as [|x l [l2 IH]]; simpl; [by exists []|]. destruct (p x).
  - exists l2. simpl. by rewrite <- IH.
  - by exists (x :: l).
Qed.

Lemma makers_prices_sorted order s prices :
  StronglySorted (no_worse order) prices ->
  StronglySorted (no_worse order) (map (fun mk => fst (fst mk)) (flat_map (makers_at order s) prices)).
Proof.
  assert (Hp : forall p x, x ∈ map (fun mk => fst (fst mk)) (makers_at order s p) -> x = p).
  { intros p x. rewrite list_elem_of_In, in_map_iff. intros ([[q i] mk] & <- & Hin).
    apply list_elem_of_In in Hin. by apply elem_of_resting in Hin as (-> & _). }
  induction 1 as [|p ps Hps IH Hall]; simpl; [constructor|]. rewrite map_app.
  assert (Hflat : forall x, x ∈ map (fun mk => fst (fst mk)) (flat_map (makers_at order s) ps) ->
    x ∈ ps).
  { intros x. rewrite list_elem_of_In, in_map_iff. intros ([[q i] mk] & <- & Hin).
    apply in_flat_map in Hin as (y & Hy & Hin). apply list_elem_of_In in Hin.
    apply elem_of_resting in Hin as (-> & _). simpl. by apply list_elem_of_In. }
  rewrite Forall_forall in Hall.
  assert (Hpre : forall l, (forall x, x ∈ l -> x = p) ->
    StronglySorted (no_worse order) (l ++ map (fun mk => fst (fst mk))
      (flat_map (makers_at order s) ps))).
  { induction l as [|x l IHl]; intros Hl; [done|]. simpl.
    rewrite (Hl x) by set_solver. constructor; [apply IHl; set_solver|].
    apply Forall_app. split; apply Forall_forall; intros y Hy.
    - rewrite (Hl y) by set_solver. unfold no_worse. destruct (o_is_buy order); lia.
    - by apply Hall, Hflat. }
  apply Hpre, Hp.
Qed.

Lemma StronglySorted_take {A} (R : A -> A -> Prop) k l :
  StronglySorted R l -> StronglySorted R (take k l).
Proof. intros H. apply (StronglySorted_app_inv_mid R _ (drop k l)). by rewrite take_drop. Qed.

(** C7: on a book in step with the state, [match_order] returns exactly the
    fills of the reference matcher, their updates of the state are one atomic
    step per fill, in order, and the book it leaves is in step with the new
    state.  A post-only order gets there only if [would_match] is false. *)
Theorem match_order_refines ob s order market :
  book_synced ob s -> is_u64 (o_remaining_size order) ->
  (o_post_only order = true -> would_match ob order = Ok false) ->
  exists ob' s', match_order order market (ob, s) = (Ok (reference_match ob s order), (ob', s')) /\
    book_synced ob' s' /\ fills_run s (reference_match ob s order) s'.
Proof. apply match_order_spec. Qed.

(** C8: price-time priority and completeness of matching.  The fills are
    a prefix of the eligible makers (best price first, oldest first), so their
    prices only get worse for the taker; each respects the taker's limit, is not
    a self-trade and is not empty; their sum is at most the order's size, and if
    it is less then every eligible maker was consumed entirely. *)
Theorem match_order_price_time ob s order market fills ob' s' :
  book_synced ob s -> is_u64 (o_remaining_size order) ->
  match_order order market (ob, s) = (Ok fills, (ob', s')) ->
  let makers := flat_map (makers_at order s) (acceptable_prices order ob) in
  (exists k, map (fun f => (f_price f, f_maker_order_id f)) fills = take k (map fst makers)) /\
  StronglySorted (no_worse order) (map f_price fills) /\
  (forall f, f ∈ fills -> price_acceptable order (f_price f) = true /\
     f_maker f <> o_owner order /\ f_taker f = o_owner order /\ 0 < f_size f) /\
  sumZ f_size fills <= o_remaining_size order /\
  (sumZ f_size fills < o_remaining_size order -> forall p id maker, (p, id, maker) ∈ makers ->
     exists f, f ∈ fills /\ f = make_fill order p id maker (o_remaining_size maker)).
Proof.
  intros Hsync Hrem Hrun makers.
  assert (Hpost : o_post_only order = true -> would_match ob order = Ok false).
  { intros Hp. unfold match_order in Hrun. rewrite Hp in Hrun. inv_ok.
    match goal with H : negb ?b = true |- _ => destruct b; [done|] end. done. }
  destruct (match_order_spec ob s order market Hsync Hrem Hpost) as (ob1 & s1 & E & _ & R).
  rewrite E in Hrun. injection Hrun as <- _ _. unfold reference_match in *. fold makers in R |- *.
  assert (Hin : forall p id mk, (p, id, mk) ∈ makers ->
    price_acceptable order p = true /\ (p, id, mk) ∈ makers_at order s p).
  { intros p id mk. unfold makers. rewrite list_elem_of_In, in_flat_map.
    intros (q & Hq & Hm). apply list_elem_of_In in Hq, Hm.
    apply take_while_elem in Hq as [Hq _].
    pose proof Hm as (-> & _)%elem_of_resting. done. }
  destruct (greedy_keys order (o_remaining_size order) makers) as [k Hk].
  split_and!.
  - by exists k.
  - assert (Hp : map f_price (greedy order (o_remaining_size order) makers) =
      take k (map (fun mk => fst (fst mk)) makers)).
    { transitivity (map fst (map (fun f => (f_price f, f_maker_order_id f))
        (greedy order (o_remaining_size order) makers))); [by rewrite map_map|].
      by rewrite Hk, <- firstn_map, map_map. }
    rewrite Hp. apply StronglySorted_take, makers_prices_sorted.
    unfold acceptable_prices.
    match goal with |- StronglySorted _ (take_while ?f ?l) =>
      destruct (take_while_prefix f l) as [l2 Hl2] end.
    eapply StronglySorted_app_inv_mid. rewrite <- Hl2. apply opposing_prices_sorted.
  - intros f Hf. pose proof (fills_run_size _ _ _ _ R Hf) as Hsz.
    apply greedy_in in Hf as (p & id & mk & sz & Hm & ->).
    destruct (Hin _ _ _ Hm) as [Hacc (_ & _ & _ & Hne)%elem_of_resting]. done.
  - apply greedy_bounds; [apply Hrem|]. intros p id mk Hm.
    eapply makers_at_remaining; [apply Hsync|]. by apply Hin.
  - intros Hlt p id mk Hm. by apply greedy_exhausts.
Qed.

End match_order.

(** * Insertion and removal *)

Section insertion.
Context {B : Backend} {Bok : BackendOk B}.
Implicit Types s : StateManager.

(** Going from [s] to [s'] adds [id], a new active order [o], to its market. *)
Record order_added s (id : Z) (o : Order) s' : Prop := {
  oa_order : get_order s' id = Ok (Some o);
  oa_others : forall i, i <> id -> get_order s' i = get_order s i;
  oa_list : get_active_orders_by_market s' (o_market_id o) = Ok (active s (o_market_id o) ++ [id]);
  oa_lists : forall m, m <> o_market_id o ->
    get_active_orders_by_market s' m = get_active_orders_by_market s m;
}.

(** Going from [s] to [s'] takes the active order [id] of market [m] off. *)
Record order_removed s (m id : Z) s' : Prop := {
  or_others : forall i, i <> id -> get_order s' i = get_order s i;
  or_list : get_active_orders_by_market s' m = Ok (filter (fun i => i <> id) (active s m));
  or_lists : forall m', m' <> m ->
    get_active_orders_by_market s' m' = get_active_orders_by_market s m';
}.

Lemma active_of s s' m : get_active_orders_by_market s' m = get_active_orders_by_market s m ->
  active s' m = active s m.
Proof. unfold active. by intros ->. Qed.

(** A market whose list and listed orders did not change. *)
Lemma market_ok_ext s s' m :
  market_ok s m -> get_active_orders_by_market s' m = get_active_orders_by_market s m ->
  (forall i, i ∈ active s m -> get_order s' i = get_order s i) ->
  market_ok s' m /\ forall side p, level_of s' m side p = level_of s m side p.
Proof.
  intros H Hl Ho. pose proof (active_of _ _ _ Hl) as Ha.
  assert (Hlev : forall side p, level_of s' m side p = level_of s m side p).
  { intros side p. apply level_of_ext; [done|]. intros i Hi. by apply order_of_eq, Ho. }
  split; [|done]. constructor.
  - by rewrite Hl, Ha, (mok_readable _ _ H).
  - rewrite Ha. apply H.
  - rewrite Ha. intros i Hi. rewrite Ho by done. by apply H.
  - intros side p. rewrite Hlev. apply H.
Qed.

Lemma expected_level_nonempty s m side p :
  pl_orders (level_of s m side p) <> [] ->
  expected_level s m side p = Some (level_of s m side p).
Proof. unfold expected_level, level_is_empty. by destruct (pl_orders _). Qed.

Lemma level_at_side_default ob m side p :
  (default ∅ (ob_side side ob !! m)) !! p = level_at ob m side p.
Proof. unfold level_at. destruct (ob_side side ob !! m); simpl; [done|apply lookup_empty]. Qed.

Lemma level_at_add_order id o ob m side p :
  level_at (add_order id o ob) m side p =
  if decide ((m, side, p) = (o_market_id o, o_is_buy o, o_price o))
  then Some (level_add_order id (o_remaining_size o)
               (default PriceLevel_new (level_at ob (o_market_id o) (o_is_buy o) (o_price o))))
  else level_at ob m side p.
Proof.
  unfold add_order. set (ob1 := with_ob_index _ _ ob).
  assert (Hob1 : forall m side p, level_at ob1 m side p = level_at ob m side p) by (by intros ? []).
  rewrite level_at_with_side. destruct (decide ((m, side) = _)) as [[= -> ->]|Hne].
  - destruct (decide (p = o_price o)) as [->|Hp].
    + rewrite decide_True by done. by rewrite lookup_insert_eq, level_at_side_default, Hob1.
    + rewrite decide_False by congruence. by rewrite lookup_insert_ne, level_at_side_default, Hob1.
  - rewrite decide_False by congruence. apply Hob1.
Qed.

Section added.
Context (s : StateManager) (id : Z) (o : Order) (s' : StateManager) (Hs : state_ok s).
Context (Hadd : order_added s id o s') (Hfresh : forall m, id ∉ active s m).
Context (Hact : o_status o = Active) (Hrem : 0 < o_remaining_size o).
Notation m := (o_market_id o).
Context (Hfit : pl_total_size (level_of s m (o_is_buy o) (o_price o)) + o_remaining_size o <= U64_MAX).

Lemma added_active : active s' m = active s m ++ [id].
Proof using Hadd. unfold active at 1. by rewrite (oa_list _ _ _ _ Hadd). Qed.

Lemma added_queue side p :
  queue s' m side p =
  queue s m side p ++ (if decide ((side, p) = (o_is_buy o, o_price o)) then [id] else []).
Proof using Hadd Hfresh.
  unfold queue. rewrite added_active, filter_app. f_equal.
  - apply filter_ext_on. intros i Hi. rewrite (at_price_eq s s'); [done|].
    apply order_of_eq, Hadd. intros ->. by apply (Hfresh m).
  - assert (E : at_price s' side p id =
      bool_decide ((side, p) = (o_is_buy o, o_price o))).
    { unfold at_price. rewrite (order_of_Ok _ _ _ (oa_order _ _ _ _ Hadd)).
      case_bool_decide as H; [injection H as -> ->; by rewrite eqb_reflx, Z.eqb_refl|].
      apply andb_false_iff. destruct (Bool.eqb _ _) eqn:E1; [|by left]. right.
      apply Z.eqb_neq. apply eqb_prop in E1. congruence. }
    destruct (decide ((side, p) = _)) as [H|H].
    + rewrite filter_cons_True; [done|]. by rewrite E, bool_decide_eq_true_2.
    + rewrite filter_cons_False; [done|]. by rewrite E, bool_decide_eq_false_2.
Qed.

Lemma added_level side p :
  level_of s' m side p =
  if decide ((side, p) = (o_is_buy o, o_price o))
  then level_add_order id (o_remaining_size o) (level_of s m side p)
  else level_of s m side p.
Proof using Hadd Hfit Hfresh Hrem Hs.
  assert (Hold : sumZ (remaining_of s') (queue s m side p) =
                 sumZ (remaining_of s) (queue s m side p)).
  { apply sumZ_ext. intros i [_ Hi]%elem_of_queue. apply remaining_of_eq, order_of_eq, Hadd.
    intros ->. by apply (Hfresh m). }
  unfold level_of at 1. rewrite added_queue, sumZ_app, Hold.
  destruct (decide _) as [[= -> ->]|Hne].
  - unfold level_add_order, wadd64. cbn [pl_orders pl_total_size level_of]. f_equal.
    unfold sumZ at 2. simpl. unfold remaining_of at 2.
    rewrite (order_of_Ok _ _ _ (oa_order _ _ _ _ Hadd)), Z.add_0_r. symmetry.
    apply as_u64_id. simpl in Hfit.
    pose proof (sumZ_nonneg (remaining_of s) (queue s m (o_is_buy o) (o_price o))
      ltac:(intros i [_ Hi]%elem_of_queue; pose proof (live_remaining s m i (Hs m) Hi); lia)).
    unfold is_u64. lia.
  - rewrite app_nil_r. unfold level_of. f_equal. simpl. lia.
Qed.

Lemma added_state_ok : state_ok s'.
Proof using All.
  intros m2. destruct (decide (m2 = m)) as [->|Hne].
  - constructor.
    + by rewrite added_active, (oa_list _ _ _ _ Hadd).
    + rewrite added_active. apply NoDup_app. split_and!; [apply Hs| |apply NoDup_singleton].
      intros i Hi ->%list_elem_of_singleton. by apply (Hfresh m).
    + rewrite added_active. intros i [Hi|Hi]%elem_of_app.
      * destruct (mok_live _ _ (Hs m) i Hi) as (o' & Ho & ?). exists o'. split; [|done].
        rewrite <- Ho. apply Hadd. intros ->. by apply (Hfresh m).
      * apply list_elem_of_singleton in Hi as ->. exists o. by split; [apply Hadd|].
    + intros side p. pose proof (mok_total _ _ (Hs m) side p) as Ht. rewrite added_level.
      destruct (decide _); [|done]. cbn [pl_total_size level_add_order]. apply as_u64_range.
  - apply (market_ok_ext s); [done|by apply Hadd|].
    intros i Hi. apply Hadd. intros ->. by apply (Hfresh m2).
Qed.

Lemma add_order_synced ob : book_synced ob s -> book_synced (add_order id o ob) s'.
Proof using All.
  intros [_ Hb]. split; [apply added_state_ok|]. intros m2 side p. rewrite level_at_add_order.
  destruct (decide _) as [[= -> -> ->]|Hne].
  - rewrite Hb, expected_level_default.
    pose proof (added_level (o_is_buy o) (o_price o)) as Hl. rewrite decide_True in Hl by done.
    rewrite expected_level_nonempty; rewrite Hl; [done|]. simpl. by destruct (queue _ _ _ _).
  - rewrite Hb. symmetry. apply expected_level_ext.
    destruct (decide (m2 = m)) as [->|Hm].
    + rewrite added_level, decide_False; [done|congruence].
    + apply (market_ok_ext s); [done|by apply Hadd|].
      intros i Hi. apply Hadd. intros ->. by apply (Hfresh m2).
Qed.

End added.

Section removed.
Context (s : StateManager) (id : Z) (o : Order) (s' : StateManager) (Hs : state_ok s).
Notation m := (o_market_id o).
Context (Ho : get_order s id = Ok (Some o)) (Hin : id ∈ active s m).
Context (Hrm : order_removed s m id s').

Lemma removed_active : active s' m = filter (fun i => i <> id) (active s m).
Proof using Hrm. unfold active at 1. by rewrite (or_list _ _ _ _ Hrm). Qed.

Lemma removed_queue side p :
  queue s' m side p = filter (fun i => i <> id) (queue s m side p).
Proof using Hrm.
  unfold queue. rewrite removed_active, !list_filter_filter. apply filter_ext_on.
  intros i Hi. destruct (decide (i = id)) as [->|Hne]; [tauto|].
  rewrite (at_price_eq s s'); [tauto|]. by apply order_of_eq, Hrm.
Qed.

Lemma removed_in_queue side p :
  id ∈ queue s m side p <-> (side, p) = (o_is_buy o, o_price o).
Proof using Ho Hin.
  rewrite elem_of_queue, at_price_order, (order_of_Ok _ _ _ Ho). split.
  - by intros [(? & [= <-] & -> & ->) _].
  - intros [= -> ->]. eauto.
Qed.

Lemma removed_level_other side p :
  (side, p) <> (o_is_buy o, o_price o) -> level_of s' m side p = level_of s m side p.
Proof using Ho Hin Hrm.
  intros Hne. unfold level_of. rewrite removed_queue, filter_all.
  2:{ intros i Hi ->. by apply removed_in_queue in Hi. }
  f_equal. apply sumZ_ext. intros i Hi. apply remaining_of_eq, order_of_eq, Hrm.
  intros ->. by apply removed_in_queue in Hi.
Qed.

Lemma removed_level :
  snd (level_remove_order id (o_remaining_size o) (level_of s m (o_is_buy o) (o_price o))) =
  level_of s' m (o_is_buy o) (o_price o).
Proof using Ho Hin Hrm Hs.
  assert (Hq : id ∈ queue s m (o_is_buy o) (o_price o)) by (by apply removed_in_queue).
  assert (Hn : NoDup (queue s m (o_is_buy o) (o_price o))) by (by apply queue_NoDup).
  destruct (delete_position_filter id _ Hn Hq) as (i & Hi & Hd).
  unfold level_remove_order. cbn [pl_orders level_of]. rewrite Hi. cbn [snd pl_total_size].
  rewrite Hd. unfold level_of. rewrite removed_queue. f_equal.
  assert (Hr : remaining_of s id = o_remaining_size o)
    by (unfold remaining_of; by rewrite (order_of_Ok _ _ _ Ho)).
  destruct (queue_remaining s m _ _ id (Hs m) Hq) as [[? Hle] _]. simpl in Hle.
  rewrite (sumZ_ext (remaining_of s') (remaining_of s)).
  - rewrite sumZ_filter_ne, Hr by done. apply saturating_sub_le; lia.
  - intros j [Hj _]%list_elem_of_filter. by apply remaining_of_eq, order_of_eq, Hrm.
Qed.

Lemma removed_state_ok : state_ok s'.
Proof using All.
  intros m2. destruct (decide (m2 = m)) as [->|Hne].
  - constructor.
    + by rewrite removed_active, (or_list _ _ _ _ Hrm).
    + rewrite removed_active. apply NoDup_filter, Hs.
    + rewrite removed_active. intros i [Hne Hi]%list_elem_of_filter.
      rewrite (or_others _ _ _ _ Hrm) by done. by apply (Hs m).
    + intros side p. destruct (decide ((side, p) = (o_is_buy o, o_price o))) as [[= -> ->]|Hne].
      * rewrite <- removed_level. unfold level_remove_order.
        pose proof (mok_total _ _ (Hs m) (o_is_buy o) (o_price o)).
        destruct (mok_live _ _ (Hs m) id Hin) as (o' & Ho' & _ & _ & Hpos).
        rewrite Ho in Ho'. injection Ho' as <-.
        destruct (position _ _); [|done]. cbn [snd pl_total_size]. unfold saturating_sub.
        unfold U64_MAX in *. lia.
      * rewrite removed_level_other by done. apply Hs.
  - apply (market_ok_ext s); [done|by apply Hrm|].
    intros i Hi. apply Hrm. intros ->. apply Hne. by eapply active_market.
Qed.

Lemma remove_order_synced ob : book_synced ob s -> book_synced (remove_order id o ob) s'.
Proof using All.
  intros [_ Hb]. split; [apply removed_state_ok|]. intros m2 side p. unfold remove_order.
  set (ob1 := with_ob_index _ _ ob).
  assert (Hob1 : forall m2 side p, level_at ob1 m2 side p = expected_level s m2 side p)
    by (intros m3 [] p3; rewrite <- Hb; reflexivity).
  assert (Hq : id ∈ queue s m (o_is_buy o) (o_price o)) by (by apply removed_in_queue).
  pose proof (Hob1 m (o_is_buy o) (o_price o)) as Hlvl.
  rewrite expected_level_nonempty in Hlvl by (intros E; simpl in E; rewrite E in Hq; set_solver).
  unfold level_at in Hlvl.
  destruct (ob_side (o_is_buy o) ob1 !! m) as [book|] eqn:Eb; [|done]. simpl in Hlvl.
  rewrite Hlvl. pose proof removed_level as Hrl.
  destruct (level_remove_order _ _ _) as [fd lvl]. simpl in Hrl. subst lvl.
  rewrite level_at_with_side. destruct (decide _) as [[= -> ->]|Hne].
  - destruct (decide (p = o_price o)) as [->|Hp].
    + unfold expected_level. destruct (level_is_empty _).
      * by rewrite lookup_delete_eq.
      * by rewrite lookup_insert_eq.
    + rewrite (expected_level_ext s) by (apply removed_level_other; congruence).
      rewrite <- Hob1. unfold level_at. rewrite Eb. simpl.
      destruct (level_is_empty _); by rewrite ?lookup_delete_ne, ?lookup_insert_ne by done.
  - rewrite Hob1. symmetry. apply expected_level_ext.
    destruct (decide (m2 = m)) as [->|Hm].
    + apply removed_level_other. congruence.
    + apply (market_ok_ext s); [done|by apply Hrm|].
      intros i Hi. apply Hrm. intros ->. apply Hm. by eapply active_market.
Qed.

End removed.

(** The empty book of an empty state. *)
Lemma book_synced_empty s :
  (forall m, get_active_orders_by_market s m = Ok []) -> book_synced OrderbookManager_new s.
Proof.
  intros H. assert (Ha : forall m, active s m = []) by (intros m; unfold active; by rewrite H).
  assert (Hl : forall m side p, level_of s m side p = PriceLevel_new).
  { intros m side p. unfold level_of, queue. by rewrite Ha. }
  split.
  - intros m. constructor; [by rewrite Ha|rewrite Ha; constructor|rewrite Ha; set_solver|].
    intros side p. by rewrite Hl.
  - intros m side p. unfold expected_level. rewrite Hl. by destruct side.
Qed.

End insertion.

Section post_only.
Context {B : Backend} {Bok : BackendOk B}.

Lemma opposing_head order book :
  head (opposing_prices order book) = best_of (negb (o_is_buy order)) book.
Proof.
  unfold opposing_prices, best_of. destruct (o_is_buy order); simpl; [done|].
  induction (btree_keys book) as [|x l _] using rev_ind; [done|].
  by rewrite rev_app_distr, last_snoc.
Qed.

(** No price of the book is acceptable to an order that would not match. *)
Lemma would_not_match_prices ob order book :
  0 <= o_price order -> would_match ob order = Ok false ->
  ob_side (negb (o_is_buy order)) ob !! o_market_id order = Some book ->
  take_while (price_acceptable order) (opposing_prices order book) = [].
Proof.
  intros Hp Hw Hb. unfold would_match in Hw. rewrite Hb in Hw.
  rewrite <- opposing_head in Hw. destruct (opposing_prices order book) as [|p l]; [done|].
  simpl in *. unfold price_acceptable.
  destruct (Z.eqb_spec (o_price order) 0); [done|].
  destruct (Z.ltb_spec 0 (o_price order)); [|lia].
  destruct (o_is_buy order); simpl in *.
  - destruct (Z.leb_spec p (o_price order)); [done|].
    by destruct (Z.ltb_spec (o_price order) p); [|lia].
  - destruct (Z.leb_spec (o_price order) p); [done|].
    by destruct (Z.ltb_spec p (o_price order)); [|lia].
Qed.

Lemma would_match_Ok ob order : exists b, would_match ob order = Ok b.
Proof.
  unfold would_match. repeat case_match; eauto.
Qed.

Lemma match_prices_none order prices acc t :
  take_while (price_acceptable order) prices = [] -> match_prices order prices acc t = (Ok acc, t).
Proof. destruct prices as [|p l]; [done|]. simpl. by destruct (price_acceptable order p). Qed.

Lemma post_only_run ob s order market :
  o_post_only order = true -> is_u64 (o_price order) ->
  match_order order market (ob, s) = (Err PostOnlyWouldTake, (ob, s)) \/
  (match_order order market (ob, s) = (Ok [], (ob, s)) /\ would_match ob order = Ok false).
Proof.
  intros Hp [Hpr _]. unfold match_order. rewrite Hp.
  destruct (would_match_Ok ob order) as [[] Hw].
  - left. erewrite st_bind_eq by (unfold st_read; by rewrite Hw). done.
  - right. split; [|exact Hw]. erewrite st_bind_eq by (unfold st_read; by rewrite Hw).
    unfold st_guard, negb at 1. unfold st_bind at 1, st_ret at 1. unfold st_bind at 1, st_gets.
    destruct (ob_side (negb (o_is_buy order)) ob !! o_market_id order) as [book|] eqn:Eb; [|done].
    erewrite st_bind_eq.
    2:{ unfold on_book, st_zoom. rewrite Eb. simpl default.
        rewrite match_prices_none by (by eapply would_not_match_prices). reflexivity. }
    simpl. by rewrite with_ob_side_same.
Qed.

(** A post-only order never takes liquidity: [match_order] either
    refuses it or matches nothing, and in both cases leaves the book and the
    state as they were, whatever they are. *)
Theorem post_only_never_takes ob s order market :
  o_post_only order = true -> is_u64 (o_price order) ->
  match_order order market (ob, s) = (Err PostOnlyWouldTake, (ob, s)) \/
  match_order order market (ob, s) = (Ok [], (ob, s)).
Proof.
  intros Hp Hpr. destruct (post_only_run ob s order market Hp Hpr) as [H|[H _]]; auto.
Qed.

(** [match_order] writes orders and active lists only. *)
Definition trading_keys (k : StateKey) : Prop :=
  match k with SK_Order _ | SK_ActiveOrder _ _ | SK_ActiveOrderList _ => True | _ => False end.

Lemma frames_on_sm {T A} P (m : ST StateManager StateError A) :
  frames id P m -> frames (snd : T * StateManager -> StateManager) P (on_sm m).
Proof.
  intros H. unfold on_sm. eapply frames_zoom; [| |apply frames_map_err, H]; done.
Qed.

Lemma frames_update_maker i o z :
  frames (snd : PriceLevel * StateManager -> StateManager) trading_keys (update_maker i o z).
Proof.
  unfold update_maker. repeat frames_step.
  all: try (apply frames_on_sm; eapply frames_weaken; [|by auto with frames];
    [intros k <- || intros k [-> | ->]; exact I]).
  all: apply frames_id; by intros [? ?].
Qed.

Lemma frames_match_level order p ids : forall acc,
  frames (snd : PriceLevel * StateManager -> StateManager) trading_keys (match_level order p ids acc).
Proof.
  induction ids as [|i ids IH]; intros acc; simpl; [by apply frames_id|].
  destruct (_ =? 0); [by apply frames_id|]. apply frames_bind; [|auto].
  unfold match_maker, read_sm. repeat frames_step. apply frames_update_maker.
Qed.

Lemma frames_match_prices order prices : forall acc,
  frames (snd : gmap Z PriceLevel * StateManager -> StateManager) trading_keys
    (match_prices order prices acc).
Proof.
  induction prices as [|p ps IH]; intros acc; simpl; [by apply frames_id|].
  destruct (negb _); [by apply frames_id|]. apply frames_bind; [|intros a; by destruct (_ =? 0); [apply frames_id|]].
  unfold match_price. repeat frames_step.
  - unfold on_level. eapply frames_zoom; [| |apply frames_match_level].
    + by intros [? ?].
    + by intros [? ?] [? ?].
  - apply frames_id. intros [? ?]. simpl. by destruct (level_is_empty _).
Qed.

Lemma frames_match_order order market :
  frames (snd : OrderbookManager * StateManager -> StateManager) trading_keys
    (match_order order market).
Proof.
  unfold match_order. repeat frames_step.
  unfold on_book. eapply frames_zoom; [| |apply frames_match_prices].
  - by intros [? ?].
  - by intros [? ?] [? ?].
Qed.

End post_only.

Section depth.
Context {B : Backend} {Bok : BackendOk B}.

Lemma depth_of_fst book prices :
  (forall p, p ∈ prices -> is_Some (book !! p)) -> map fst (depth_of book prices) = prices.
Proof.
  intros H. unfold depth_of. induction prices as [|p ps IH]; [done|].
  destruct (H p) as [l Hl]; [set_solver|]. simpl. rewrite Hl. simpl. f_equal. apply IH. set_solver.
Qed.

Lemma elem_of_depth_of book prices p v :
  (p, v) ∈ depth_of book prices <-> p ∈ prices /\ exists l, book !! p = Some l /\ v = pl_total_size l.
Proof.
  unfold depth_of. rewrite list_elem_of_omap. split.
  - intros (q & Hq & E). destruct (book !! q) as [l|] eqn:El; simplify_eq/=. eauto.
  - intros (Hp & l & Hl & ->). exists p. by rewrite Hl.
Qed.

(** One side of the depth: the [n] best prices of the book, each with the total
    remaining size of the orders queued there. *)
Definition depth_side_ok (R : Z -> Z -> Prop) (s : StateManager) (m : Z) (side : bool) (n : nat)
    (l : list (Z * Z)) : Prop :=
  StronglySorted R (map fst l) /\ (length l <= n)%nat /\
  (forall p v, (p, v) ∈ l -> v = sumZ (remaining_of s) (queue s m side p) /\ 0 < v) /\
  (forall q, queue s m side q <> [] -> q ∈ map fst l \/
     (length l = n /\ forall p, p ∈ map fst l -> R p q)).

Lemma depth_side (R : Z -> Z -> Prop) s m side n book keys :
  state_ok s ->
  (forall p, book !! p = expected_level s m side p) ->
  StronglySorted R keys -> (forall p, p ∈ keys <-> is_Some (book !! p)) ->
  depth_side_ok R s m side n (depth_of book (take n keys)).
Proof.
  intros Hs Hb Hsort Hk.
  assert (Hf : map fst (depth_of book (take n keys)) = take n keys).
  { apply depth_of_fst. intros p Hp. apply Hk. by eapply list_elem_of_take_1 || by apply elem_of_take in Hp as (? & ? & _); eapply list_elem_of_lookup_2. }
  assert (Hlen : length (depth_of book (take n keys)) = length (take n keys))
    by (by rewrite <- (length_map fst), Hf).
  unfold depth_side_ok. rewrite Hf, Hlen. split_and!.
  - by apply StronglySorted_take.
  - rewrite length_take. lia.
  - intros p v (_ & l & Hl & ->)%elem_of_depth_of. rewrite Hb in Hl.
    apply expected_level_Some in Hl as [-> Hne]. split; [done|].
    simpl in Hne. destruct (queue s m side p) as [|i q] eqn:Eq; [done|].
    destruct (queue_remaining s m side p i (Hs m)); [rewrite Eq; set_solver|]. lia.
  - intros q Hq. assert (Hin : q ∈ keys).
    { apply Hk. rewrite Hb, expected_level_nonempty by done. eauto. }
    rewrite <- (take_drop n keys) in Hin. apply elem_of_app in Hin as [Hin|Hin]; [by left|right].
    split.
    + rewrite length_take. enough (length (drop n keys) <> O) by (rewrite length_drop in *; lia).
      by destruct (drop n keys); [set_solver|].
    + rewrite <- (take_drop n keys) in Hsort. clear -Hsort Hin.
      induction (take n keys) as [|x l IH]; [set_solver|]. simpl in Hsort.
      apply StronglySorted_inv in Hsort as [Hsort Hall]. rewrite Forall_forall in Hall.
      intros p [->|Hp]%elem_of_cons; [apply Hall; set_solver|by apply IH].
Qed.

(** On a book in step with the state, [get_depth] shows on each side the
    [n] best prices in order, each with the exact total of the active orders
    queued there; a price that is not shown is behind all those shown. *)
Theorem get_depth_exact ob s m n bids asks :
  book_synced ob s -> get_depth ob m n = (bids, asks) ->
  depth_side_ok (fun p q => q <= p) s m true n bids /\
  depth_side_ok Z.le s m false n asks.
Proof.
  intros [Hs Hb] [= <- <-].
  assert (Hnone : forall R side, StronglySorted R [] ->
    ob_side side ob !! m = None -> depth_side_ok R s m side n []).
  { intros R side _ E. split_and!; [constructor|simpl; lia|set_solver|].
    intros q Hq. exfalso. pose proof (Hb m side q) as H.
    rewrite expected_level_nonempty in H by done. unfold level_at in H. by rewrite E in H. }
  assert (Hsome : forall side book, ob_side side ob !! m = Some book ->
    forall p, book !! p = expected_level s m side p).
  { intros side book E p. rewrite <- Hb. unfold level_at. by rewrite E. }
  split.
  - destruct (ob_bids ob !! m) as [book|] eqn:E; [|by apply Hnone; [constructor|]].
    apply (depth_side _ s m true n book); [done|by apply Hsome| |].
    + exact (StronglySorted_rev Z.le _ (btree_keys_sorted book)).
    + intros p. rewrite list_elem_of_In, <- in_rev, <- list_elem_of_In. apply btree_keys_elem.
  - destruct (ob_asks ob !! m) as [book|] eqn:E; [|by apply Hnone; [constructor|]].
    apply (depth_side _ s m false n book); [done|by apply Hsome|apply btree_keys_sorted|].
    intros p. apply btree_keys_elem.
Qed.

End depth.

(** * The calls that insert and remove *)

Section runs.
Context {B : Backend} {Bok : BackendOk B}.
Implicit Types s : StateManager.

Lemma add_active_order_run m id s :
  get_active_orders_by_market s m = Ok (active s m) -> id ∉ active s m ->
  exists s', add_active_order m id s = (Ok tt, s') /\
    (forall i, get_order s' i = get_order s i) /\
    get_active_orders_by_market s' m = Ok (active s m ++ [id]) /\
    (forall m', m' <> m ->
       get_active_orders_by_market s' m' = get_active_orders_by_market s m').
Proof.
  intros Hl Hid. destruct (set_succeeds serde_bool (SK_ActiveOrder m id) true s) as [s1 E1].
  pose proof (active_orders_flag m id s s1 (set_frame _ _ _ _ _ _ E1)) as A1. rewrite Hl in A1.
  destruct (set_succeeds serde_nums (SK_ActiveOrderList m) (active s m ++ [id]) s1) as [s' E2].
  assert (Hrun : add_active_order m id s = (Ok tt, s')).
  { unfold add_active_order. erewrite st_bind_eq by exact E1. erewrite st_read_bind by exact A1.
    rewrite bool_decide_eq_false_2 by done. exact E2. }
  assert (F : frame (active_keys m id) s s')
    by (eapply frames_run_id; [apply frames_add_active_order|exact Hrun]).
  exists s'. split_and!; [done| |by eapply get_nums_set|].
  - intros i. eapply get_order_frame; [done|]. by intros [?|?].
  - intros m' Hne. eapply get_or_default_frame; [done|]. intros [?|?]; congruence.
Qed.

Lemma order_added_run s id o :
  state_ok s -> id ∉ active s (o_market_id o) ->
  exists s1 s2, set_order id o s = (Ok tt, s1) /\
    add_active_order (o_market_id o) id s1 = (Ok tt, s2) /\ order_added s id o s2.
Proof.
  intros Hs Hid. destruct (set_order_spec id o s) as (s1 & R1 & _ & G1 & O1 & L1).
  assert (A1 : active s1 (o_market_id o) = active s (o_market_id o))
    by (unfold active; by rewrite L1).
  destruct (add_active_order_run (o_market_id o) id s1) as (s2 & R2 & O2 & L2 & L2').
  { rewrite L1, A1. apply Hs. }
  { by rewrite A1. }
  exists s1, s2. split_and!; [done|done|]. constructor.
  - by rewrite O2.
  - intros i Hi. by rewrite O2, O1.
  - by rewrite L2, A1.
  - intros m' Hm. by rewrite L2', L1.
Qed.

Lemma order_removed_run s m id o :
  state_ok s ->
  exists s1 s2, set_order id o s = (Ok tt, s1) /\ remove_active_order m id s1 = (Ok tt, s2) /\
    order_removed s m id s2 /\ get_order s2 id = Ok (Some o).
Proof.
  intros Hs. destruct (set_order_spec id o s) as (s1 & R1 & _ & G1 & O1 & L1).
  destruct (remove_active_order_run m id s1 (active s m)) as (s2 & R2 & _ & O2 & L2 & L2').
  { rewrite L1. apply Hs. }
  exists s1, s2. split_and!; [done|done| |by rewrite O2].
  constructor; [|done|].
  - intros i Hi. by rewrite O2, O1.
  - intros m' Hm. by rewrite L2', L1.
Qed.

End runs.

(** * Witnesses *)

(** Two asks at 50000 and one at 50100, by traders 7, 8 and 9. *)
Definition demo_ask (id owner price size : Z) : Order := {|
  o_id := id; o_market_id := 0; o_owner := owner; o_is_buy := false; o_price := price;
  o_original_size := size; o_remaining_size := size; o_status := Active; o_created_at := 0;
  o_reduce_only := false; o_post_only := false |}.
Definition demo_insert (o : Order) (t : OrderbookManager * StateManager)
    : OrderbookManager * StateManager :=
  (add_order (o_id o) o (fst t),
   snd (add_active_order (o_market_id o) (o_id o) (snd (set_order (o_id o) o (snd t))))).
Definition demo_book1 := demo_insert (demo_ask 0 7 50000 10) (OrderbookManager_new, sm_demo).
Definition demo_book2 := demo_insert (demo_ask 1 8 50000 5) demo_book1.
Definition demo_book := demo_insert (demo_ask 2 9 50100 20) demo_book2.

(** A buy of 12 by trader 8, whose own ask is skipped. *)
Definition demo_taker (post_only : bool) : Order := {|
  o_id := 3; o_market_id := 0; o_owner := 8; o_is_buy := true; o_price := 50100;
  o_original_size := 12; o_remaining_size := 12; o_status := Active; o_created_at := 0;
  o_reduce_only := false; o_post_only := post_only |}.

Lemma demo_insert_synced o t :
  book_synced (fst t) (snd t) -> (forall m, o_id o ∉ active (snd t) m) ->
  o_status o = Active -> 0 < o_remaining_size o ->
  pl_total_size (level_of (snd t) (o_market_id o) (o_is_buy o) (o_price o)) + o_remaining_size o
    <= U64_MAX ->
  book_synced (fst (demo_insert o t)) (snd (demo_insert o t)).
Proof.
  intros Ht Hf Ha Hr Hfit. destruct (order_added_run (snd t) (o_id o) o (proj1 Ht) (Hf _))
    as (s1 & s2 & R1 & R2 & Hadd).
  unfold demo_insert. cbn [fst snd]. rewrite R1. cbn [snd]. rewrite R2. cbn [snd].
  by apply (add_order_synced (snd t)); try done; apply Ht.
Qed.

Lemma demo_insert_active o t m :
  state_ok (snd t) -> o_id o ∉ active (snd t) (o_market_id o) ->
  active (snd (demo_insert o t)) m =
  if decide (m = o_market_id o) then active (snd t) m ++ [o_id o] else active (snd t) m.
Proof.
  intros Hs Hf. destruct (order_added_run (snd t) (o_id o) o Hs Hf) as (s1 & s2 & R1 & R2 & Hadd).
  unfold demo_insert. cbn [snd]. rewrite R1. cbn [snd]. rewrite R2. cbn [snd].
  unfold active at 1. destruct (decide _) as [->|Hm].
  - by rewrite (oa_list _ _ _ _ Hadd).
  - by rewrite (oa_lists _ _ _ _ Hadd).
Qed.

(** Insertion of the [n]-th demo ask. *)
Lemma demo_step t ids o :
  book_synced (fst t) (snd t) -> o_market_id o = 0 ->
  (forall m, active (snd t) m = if decide (m = 0) then ids else []) -> o_id o ∉ ids ->
  o_status o = Active -> 0 < o_remaining_size o ->
  pl_total_size (level_of (snd t) 0 (o_is_buy o) (o_price o)) + o_remaining_size o <= U64_MAX ->
  book_synced (fst (demo_insert o t)) (snd (demo_insert o t)) /\
  forall m, active (snd (demo_insert o t)) m = if decide (m = 0) then ids ++ [o_id o] else [].
Proof.
  intros Ht Hm Hact Hid Ha Hr Hfit.
  assert (Hf : forall m, o_id o ∉ active (snd t) m)
    by (intros m; rewrite Hact; destruct (decide _); [done|set_solver]).
  split; [apply demo_insert_synced; try done; by rewrite Hm|].
  intros m. rewrite demo_insert_active by (try apply Ht; apply Hf). rewrite Hm, Hact.
  by destruct (decide (m = 0)).
Qed.

Definition demo_state (t : OrderbookManager * StateManager) (ids : list Z) : Prop :=
  book_synced (fst t) (snd t) /\ forall m, active (snd t) m = if decide (m = 0) then ids else [].

Lemma demo_state_insert t ids o ids' :
  demo_state t ids -> o_market_id o = 0 -> o_id o ∉ ids ->
  o_status o = Active -> 0 < o_remaining_size o ->
  pl_total_size (level_of (snd t) 0 (o_is_buy o) (o_price o)) + o_remaining_size o <= U64_MAX ->
  ids' = ids ++ [o_id o] -> demo_state (demo_insert o t) ids'.
Proof. intros [H1 H2] ? ? ? ? ? ->. by apply demo_step. Qed.

Lemma demo_state0 : demo_state (OrderbookManager_new, sm_demo) [].
Proof.
  split; [apply book_synced_empty; intros m; reflexivity|]. intros m. by destruct (decide _).
Qed.

Lemma demo_state1 : demo_state demo_book1 [0].
Proof.
  unfold demo_book1.
  apply (demo_state_insert (OrderbookManager_new, sm_demo) [] (demo_ask 0 7 50000 10) [0] demo_state0);
    [done|vm_compute; set_solver|done|done|vm_compute; congruence|done].
Qed.

Lemma demo_state2 : demo_state demo_book2 [0; 1].
Proof.
  unfold demo_book2.
  apply (demo_state_insert demo_book1 [0] (demo_ask 1 8 50000 5) [0; 1] demo_state1);
    [done|vm_compute; set_solver|done|done|vm_compute; congruence|done].
Qed.

Lemma demo_state3 : demo_state demo_book [0; 1; 2].
Proof.
  unfold demo_book.
  apply (demo_state_insert demo_book2 [0; 1] (demo_ask 2 9 50100 20) [0; 1; 2] demo_state2);
    [done|vm_compute; set_solver|done|done|vm_compute; congruence|done].
Qed.

Definition demo_fills : list Fill :=
  [make_fill (demo_taker false) 50000 0 (demo_ask 0 7 50000 10) 10;
   make_fill (demo_taker false) 50100 2 (demo_ask 2 9 50100 20) 2].

Lemma match_order_refines_witness :
  reference_match (fst demo_book) (snd demo_book) (demo_taker false) = demo_fills /\
  exists ob' s', match_order (demo_taker false) btc_perp (fst demo_book, snd demo_book) =
    (Ok demo_fills, (ob', s')).
Proof.
  assert (E : reference_match (fst demo_book) (snd demo_book) (demo_taker false) = demo_fills)
    by (vm_compute; reflexivity).
  split; [exact E|].
  destruct (match_order_refines (fst demo_book) (snd demo_book) (demo_taker false) btc_perp)
    as (ob' & s' & R & _);
    [exact (proj1 demo_state3)|vm_compute; intuition congruence|discriminate|].
  rewrite E in R. exists ob', s'. exact R.
Defined.

Lemma match_order_price_time_witness :
  exists k, map (fun f => (f_price f, f_maker_order_id f)) demo_fills =
    take k (map fst (flat_map (makers_at (demo_taker false) (snd demo_book))
      (acceptable_prices (demo_taker false) (fst demo_book)))).
Proof.
  pose (t := match_order (demo_taker false) btc_perp (fst demo_book, snd demo_book)).
  assert (Hf : fst t = Ok demo_fills) by (vm_compute; reflexivity).
  assert (Hu : is_u64 (o_remaining_size (demo_taker false))) by (vm_compute; intuition congruence).
  destruct (match_order_price_time (fst demo_book) (snd demo_book) (demo_taker false) btc_perp
    demo_fills (fst (snd t)) (snd (snd t)) (proj1 demo_state3) Hu (run_result2 t _ Hf)) as [H _].
  exact H.
Defined.

Lemma post_only_never_takes_witness :
  fst (match_order (demo_taker true) btc_perp demo_book) = Err PostOnlyWouldTake /\
  (match_order (demo_taker true) btc_perp (fst demo_book, snd demo_book) =
     (Err PostOnlyWouldTake, (fst demo_book, snd demo_book)) \/
   match_order (demo_taker true) btc_perp (fst demo_book, snd demo_book) =
     (Ok [], (fst demo_book, snd demo_book))).
Proof.
  split; [vm_compute; reflexivity|].
  apply post_only_never_takes; [reflexivity|vm_compute; intuition congruence].
Defined.

Lemma get_depth_exact_witness :
  get_depth (fst demo_book) 0 1 = ([], [(50000, 15)]) /\
  depth_side_ok Z.le (snd demo_book) 0 false 1 [(50000, 15)].
Proof.
  split; [vm_compute; reflexivity|].
  assert (E : get_depth (fst demo_book) 0 1 = ([], [(50000, 15)])) by (vm_compute; reflexivity).
  destruct (get_depth_exact (fst demo_book) (snd demo_book) 0 1 [] [(50000, 15)]
    (proj1 demo_state3) E) as [_ H].
  exact H.
Defined.
