(* ===== verification/Position.v ===== *)
(** [PositionManager] (crates/engine/src/position.rs): how a trade changes a
    position, unrealized profit and loss, liquidation prices. *)
From stdpp Require Import base gmap sets list sorting strings.
From Stdlib Require Import ZArith Lia.
From S2P Require Import Prelude Types Storage State EngineBase.

(** * Pure computations *)

Definition increase_position (position : Position) (size price initial_margin_bps : Z)
    : result EngineError Position :=
  let* old_value := mul_or_overflow (pos_size position) (pos_entry_price position) in
  let* new_value := mul_or_overflow size price in
  let* total_value := add_or_overflow old_value new_value in
  let* total_size := add_or_overflow (pos_size position) size in
  if 0 <? total_size then
    let* scaled := mul_or_overflow new_value initial_margin_bps in
    let additional_margin := scaled / BASIS_POINTS in
    let* margin := add_or_overflow (pos_margin position) additional_margin in
    Ok {| pos_size := as_u64 total_size; pos_entry_price := as_u64 (total_value / total_size);
          pos_is_long := pos_is_long position; pos_margin := margin;
          pos_funding_index := pos_funding_index position |}
  else Ok position.

Definition calculate_initial_margin (size price initial_margin_bps : Z) : result EngineError Z :=
  let* position_value := mul_or_overflow size price in
  let* scaled := mul_or_overflow position_value initial_margin_bps in
  ok_or DivisionByZero (checked_div scaled BASIS_POINTS).

Definition calculate_pnl (position : Position) (mark_price : Z) : result EngineError (Z * bool) :=
  if pos_size position =? 0 then Ok (0, true)
  else
    let* entry_value := mul_or_overflow (pos_size position) (pos_entry_price position) in
    let* mark_value := mul_or_overflow (pos_size position) mark_price in
    Ok (if pos_is_long position then
          if entry_value <=? mark_value then (mark_value - entry_value, true)
          else (entry_value - mark_value, false)
        else if mark_value <=? entry_value then (entry_value - mark_value, true)
        else (mark_value - entry_value, false)).

Definition calculate_liquidation_price (position : Position) (maintenance_margin_bps : Z)
    : result EngineError Z :=
  if pos_size position =? 0 then Ok 0
  else
    let* scaled := mul_or_overflow (pos_entry_price position) maintenance_margin_bps in
    let margin_factor := scaled / BASIS_POINTS in
    let* liq_price :=
      if pos_is_long position then sub_or_overflow (pos_entry_price position) margin_factor
      else add_or_overflow (pos_entry_price position) margin_factor in
    Ok (as_u64 liq_price).

(** Equity: margin plus unrealized profit, or less the loss (not below zero);
    written in both the risk and the liquidation engine. *)
Definition position_equity (position : Position) (mark_price : Z) : result EngineError Z :=
  let* (pnl, is_profit) := calculate_pnl position mark_price in
  if is_profit then add_or_overflow (pos_margin position) pnl
  else Ok (saturating_sub (pos_margin position) pnl).

Definition with_size_margin (size margin : Z) (p : Position) : Position :=
  {| pos_size := size; pos_entry_price := pos_entry_price p; pos_is_long := pos_is_long p;
     pos_margin := margin; pos_funding_index := pos_funding_index p |}.

(** * [update_position] *)

Section update.
Context {B : Backend}.

(** What a trade makes of an existing position: [None] when it is closed. *)
Definition trade_existing (pos : Position) (size price : Z) (is_buy : bool)
    (initial_margin_bps : Z) : result EngineError (option Position) :=
  if Bool.eqb (pos_is_long pos) is_buy then
    result_map Some (increase_position pos size price initial_margin_bps)
  else if pos_size pos <=? size then
    let remaining := size - pos_size pos in
    if 0 <? remaining then
      let* new_margin := calculate_initial_margin remaining price initial_margin_bps in
      Ok (Some {| pos_size := remaining; pos_entry_price := price; pos_is_long := is_buy;
                  pos_margin := new_margin; pos_funding_index := pos_funding_index pos |})
    else Ok None
  else if pos_size pos =? 0 then Err (EngOther CannotReduceZero)
  else
    let* scaled := mul_or_overflow size 10000 in
    let reduction_ratio := scaled / pos_size pos in
    let* reduction := mul_or_overflow (pos_margin pos) reduction_ratio in
    let margin_reduction := reduction / 10000 in
    Ok (Some (with_size_margin (pos_size pos - size)
                (saturating_sub (pos_margin pos) margin_reduction) pos)).

Definition update_position (trader : Address) (market_id size price : Z) (is_buy : bool)
    (initial_margin_bps : Z) : ST StateManager EngineError unit :=
  let! position := st_read (fun s => state_result (get_position s trader market_id)) in
  match position with
  | Some pos =>
      let! updated := st_lift (trade_existing pos size price is_buy initial_margin_bps) in
      match updated with
      | Some pos => lift_state (set_position trader market_id pos)
      | None => lift_state (delete_position trader market_id)
      end
  | None =>
      let! margin := st_lift (calculate_initial_margin size price initial_margin_bps) in
      lift_state (set_position trader market_id
        {| pos_size := size; pos_entry_price := price; pos_is_long := is_buy;
           pos_margin := margin; pos_funding_index := 0 |})
  end.

End update.

(** * Properties *)

(** Signed exposure. *)
Definition exposure (p : Position) : Z := if pos_is_long p then pos_size p else - pos_size p.
Definition exposure_opt (o : option Position) : Z :=
  match o with Some p => exposure p | None => 0 end.
Definition signed (is_buy : bool) (size : Z) : Z := if is_buy then size else - size.

(** Signed profit of a position at a price. *)
Definition profit (p : Position) (mark_price : Z) : Z :=
  exposure p * (mark_price - pos_entry_price p).

Lemma increase_position_Ok p size price bps p' :
  Position_ok p -> is_u64 size -> is_u64 price -> 0 <= bps ->
  increase_position p size price bps = Ok p' ->
  pos_is_long p' = pos_is_long p /\ pos_size p' = as_u64 (pos_size p + size) /\
  pos_margin p <= pos_margin p' /\
  (0 < pos_size p + size ->
     pos_entry_price p' =
       (pos_size p * pos_entry_price p + size * price) / (pos_size p + size) /\
     pos_margin p' = pos_margin p + size * price * bps / 10000).
Proof.
  intros (Hs & He & Hm) Hsz Hpr Hb H. unfold increase_position in H. inv_checked.
  unfold is_u64, is_u128 in *.
  match type of H with (if 0 <? ?t then _ else _) = _ => destruct (Z.ltb_spec 0 t) as [Hpos|Hz] end.
  - inv_checked. cbn [pos_is_long pos_size pos_margin pos_entry_price]. unfold BASIS_POINTS in *.
    assert (0 <= size * price * bps / 10000) by (apply Z.div_pos; nia).
    split_and!; [done|done|lia|]. intros _. split; [|done]. apply as_u64_id. unfold is_u64.
    split; [apply Z.div_pos; nia|]. apply Z.div_le_upper_bound; [lia|]. unfold U64_MAX in *. nia.
  - inv_checked. assert (pos_size p' = 0 /\ size = 0) as [E1 E2] by lia.
    rewrite E1, E2. split_and!; [done|done|lia|lia].
Qed.

(** Adding to a position prices it at the size-weighted average: the new
    entry price lies between the old one and the trade's and is off the exact
    average by less than one unit; margin grows by the trade's initial margin. *)
Theorem increase_position_average p size price bps p' :
  Position_ok p -> is_u64 size -> is_u64 price -> 0 <= bps -> 0 < pos_size p + size <= U64_MAX ->
  increase_position p size price bps = Ok p' ->
  Z.min (pos_entry_price p) price <= pos_entry_price p' <= Z.max (pos_entry_price p) price /\
  0 <= (pos_size p * pos_entry_price p + size * price) - pos_size p' * pos_entry_price p'
    < pos_size p' /\
  pos_size p' = pos_size p + size /\
  pos_margin p' = pos_margin p + size * price * bps / 10000.
Proof.
  intros Hp Hsz Hpr Hb Ht H.
  destruct (increase_position_Ok _ _ _ _ _ Hp Hsz Hpr Hb H) as (_ & Es & _ & E).
  destruct E as [Ee Em]; [lia|]. destruct Hp as (Hs & He & Hm). unfold is_u64 in *.
  rewrite as_u64_id in Es by (unfold is_u64; lia). rewrite Ee, Es, Em.
  set (q := pos_size p + size) in *.
  set (v := pos_size p * pos_entry_price p + size * price).
  pose proof (Z.div_mod v q ltac:(lia)). pose proof (Z.mod_pos_bound v q ltac:(lia)).
  split_and!; try lia.
  - apply Z.div_le_lower_bound; [lia|]. unfold v, q.
    assert (pos_size p * Z.min (pos_entry_price p) price <= pos_size p * pos_entry_price p) by nia.
    assert (size * Z.min (pos_entry_price p) price <= size * price) by nia. lia.
  - apply Z.div_le_upper_bound; [lia|]. unfold v, q.
    assert (pos_size p * pos_entry_price p <= pos_size p * Z.max (pos_entry_price p) price) by nia.
    assert (size * price <= size * Z.max (pos_entry_price p) price) by nia. lia.
Qed.

Lemma trade_existing_exposure pos size price is_buy bps o :
  Position_ok pos -> is_u64 size -> is_u64 price -> 0 <= bps ->
  pos_size pos + size <= U64_MAX ->
  trade_existing pos size price is_buy bps = Ok o ->
  exposure_opt o = exposure pos + signed is_buy size /\
  (Bool.eqb (pos_is_long pos) is_buy = false -> size <= pos_size pos ->
     exists p, o = None \/ o = Some p /\ pos_is_long p = pos_is_long pos /\
       pos_entry_price p = pos_entry_price pos /\ pos_margin p <= pos_margin pos).
Proof.
  intros Hp Hsz Hpr Hb Ht H. pose proof Hp as (Hs & _ & Hm). unfold is_u64, is_u128 in *.
  unfold trade_existing in H.
  destruct (Bool.eqb (pos_is_long pos) is_buy) eqn:Eside.
  - apply eqb_prop in Eside. split; [|done].
    destruct (increase_position pos size price bps) as [p'|] eqn:Ei; simpl in H; [|done].
    injection H as <-. destruct (increase_position_Ok _ _ _ _ _ Hp Hsz Hpr Hb Ei) as (El & Es & _).
    rewrite as_u64_id in Es by (unfold is_u64; lia).
    simpl. unfold exposure. rewrite El, Es, Eside. unfold signed. destruct is_buy; lia.
  - assert (Hopp : is_buy = negb (pos_is_long pos)) by (by destruct (pos_is_long pos), is_buy).
    subst is_buy.
    destruct (Z.leb_spec (pos_size pos) size).
    + destruct (Z.ltb_spec 0 (size - pos_size pos)).
      * inv_checked. simpl. unfold exposure, signed. simpl.
        split; [destruct (pos_is_long pos); simpl; lia|lia].
      * inv_checked. simpl. unfold exposure, signed.
        split; [destruct (pos_is_long pos); simpl; lia|]. intros _ _. exists pos. by left.
    + destruct (Z.eqb_spec (pos_size pos) 0); [done|]. inv_checked. simpl.
      unfold exposure, signed, with_size_margin, saturating_sub. simpl.
      split; [destruct (pos_is_long pos); simpl; lia|]. intros _ _. eexists. right.
      split_and!; [reflexivity|done|done|]. simpl.
      assert (0 <= pos_margin pos * (size * 10000 / pos_size pos) / 10000); [|lia].
      apply Z.div_pos; [|lia]. apply Z.mul_nonneg_nonneg; [lia|]. apply Z.div_pos; lia.
Qed.

Section update_facts.
Context {B : Backend} {Bok : BackendOk B}.
Implicit Types s : StateManager.

Lemma frames_lift_state {A} P (m : ST StateManager StateError A) :
  frames id P m -> frames id P (lift_state m).
Proof. apply frames_map_err. Qed.

Lemma frames_update_position t m size price is_buy bps :
  frames id (position_keys t m) (update_position t m size price is_buy bps).
Proof.
  unfold update_position. repeat frames_step.
  all: apply frames_lift_state; auto with frames.
Qed.

(** The trade closes the position: it is on the other side and exactly as large. *)
Definition closes (po : option Position) (size : Z) (is_buy : bool) : bool :=
  match po with
  | Some p => negb (Bool.eqb (pos_is_long p) is_buy) && (pos_size p =? size)
  | None => false
  end.

Lemma trade_existing_closes pos size price is_buy bps o :
  trade_existing pos size price is_buy bps = Ok o ->
  (o = None <-> closes (Some pos) size is_buy = true).
Proof.
  unfold trade_existing, closes. intros H.
  destruct (Bool.eqb (pos_is_long pos) is_buy); simpl.
  { destruct (increase_position _ _ _ _); simplify_eq/=; by split. }
  destruct (Z.leb_spec (pos_size pos) size) as [Hle|Hlt].
  - destruct (Z.ltb_spec 0 (size - pos_size pos)) as [Hp|Hz]; inv_checked;
      destruct (Z.eqb_spec (pos_size pos) size); (split; [|lia || done]); intros; (done || lia).
  - destruct (Z.eqb_spec (pos_size pos) size); [lia|].
    destruct (_ =? 0); [done|]. inv_checked. by split.
Qed.

(** What a trade of the signed size leaves under the trader's key. *)
Definition traded s (t : Address) (m size : Z) (is_buy : bool) (po : option Position) s' : Prop :=
  if closes po size is_buy then
    exposure_opt po + signed is_buy size = 0 /\
    get_position s' t m = committed_position s t m
  else exists p', get_position s' t m = Ok (Some p') /\
         exposure p' = exposure_opt po + signed is_buy size.

Lemma traded_frame P s0 s s' t m size is_buy po :
  frame P s s' -> ~ P (SK_Position t m) ->
  traded s0 t m size is_buy po s -> traded s0 t m size is_buy po s'.
Proof. intros F H. unfold traded. by rewrite (get_position_frame _ _ _ _ _ F H). Qed.

(** The outcome of a successful update: a position with the new exposure was
    written, or the position was closed and its buffered write withdrawn. *)
Lemma update_position_outcome s t m size price is_buy bps po s' :
  get_position s t m = Ok po -> is_u64 size -> is_u64 price -> 0 <= bps ->
  (forall p, po = Some p -> Position_ok p /\ pos_size p + size <= U64_MAX) ->
  update_position t m size price is_buy bps s = (Ok tt, s') -> traded s t m size is_buy po s'.
Proof.
  intros Hget Hsz Hpr Hb Hpo H. unfold update_position in H.
  erewrite st_read_bind in H by (unfold state_result; rewrite Hget; reflexivity).
  destruct po as [pos|].
  - destruct (Hpo pos eq_refl) as [Hok Hfit].
    destruct (trade_existing pos size price is_buy bps) as [o|] eqn:Et; [|done].
    unfold st_bind, st_lift in H.
    destruct (trade_existing_exposure _ _ _ _ _ _ Hok Hsz Hpr Hb Hfit Et) as [Hexp _].
    apply trade_existing_closes in Et. unfold traded.
    destruct o as [p'|].
    + destruct (closes (Some pos) size is_buy) eqn:E; [discriminate (proj2 Et eq_refl)|].
      destruct (set_position_spec t m p' s) as (s1 & R & G & _).
      unfold lift_state, st_map_err in H. rewrite R in H. simpl in H. injection H as <-.
      by exists p'.
    + rewrite (proj1 Et eq_refl). destruct (delete_position_spec t m s) as (s1 & R & G & _).
      unfold lift_state, st_map_err in H. rewrite R in H. simpl in H. injection H as <-.
      split; [done|]. by apply get_position_withdrawn.
  - destruct (calculate_initial_margin size price bps) as [mg|] eqn:Em; [|done].
    unfold st_bind, st_lift in H.
    match type of H with lift_state (set_position _ _ ?p) _ = _ =>
      destruct (set_position_spec t m p s) as (s1 & R & G & _) end.
    unfold lift_state, st_map_err in H. rewrite R in H. simpl in H. injection H as <-.
    eexists. split; [exact G|]. unfold exposure, signed. simpl. by destruct is_buy.
Qed.

(** C22: a trade that does not close the trader's position leaves a stored
    position whose signed exposure is exactly the old one plus the signed size of
    the trade, through openings, increases, reductions and flips alike.  A trade
    on the other side and exactly as large as the position brings the exposure to
    0 and only withdraws the buffered write: the key then reads what the last
    commits left there, nothing when the position was never committed and else
    the committed position again.  No other position changes.  The position
    has its types, size and price fit 64 bits, and so does the sum of the sizes. *)
Theorem update_position_exposure s t m size price is_buy bps po s' :
  get_position s t m = Ok po -> is_u64 size -> is_u64 price -> 0 <= bps ->
  (forall p, po = Some p -> Position_ok p /\ pos_size p + size <= U64_MAX) ->
  update_position t m size price is_buy bps s = (Ok tt, s') ->
  (closes po size is_buy = false ->
     exists p', get_position s' t m = Ok (Some p') /\
       exposure p' = exposure_opt po + signed is_buy size) /\
  (closes po size is_buy = true ->
     exposure_opt po + signed is_buy size = 0 /\
     get_position s' t m = committed_position s t m /\
     (committed s (SK_Position t m) = None -> get_position s' t m = Ok None)) /\
  (forall t' m', (t', m') <> (t, m) -> get_position s' t' m' = get_position s t' m').
Proof.
  intros Hget Hsz Hpr Hb Hpo H.
  pose proof (update_position_outcome _ _ _ _ _ _ _ _ _ Hget Hsz Hpr Hb Hpo H) as Ht.
  unfold traded in Ht. split_and!.
  - intros E. by rewrite E in Ht.
  - intros E. rewrite E in Ht. destruct Ht as [H0 H1]. split_and!; [done|done|].
    intros Hc. rewrite H1. unfold committed_position. by rewrite Hc.
  - intros t' m' Hne. eapply get_position_frame.
    + eapply frames_run_id; [apply frames_update_position|exact H].
    + intros [?|?]; congruence.
Qed.

End update_facts.

(** ** Profit and loss *)

Lemma calculate_pnl_spec p mark_price :
  Position_ok p -> is_u64 mark_price ->
  calculate_pnl p mark_price = Ok (Z.abs (profit p mark_price), 0 <=? profit p mark_price).
Proof.
  intros (Hs & He & _) Hm. unfold calculate_pnl, profit, exposure.
  destruct (Z.eqb_spec (pos_size p) 0) as [->|Hne].
  { by destruct (pos_is_long p). }
  rewrite !mul_u64_fits by done. simpl. unfold is_u64 in *.
  destruct (pos_is_long p).
  - replace (pos_size p * (mark_price - pos_entry_price p))
      with (pos_size p * mark_price - pos_size p * pos_entry_price p) by lia.
    destruct (Z.leb_spec (pos_size p * pos_entry_price p) (pos_size p * mark_price)),
      (Z.leb_spec 0 (pos_size p * mark_price - pos_size p * pos_entry_price p)); try lia;
      do 2 f_equal; lia.
  - replace (- pos_size p * (mark_price - pos_entry_price p))
      with (pos_size p * pos_entry_price p - pos_size p * mark_price) by lia.
    destruct (Z.leb_spec (pos_size p * mark_price) (pos_size p * pos_entry_price p)),
      (Z.leb_spec 0 (pos_size p * pos_entry_price p - pos_size p * mark_price)); try lia;
      do 2 f_equal; lia.
Qed.

(** Profit and loss is computed exactly and never overflows: for every
    position and mark price it is the absolute value and the sign of exposure
    times price move; so the two sides of the same trade have opposite results. *)
Theorem calculate_pnl_exact p q mark_price :
  Position_ok p -> Position_ok q -> is_u64 mark_price ->
  pos_size q = pos_size p -> pos_entry_price q = pos_entry_price p ->
  pos_is_long q = negb (pos_is_long p) ->
  calculate_pnl p mark_price = Ok (Z.abs (profit p mark_price), 0 <=? profit p mark_price) /\
  calculate_pnl q mark_price = Ok (Z.abs (profit p mark_price), 0 <=? - profit p mark_price).
Proof.
  intros Hp Hq Hm E1 E2 E3. rewrite !calculate_pnl_spec by done.
  assert (E : profit q mark_price = - profit p mark_price).
  { unfold profit, exposure. rewrite E1, E2, E3. destruct (pos_is_long p); simpl; lia. }
  split; [done|]. rewrite E. do 2 f_equal. lia.
Qed.

Lemma position_equity_spec p mark_price :
  Position_ok p -> is_u64 mark_price -> pos_margin p + profit p mark_price <= U128_MAX ->
  position_equity p mark_price = Ok (Z.max 0 (pos_margin p + profit p mark_price)).
Proof.
  intros Hp Hm Hf. unfold position_equity. rewrite calculate_pnl_spec by done. simpl.
  destruct Hp as (_ & _ & Hmg). unfold is_u128 in Hmg.
  destruct (Z.leb_spec 0 (profit p mark_price)).
  - rewrite Z.abs_eq by done. rewrite add_fits by done. f_equal. lia.
  - unfold saturating_sub. f_equal. lia.
Qed.

(** * Witnesses *)

Lemma increase_position_average_witness :
  increase_position demo_position 5 56000 1000 =
    Ok {| pos_size := 15; pos_entry_price := 52000; pos_is_long := true; pos_margin := 78000;
          pos_funding_index := 0 |} /\ 50000 <= 52000 <= 56000.
Proof.
  assert (E : increase_position demo_position 5 56000 1000 =
    Ok {| pos_size := 15; pos_entry_price := 52000; pos_is_long := true; pos_margin := 78000;
          pos_funding_index := 0 |}) by (vm_compute; reflexivity).
  split; [exact E|].
  destruct (increase_position_average demo_position 5 56000 1000 _
    ltac:(vm_compute; intuition congruence) ltac:(vm_compute; intuition congruence)
    ltac:(vm_compute; intuition congruence) ltac:(vm_compute; intuition congruence)
    ltac:(vm_compute; intuition congruence) E) as [H _].
  exact H.
Defined.

(** The trader is long 10, uncommitted, and sells 25, or 10. *)
Lemma update_position_exposure_witness :
  (exists p', get_position (snd (update_position 1 0 25 51000 false 1000 sm_one_position)) 1 0 =
     Ok (Some p') /\ exposure p' = -15) /\
  get_position (snd (update_position 1 0 10 51000 false 1000 sm_one_position)) 1 0 = Ok None.
Proof.
  assert (G : get_position sm_one_position 1 0 = Ok (Some demo_position)) by (vm_compute; reflexivity).
  split.
  - destruct (update_position_exposure sm_one_position 1 0 25 51000 false 1000 (Some demo_position)
      (snd (update_position 1 0 25 51000 false 1000 sm_one_position)) G) as (H & _ & _);
      [vm_compute; intuition congruence|vm_compute; intuition congruence|lia
      |intros p [= <-]; vm_compute; intuition congruence
      |apply (run_result (update_position 1 0 25 51000 false 1000) sm_one_position (Ok tt));
       vm_compute; reflexivity|].
    exact (H eq_refl).
  - destruct (update_position_exposure sm_one_position 1 0 10 51000 false 1000 (Some demo_position)
      (snd (update_position 1 0 10 51000 false 1000 sm_one_position)) G) as (_ & H & _);
      [vm_compute; intuition congruence|vm_compute; intuition congruence|lia
      |intros p [= <-]; vm_compute; intuition congruence
      |apply (run_result (update_position 1 0 10 51000 false 1000) sm_one_position (Ok tt));
       vm_compute; reflexivity|].
    apply (H eq_refl). vm_compute. reflexivity.
Defined.

Lemma calculate_pnl_exact_witness :
  calculate_pnl demo_position 49000 = Ok (10000, false).
Proof.
  exact (proj1 (calculate_pnl_exact demo_position
    {| pos_size := 10; pos_entry_price := 50000; pos_is_long := false; pos_margin := 50000;
       pos_funding_index := 0 |} 49000
    ltac:(vm_compute; intuition congruence) ltac:(vm_compute; intuition congruence)
    ltac:(vm_compute; intuition congruence) eq_refl eq_refl eq_refl)).
Defined.
