(* ===== verification/Risk.v ===== *)
(** [RiskEngine] (crates/engine/src/risk.rs): margin, leverage and reduce-only
    checks of orders, withdrawals and liquidation. *)
From stdpp Require Import base gmap sets list sorting strings.
From Stdlib Require Import ZArith Lia.
From S2P Require Import Prelude Types Storage State Tx EngineBase Position.

Inductive MarginMode := Isolated | Cross.
Record RiskEngine := { margin_mode : MarginMode }.

#[export] Instance MarginMode_eq_dec : EqDecision MarginMode.
Proof. solve_decision. Defined.

Definition RiskEngine_default : RiskEngine := {| margin_mode := Isolated |}.
Definition RiskEngine_new (m : MarginMode) : RiskEngine := {| margin_mode := m |}.
Definition set_margin_mode (m : MarginMode) (_ : RiskEngine) : RiskEngine := {| margin_mode := m |}.

Section risk.
Context {B : Backend}.

Definition calculate_cross_margin_equity (s : StateManager) (trader : Address)
    (quote_asset_id : Z) : result EngineError Z :=
  state_result (get_balance s trader quote_asset_id).

(** Always zero, see the comment in the source. *)
Definition calculate_total_locked_margin (_state : StateManager) (_trader : Address)
    (_asset_id : Z) : result EngineError Z := Ok 0.

Definition check_withdraw_allowed (s : StateManager) (trader : Address) (asset_id amount : Z)
    : result EngineError unit :=
  let* balance := state_result (get_balance s trader asset_id) in
  if balance <? amount then Err InsufficientBalance
  else
    let* locked_margin := calculate_total_locked_margin s trader asset_id in
    let available := saturating_sub balance locked_margin in
    if available <? amount then Err InsufficientMargin else Ok tt.

(** The margin that stays locked in an existing position if [order] executes. *)
Definition existing_margin (position : option Position) (order : PlaceOrderTx)
    : result EngineError Z :=
  match position with
  | None => Ok 0
  | Some position =>
      if Bool.eqb (po_is_buy order) (pos_is_long position) then Ok (pos_margin position)
      else if pos_size position =? 0 then Ok 0
      else
        let reduction_size := Z.min (po_size order) (pos_size position) in
        let* scaled := mul_or_overflow reduction_size BASIS_POINTS in
        let freed_margin_ratio := scaled / pos_size position in
        let* freed := mul_or_overflow (pos_margin position) freed_margin_ratio in
        let freed_margin := freed / BASIS_POINTS in
        Ok (saturating_sub (pos_margin position) freed_margin)
  end.

Definition order_required_margin (market : Market) (order : PlaceOrderTx)
    : result EngineError (Z * Z) :=
  let* order_value := mul_or_overflow (po_size order) (po_price order) in
  let* scaled := mul_or_overflow order_value (m_initial_margin_bps market) in
  Ok (order_value, scaled / BASIS_POINTS).

Definition check_leverage (market : Market) (order : PlaceOrderTx)
    (order_value required_margin : Z) : result EngineError unit :=
  if negb (po_reduce_only order) && (0 <? po_price order) then
    let leverage :=
      if 0 <? required_margin then order_value / required_margin else U128_MAX in
    if m_max_leverage market <? leverage then Err LeverageTooHigh else Ok tt
  else Ok tt.

Definition check_reduce_only (position : option Position) (order : PlaceOrderTx)
    : result EngineError unit :=
  if po_reduce_only order then
    match position with
    | Some position =>
        if Bool.eqb (po_is_buy order) (pos_is_long position) then Err ReduceOnlyWouldIncrease
        else if pos_size position <? po_size order then Err ReduceOnlyWouldIncrease
        else Ok tt
    | None => Err ReduceOnlyWouldIncrease
    end
  else Ok tt.

Definition check_order_allowed (s : StateManager) (trader : Address) (order : PlaceOrderTx)
    : result EngineError unit :=
  let* found := state_result (get_market s (po_market_id order)) in
  let* market := ok_or MarketNotFound found in
  let* (order_value, required_margin) := order_required_margin market order in
  let* balance := state_result (get_balance s trader (m_quote_asset_id market)) in
  let* position := state_result (get_position s trader (po_market_id order)) in
  let* locked := existing_margin position order in
  let available_margin := saturating_sub balance locked in
  if available_margin <? required_margin then Err InsufficientMargin
  else
    let* _ := check_leverage market order order_value required_margin in
    let* position := state_result (get_position s trader (po_market_id order)) in
    check_reduce_only position order.

Definition check_liquidation (s : StateManager) (trader : Address) (market_id mark_price : Z)
    : result EngineError bool :=
  let* found := state_result (get_position s trader market_id) in
  match found with
  | None => Ok false
  | Some position =>
      if pos_size position =? 0 then Ok false
      else
        let* found := state_result (get_market s market_id) in
        let* market_info := ok_or MarketNotFound found in
        let* position_value := mul_or_overflow (pos_size position) mark_price in
        let* scaled := mul_or_overflow position_value (m_maintenance_margin_bps market_info) in
        let required_margin := scaled / BASIS_POINTS in
        let* equity := position_equity position mark_price in
        Ok (equity <? required_margin)
  end.

Definition risk_calculate_margin_ratio (position_margin position_size mark_price : Z)
    : result EngineError Z :=
  if position_size =? 0 then Ok 0
  else
    let* position_value := mul_or_overflow position_size mark_price in
    if position_value =? 0 then Ok 0
    else
      let* scaled := mul_or_overflow position_margin BASIS_POINTS in
      Ok (try_u32_or_max (scaled / position_value)).

End risk.

(** * Properties *)

Section facts.
Context {B : Backend} {Bok : BackendOk B}.

Definition PlaceOrder_ok (o : PlaceOrderTx) : Prop := is_u64 (po_size o) /\ is_u64 (po_price o).

(** The margin an order needs, and what stays locked beside it. *)
Definition needed_margin (market : Market) (o : PlaceOrderTx) : Z :=
  po_size o * po_price o * m_initial_margin_bps market / 10000.
Definition locked_beside (position : option Position) (o : PlaceOrderTx) : Z :=
  match position with
  | None => 0
  | Some p =>
      if Bool.eqb (po_is_buy o) (pos_is_long p) then pos_margin p
      else if pos_size p =? 0 then 0
      else pos_margin p -
           pos_margin p * (Z.min (po_size o) (pos_size p) * 10000 / pos_size p) / 10000
  end.
Definition leverage_ok (market : Market) (o : PlaceOrderTx) : Prop :=
  po_reduce_only o = false -> 0 < po_price o ->
  0 < needed_margin market o /\ po_size o * po_price o / needed_margin market o <= m_max_leverage market.
Definition reduce_only_ok (position : option Position) (o : PlaceOrderTx) : Prop :=
  po_reduce_only o = true ->
  exists p, position = Some p /\ po_is_buy o = negb (pos_is_long p) /\ po_size o <= pos_size p.

Lemma existing_margin_spec position o m :
  (forall p, position = Some p -> Position_ok p) -> is_u64 (po_size o) ->
  existing_margin position o = Ok m -> m = locked_beside position o /\ 0 <= m.
Proof.
  intros Hp Ho H. unfold existing_margin in H. destruct position as [p|]; simpl.
  - destruct (Hp p eq_refl) as (Hs & _ & Hm). unfold is_u64, is_u128 in *.
    destruct (Bool.eqb _ _); [inv_checked; lia|].
    destruct (Z.eqb_spec (pos_size p) 0); [inv_checked; lia|]. inv_checked.
    unfold BASIS_POINTS, saturating_sub in *.
    set (r := Z.min (po_size o) (pos_size p) * 10000 / pos_size p) in *.
    assert (Hr : 0 <= r <= 10000).
    { split; [apply Z.div_pos; lia|]. apply Z.div_le_upper_bound; lia. }
    assert (pos_margin p * r / 10000 <= pos_margin p) by (apply Z.div_le_upper_bound; nia).
    split; lia.
  - by inv_checked.
Qed.

Lemma check_leverage_spec market o value req :
  Market_ok market -> 0 <= req ->
  check_leverage market o value req = Ok tt <->
  (po_reduce_only o = false -> 0 < po_price o -> 0 < req /\ value / req <= m_max_leverage market).
Proof.
  intros (_ & _ & _ & Hl & _) Hr. unfold check_leverage, is_u32, U32_MAX, U128_MAX in *.
  destruct (po_reduce_only o); simpl; [by split|].
  destruct (Z.ltb_spec 0 (po_price o)); [|by split; [lia|]].
  destruct (Z.ltb_spec 0 req).
  - destruct (Z.ltb_spec (m_max_leverage market) (value / req)); split; intros Hx; try done.
    destruct Hx; [done|done|lia].
  - destruct (Z.ltb_spec (m_max_leverage market) (2 ^ 128 - 1)); [|lia].
    split; intros Hx; [done|]. destruct Hx; [done|done|lia].
Qed.

Lemma check_reduce_only_spec position o :
  check_reduce_only position o = Ok tt <-> reduce_only_ok position o.
Proof.
  unfold check_reduce_only, reduce_only_ok. destruct (po_reduce_only o); [|by split].
  destruct position as [p|].
  2:{ split; [done|]. intros H. by destruct (H eq_refl) as (? & ? & _). }
  destruct (Bool.eqb (po_is_buy o) (pos_is_long p)) eqn:E.
  - split; [done|]. intros H. destruct (H eq_refl) as (? & [= <-] & Hb & _).
    rewrite Hb in E. by destruct (pos_is_long p).
  - assert (Hb : po_is_buy o = negb (pos_is_long p)) by (by destruct (po_is_buy o), (pos_is_long p)).
    destruct (Z.ltb_spec (pos_size p) (po_size o)).
    + split; [done|]. intros H'. destruct (H' eq_refl) as (? & [= <-] & _ & ?). lia.
    + split; [|done]. intros _ _. by exists p.
Qed.

(** The products of the check fit 128 bits: that of the order's value and the
    margin rate, and, for an order against the position, that of the position's
    margin and the ratio freed. *)
Definition margins_fit (market : Market) (position : option Position) (o : PlaceOrderTx) : Prop :=
  po_size o * po_price o * m_initial_margin_bps market <= U128_MAX /\
  (forall p, position = Some p -> po_is_buy o = negb (pos_is_long p) -> pos_size p <> 0 ->
     pos_margin p * (Z.min (po_size o) (pos_size p) * 10000 / pos_size p) <= U128_MAX).

Lemma existing_margin_fits market position o :
  (forall p, position = Some p -> Position_ok p) -> is_u64 (po_size o) ->
  po_size o * po_price o * m_initial_margin_bps market <= U128_MAX ->
  (exists m, existing_margin position o = Ok m) <-> margins_fit market position o.
Proof.
  intros Hp Ho Hv. unfold margins_fit, existing_margin. destruct position as [p|].
  2:{ split; [|by eauto]. intros _. by split. }
  destruct (Hp p eq_refl) as (Hs & _ & _). unfold is_u64 in *.
  destruct (Bool.eqb (po_is_buy o) (pos_is_long p)) eqn:E.
  { apply eqb_prop in E. split; [|by eauto]. intros _. split; [done|].
    intros q [= <-] Hb. rewrite E in Hb. by destruct (pos_is_long p). }
  assert (Hb : po_is_buy o = negb (pos_is_long p)) by (by destruct (po_is_buy o), (pos_is_long p)).
  destruct (Z.eqb_spec (pos_size p) 0) as [Hz|Hz].
  { split; [|by eauto]. intros _. split; [done|]. by intros q [= <-]. }
  rewrite mul_fits by (unfold U64_MAX, U128_MAX, BASIS_POINTS in *; lia). simpl.
  change BASIS_POINTS with 10000 in *. split.
  - intros [m H]. split; [done|]. intros q [= <-] _ _. inv_checked. done.
  - intros [_ H]. rewrite mul_fits by (by apply H). simpl. eauto.
Qed.

(** C25: exactly when the risk check accepts an order of 64-bit size and price,
    whenever the stored market and position have their types: the market exists
    and the trader's balance and position can be read; the products of the check
    fit 128 bits; the free balance (balance less the margin that stays locked in
    the trader's position) covers the order's initial margin; the leverage is
    within the market's limit unless the order is reduce-only or a market order;
    and a reduce-only order opposes a position at least as large. *)
Theorem check_order_allowed_exact s trader o :
  PlaceOrder_ok o ->
  (forall market, get_market s (po_market_id o) = Ok (Some market) -> Market_ok market) ->
  (forall p, get_position s trader (po_market_id o) = Ok (Some p) -> Position_ok p) ->
  check_order_allowed s trader o = Ok tt <->
  exists market balance position,
    get_market s (po_market_id o) = Ok (Some market) /\
    get_balance s trader (m_quote_asset_id market) = Ok balance /\
    get_position s trader (po_market_id o) = Ok position /\
    margins_fit market position o /\
    needed_margin market o <= Z.max 0 (balance - locked_beside position o) /\
    leverage_ok market o /\ reduce_only_ok position o.
Proof.
  intros [Hsz Hpr] Hmk Hp. unfold check_order_allowed.
  destruct (get_market s (po_market_id o)) as [[market|]|] eqn:Hm; simpl.
  2, 3: by split; [|intros (? & ? & ? & ? & _)].
  specialize (Hmk market eq_refl).
  pose proof (mul_u64_u128 _ _ Hsz Hpr) as Hv.
  assert (Hneed : 0 <= needed_margin market o).
  { unfold needed_margin. destruct Hmk as (_ & _ & _ & _ & _ & Hi & _).
    unfold is_u32 in Hi. apply Z.div_pos; [|lia]. nia. }
  unfold order_required_margin. rewrite mul_u64_fits by done. simpl.
  destruct (mul_or_overflow (po_size o * po_price o) (m_initial_margin_bps market)) as [sc|e] eqn:Es; simpl.
  2:{ split; [done|]. intros (mk & b & q & [= <-] & _ & _ & [Hf _] & _).
      by rewrite mul_fits in Es. }
  apply mul_or_overflow_Ok in Es as [-> Hfit]. change BASIS_POINTS with 10000.
  fold (needed_margin market o).
  destruct (get_balance s trader _) as [balance|] eqn:Hbal; simpl.
  2:{ split; [done|]. intros (? & ? & ? & [= <-] & ? & _). congruence. }
  destruct (get_position s trader (po_market_id o)) as [position|] eqn:Hpos; simpl.
  2:{ by split; [|intros (? & ? & ? & ? & ? & ? & _)]. }
  assert (Hp' : forall p, position = Some p -> Position_ok p) by (intros p ->; by apply Hp).
  pose proof (existing_margin_fits market position o Hp' Hsz Hfit) as Hex.
  destruct (existing_margin position o) as [locked|] eqn:El; simpl.
  2:{ split; [done|]. intros (mk & b & q & [= <-] & _ & [= <-] & Hf & _).
      by apply Hex in Hf as [? ?]. }
  destruct (existing_margin_spec _ _ _ Hp' Hsz El) as [-> _]. unfold saturating_sub.
  pose proof (proj1 Hex (ex_intro _ _ eq_refl)) as Hfits.
  pose proof (check_leverage_spec market o (po_size o * po_price o) _ Hmk Hneed) as Hlev.
  pose proof (check_reduce_only_spec position o) as Hred.
  destruct (Z.ltb_spec (Z.max 0 (balance - locked_beside position o)) (needed_margin market o)).
  { split; [done|]. intros (mk & b & q & [= <-] & Hb & [= <-] & _ & ? & _).
    rewrite Hbal in Hb. injection Hb as <-. lia. }
  split.
  - intros Hc. apply result_bind_Ok in Hc as ([] & Hl & Hr).
    exists market, balance, position. split_and!; try done; [exact (proj1 Hlev Hl)|by apply Hred].
  - intros (mk & b & q & [= <-] & _ & [= <-] & _ & _ & Hl & Hr).
    rewrite (proj2 Hlev Hl). simpl. by apply Hred.
Qed.

(** The withdrawal check is a plain balance check: the locked margin
    it subtracts is always zero. *)
Theorem check_withdraw_is_balance_check s trader asset amount balance :
  get_balance s trader asset = Ok balance -> 0 <= balance ->
  check_withdraw_allowed s trader asset amount =
  if balance <? amount then Err InsufficientBalance else Ok tt.
Proof.
  intros H Hb. unfold check_withdraw_allowed. rewrite H. simpl.
  destruct (Z.ltb_spec balance amount); [done|]. unfold saturating_sub.
  by destruct (Z.ltb_spec (Z.max 0 (balance - 0)) amount); [lia|].
Qed.

(** A market order (price 0) needs no margin at all: without a
    position, any trader passes the risk check for any size, with any balance. *)
Theorem market_order_unmargined s trader o market balance :
  po_price o = 0 -> po_reduce_only o = false ->
  get_market s (po_market_id o) = Ok (Some market) ->
  get_balance s trader (m_quote_asset_id market) = Ok balance ->
  get_position s trader (po_market_id o) = Ok None ->
  check_order_allowed s trader o = Ok tt.
Proof.
  intros Hp Hr Hm Hb Hpos. unfold check_order_allowed. rewrite Hm. simpl.
  unfold order_required_margin, mul_or_overflow, checked_mul_u128. rewrite Hp, Z.mul_0_r. simpl.
  rewrite Hb, Hpos. simpl. unfold saturating_sub, check_leverage, check_reduce_only.
  rewrite Hr, Hp, Z.mul_0_l. simpl.
  destruct (Z.ltb_spec (Z.max 0 (balance - 0)) (0 / BASIS_POINTS)) as [Hlt|]; [|done].
  rewrite Z.div_0_l in Hlt by done. lia.
Qed.

(** The equity test of [check_liquidation], before the rounding of the
    requirement. *)
Lemma check_liquidation_spec s trader m mark p market :
  Position_ok p -> Market_ok market -> is_u64 mark -> 0 < pos_size p ->
  pos_margin p + profit p mark <= U128_MAX ->
  pos_size p * mark * m_maintenance_margin_bps market <= U128_MAX ->
  get_position s trader m = Ok (Some p) -> get_market s m = Ok (Some market) ->
  check_liquidation s trader m mark =
  Ok (Z.max 0 (pos_margin p + profit p mark) <?
      pos_size p * mark * m_maintenance_margin_bps market / 10000).
Proof.
  intros Hp Hm Hmark Hs Hf1 Hf2 Gp Gm. unfold check_liquidation. rewrite Gp. simpl.
  destruct (Z.eqb_spec (pos_size p) 0); [lia|]. rewrite Gm. simpl.
  pose proof Hp as (Hps & _).
  rewrite mul_u64_fits by done. simpl. rewrite mul_fits by done. simpl.
  by rewrite position_equity_spec.
Qed.

End facts.

(** * Witnesses *)

Definition demo_order : PlaceOrderTx := {|
  po_market_id := 0; po_is_buy := true; po_order_type := OT_Limit; po_price := 50000;
  po_size := 10; po_time_in_force := GTC; po_reduce_only := false; po_post_only := false |}.

(** Market 0 is [btc_perp], trader 1 has a balance of 60000. *)
Definition sm_market : StateManager :=
  snd (set_balance 1 0 60000 (snd (set_market 0 btc_perp sm_demo))).

Lemma check_order_allowed_exact_witness :
  check_order_allowed sm_market 1 demo_order = Ok tt /\ needed_margin btc_perp demo_order <= 60000.
Proof.
  assert (E : check_order_allowed sm_market 1 demo_order = Ok tt) by (vm_compute; reflexivity).
  split; [exact E|].
  assert (Gm : get_market sm_market 0 = Ok (Some btc_perp)) by (vm_compute; reflexivity).
  assert (Gp : get_position sm_market 1 0 = Ok None) by (vm_compute; reflexivity).
  assert (Gb : get_balance sm_market 1 0 = Ok 60000) by (vm_compute; reflexivity).
  destruct (proj1 (check_order_allowed_exact sm_market 1 demo_order
      ltac:(vm_compute; intuition congruence)
      ltac:(intros m Hm; simpl in Hm; rewrite Gm in Hm; injection Hm as <-; vm_compute; intuition congruence)
      ltac:(intros p Hp; simpl in Hp; rewrite Gp in Hp; discriminate Hp)) E)
    as (market & balance & position & Hm & Hb & Hpos & _ & H & _).
  simpl in Hm, Hb, Hpos. rewrite Gm in Hm. injection Hm as <-.
  change (m_quote_asset_id btc_perp) with 0 in Hb. rewrite Gb in Hb. injection Hb as <-.
  rewrite Gp in Hpos. injection Hpos as <-. simpl in H. lia.
Defined.

Lemma check_withdraw_is_balance_check_witness :
  check_withdraw_allowed sm_market 1 0 60001 = Err InsufficientBalance.
Proof.
  exact (check_withdraw_is_balance_check sm_market 1 0 60001 60000
    ltac:(vm_compute; reflexivity) ltac:(lia)).
Defined.

(** Trader 3 has no money and buys a billion units at the market. *)
Lemma market_order_unmargined_witness :
  check_order_allowed sm_market 3
    {| po_market_id := 0; po_is_buy := true; po_order_type := OT_Market; po_price := 0;
       po_size := 1000000000; po_time_in_force := IOC; po_reduce_only := false;
       po_post_only := false |} = Ok tt.
Proof.
  apply (market_order_unmargined sm_market 3 _ btc_perp 0); vm_compute; reflexivity.
Defined.
