(* ===== verification/Funding.v ===== *)
(** [FundingRateCalculator] (crates/engine/src/funding.rs). *)
From stdpp Require Import base gmap sets list sorting strings.
From Stdlib Require Import ZArith Lia.
From S2P Require Import Prelude Types Storage State EngineBase Position.

Record FundingRateCalculator := { max_funding_rate_bps : Z (* u32 *) }.
Definition FundingRateCalculator_default : FundingRateCalculator :=
  {| max_funding_rate_bps := DEFAULT_MAX_FUNDING_RATE_BPS |}.

(** [((diff as u128) * BASIS_POINTS / (oracle_price as u128)) as u64] and its sign. *)
Definition funding_premium (mark_price oracle_price : Z) : Z * bool :=
  if oracle_price <=? mark_price then
    (as_u64 (wmul128 (mark_price - oracle_price) BASIS_POINTS / oracle_price), true)
  else
    (as_u64 (wmul128 (oracle_price - mark_price) BASIS_POINTS / oracle_price), false).

Definition calculate_funding_rate (self : FundingRateCalculator)
    (mark_price oracle_price time_elapsed funding_interval : Z) : result EngineError Z :=
  if oracle_price =? 0 then Ok 0
  else
    let '(premium, is_positive) := funding_premium mark_price oracle_price in
    let clamped_premium := Z.min premium (max_funding_rate_bps self) in
    let* funding_rate :=
      if 0 <? funding_interval then
        let* scaled := ok_or Overflow (checked_mul_u64 clamped_premium time_elapsed) in
        ok_or DivisionByZero (checked_div scaled funding_interval)
      else Ok clamped_premium in
    if is_positive : bool then Ok (as_i64 funding_rate) else Ok (as_i64 (- as_i64 funding_rate)).

Section update.
Context {B : Backend}.

Definition update_funding_rate (self : FundingRateCalculator)
    (market_id mark_price oracle_price timestamp : Z) : ST StateManager EngineError unit :=
  let! current := st_read (fun s => state_result (get_funding_rate s market_id)) in
  let time_elapsed :=
    if 0 <? fr_last_update current then saturating_sub timestamp (fr_last_update current) else 0 in
  let! found := st_read (fun s => state_result (get_market s market_id)) in
  let! market_info := st_lift (ok_or MarketNotFound found) in
  let! funding_rate := st_lift (calculate_funding_rate self mark_price oracle_price time_elapsed
    (m_funding_interval market_info)) in
  let! new_index := st_lift (ok_or Overflow (checked_add_i128 (fr_index current) funding_rate)) in
  lift_state (set_funding_rate market_id
    {| fr_rate := funding_rate; fr_last_update := timestamp; fr_index := new_index;
       fr_mark_price := mark_price; fr_oracle_price := oracle_price |}).

End update.

(** Returns the amount and whether the trader pays; the division of an [i128]
    truncates towards zero. *)
Definition calculate_funding_payment (position_size : Z) (is_long : bool)
    (entry_funding_index current_funding_index : Z) : result EngineError (Z * bool) :=
  let funding_diff := as_i128 (current_funding_index - entry_funding_index) in
  if funding_diff =? 0 then Ok (0, true)
  else
    let* scaled := ok_or Overflow (checked_mul_i128 position_size funding_diff) in
    let payment_i128 := Z.quot scaled BASIS_POINTS in
    Ok (if 0 <? payment_i128 then (payment_i128, is_long)
        else (as_u128 (- payment_i128), negb is_long)).

(** * Properties *)

Definition funding_sign (mark_price oracle_price : Z) : Z :=
  if oracle_price <=? mark_price then 1 else -1.

Lemma funding_premium_range m o : 0 <= fst (funding_premium m o).
Proof. unfold funding_premium. destruct (_ <=? _); simpl; apply as_u64_range. Qed.

(** The funding rate has the sign of the premium, and over at most one
    interval its magnitude never exceeds the configured cap; when the premium
    fits 64 bits it is the clamped premium scaled by the elapsed time. *)
Theorem calculate_funding_rate_bounded self mark oracle elapsed interval rate :
  is_u32 (max_funding_rate_bps self) -> is_u64 mark -> is_u64 oracle ->
  0 <= elapsed <= interval -> 0 < interval -> 0 < oracle ->
  calculate_funding_rate self mark oracle elapsed interval = Ok rate ->
  0 <= funding_sign mark oracle * rate <= max_funding_rate_bps self /\
  (Z.abs (mark - oracle) * 10000 / oracle <= U64_MAX ->
   rate = funding_sign mark oracle *
     (Z.min (Z.abs (mark - oracle) * 10000 / oracle) (max_funding_rate_bps self) * elapsed / interval)).
Proof.
  intros Hmax Hm Ho He Hi Hop H. unfold calculate_funding_rate in H.
  destruct (Z.eqb_spec oracle 0); [lia|].
  destruct (funding_premium mark oracle) as [prem pos] eqn:Ep.
  assert (Hprem : 0 <= prem) by (pose proof (funding_premium_range mark oracle); by rewrite Ep in *).
  destruct (Z.ltb_spec 0 interval); [|lia].
  apply result_bind_Ok in H as (r & Hr & H). inv_ok. simplify_checked.
  match goal with H : checked_div _ _ = Some _ |- _ => apply checked_div_Some in H as [-> _]
    | _ => idtac end.
  unfold is_u32, is_u64, U32_MAX, U64_MAX in *.
  set (c := Z.min prem (max_funding_rate_bps self)) in *.
  assert (Hc : 0 <= c <= max_funding_rate_bps self) by lia.
  assert (Hq : 0 <= c * elapsed / interval <= c).
  { split; [apply Z.div_pos; nia|]. apply Z.div_le_upper_bound; [lia|]. nia. }
  set (q := c * elapsed / interval) in *.
  assert (Hq1 : as_i64 q = q) by (apply as_i64_id; unfold I64_MAX; lia).
  assert (Hq2 : as_i64 (- q) = - q) by (apply as_i64_id; unfold I64_MAX; lia).
  unfold funding_premium, wmul128 in Ep. unfold funding_sign.
  destruct (Z.leb_spec oracle mark); injection Ep as <- <-; cbv iota in H;
    rewrite ?Hq1, ?Hq2 in H; injection H as <-;
    (split; [lia|]); intros Hf; unfold q, c, BASIS_POINTS in *.
  - rewrite as_u128_id in * by (unfold is_u128, U128_MAX; lia).
    rewrite Z.abs_eq in * by lia. rewrite as_u64_id in * by
      (unfold is_u64, U64_MAX; split; [apply Z.div_pos; lia|lia]).
    lia.
  - rewrite as_u128_id in * by (unfold is_u128, U128_MAX; lia).
    rewrite Z.abs_neq in * by lia.
    replace (- (mark - oracle)) with (oracle - mark) in * by lia.
    rewrite as_u64_id in * by (unfold is_u64, U64_MAX; split; [apply Z.div_pos; lia|lia]).
    lia.
Qed.

(** Funding is a zero-sum transfer: for the same size and the same
    indices a long and a short exchange the same amount in opposite directions,
    the amount is |size * index change| / 10000 rounded down, and a long pays
    exactly when that amount is positive and the index rose. *)
Theorem funding_payment_zero_sum size entry current amount pays :
  is_u64 size -> is_i128 (current - entry) -> current <> entry ->
  calculate_funding_payment size true entry current = Ok (amount, pays) ->
  calculate_funding_payment size false entry current = Ok (amount, negb pays) /\
  amount = size * Z.abs (current - entry) / 10000 /\
  (pays = true <-> 0 < amount /\ entry < current).
Proof.
  intros Hs Hd Hne H. unfold calculate_funding_payment in *. rewrite as_i128_id in * by done.
  destruct (Z.eqb_spec (current - entry) 0); [lia|].
  apply result_bind_Ok in H as (sc & Hsc & H). rewrite Hsc. simpl.
  apply ok_or_Ok in Hsc. unfold checked_mul_i128 in Hsc.
  destruct (_ && _) eqn:Hr; [|done]. injection Hsc as <-.
  apply andb_true_iff in Hr as [?%Z.leb_le ?%Z.leb_le].
  unfold is_u64, is_i128, I128_MIN, I128_MAX, BASIS_POINTS in *.
  set (d := current - entry) in *.
  assert (Hq : Z.quot (size * d) 10000 = Z.sgn d * (size * Z.abs d / 10000)).
  { destruct (Z.lt_trichotomy d 0) as [Hd0|[Hd0|Hd0]]; [|lia|].
    - rewrite Z.sgn_neg, Z.abs_neq by lia. replace (size * d) with (- (size * - d)) by lia.
      rewrite Z.quot_opp_l, Z.quot_div_nonneg by nia. lia.
    - rewrite Z.sgn_pos, Z.abs_eq by lia. rewrite Z.quot_div_nonneg by nia. lia. }
  rewrite Hq in *. set (a := size * Z.abs d / 10000) in *.
  assert (Ha : 0 <= a <= 2 ^ 127).
  { split; [apply Z.div_pos; nia|]. apply Z.div_le_upper_bound; [lia|].
    destruct (Z.abs_spec d); nia. }
  destruct (Z.ltb_spec 0 (Z.sgn d * a)) as [Hp|Hp]; injection H as <- <-.
  - assert (0 < d /\ 0 < a) as [Hd0 Ha0] by (destruct (Z.sgn_spec d) as [[? E]|[[? E]|[? E]]]; rewrite E in Hp; lia).
    rewrite Z.sgn_pos by done. rewrite Z.mul_1_l. split_and!; [done|done|].
    split; [intros _; lia|done].
  - assert (Hv : as_u128 (- (Z.sgn d * a)) = a).
    { destruct (Z.sgn_spec d) as [[? E]|[[? E]|[? E]]]; rewrite E in *; try lia.
      - assert (a = 0) as -> by lia. reflexivity.
      - rewrite as_u128_id; [lia|]. unfold is_u128, U128_MAX. lia. }
    rewrite Hv. split_and!; [done|done|]. simpl. split; [done|]. intros [Hpos Hup].
    assert (0 < d) as Hd0 by (unfold d; lia). rewrite Z.sgn_pos in Hp by done. lia.
Qed.

(** The premium is truncated to 64 bits before it is clamped: a price 2^60 above
    an oracle price of 1 yields a funding rate of 0 instead of the cap. *)
Theorem funding_premium_truncated :
  calculate_funding_rate FundingRateCalculator_default (2 ^ 60 + 1) 1 3600 3600 = Ok 0.
Proof. reflexivity. Qed.

Section update_facts.
Context {B : Backend} {Bok : BackendOk B}.
Implicit Types s : StateManager.

(** C37: a successful update accumulates the rate into the index without
    overflow, stamps the time and writes nothing but the market's funding
    rate; a failed update writes nothing. *)
Theorem update_funding_rate_accumulates self s m mark oracle ts r s' current :
  get_funding_rate s m = Ok current ->
  update_funding_rate self m mark oracle ts s = (r, s') ->
  frame (eq (SK_FundingRate m)) s s' /\
  match r with
  | Err _ => s' = s
  | Ok _ => exists new, get_funding_rate s' m = Ok new /\ fr_index new = fr_index current + fr_rate new /\
      I128_MIN <= fr_index new <= I128_MAX /\ fr_last_update new = ts /\
      fr_mark_price new = mark /\ fr_oracle_price new = oracle
  end.
Proof.
  intros Hc H. split.
  { eapply (frames_run_id _ (update_funding_rate self m mark oracle ts)); [|exact H].
    unfold update_funding_rate. repeat frames_step. apply frames_lift_state. auto with frames. }
  unfold update_funding_rate in H.
  erewrite st_read_bind in H by (unfold state_result; rewrite Hc; reflexivity).
  set (el := if 0 <? fr_last_update current then _ else _) in H.
  unfold st_bind at 1, st_read in H.
  destruct (state_result (get_market s m)) as [fd|]; [|by simplify_eq].
  unfold st_bind at 1, st_lift in H. destruct (ok_or MarketNotFound fd) as [mk|]; [|by simplify_eq].
  unfold st_bind at 1 in H.
  destruct (calculate_funding_rate self mark oracle el (m_funding_interval mk)) as [rate|];
    [|by simplify_eq].
  unfold st_bind at 1 in H.
  destruct (checked_add_i128 (fr_index current) rate) as [idx|] eqn:Ei; [|simpl in H; by simplify_eq].
  simpl in H. unfold checked_add_i128 in Ei.
  destruct (_ && _) eqn:Hr; [|done]. injection Ei as <-.
  apply andb_true_iff in Hr as [?%Z.leb_le ?%Z.leb_le].
  match type of H with lift_state (set_funding_rate _ ?v) _ = _ => set (new := v) in H end.
  destruct (set_succeeds serde_funding (SK_FundingRate m) new s) as [s1 R].
  unfold lift_state, st_map_err, set_funding_rate in H. rewrite R in H. simpl in H.
  injection H as <- <-. exists new. split_and!; try done.
  unfold get_funding_rate, get_or_default. by rewrite (set_read_back _ _ _ _ _ _ R).
Qed.

End update_facts.

(** * Witnesses *)

Lemma calculate_funding_rate_bounded_witness :
  calculate_funding_rate FundingRateCalculator_default 49000 50000 1800 3600 = Ok (-100) /\
  0 <= funding_sign 49000 50000 * -100 <= 1000.
Proof.
  assert (E : calculate_funding_rate FundingRateCalculator_default 49000 50000 1800 3600 = Ok (-100))
    by (vm_compute; reflexivity).
  split; [exact E|].
  destruct (calculate_funding_rate_bounded FundingRateCalculator_default 49000 50000 1800 3600 (-100))
    as [H _]; [vm_compute; intuition congruence|vm_compute; intuition congruence
    |vm_compute; intuition congruence|lia|lia|lia|exact E|exact H].
Defined.

Lemma funding_payment_zero_sum_witness :
  calculate_funding_payment 100 true 1000 1600 = Ok (6, true) /\
  calculate_funding_payment 100 false 1000 1600 = Ok (6, false).
Proof.
  assert (E : calculate_funding_payment 100 true 1000 1600 = Ok (6, true)) by (vm_compute; reflexivity).
  split; [exact E|].
  destruct (funding_payment_zero_sum 100 1000 1600 6 true) as [H _];
    [vm_compute; intuition congruence|vm_compute; intuition congruence|lia|exact E|exact H].
Defined.

Definition sm_funded : StateManager := snd (set_market 0 btc_perp sm_demo).

Lemma update_funding_rate_accumulates_witness :
  exists new, get_funding_rate
    (snd (update_funding_rate FundingRateCalculator_default 0 50500 50000 7200
       (snd (update_funding_rate FundingRateCalculator_default 0 50500 50000 3600 sm_funded)))) 0
    = Ok new /\ fr_index new = 100.
Proof.
  pose (s1 := snd (update_funding_rate FundingRateCalculator_default 0 50500 50000 3600 sm_funded)).
  assert (G : get_funding_rate s1 0 =
    Ok {| fr_rate := 0; fr_last_update := 3600; fr_index := 0; fr_mark_price := 50500;
          fr_oracle_price := 50000 |}) by (vm_compute; reflexivity).
  pose (t := update_funding_rate FundingRateCalculator_default 0 50500 50000 7200 s1).
  assert (F : fst t = Ok tt) by (vm_compute; reflexivity).
  destruct (update_funding_rate_accumulates FundingRateCalculator_default s1 0 50500 50000 7200
    (Ok tt) (snd t) _ G) as [_ H].
  { apply (run_result (update_funding_rate FundingRateCalculator_default 0 50500 50000 7200) s1).
    exact F. }
  destruct H as (new & Hn & Hi & _). exists new. split; [exact Hn|].
  rewrite Hi. assert (G2 : get_funding_rate (snd t) 0 =
    Ok {| fr_rate := 100; fr_last_update := 7200; fr_index := 100; fr_mark_price := 50500;
          fr_oracle_price := 50000 |}) by (vm_compute; reflexivity).
  rewrite G2 in Hn. injection Hn as <-. reflexivity.
Defined.
