(* ===== verification/Liquidation.v ===== *)
(** [LiquidationEngine] (crates/engine/src/liquidation.rs): the risk index,
    partial and full liquidation with fees and insurance fund, and
    auto-deleveraging. *)
From stdpp Require Import base gmap sets list sorting strings.
From Stdlib Require Import ZArith Lia.
From S2P Require Import Prelude Types Storage State Tx EngineBase Orderbook Matching Position Risk.

(** * Data *)

Record PositionRisk := {
  pr_trader : Address;
  pr_market_id : Z;
  pr_margin_ratio : Z;
  pr_position_value : Z;
  pr_equity : Z;
}.

(** The order of the risk heap: the smaller the ratio, the greater.  It looks at
    nothing else, while the derived equality compares every field. *)
Definition risk_cmp (self other : PositionRisk) : comparison :=
  pr_margin_ratio other ?= pr_margin_ratio self.
Definition risk_partial_cmp (self other : PositionRisk) : option comparison :=
  Some (risk_cmp self other).

Lemma risk_cmp_not_equality : exists p q, risk_cmp p q = Eq /\ p <> q.
Proof.
  exists {| pr_trader := 1; pr_market_id := 0; pr_margin_ratio := 500; pr_position_value := 1; pr_equity := 1 |},
         {| pr_trader := 2; pr_market_id := 0; pr_margin_ratio := 500; pr_position_value := 1; pr_equity := 1 |}.
  done.
Qed.

Record LiquidationResult := {
  lr_trader : Address;
  lr_market_id : Z;
  lr_liquidated_size : Z;
  lr_liquidation_price : Z;
  lr_liquidation_fee : Z;
  lr_remaining_equity : Z;
  lr_liquidator : option Address;
  lr_liquidator_reward : Z;
  lr_insurance_fund_contribution : Z;
  lr_insurance_fund_usage : Z;
}.

Record InsuranceFund := {
  if_balance : Z;
  if_total_contributions : Z;
  if_total_payouts : Z;
}.
Definition InsuranceFund_default : InsuranceFund :=
  {| if_balance := 0; if_total_contributions := 0; if_total_payouts := 0 |}.

Record AdlCandidate := {
  ac_trader : Address;
  ac_market_id : Z;
  ac_position_size : Z;
  ac_unrealized_pnl : Z;
  ac_is_profit : bool;
  ac_profit_score : Z;
}.

#[export] Instance LiquidationResult_eq_dec : EqDecision LiquidationResult.
Proof. solve_decision. Defined.
#[export] Instance InsuranceFund_eq_dec : EqDecision InsuranceFund.
Proof. solve_decision. Defined.

(** A [BinaryHeap] is the list of what was pushed; the code only pushes and
    iterates, and iteration is in an arbitrary order. *)
Record LiquidationEngine := {
  le_at_risk_positions : gmap Z (list PositionRisk);
  le_insurance_funds : gmap Z InsuranceFund;
  le_fee_split : Z * Z;
  le_min_insurance_ratio : Z;
  le_enable_partial_liquidations : bool;
  le_adl_enabled : bool;
}.

Definition LiquidationEngine_default : LiquidationEngine := {|
  le_at_risk_positions := ∅; le_insurance_funds := ∅;
  le_fee_split := (DEFAULT_LIQUIDATOR_FEE_BPS, DEFAULT_INSURANCE_FEE_BPS);
  le_min_insurance_ratio := DEFAULT_MIN_INSURANCE_RATIO_BPS;
  le_enable_partial_liquidations := true; le_adl_enabled := true |}.

Definition with_at_risk (r : gmap Z (list PositionRisk)) (e : LiquidationEngine)
    : LiquidationEngine := {|
  le_at_risk_positions := r; le_insurance_funds := le_insurance_funds e;
  le_fee_split := le_fee_split e; le_min_insurance_ratio := le_min_insurance_ratio e;
  le_enable_partial_liquidations := le_enable_partial_liquidations e;
  le_adl_enabled := le_adl_enabled e |}.
Definition with_funds (f : gmap Z InsuranceFund) (e : LiquidationEngine) : LiquidationEngine := {|
  le_at_risk_positions := le_at_risk_positions e; le_insurance_funds := f;
  le_fee_split := le_fee_split e; le_min_insurance_ratio := le_min_insurance_ratio e;
  le_enable_partial_liquidations := le_enable_partial_liquidations e;
  le_adl_enabled := le_adl_enabled e |}.
Definition with_fee_split (f : Z * Z) (e : LiquidationEngine) : LiquidationEngine := {|
  le_at_risk_positions := le_at_risk_positions e; le_insurance_funds := le_insurance_funds e;
  le_fee_split := f; le_min_insurance_ratio := le_min_insurance_ratio e;
  le_enable_partial_liquidations := le_enable_partial_liquidations e;
  le_adl_enabled := le_adl_enabled e |}.

(** [None] is the failed assertion. *)
Definition set_fee_split (liquidator_bps insurance_fund_bps : Z) (e : LiquidationEngine)
    : option LiquidationEngine :=
  if wadd32 liquidator_bps insurance_fund_bps =? BASIS_POINTS
  then Some (with_fee_split (liquidator_bps, insurance_fund_bps) e) else None.
Definition get_fee_split (e : LiquidationEngine) : Z * Z := le_fee_split e.

Definition get_insurance_fund (e : LiquidationEngine) (market_id : Z) : InsuranceFund :=
  default InsuranceFund_default (le_insurance_funds e !! market_id).

Definition is_insurance_fund_healthy (e : LiquidationEngine)
    (market_id total_positions_value : Z) : bool :=
  let fund := get_insurance_fund e market_id in
  let required_minimum :=
    default 0 (checked_mul_u128 total_positions_value (le_min_insurance_ratio e)) / BASIS_POINTS in
  required_minimum <=? if_balance fund.

(** * Risk of a position *)

Definition calculate_position_equity (position : Position) (mark_price : Z)
    : result EngineError Z := position_equity position mark_price.

Definition calculate_position_value (position : Position) (mark_price : Z)
    : result EngineError Z := mul_or_overflow (pos_size position) mark_price.

Definition calculate_margin_ratio (position : Position) (mark_price : Z) : result EngineError Z :=
  if pos_size position =? 0 then Ok U32_MAX
  else
    let* equity := calculate_position_equity position mark_price in
    let* position_value := calculate_position_value position mark_price in
    if position_value =? 0 then Ok U32_MAX
    else
      let* scaled := mul_or_overflow equity BASIS_POINTS in
      Ok (try_u32_or_max (scaled / position_value)).

Definition create_position_risk (trader : Address) (market_id : Z) (position : Position)
    (mark_price : Z) : result EngineError PositionRisk :=
  let* margin_ratio := calculate_margin_ratio position mark_price in
  let* position_value := calculate_position_value position mark_price in
  let* equity := calculate_position_equity position mark_price in
  Ok {| pr_trader := trader; pr_market_id := market_id; pr_margin_ratio := margin_ratio;
        pr_position_value := position_value; pr_equity := equity |}.

Definition push_risk (market_id : Z) (risk : PositionRisk) (e : LiquidationEngine)
    : LiquidationEngine :=
  with_at_risk
    (<[market_id := default [] (le_at_risk_positions e !! market_id) ++ [risk]]>
       (le_at_risk_positions e)) e.

(** The optimal size of a partial liquidation. *)
Definition calculate_partial_liquidation_size (position : Position) (mark_price : Z)
    (market : Market) : result EngineError Z :=
  if mark_price =? 0 then Ok (pos_size position)
  else if pos_size position =? 0 then Ok 0
  else
    let target_margin_ratio := wadd32 (m_maintenance_margin_bps market) MARGIN_BUFFER_BPS in
    let* position_value := calculate_position_value position mark_price in
    if position_value =? 0 then Ok 0
    else
      let* equity := calculate_position_equity position mark_price in
      let* scaled := mul_or_overflow position_value target_margin_ratio in
      let required_equity := scaled / BASIS_POINTS in
      if required_equity <=? equity then Ok 0
      else
        let equity_deficit := saturating_sub required_equity equity in
        let* scaled := mul_or_overflow equity_deficit BASIS_POINTS in
        let* raw := ok_or DivisionByZero
          (checked_div scaled (wmul128 mark_price (BASIS_POINTS + m_liquidation_fee_bps market))) in
        let liquidation_size_raw := as_u64 raw in
        let min_liquidation_pct := pos_size position / MIN_LIQUIDATION_PCT in
        let min_liquidation := Z.max min_liquidation_pct (m_min_order_size market) in
        let max_liquidation := pos_size position in
        let liquidation_size :=
          Z.min (Z.max liquidation_size_raw min_liquidation) max_liquidation in
        if (liquidation_size <? m_min_order_size market)
           && (m_min_order_size market <? pos_size position)
        then Ok (Z.min (m_min_order_size market) (pos_size position))
        else
          let remaining_size := saturating_sub (pos_size position) liquidation_size in
          if (0 <? remaining_size) && (remaining_size <? m_min_order_size market)
          then Ok (pos_size position)
          else Ok liquidation_size.

(** Fee, liquidator's reward and insurance contribution of a liquidation. *)
Definition liquidation_fees (e : LiquidationEngine) (market : Market)
    (liquidation_size liquidation_price : Z) : result EngineError (Z * Z * Z) :=
  let* liquidation_value := mul_or_overflow liquidation_size liquidation_price in
  let* scaled := mul_or_overflow liquidation_value (m_liquidation_fee_bps market) in
  let liquidation_fee := scaled / BASIS_POINTS in
  let* scaled := mul_or_overflow liquidation_fee (fst (le_fee_split e)) in
  let liquidator_reward := scaled / BASIS_POINTS in
  let* scaled := mul_or_overflow liquidation_fee (snd (le_fee_split e)) in
  let insurance_contribution := scaled / BASIS_POINTS in
  Ok (liquidation_fee, liquidator_reward, insurance_contribution).

(** The fund pays [shortfall] as far as it can; returns what it paid. *)
Definition cover_shortfall (shortfall : Z) (fund : InsuranceFund) : InsuranceFund * Z :=
  if shortfall <=? if_balance fund then
    ({| if_balance := if_balance fund - shortfall;
        if_total_contributions := if_total_contributions fund;
        if_total_payouts := wadd128 (if_total_payouts fund) shortfall |}, shortfall)
  else
    ({| if_balance := 0; if_total_contributions := if_total_contributions fund;
        if_total_payouts := wadd128 (if_total_payouts fund) (if_balance fund) |}, if_balance fund).

Section liquidation.
Context {B : Backend}.

(** * The risk index *)

(** [&mut self] with a borrowed state. *)
Definition update_risk_index (s : StateManager) (trader : Address) (market_id mark_price : Z)
    : ST LiquidationEngine EngineError unit :=
  let! found := st_lift (state_result (get_position s trader market_id)) in
  match found with
  | None => st_ret tt
  | Some position =>
      if pos_size position =? 0 then st_ret tt
      else
        let! risk := st_lift (create_position_risk trader market_id position mark_price) in
        st_modify (push_risk market_id risk)
  end.

Definition rebuild_risk_index (s : StateManager) (market_id mark_price : Z)
    : ST LiquidationEngine EngineError unit :=
  st_modify (fun e => with_at_risk (<[market_id := []]> (le_at_risk_positions e)) e) ;;
  let! positions := st_lift (state_result (get_all_positions_in_market s market_id)) in
  st_for positions (fun '(trader, position) =>
    if pos_size position =? 0 then st_ret tt
    else
      let! risk := st_lift (create_position_risk trader market_id position mark_price) in
      st_modify (push_risk market_id risk)).

Definition get_at_risk_positions (e : LiquidationEngine) (market_id threshold_bps : Z)
    : list (Address * Z) :=
  match le_at_risk_positions e !! market_id with
  | Some heap =>
      map (fun p => (pr_trader p, pr_market_id p))
        (filter (fun p => pr_margin_ratio p <? threshold_bps = true) (hash_order heap))
  | None => []
  end.

Definition should_liquidate (s : StateManager) (trader : Address) (market_id mark_price : Z)
    (market : Market) : result EngineError bool :=
  let* found := state_result (get_position s trader market_id) in
  match found with
  | None => Ok false
  | Some position =>
      if pos_size position =? 0 then Ok false
      else
        let* margin_ratio := calculate_margin_ratio position mark_price in
        Ok (margin_ratio <? m_maintenance_margin_bps market)
  end.

(** * Liquidation *)

Record LiqState := {
  ls_engine : LiquidationEngine;
  ls_book : OrderbookManager;
  ls_state : StateManager;
}.
Notation LiqM A := (ST LiqState EngineError A).

Definition with_ls_state (s : StateManager) (t : LiqState) : LiqState :=
  {| ls_engine := ls_engine t; ls_book := ls_book t; ls_state := s |}.
Definition with_ls_engine (e : LiquidationEngine) (t : LiqState) : LiqState :=
  {| ls_engine := e; ls_book := ls_book t; ls_state := ls_state t |}.

Definition liq_state {A} (m : ST StateManager StateError A) : LiqM A :=
  st_zoom ls_state with_ls_state (lift_state m).
Definition liq_read {A} (f : StateManager -> result StateError A) : LiqM A :=
  st_read (fun t => state_result (f (ls_state t))).
Definition liq_book {A} (m : ST (OrderbookManager * StateManager) EngineError A) : LiqM A :=
  st_zoom (fun t => (ls_book t, ls_state t))
    (fun '(b, s) t => {| ls_engine := ls_engine t; ls_book := b; ls_state := s |}) m.
Definition set_fund (market_id : Z) (fund : InsuranceFund) (t : LiqState) : LiqState :=
  with_ls_engine (with_funds (<[market_id := fund]> (le_insurance_funds (ls_engine t)))
                    (ls_engine t)) t.
Definition get_fund (market_id : Z) (t : LiqState) : InsuranceFund :=
  get_insurance_fund (ls_engine t) market_id.

Definition cancel_order_step (trader : Address) (market_id : Z) (cancelled : list Z) (order_id : Z)
    : ST (OrderbookManager * StateManager) EngineError (list Z) :=
  let! found := read_sm (fun s => get_order s order_id) in
  match found with
  | Some order =>
      if (o_owner order =? trader) && bool_decide (o_status order = Active) then
        st_modify (fun '(ob, s) => (remove_order order_id order ob, s)) ;;
        on_sm (set_order order_id (set_status Cancelled order)) ;;
        on_sm (remove_active_order market_id order_id) ;;
        st_ret (cancelled ++ [order_id])
      else st_ret cancelled
  | None => st_ret cancelled
  end.

Definition cancel_trader_orders (trader : Address) (market_id : Z)
    : ST (OrderbookManager * StateManager) EngineError (list Z) :=
  let! active_order_ids := read_sm (fun s => get_active_orders_by_market s market_id) in
  st_fold active_order_ids [] (cancel_order_step trader market_id).

(** Take [size] off a position: delete it, or shrink it and its margin in
    proportion.  [zero_error] is returned for a zero-sized position. *)
Definition shrink_position (trader : Address) (market_id size : Z) (position : Position)
    (zero_error : OtherError) : ST StateManager EngineError unit :=
  if pos_size position <=? size then lift_state (delete_position trader market_id)
  else if pos_size position =? 0 then st_fail (EngOther zero_error)
  else
    let! scaled := st_lift (mul_or_overflow (pos_margin position) size) in
    let margin_reduction := scaled / pos_size position in
    lift_state (set_position trader market_id
      (with_size_margin (pos_size position - size)
         (saturating_sub (pos_margin position) margin_reduction) position)).

(** [state.set_balance(who, asset, balance.checked_add(amount)?)] *)
Definition credit (who : Address) (asset_id amount : Z) : LiqM unit :=
  let! balance := liq_read (fun s => get_balance s who asset_id) in
  let! new_balance := st_lift (add_or_overflow balance amount) in
  liq_state (set_balance who asset_id new_balance).

(** The insurance fund covers what the equity does not; returns the usage. *)
Definition use_insurance (market_id equity liquidation_fee : Z) : LiqM Z :=
  if equity <? liquidation_fee then
    let! fund := st_gets (get_fund market_id) in
    let '(fund, used) := cover_shortfall (liquidation_fee - equity) fund in
    st_modify (set_fund market_id fund) ;;
    st_ret used
  else st_ret 0.

(** The fund receives its share; an overflow of the second sum leaves the first. *)
Definition contribute (market_id contribution : Z) : LiqM unit :=
  let! fund := st_gets (get_fund market_id) in
  st_modify (set_fund market_id fund) ;;
  let! balance := st_lift (add_or_overflow (if_balance fund) contribution) in
  st_modify (set_fund market_id
    {| if_balance := balance; if_total_contributions := if_total_contributions fund;
       if_total_payouts := if_total_payouts fund |}) ;;
  let! total := st_lift (add_or_overflow (if_total_contributions fund) contribution) in
  st_modify (set_fund market_id
    {| if_balance := balance; if_total_contributions := total;
       if_total_payouts := if_total_payouts fund |}).

Definition liquidate_with_incentive (trader : Address) (market_id mark_price : Z)
    (liquidator : Address) : LiqM (option LiquidationResult) :=
  st_guard (negb (mark_price =? 0)) (EngOther InvalidMarkPrice) ;;
  let! found := liq_read (fun s => get_market s market_id) in
  let! market := st_lift (ok_or MarketNotFound found) in
  let liquidation_price := normalize_price market mark_price in
  let! should := st_read (fun t =>
    should_liquidate (ls_state t) trader market_id liquidation_price market) in
  if negb should then st_ret None
  else
    let! _cancelled := liq_book (cancel_trader_orders trader market_id) in
    let! found := liq_read (fun s => get_position s trader market_id) in
    let! position := st_lift (ok_or PositionNotFound found) in
    let! engine := st_gets ls_engine in
    let! liquidation_size := st_lift (
      if le_enable_partial_liquidations engine
      then calculate_partial_liquidation_size position liquidation_price market
      else Ok (pos_size position)) in
    let! (liquidation_fee, liquidator_reward, insurance_contribution) :=
      st_lift (liquidation_fees engine market liquidation_size liquidation_price) in
    let! equity := st_lift (calculate_position_equity position liquidation_price) in
    let remaining_equity := saturating_sub equity liquidation_fee in
    let! insurance_fund_usage := use_insurance market_id equity liquidation_fee in
    st_zoom ls_state with_ls_state
      (shrink_position trader market_id liquidation_size position CannotPartiallyLiquidateZero) ;;
    credit liquidator (m_quote_asset_id market) liquidator_reward ;;
    contribute market_id insurance_contribution ;;
    (if 0 <? remaining_equity
     then credit trader (m_quote_asset_id market) remaining_equity else st_ret tt) ;;
    st_ret (Some {|
      lr_trader := trader; lr_market_id := market_id;
      lr_liquidated_size := liquidation_size; lr_liquidation_price := liquidation_price;
      lr_liquidation_fee := liquidation_fee; lr_remaining_equity := remaining_equity;
      lr_liquidator := Some liquidator; lr_liquidator_reward := liquidator_reward;
      lr_insurance_fund_contribution := insurance_contribution;
      lr_insurance_fund_usage := insurance_fund_usage |}).

Definition process_liquidation_batch (market_id mark_price : Z) (liquidator : Address)
    (max_liquidations : nat) : LiqM (list LiquidationResult) :=
  let! found := liq_read (fun s => get_market s market_id) in
  let! market := st_lift (ok_or MarketNotFound found) in
  let! at_risk := st_gets (fun t =>
    get_at_risk_positions (ls_engine t) market_id (m_maintenance_margin_bps market)) in
  st_fold (take max_liquidations at_risk) [] (fun results '(trader, mid) =>
    let! r := liquidate_with_incentive trader mid mark_price liquidator in
    st_ret (match r with Some result => results ++ [result] | None => results end)).

(** * Auto-deleveraging *)

Definition adl_candidate (market_id mark_price : Z) (trader : Address) (position : Position)
    : result EngineError (option AdlCandidate) :=
  if pos_size position =? 0 then Ok None
  else
    let* (pnl, is_profit) := calculate_pnl position mark_price in
    if negb is_profit then Ok None
    else
      let* position_value := calculate_position_value position mark_price in
      let* equity := calculate_position_equity position mark_price in
      let* leverage :=
        if 0 <? equity then
          let* scaled := mul_or_overflow position_value BASIS_POINTS in Ok (scaled / equity)
        else Ok U128_MAX in
      let* profit_score :=
        ok_or Overflow (checked_mul_i128 (as_i128 pnl) (as_i128 leverage)) in
      Ok (Some {| ac_trader := trader; ac_market_id := market_id;
                  ac_position_size := pos_size position; ac_unrealized_pnl := pnl;
                  ac_is_profit := is_profit; ac_profit_score := profit_score |}).

Fixpoint collect_candidates (market_id mark_price : Z) (positions : list (Address * Position))
    : result EngineError (list AdlCandidate) :=
  match positions with
  | [] => Ok []
  | (trader, position) :: rest =>
      let* c := adl_candidate market_id mark_price trader position in
      let* cs := collect_candidates market_id mark_price rest in
      Ok (match c with Some c => c :: cs | None => cs end)
  end.

Definition find_adl_candidates (s : StateManager) (market_id mark_price : Z)
    : result EngineError (list AdlCandidate) :=
  let* positions := state_result (get_all_positions_in_market s market_id) in
  collect_candidates market_id mark_price positions.

Definition execute_adl (trader : Address) (market_id size : Z) : ST StateManager EngineError unit :=
  let! found := st_read (fun s => state_result (get_position s trader market_id)) in
  let! position := st_lift (ok_or PositionNotFound found) in
  shrink_position trader market_id size position CannotPartiallyAdlZero.

(** Highest profit score first; the sort is stable. *)
Definition score_order (a b : AdlCandidate) : Prop := ac_profit_score b <= ac_profit_score a.
#[export] Instance score_order_dec a b : Decision (score_order a b).
Proof. unfold score_order. apply _. Defined.

Fixpoint deleverage (market_id required_amount mark_price : Z) (candidates : list AdlCandidate)
    (collected_amount : Z) : ST StateManager EngineError (list (Address * Z)) :=
  match candidates with
  | [] => st_ret []
  | candidate :: rest =>
      if required_amount <=? collected_amount then st_ret []
      else
        let! position_value := st_lift (mul_or_overflow (ac_position_size candidate) mark_price) in
        let! deleverage_size := st_lift (
          if required_amount <? wadd128 collected_amount position_value then
            let remaining := required_amount - collected_amount in
            let* scaled := mul_or_overflow remaining (ac_position_size candidate) in
            Ok (as_u64 (scaled / position_value))
          else Ok (ac_position_size candidate)) in
        execute_adl (ac_trader candidate) market_id deleverage_size ;;
        let! value := st_lift (mul_or_overflow deleverage_size mark_price) in
        let! deleveraged :=
          deleverage market_id required_amount mark_price rest (wadd128 collected_amount value) in
        st_ret ((ac_trader candidate, deleverage_size) :: deleveraged)
  end.

Definition auto_deleverage (e : LiquidationEngine) (market_id required_amount mark_price : Z)
    : ST StateManager EngineError (list (Address * Z)) :=
  if negb (le_adl_enabled e) then st_ret []
  else
    let! candidates := st_read (fun s => find_adl_candidates s market_id mark_price) in
    deleverage market_id required_amount mark_price (merge_sort score_order candidates) 0.

End liquidation.

(** * Properties *)

Section criteria.
Context {B : Backend} {Bok : BackendOk B}.
Implicit Types s : StateManager.

Definition equity_of (p : Position) (mark_price : Z) : Z :=
  Z.max 0 (pos_margin p + profit p mark_price).

Lemma should_liquidate_spec s trader m mark market p :
  Position_ok p -> Market_ok market -> is_u64 mark -> 0 < pos_size p -> 0 < mark ->
  pos_margin p + profit p mark <= U128_MAX -> equity_of p mark * 10000 <= U128_MAX ->
  get_position s trader m = Ok (Some p) ->
  should_liquidate s trader m mark market =
  Ok (equity_of p mark * 10000 <? m_maintenance_margin_bps market * (pos_size p * mark)).
Proof.
  intros Hp Hm Hmark Hs Hpos Hf1 Hf2 Gp. unfold should_liquidate. rewrite Gp. simpl.
  pose proof Hp as (Hps & _). destruct Hm as (_ & _ & _ & _ & Hmm & _). unfold is_u32, U32_MAX in Hmm.
  destruct (Z.eqb_spec (pos_size p) 0); [lia|]. unfold calculate_margin_ratio.
  destruct (Z.eqb_spec (pos_size p) 0); [lia|].
  unfold calculate_position_equity. rewrite position_equity_spec by done. simpl.
  unfold calculate_position_value. rewrite mul_u64_fits by done. simpl.
  destruct (Z.eqb_spec (pos_size p * mark) 0); [nia|].
  fold (equity_of p mark). unfold BASIS_POINTS. rewrite mul_fits by done. simpl. f_equal.
  unfold try_u32_or_max, U32_MAX.
  set (e := equity_of p mark * 10000). set (v := pos_size p * mark) in *.
  assert (Hv : 0 < v) by (unfold v; nia).
  assert (Hiff : e / v < m_maintenance_margin_bps market <-> e < m_maintenance_margin_bps market * v).
  { split; intros.
    - pose proof (Z.div_mod e v ltac:(lia)). pose proof (Z.mod_pos_bound e v Hv). nia.
    - apply Z.div_lt_upper_bound; lia. }
  destruct (Z.leb_spec (e / v) (2 ^ 32 - 1)).
  - destruct (Z.ltb_spec (e / v) (m_maintenance_margin_bps market)),
      (Z.ltb_spec e (m_maintenance_margin_bps market * v)); lia.
  - destruct (Z.ltb_spec (2 ^ 32 - 1) (m_maintenance_margin_bps market)),
      (Z.ltb_spec e (m_maintenance_margin_bps market * v)); lia.
Qed.

(** The two liquidation tests of the engine.  [should_liquidate] is
    exact: equity is below the maintenance fraction of the position's value.
    The risk engine's [check_liquidation] rounds the requirement down, so it
    implies [should_liquidate], and the two disagree only for an equity equal to
    the rounded requirement. *)
Theorem liquidation_criteria_agree s trader m mark market p :
  Position_ok p -> Market_ok market -> is_u64 mark -> 0 < pos_size p -> 0 < mark ->
  pos_margin p + profit p mark <= U128_MAX -> equity_of p mark * 10000 <= U128_MAX ->
  pos_size p * mark * m_maintenance_margin_bps market <= U128_MAX ->
  get_position s trader m = Ok (Some p) -> get_market s m = Ok (Some market) ->
  exists strict exact,
    check_liquidation s trader m mark = Ok strict /\
    should_liquidate s trader m mark market = Ok exact /\
    (exact = true <-> equity_of p mark * 10000 < pos_size p * mark * m_maintenance_margin_bps market) /\
    (strict = true -> exact = true) /\
    (strict <> exact -> equity_of p mark = pos_size p * mark * m_maintenance_margin_bps market / 10000).
Proof.
  intros Hp Hm Hmark Hs Hpos Hf1 Hf2 Hf3 Gp Gm. do 2 eexists. split_and!.
  - by apply check_liquidation_spec.
  - by apply should_liquidate_spec.
  - rewrite Z.ltb_lt. lia.
  - fold (equity_of p mark). rewrite !Z.ltb_lt.
    set (r := pos_size p * mark * m_maintenance_margin_bps market).
    pose proof (Z.mul_div_le r 10000 ltac:(lia)). unfold r in *. lia.
  - fold (equity_of p mark).
    set (r := pos_size p * mark * m_maintenance_margin_bps market).
    pose proof (Z.div_mod r 10000 ltac:(lia)). pose proof (Z.mod_pos_bound r 10000 ltac:(lia)).
    destruct (Z.ltb_spec (equity_of p mark) (r / 10000)),
      (Z.ltb_spec (equity_of p mark * 10000) (m_maintenance_margin_bps market * (pos_size p * mark)));
      unfold r in *; try done; lia.
Qed.

Lemma partial_size_bounds p mark market size :
  Position_ok p -> Market_ok market ->
  calculate_partial_liquidation_size p mark market = Ok size ->
  0 <= size <= pos_size p /\
  (size <> 0 -> Z.min (pos_size p) (Z.max (pos_size p / 10) (m_min_order_size market)) <= size) /\
  (size <> 0 -> pos_size p - size = 0 \/ m_min_order_size market <= pos_size p - size).
Proof.
  intros (Hs & _) (_ & Hmin & _) H. unfold is_u64 in *.
  unfold calculate_partial_liquidation_size in H.
  destruct (mark =? 0); [inv_ok; lia|].
  destruct (Z.eqb_spec (pos_size p) 0) as [Ez|Ez]; [inv_ok; lia|].
  apply result_bind_Ok in H as (v & _ & H). destruct (v =? 0); [inv_ok; lia|].
  apply result_bind_Ok in H as (eq & _ & H). apply result_bind_Ok in H as (sc & _ & H).
  destruct (_ <=? eq); [inv_ok; lia|].
  apply result_bind_Ok in H as (d & _ & H). apply result_bind_Ok in H as (raw & _ & H).
  pose proof (as_u64_range raw) as Hr. unfold is_u64 in Hr. unfold MIN_LIQUIDATION_PCT in H.
  set (pct := pos_size p / 10) in *.
  assert (Hpct : 0 <= pct <= pos_size p)
    by (split; [apply Z.div_pos; lia|apply Z.div_le_upper_bound; lia]).
  set (mn := m_min_order_size market) in *.
  set (l := Z.min (Z.max (as_u64 raw) (Z.max pct mn)) (pos_size p)) in *.
  assert (Hl : 0 <= l <= pos_size p /\ Z.min (pos_size p) (Z.max pct mn) <= l) by lia.
  destruct (_ && _) eqn:E1.
  - apply andb_true_iff in E1 as [?%Z.ltb_lt ?%Z.ltb_lt]. lia.
  - unfold saturating_sub in H. destruct ((0 <? _) && _) eqn:E2; inv_ok.
    + lia.
    + apply andb_false_iff in E2 as [?%Z.ltb_ge|?%Z.ltb_ge]; lia.
Qed.

(** C26: the size of a partial liquidation never exceeds the position; when
    it is not zero it is at least a tenth of the position and the market's
    minimum order (or everything), and it never leaves a remainder smaller than
    the minimum order size. *)
Theorem partial_liquidation_size_sound p mark market size :
  Position_ok p -> Market_ok market ->
  calculate_partial_liquidation_size p mark market = Ok size ->
  0 <= size <= pos_size p /\
  (size <> 0 -> Z.min (pos_size p) (Z.max (pos_size p / 10) (m_min_order_size market)) <= size) /\
  (size <> 0 -> pos_size p - size = 0 \/ m_min_order_size market <= pos_size p - size).
Proof. apply partial_size_bounds. Qed.

(** The shares of the fee never exceed the fee. *)
Lemma liquidation_fees_split e market size price fee reward contribution :
  0 <= size -> 0 <= price -> Market_ok market ->
  0 <= fst (le_fee_split e) -> 0 <= snd (le_fee_split e) ->
  fst (le_fee_split e) + snd (le_fee_split e) <= 10000 ->
  liquidation_fees e market size price = Ok (fee, reward, contribution) ->
  fee = size * price * m_liquidation_fee_bps market / 10000 /\
  0 <= reward /\ 0 <= contribution /\ reward + contribution <= fee.
Proof.
  intros Hs Hp (_ & _ & _ & _ & _ & _ & Hf & _) H1 H2 H3 H. unfold is_u32 in Hf.
  unfold liquidation_fees in H. inv_checked. unfold BASIS_POINTS in *. simplify_eq.
  set (fee := size * price * m_liquidation_fee_bps market / 10000) in *.
  assert (Hfee : 0 <= fee) by (apply Z.div_pos; nia).
  split_and!; [done|apply Z.div_pos; nia|apply Z.div_pos; nia|].
  pose proof (Z.mul_div_le (fee * fst (le_fee_split e)) 10000 ltac:(lia)).
  pose proof (Z.mul_div_le (fee * snd (le_fee_split e)) 10000 ltac:(lia)). nia.
Qed.

Lemma cover_shortfall_spec shortfall fund fund' used :
  0 <= shortfall -> 0 <= if_balance fund -> 0 <= if_total_payouts fund ->
  if_total_payouts fund + if_balance fund <= U128_MAX ->
  cover_shortfall shortfall fund = (fund', used) ->
  used = Z.min shortfall (if_balance fund) /\ if_balance fund' = if_balance fund - used /\
  if_total_payouts fund' = if_total_payouts fund + used /\
  if_total_contributions fund' = if_total_contributions fund.
Proof.
  intros H1 H2 H3 H4 H. unfold cover_shortfall, wadd128 in H.
  destruct (Z.leb_spec shortfall (if_balance fund)); simplify_eq; simpl;
    rewrite as_u128_id by (unfold is_u128; lia); split_and!; lia.
Qed.

End criteria.

(** ** What a liquidation does *)

Section effects.
Context {B : Backend} {Bok : BackendOk B}.
Implicit Types s : StateManager.

Lemma frames_cancel_trader_orders trader m :
  frames (snd : OrderbookManager * StateManager -> StateManager) trading_keys
    (cancel_trader_orders trader m).
Proof.
  unfold cancel_trader_orders, cancel_order_step, read_sm. repeat frames_step.
  all: try (apply frames_on_sm; eapply frames_weaken; [|by auto with frames];
    [intros k <- || intros k [-> | ->]; exact I]).
  apply frames_id. by intros [? ?].
Qed.

Lemma liq_book_Ok {A} (m : ST (OrderbookManager * StateManager) EngineError A) t a t' P :
  frames (snd : OrderbookManager * StateManager -> StateManager) P m ->
  liq_book m t = (Ok a, t') ->
  ls_engine t' = ls_engine t /\ frame P (ls_state t) (ls_state t').
Proof.
  intros F H. unfold liq_book, st_zoom in H. specialize (F (ls_book t, ls_state t)).
  destruct (m (ls_book t, ls_state t)) as [r [b s]]. simplify_eq. by split.
Qed.

Lemma liq_state_Ok {A} (m : ST StateManager StateError A) t a t' :
  liq_state m t = (Ok a, t') ->
  m (ls_state t) = (Ok a, ls_state t') /\ ls_engine t' = ls_engine t.
Proof.
  unfold liq_state, st_zoom, lift_state, st_map_err. intros H.
  destruct (m (ls_state t)) as [[|] s]; by simplify_eq/=.
Qed.

Lemma liq_read_Ok {A} (f : StateManager -> result StateError A) t a t' :
  liq_read f t = (Ok a, t') -> f (ls_state t) = Ok a /\ t' = t.
Proof.
  unfold liq_read, state_result. intros H. apply st_read_Ok in H as [H ->].
  by apply map_err_Ok in H.
Qed.

Lemma credit_spec who asset amount t t' :
  credit who asset amount t = (Ok tt, t') ->
  ls_engine t' = ls_engine t /\ frame (eq (SK_Balance who asset)) (ls_state t) (ls_state t') /\
  exists bal, get_balance (ls_state t) who asset = Ok bal /\ bal + amount <= U128_MAX /\
    get_balance (ls_state t') who asset = Ok (bal + amount).
Proof.
  unfold credit. intros H. apply st_bind_Ok in H as (bal & t1 & H1 & H).
  apply liq_read_Ok in H1 as [Hb ->]. apply st_bind_Ok in H as (nb & t2 & H1 & H).
  apply st_lift_Ok in H1 as [H1 ->]. apply add_or_overflow_Ok in H1 as [-> Hf].
  apply liq_state_Ok in H as [H E]. split; [done|]. split.
  - eapply frames_run_id; [apply frames_set_balance|exact H].
  - exists bal. split_and!; [done|done|]. by eapply get_balance_set_same.
Qed.

Definition fund_of (t : LiqState) (m : Z) : InsuranceFund := get_insurance_fund (ls_engine t) m.

Lemma fund_of_set t m fund m' :
  fund_of (set_fund m fund t) m' = if decide (m' = m) then fund else fund_of t m'.
Proof.
  unfold fund_of, set_fund, get_insurance_fund. simpl.
  destruct (decide (m' = m)) as [->|]; [by rewrite lookup_insert_eq|by rewrite lookup_insert_ne].
Qed.

Lemma contribute_spec m c t t' :
  contribute m c t = (Ok tt, t') ->
  ls_state t' = ls_state t /\ (forall m', m' <> m -> fund_of t' m' = fund_of t m') /\
  if_balance (fund_of t' m) = if_balance (fund_of t m) + c /\
  if_total_contributions (fund_of t' m) = if_total_contributions (fund_of t m) + c /\
  if_total_payouts (fund_of t' m) = if_total_payouts (fund_of t m) /\
  if_total_contributions (fund_of t m) + c <= U128_MAX.
Proof.
  unfold contribute. intros H. inv_checked. split_and!; [done| | | | |done].
  - intros m' Hm. by rewrite !fund_of_set, !decide_False by done.
  - by rewrite fund_of_set, decide_True.
  - by rewrite fund_of_set, decide_True.
  - by rewrite fund_of_set, decide_True.
Qed.

(** The books of a fund balance. *)
Definition fund_ok (f : InsuranceFund) : Prop :=
  0 <= if_balance f /\ 0 <= if_total_payouts f /\ if_total_contributions f <= U128_MAX /\
  if_balance f = if_total_contributions f - if_total_payouts f.

Lemma use_insurance_spec m equity fee t used t' :
  fund_ok (fund_of t m) -> use_insurance m equity fee t = (Ok used, t') ->
  ls_state t' = ls_state t /\ (forall m', m' <> m -> fund_of t' m' = fund_of t m') /\
  used = Z.min (Z.max 0 (fee - equity)) (if_balance (fund_of t m)) /\
  if_balance (fund_of t' m) = if_balance (fund_of t m) - used /\
  if_total_payouts (fund_of t' m) = if_total_payouts (fund_of t m) + used /\
  if_total_contributions (fund_of t' m) = if_total_contributions (fund_of t m).
Proof.
  intros (H1 & H2 & H3 & H4) H. unfold use_insurance in H.
  destruct (Z.ltb_spec equity fee).
  - unfold st_bind, st_gets in H. change (get_fund m t) with (fund_of t m) in H.
    destruct (cover_shortfall (fee - equity) (fund_of t m)) as [fund' u] eqn:E.
    unfold st_modify, st_ret in H. simplify_eq.
    apply cover_shortfall_spec in E as (-> & E1 & E2 & E3); [|lia..].
    rewrite fund_of_set, decide_True by done. split_and!; try done; [|lia].
    intros m' Hm. by rewrite fund_of_set, decide_False.
  - apply st_ret_Ok in H as [-> ->]. split_and!; try done; lia.
Qed.

Lemma shrink_position_spec trader m size p ze s s' :
  Position_ok p -> 0 <= size ->
  shrink_position trader m size p ze s = (Ok tt, s') ->
  frame (position_keys trader m) s s' /\
  ((pos_size p <= size /\ get_position s' trader m = committed_position s trader m) \/
   (size < pos_size p /\ get_position s' trader m =
      Ok (Some (with_size_margin (pos_size p - size)
            (pos_margin p - pos_margin p * size / pos_size p) p)))).
Proof.
  intros (Hs & _ & Hm) Hsz H. unfold is_u64, is_u128 in *. unfold shrink_position in H.
  destruct (Z.leb_spec (pos_size p) size).
  - destruct (delete_position_spec trader m s) as (s1 & R & Hd & F).
    unfold lift_state, st_map_err in H. rewrite R in H. simplify_eq/=. split; [done|left].
    split; [done|]. by apply get_position_withdrawn.
  - destruct (Z.eqb_spec (pos_size p) 0); [done|]. inv_checked.
    assert (Hle : 0 <= pos_margin p * size / pos_size p <= pos_margin p).
    { split; [apply Z.div_pos; nia|]. apply Z.div_le_upper_bound; nia. }
    rewrite saturating_sub_le in H by lia.
    match type of H with lift_state (set_position _ _ ?q) _ = _ =>
      destruct (set_position_spec trader m q s) as (s1 & R & Hg & _ & F) end.
    unfold lift_state, st_map_err in H. rewrite R in H. simplify_eq/=. split; [done|by right].
Qed.

(** The contract of a liquidation that went through. *)
Record liquidation_outcome (market : Market) (p : Position) (t t' : LiqState)
    (r : LiquidationResult) : Prop := {
  lo_size : 0 <= lr_liquidated_size r <= pos_size p;
  lo_position :
    let s' := ls_state t' in
    (lr_liquidated_size r = pos_size p /\
     get_position s' (lr_trader r) (lr_market_id r) =
       committed_position (ls_state t) (lr_trader r) (lr_market_id r)) \/
    (lr_liquidated_size r < pos_size p /\
     get_position s' (lr_trader r) (lr_market_id r) =
       Ok (Some (with_size_margin (pos_size p - lr_liquidated_size r)
             (pos_margin p - pos_margin p * lr_liquidated_size r / pos_size p) p)));
  lo_fee : lr_liquidation_fee r =
    lr_liquidated_size r * lr_liquidation_price r * m_liquidation_fee_bps market / 10000;
  lo_split : 0 <= lr_liquidator_reward r /\ 0 <= lr_insurance_fund_contribution r /\
    lr_liquidator_reward r + lr_insurance_fund_contribution r <= lr_liquidation_fee r;
  lo_equity : lr_remaining_equity r =
    Z.max 0 (equity_of p (lr_liquidation_price r) - lr_liquidation_fee r);
  lo_usage : lr_insurance_fund_usage r =
    Z.min (Z.max 0 (lr_liquidation_fee r - equity_of p (lr_liquidation_price r)))
      (if_balance (fund_of t (lr_market_id r)));
  lo_fund : if_balance (fund_of t' (lr_market_id r)) =
    if_balance (fund_of t (lr_market_id r)) - lr_insurance_fund_usage r +
    lr_insurance_fund_contribution r;
  lo_fund_ok : fund_ok (fund_of t' (lr_market_id r));
  lo_other_funds : forall m', m' <> lr_market_id r -> fund_of t' m' = fund_of t m';
  lo_credits : forall who bal,
    get_balance (ls_state t) who (m_quote_asset_id market) = Ok bal ->
    get_balance (ls_state t') who (m_quote_asset_id market) =
      Ok (bal + (if decide (lr_liquidator r = Some who) then lr_liquidator_reward r else 0) +
          (if decide (lr_trader r = who) then lr_remaining_equity r else 0));
}.

Lemma position_equity_Ok p mark e :
  Position_ok p -> is_u64 mark -> position_equity p mark = Ok e -> e = equity_of p mark.
Proof.
  intros Hp Hm H. unfold position_equity in H. rewrite calculate_pnl_spec in H by done.
  simpl in H. unfold equity_of. destruct Hp as (_ & _ & Hmg). unfold is_u128 in Hmg.
  destruct (Z.leb_spec 0 (profit p mark)).
  - apply add_or_overflow_Ok in H as [-> _]. lia.
  - inv_ok. unfold saturating_sub in *. simplify_eq. lia.
Qed.

Lemma normalize_price_u64 market price : is_u64 price -> is_u64 (normalize_price market price).
Proof. unfold normalize_price, wmul64. destruct (_ =? 0); [done|intros; apply as_u64_range]. Qed.

Lemma credit_balances who asset amount t t' a bal :
  credit who asset amount t = (Ok tt, t') -> get_balance (ls_state t) a asset = Ok bal ->
  get_balance (ls_state t') a asset = Ok (bal + (if decide (who = a) then amount else 0)).
Proof.
  intros H Hb. apply credit_spec in H as (_ & F & bal' & Hb' & _ & Hn).
  destruct (decide (who = a)) as [->|Hne].
  - rewrite Hb in Hb'. by simplify_eq.
  - rewrite (get_balance_frame _ _ _ a asset F); [by rewrite Hb, Z.add_0_r|]. congruence.
Qed.

(** What is left of the equity goes back to the trader. *)
Lemma return_equity_spec trader asset rest t t' :
  0 <= rest ->
  (if 0 <? rest then credit trader asset rest else st_ret tt) t = (Ok tt, t') ->
  ls_engine t' = ls_engine t /\ frame (eq (SK_Balance trader asset)) (ls_state t) (ls_state t') /\
  forall a bal, get_balance (ls_state t) a asset = Ok bal ->
    get_balance (ls_state t') a asset = Ok (bal + (if decide (trader = a) then rest else 0)).
Proof.
  intros H0 H. destruct (Z.ltb_spec 0 rest) as [|Hz].
  - pose proof (credit_spec _ _ _ _ _ H) as (? & ? & _).
    split_and!; [done|done|]. intros a bal. by apply credit_balances.
  - apply st_ret_Ok in H as [_ ->]. split_and!; [done|apply frame_refl|].
    intros a bal Hb. rewrite Hb. f_equal. replace rest with 0 by lia. destruct (decide _); lia.
Qed.

(** The run of a successful liquidation, step by step. *)
Lemma liquidate_steps trader m mark liquidator t r t' :
  liquidate_with_incentive trader m mark liquidator t = (Ok (Some r), t') ->
  exists market p t1 t2 s3 t4 t5 size fee reward contribution equity,
    get_market (ls_state t) m = Ok (Some market) /\
    let price := normalize_price market mark in
    should_liquidate (ls_state t) trader m price market = Ok true /\
    liq_book (cancel_trader_orders trader m) t = (Ok t1.1, t1.2) /\
    get_position (ls_state t1.2) trader m = Ok (Some p) /\
    (if le_enable_partial_liquidations (ls_engine t1.2)
     then calculate_partial_liquidation_size p price market else Ok (pos_size p)) = Ok size /\
    liquidation_fees (ls_engine t1.2) market size price = Ok (fee, reward, contribution) /\
    position_equity p price = Ok equity /\
    use_insurance m equity fee t1.2 = (Ok (lr_insurance_fund_usage r), t2) /\
    shrink_position trader m size p CannotPartiallyLiquidateZero (ls_state t2) = (Ok tt, s3) /\
    credit liquidator (m_quote_asset_id market) reward (with_ls_state s3 t2) = (Ok tt, t4) /\
    contribute m contribution t4 = (Ok tt, t5) /\
    (if 0 <? saturating_sub equity fee
     then credit trader (m_quote_asset_id market) (saturating_sub equity fee) else st_ret tt) t5
      = (Ok tt, t') /\
    r = {| lr_trader := trader; lr_market_id := m; lr_liquidated_size := size;
           lr_liquidation_price := price; lr_liquidation_fee := fee;
           lr_remaining_equity := saturating_sub equity fee; lr_liquidator := Some liquidator;
           lr_liquidator_reward := reward; lr_insurance_fund_contribution := contribution;
           lr_insurance_fund_usage := lr_insurance_fund_usage r |}.
Proof.
  intros H. unfold liquidate_with_incentive in H.
  apply st_bind_Ok in H as ([] & t0 & H0 & H). apply st_guard_Ok in H0 as (_ & -> & _).
  apply st_bind_Ok in H as (fm & t0 & H0 & H). apply liq_read_Ok in H0 as [Gm ->].
  apply st_bind_Ok in H as (market & t0 & H0 & H). apply st_lift_Ok in H0 as [H0 ->].
  apply ok_or_Ok in H0 as ->.
  apply st_bind_Ok in H as (should & t0 & H0 & H). apply st_read_Ok in H0 as [Hsh ->].
  destruct should; [|by apply st_ret_Ok in H as [? _]]. cbn [negb] in H.
  apply st_bind_Ok in H as (ids & t1 & Hc & H).
  apply st_bind_Ok in H as (fp & t0 & H0 & H). apply liq_read_Ok in H0 as [Gp ->].
  apply st_bind_Ok in H as (p & t0 & H0 & H). apply st_lift_Ok in H0 as [H0 ->].
  apply ok_or_Ok in H0 as ->.
  apply st_bind_Ok in H as (e & t0 & H0 & H). apply st_gets_Ok in H0 as [-> ->].
  apply st_bind_Ok in H as (size & t0 & Hsz & H). apply st_lift_Ok in Hsz as [Hsz ->].
  apply st_bind_Ok in H as ([[fee reward] contribution] & t0 & Hfee & H).
  apply st_lift_Ok in Hfee as [Hfee ->].
  apply st_bind_Ok in H as (equity & t0 & Heq & H). apply st_lift_Ok in Heq as [Heq ->].
  apply st_bind_Ok in H as (used & t2 & Hu & H).
  apply st_bind_Ok in H as ([] & t3 & Hsp & H).
  apply st_bind_Ok in H as ([] & t4 & Hcr & H).
  apply st_bind_Ok in H as ([] & t5 & Hct & H).
  apply st_bind_Ok in H as ([] & t6 & Hct2 & H).
  apply st_ret_Ok in H as [[= ->] ->].
  unfold st_zoom in Hsp.
  destruct (shrink_position trader m size p CannotPartiallyLiquidateZero (ls_state t2))
    as [rs s3] eqn:Es. injection Hsp as -> <-.
  by exists market, p, (ids, t1), t2, s3, t4, t5, size, fee, reward, contribution, equity.
Qed.
Lemma liquidation_size_range e p price market size :
  Position_ok p -> Market_ok market ->
  (if le_enable_partial_liquidations e
   then calculate_partial_liquidation_size p price market else Ok (pos_size p)) = Ok size ->
  0 <= size <= pos_size p.
Proof.
  intros Hp Hm H. destruct (le_enable_partial_liquidations e).
  - by apply partial_size_bounds in H as (? & _).
  - injection H as <-. destruct Hp as (Hs & _). unfold is_u64 in Hs. lia.
Qed.

(** C19: the contract of a liquidation that succeeds, for a market, position and
    price of the stored types, an insurance fund whose books balance, and fee
    shares of reward and insurance that are not negative and together at most
    10000 basis points.  It only happens to a position that [should_liquidate]
    condemns.  A partial liquidation stores the position less exactly the
    liquidated size and the proportional margin; a full one withdraws the
    position's buffered write, so its key reads what the last commits left there:
    nothing when the position was never committed, else the committed position
    again.  Reward and insurance contribution share the fee without exceeding
    it; the liquidator is credited the reward and the trader what is left of the
    equity; the insurance fund pays at most its balance, its books stay balanced,
    no other fund moves. *)
Theorem liquidation_contract trader m mark liquidator t r t' market p :
  is_u64 mark -> get_market (ls_state t) m = Ok (Some market) -> Market_ok market ->
  get_position (ls_state t) trader m = Ok (Some p) -> Position_ok p ->
  fund_ok (fund_of t m) ->
  0 <= fst (le_fee_split (ls_engine t)) -> 0 <= snd (le_fee_split (ls_engine t)) ->
  fst (le_fee_split (ls_engine t)) + snd (le_fee_split (ls_engine t)) <= 10000 ->
  liquidate_with_incentive trader m mark liquidator t = (Ok (Some r), t') ->
  should_liquidate (ls_state t) trader m (normalize_price market mark) market = Ok true /\
  lr_trader r = trader /\ lr_market_id r = m /\ lr_liquidator r = Some liquidator /\
  liquidation_outcome market p t t' r.
Proof.
  intros Hmark Gm Hm Gp Hp Hfund Hf1 Hf2 Hf3 H.
  apply liquidate_steps in H as (market' & p' & [ids t1] & t2 & s3 & t4 & t5 & size & fee & reward &
    contribution & equity & Gm' & Hdue & Hc & Gp' & Hsz & Hfee & Heq & Hu & Hsp & Hcr & Hct & Hct2 & Er).
  rewrite Gm in Gm'. injection Gm' as <-. cbn [fst snd] in *.
  apply (liq_book_Ok _ _ _ _ _ (frames_cancel_trader_orders trader m)) in Hc as [Ee Fc].
  rewrite (get_position_frame _ _ _ _ _ Fc) in Gp' by (by intros []). rewrite Gp in Gp'.
  injection Gp' as <-. rewrite Ee in Hfee.
  pose proof (normalize_price_u64 market mark Hmark) as Hprice.
  apply liquidation_size_range in Hsz; [|done..].
  apply liquidation_fees_split in Hfee as (Hfe & Hr & Hct0 & Hsplit);
    [|lia|apply Hprice|done|done|done|done].
  apply position_equity_Ok in Heq; [|done|done].
  assert (Hf1' : fund_of t1 m = fund_of t m) by (unfold fund_of; by rewrite Ee).
  apply use_insurance_spec in Hu as (Es2 & Of2 & Hused & Fb2 & Fp2 & Fc2); [|by rewrite Hf1'].
  apply shrink_position_spec in Hsp as [Fs Hpos]; [|done|lia]. rewrite Es2 in Fs, Hpos.
  pose proof (contribute_spec _ _ _ _ Hct) as (Es5 & Of5 & Fb5 & Fc5 & Fp5 & Hcap).
  pose proof (credit_spec _ _ _ _ _ Hcr) as (Ee4 & F4 & _).
  assert (Hf4 : forall m', fund_of t4 m' = fund_of t2 m') by (intros; unfold fund_of; by rewrite Ee4).
  apply return_equity_spec in Hct2 as (Ee6 & F6 & Hbal6); [|unfold saturating_sub; lia].
  assert (Hf6 : forall m', fund_of t' m' = fund_of t5 m') by (intros; unfold fund_of; by rewrite Ee6).
  assert (Fbal : frame (fun k => exists a i, k = SK_Balance a i) s3 (ls_state t')).
  { eapply frame_trans; [|eapply frame_weaken; [|exact F6]]; [|by intros k <-; eauto].
    rewrite Es5. eapply frame_weaken; [|exact F4]. by intros k <-; eauto. }
  rewrite Er. split_and!; [done|done|done|done|]. rewrite Heq in *.
  constructor; cbn [lr_trader lr_market_id lr_liquidated_size lr_liquidation_price
    lr_liquidation_fee lr_remaining_equity lr_liquidator lr_liquidator_reward
    lr_insurance_fund_contribution lr_insurance_fund_usage].
  - done.
  - rewrite (get_position_frame _ _ _ _ _ Fbal) by (by intros (? & ? & ?)).
    rewrite <- (committed_position_frame _ _ _ trader m Fc).
    destruct Hpos as [[Hle Hsv]|[Hlt Hpp]]; [left|right]; by (split; [lia|]).
  - done.
  - done.
  - unfold saturating_sub. done.
  - by rewrite Hused, Hf1'.
  - rewrite Hf6, Fb5, Hf4, Fb2, Hf1'. lia.
  - rewrite Hf6. unfold fund_ok in *. rewrite Fb5, Fp5, Fc5, Hf4, Fb2, Fp2, Fc2, Hf1'.
    rewrite Hf4, Fc2, Hf1' in Hcap. rewrite Hused, Hf1'. lia.
  - intros m' Hne. rewrite Hf6, Of5, Hf4, Of2 by done. unfold fund_of. by rewrite Ee.
  - intros who bal Hb.
    assert (Hb3 : get_balance s3 who (m_quote_asset_id market) = Ok bal).
    { rewrite (get_balance_frame _ _ _ _ _ Fs) by (by intros [?|?]).
      rewrite (get_balance_frame _ _ _ _ _ Fc); [done|]. by intros []. }
    pose proof (credit_balances _ _ _ _ _ who bal Hcr Hb3) as Hb4. rewrite <- Es5 in Hb4.
    rewrite (Hbal6 _ _ Hb4). f_equal. f_equal. f_equal.
    destruct (decide (liquidator = who)), (decide (Some liquidator = Some who)); congruence.
Qed.
End effects.

(** * Witnesses *)

(** Trader 1 is long 10 at 50000 with a margin of 50000; the price falls to 46000. *)
Definition sm_liq : StateManager := snd (set_position 1 0 demo_position sm_market).
Definition demo_liq : LiqState :=
  {| ls_engine := LiquidationEngine_default; ls_book := OrderbookManager_new; ls_state := sm_liq |}.
Definition demo_result : LiquidationResult := {|
  lr_trader := 1; lr_market_id := 0; lr_liquidated_size := 1; lr_liquidation_price := 46000;
  lr_liquidation_fee := 460; lr_remaining_equity := 9540; lr_liquidator := Some 2;
  lr_liquidator_reward := 230; lr_insurance_fund_contribution := 230;
  lr_insurance_fund_usage := 0 |}.

Lemma demo_position_ok : Position_ok demo_position.
Proof. vm_compute; intuition congruence. Qed.
Lemma btc_perp_ok : Market_ok btc_perp.
Proof. vm_compute; intuition congruence. Qed.
Lemma sm_liq_position : get_position sm_liq 1 0 = Ok (Some demo_position).
Proof. vm_compute; reflexivity. Qed.
Lemma sm_liq_market : get_market sm_liq 0 = Ok (Some btc_perp).
Proof. vm_compute; reflexivity. Qed.

Lemma liquidation_criteria_agree_witness :
  exists strict exact, check_liquidation sm_liq 1 0 46000 = Ok strict /\
    should_liquidate sm_liq 1 0 46000 btc_perp = Ok exact /\ exact = true.
Proof.
  destruct (liquidation_criteria_agree sm_liq 1 0 46000 btc_perp demo_position
    demo_position_ok btc_perp_ok) as (a & b & H1 & H2 & H3 & _);
    [vm_compute; intuition congruence|reflexivity|reflexivity|vm_compute; congruence
    |vm_compute; congruence|vm_compute; congruence|exact sm_liq_position|exact sm_liq_market|].
  exists a, b. split; [exact H1|]. split; [exact H2|]. apply H3. reflexivity.
Defined.

Lemma partial_liquidation_size_sound_witness :
  calculate_partial_liquidation_size demo_position 46000 btc_perp = Ok 1 /\ 0 <= 1 <= 10.
Proof.
  assert (E : calculate_partial_liquidation_size demo_position 46000 btc_perp = Ok 1)
    by (vm_compute; reflexivity).
  split; [exact E|].
  exact (proj1 (partial_liquidation_size_sound demo_position 46000 btc_perp 1
    demo_position_ok btc_perp_ok E)).
Defined.

Lemma liquidation_contract_witness :
  exists t', liquidate_with_incentive 1 0 46000 2 demo_liq = (Ok (Some demo_result), t') /\
    liquidation_outcome btc_perp demo_position demo_liq t' demo_result.
Proof.
  pose (run := liquidate_with_incentive 1 0 46000 2 demo_liq).
  assert (E : fst run = Ok (Some demo_result)) by (vm_compute; reflexivity).
  assert (R : liquidate_with_incentive 1 0 46000 2 demo_liq = (Ok (Some demo_result), snd run))
    by (exact (run_result (liquidate_with_incentive 1 0 46000 2) demo_liq _ E)).
  exists (snd run). split; [exact R|].
  destruct (liquidation_contract 1 0 46000 2 demo_liq demo_result (snd run) btc_perp demo_position)
    as (_ & _ & _ & _ & H);
    [vm_compute; intuition congruence|exact sm_liq_market|exact btc_perp_ok
    |exact sm_liq_position|exact demo_position_ok|vm_compute; intuition congruence
    |vm_compute; congruence|vm_compute; congruence|vm_compute; congruence|exact R|exact H].
Defined.
