(* ===== verification/Services.v ===== *)
(** The domain services of the engine (crates/engine/src/services/): accounts,
    orders, positions and agents, over the state manager, the order book and
    the events emitted so far. *)
From stdpp Require Import base gmap sets list sorting strings.
From Stdlib Require Import ZArith Lia.
From S2P Require Import Prelude Types Storage State Tx EngineBase Orderbook Matching Position Risk.

(** [ServiceContext]: the events of the current transaction. *)
Record ServiceContext := { events : list Event }.
Definition ServiceContext_new : ServiceContext := {| events := [] |}.
Definition ctx_emit (event : Event) (c : ServiceContext) : ServiceContext :=
  {| events := events c ++ [event] |}.
(** [std::mem::take] *)
Definition ctx_take_events (c : ServiceContext) : list Event * ServiceContext :=
  (events c, ServiceContext_new).

Section services.
Context {B : Backend}.

(** What the services borrow mutably from the engine. *)
Record SvcState := {
  ss_state : StateManager;
  ss_context : ServiceContext;
  ss_orderbook : OrderbookManager;
}.
Notation SvcM A := (ST SvcState EngineError A).

Definition with_ss_state (s : StateManager) (t : SvcState) : SvcState :=
  {| ss_state := s; ss_context := ss_context t; ss_orderbook := ss_orderbook t |}.
Definition with_ss_context (c : ServiceContext) (t : SvcState) : SvcState :=
  {| ss_state := ss_state t; ss_context := c; ss_orderbook := ss_orderbook t |}.
Definition with_ss_orderbook (b : OrderbookManager) (t : SvcState) : SvcState :=
  {| ss_state := ss_state t; ss_context := ss_context t; ss_orderbook := b |}.

Definition svc_state {A} (m : ST StateManager StateError A) : SvcM A :=
  st_zoom ss_state with_ss_state (lift_state m).
Definition svc_engine {A} (m : ST StateManager EngineError A) : SvcM A :=
  st_zoom ss_state with_ss_state m.
Definition svc_read {A} (f : StateManager -> result StateError A) : SvcM A :=
  st_read (fun t => state_result (f (ss_state t))).
Definition svc_book {A} (m : ST (OrderbookManager * StateManager) EngineError A) : SvcM A :=
  st_zoom (fun t => (ss_orderbook t, ss_state t))
    (fun '(b, s) t => with_ss_orderbook b (with_ss_state s t)) m.
Definition emit (event : Event) : SvcM unit :=
  st_modify (fun t => with_ss_context (ctx_emit event (ss_context t)) t).

(** * Accounts (account_service.rs) *)

Definition update_balance (address : Address) (asset_id amount : Z) (is_credit : bool)
    (reason : BalanceChangeReason) : SvcM unit :=
  let! old_balance := svc_read (fun s => get_balance s address asset_id) in
  let! new_balance := st_lift (
    if is_credit then add_or_overflow old_balance amount
    else if old_balance <? amount then Err InsufficientBalance
    else Ok (old_balance - amount)) in
  svc_state (set_balance address asset_id new_balance) ;;
  emit (EvBalanceChanged address asset_id old_balance new_balance reason).

Definition deposit (from : Address) (d : DepositTx) : SvcM unit :=
  update_balance from (dep_asset_id d) (dep_amount d) true BCR_Deposit.

Definition withdraw (from : Address) (w : WithdrawTx) : SvcM unit :=
  update_balance from (wd_asset_id w) (wd_amount w) false BCR_Withdraw.

Definition transfer (from : Address) (t : TransferTx) : SvcM unit :=
  st_guard (negb (from =? tr_to t)) (EngOther TransferToSelf) ;;
  let! found := svc_read (fun s => get_asset s (tr_asset_id t)) in
  let! asset := st_lift (ok_or (EngOther AssetNotFound) found) in
  st_guard (a_is_collateral asset) (EngOther AssetNotTransferrable) ;;
  let! sender_balance := svc_read (fun s => get_balance s from (tr_asset_id t)) in
  st_guard (negb (sender_balance <? tr_amount t)) InsufficientBalance ;;
  let new_sender_balance := sender_balance - tr_amount t in
  svc_state (set_balance from (tr_asset_id t) new_sender_balance) ;;
  let! recipient_balance := svc_read (fun s => get_balance s (tr_to t) (tr_asset_id t)) in
  let! new_recipient_balance := st_lift (add_or_overflow recipient_balance (tr_amount t)) in
  svc_state (set_balance (tr_to t) (tr_asset_id t) new_recipient_balance) ;;
  emit (EvTransfer from (tr_to t) (tr_asset_id t) (tr_amount t)).

Definition bridge_deposit (operator : Address) (d : BridgeDepositTx) : SvcM unit :=
  let! is_operator := svc_read (fun s => is_bridge_operator s operator) in
  st_guard is_operator Unauthorized ;;
  let! found := svc_read (fun s => get_asset s (bd_asset_id d)) in
  let! _ := st_lift (ok_or (EngOther AssetNotFound) found) in
  let! old_balance := svc_read (fun s => get_balance s (bd_user d) (bd_asset_id d)) in
  let! new_balance := st_lift (add_or_overflow old_balance (bd_amount d)) in
  svc_state (set_balance (bd_user d) (bd_asset_id d) new_balance) ;;
  emit (EvBridgeDeposit operator (bd_user d) (bd_asset_id d) (bd_amount d)
          (bd_external_tx_hash d)).

Definition bridge_withdraw (operator : Address) (w : BridgeWithdrawTx) : SvcM unit :=
  let! is_operator := svc_read (fun s => is_bridge_operator s operator) in
  st_guard is_operator Unauthorized ;;
  let! found := svc_read (fun s => get_asset s (bw_asset_id w)) in
  let! _ := st_lift (ok_or (EngOther AssetNotFound) found) in
  let! old_balance := svc_read (fun s => get_balance s (bw_user w) (bw_asset_id w)) in
  st_guard (negb (old_balance <? bw_amount w)) InsufficientBalance ;;
  let new_balance := old_balance - bw_amount w in
  svc_state (set_balance (bw_user w) (bw_asset_id w) new_balance) ;;
  emit (EvBridgeWithdraw operator (bw_user w) (bw_asset_id w) (bw_amount w) (bw_destination w)
          (bw_external_tx_hash w)).

(** * Orders (order_service.rs) *)

Definition process_fill (fill : Fill) (market : Market) : SvcM unit :=
  svc_engine (update_position (f_taker fill) (f_market_id fill) (f_size fill) (f_price fill)
    (f_taker_is_buy fill) (m_initial_margin_bps market)) ;;
  svc_engine (update_position (f_maker fill) (f_market_id fill) (f_size fill) (f_price fill)
    (negb (f_taker_is_buy fill)) (m_initial_margin_bps market)) ;;
  emit (EvOrderFilled (f_maker_order_id fill) (f_taker_order_id fill) (f_maker fill)
    (f_taker fill) (f_market_id fill) (f_price fill) (f_size fill) (f_taker_is_buy fill) 0 0).

(** The checks of [place_order] before anything is written. *)
Definition validate_order (market : Market) (o : PlaceOrderTx) : result EngineError unit :=
  if (0 <? po_price o) && negb (validate_price market (po_price o))
  then Err (EngOther (PriceOffTick (po_price o) (m_tick_size market)))
  else if po_size o <? m_min_order_size market
  then Err (EngOther (SizeBelowMin (po_size o) (m_min_order_size market)))
  else if m_max_order_size market <? po_size o
  then Err (EngOther (SizeAboveMax (po_size o) (m_max_order_size market)))
  else Ok tt.

Definition new_order (order_id : Z) (trader : Address) (version : Z) (o : PlaceOrderTx) : Order := {|
  o_id := order_id; o_market_id := po_market_id o; o_owner := trader; o_is_buy := po_is_buy o;
  o_price := po_price o; o_original_size := po_size o; o_remaining_size := po_size o;
  o_status := Active; o_created_at := version; o_reduce_only := po_reduce_only o;
  o_post_only := po_post_only o |}.

(** The last part: what happens to what was not filled. *)
Definition settle_order (order_id : Z) (updated_order : Order) (o : PlaceOrderTx) : SvcM unit :=
  if o_remaining_size updated_order =? 0 then
    svc_state (set_order order_id (set_status Filled updated_order))
  else
    match po_time_in_force o with
    | GTC | PostOnly =>
        let updated_order := set_status Active updated_order in
        svc_state (set_order order_id updated_order) ;;
        svc_state (add_active_order (po_market_id o) order_id) ;;
        st_modify (fun t => with_ss_orderbook (add_order order_id updated_order (ss_orderbook t)) t)
    | IOC => svc_state (set_order order_id (set_status Cancelled updated_order))
    | FOK =>
        if 0 <? o_remaining_size updated_order then st_fail OrderNotFilled else st_ret tt
    end.

Definition place_order (trader : Address) (o : PlaceOrderTx) : SvcM Z :=
  let! found := svc_read (fun s => get_market s (po_market_id o)) in
  let! market := st_lift (ok_or MarketNotFound found) in
  st_lift (validate_order market o) ;;
  st_read (fun t => check_order_allowed (ss_state t) trader o) ;;
  let! order_id := svc_state next_order_id in
  let! version := st_gets (fun t => sm_version (ss_state t)) in
  let order := new_order order_id trader version o in
  let! fills := svc_book (match_order order market) in
  st_for fills (fun fill => process_fill fill market) ;;
  let total_filled := as_u64 (sumZ f_size fills) in
  let updated_order :=
    set_remaining_size (saturating_sub (o_remaining_size order) total_filled) order in
  emit (EvOrderPlaced order_id trader (po_market_id o) (po_is_buy o) (po_price o) (po_size o)
    (po_order_type o)) ;;
  settle_order order_id updated_order o ;;
  st_ret order_id.

Definition cancel_order (trader : Address) (c : CancelOrderTx) : SvcM unit :=
  let! found := svc_read (fun s => get_order s (co_order_id c)) in
  let! order := st_lift (ok_or OrderNotFound found) in
  st_guard (o_owner order =? trader) Unauthorized ;;
  st_guard (bool_decide (o_status order = Active)) OrderNotFound ;;
  st_modify (fun t =>
    with_ss_orderbook (remove_order (co_order_id c) order (ss_orderbook t)) t) ;;
  let order := set_status Cancelled order in
  svc_state (set_order (co_order_id c) order) ;;
  svc_state (remove_active_order (o_market_id order) (co_order_id c)) ;;
  emit (EvOrderCancelled (co_order_id c) trader (o_market_id order) (o_remaining_size order)).

(** * Positions and agents (position_service.rs, agent_service.rs) *)

Definition close_order (close : ClosePositionTx) (position : Position) : PlaceOrderTx := {|
  po_market_id := cp_market_id close;
  po_is_buy := negb (pos_is_long position);
  po_order_type := OT_Market;
  po_price := 0;
  po_size := if cp_size close =? 0 then pos_size position
             else Z.min (cp_size close) (pos_size position);
  po_time_in_force := IOC;
  po_reduce_only := true;
  po_post_only := false |}.

Definition close_position (trader : Address) (close : ClosePositionTx) : SvcM unit :=
  let! found := svc_read (fun s => get_position s trader (cp_market_id close)) in
  let! position := st_lift (ok_or PositionNotFound found) in
  place_order trader (close_order close position) ;;
  st_ret tt.

Definition set_agent (account : Address) (a : SetAgentTx) : SvcM unit :=
  emit (EvAgentSet account (sa_agent a) (sa_permissions a)).
Definition remove_agent (account : Address) (a : RemoveAgentTx) : SvcM unit :=
  emit (EvAgentRemoved account (ra_agent a)).

End services.

(** * Runs of the services *)

Section runs.
Context {B : Backend} {Bok : BackendOk B}.
Implicit Types (s : StateManager) (t : SvcState).

Lemma svc_state_Ok {A} (m : ST StateManager StateError A) t a t' :
  svc_state m t = (Ok a, t') ->
  m (ss_state t) = (Ok a, ss_state t') /\ ss_context t' = ss_context t /\
  ss_orderbook t' = ss_orderbook t.
Proof.
  unfold svc_state, st_zoom, lift_state, st_map_err. intros H.
  destruct (m (ss_state t)) as [[|] s]; by simplify_eq/=.
Qed.

Lemma svc_state_run {A} (m : ST StateManager StateError A) t a s' :
  m (ss_state t) = (Ok a, s') -> svc_state m t = (Ok a, with_ss_state s' t).
Proof. unfold svc_state, st_zoom, lift_state, st_map_err. by intros ->. Qed.

Lemma svc_read_bind {A C} (f : StateManager -> result StateError A) (k : A -> ST SvcState EngineError C) t a :
  f (ss_state t) = Ok a -> st_bind (svc_read f) k t = k a t.
Proof. intros H. unfold svc_read. apply st_read_bind. unfold state_result. by rewrite H. Qed.

Lemma svc_read_Ok {A} (f : StateManager -> result StateError A) t a t' :
  svc_read f t = (Ok a, t') -> f (ss_state t) = Ok a /\ t' = t.
Proof.
  unfold svc_read, state_result. intros H. apply st_read_Ok in H as [H ->].
  by apply map_err_Ok in H.
Qed.

Lemma set_balance_run a i v t :
  exists s', svc_state (set_balance a i v) t = (Ok tt, with_ss_state s' t) /\
    get_balance s' a i = Ok v /\ frame (eq (SK_Balance a i)) (ss_state t) s'.
Proof.
  destruct (set_balance_succeeds a i v (ss_state t)) as [s' H]. exists s'. split_and!.
  - by apply svc_state_run.
  - by eapply get_balance_set_same.
  - eapply frames_run_id; [apply frames_set_balance|done].
Qed.

(** C24: deposits and withdrawals, on every branch.  A deposit adds the
    amount unless the sum overflows a [u128], a withdrawal subtracts it unless
    the balance is short; on success exactly that balance changes and exactly
    one event reports the old and the new value; on failure nothing changes. *)
Theorem update_balance_exact t a i amount is_credit reason old :
  get_balance (ss_state t) a i = Ok old -> 0 <= old -> 0 <= amount ->
  let ok := if is_credit : bool then old + amount <=? U128_MAX else amount <=? old in
  let new := if is_credit then old + amount else old - amount in
  if ok
  then exists t', update_balance a i amount is_credit reason t = (Ok tt, t') /\
    get_balance (ss_state t') a i = Ok new /\ 0 <= new /\
    frame (eq (SK_Balance a i)) (ss_state t) (ss_state t') /\
    events (ss_context t') = events (ss_context t) ++ [EvBalanceChanged a i old new reason]
  else update_balance a i amount is_credit reason t =
       (Err (if is_credit then Overflow else InsufficientBalance), t).
Proof.
  intros Hb Ho Ha ok new. unfold update_balance.
  destruct ok eqn:Hok; unfold ok in Hok.
  - assert (Hnew : (if is_credit then add_or_overflow old amount
      else if old <? amount then Err InsufficientBalance else Ok (old - amount)) = Ok new).
    { unfold new. destruct is_credit; apply Z.leb_le in Hok.
      - by apply add_fits.
      - by destruct (Z.ltb_spec old amount); [lia|]. }
    destruct (set_balance_run a i new t) as (s' & R & G & F).
    exists (with_ss_context (ctx_emit (EvBalanceChanged a i old new reason) (ss_context t))
      (with_ss_state s' t)).
    split_and!; [|exact G| |exact F|reflexivity].
    + rewrite (svc_read_bind _ _ _ _ Hb), Hnew. erewrite st_bind_eq by reflexivity.
      erewrite st_bind_eq by exact R. reflexivity.
    + unfold new. destruct is_credit; apply Z.leb_le in Hok; lia.
  - rewrite (svc_read_bind _ _ _ _ Hb). destruct is_credit; apply Z.leb_gt in Hok.
    + unfold add_or_overflow, checked_add_u128.
      by destruct (Z.leb_spec (old + amount) U128_MAX); [lia|].
    + by destruct (Z.ltb_spec old amount); [|lia].
Qed.

(** The successful and the failing runs of [transfer]. *)
Lemma transfer_run from tr t asset bf bt :
  from <> tr_to tr ->
  get_asset (ss_state t) (tr_asset_id tr) = Ok (Some asset) -> a_is_collateral asset = true ->
  get_balance (ss_state t) from (tr_asset_id tr) = Ok bf ->
  get_balance (ss_state t) (tr_to tr) (tr_asset_id tr) = Ok bt ->
  tr_amount tr <= bf ->
  exists t', transfer from tr t =
    (if bt + tr_amount tr <=? U128_MAX then Ok tt else Err Overflow, t') /\
    get_balance (ss_state t') from (tr_asset_id tr) = Ok (bf - tr_amount tr) /\
    get_balance (ss_state t') (tr_to tr) (tr_asset_id tr) =
      Ok (if bt + tr_amount tr <=? U128_MAX then bt + tr_amount tr else bt) /\
    frame (fun k => k = SK_Balance from (tr_asset_id tr) \/ k = SK_Balance (tr_to tr) (tr_asset_id tr))
      (ss_state t) (ss_state t').
Proof.
  intros Hne Hasset Hcol Hbf Hbt Hle. unfold transfer.
  destruct (Z.eqb_spec from (tr_to tr)) as [|_]; [done|].
  unfold st_guard at 1, negb at 1. erewrite st_bind_eq by reflexivity.
  rewrite (svc_read_bind _ _ _ _ Hasset). erewrite st_bind_eq by reflexivity.
  rewrite Hcol. unfold st_guard at 1. erewrite st_bind_eq by reflexivity.
  rewrite (svc_read_bind _ _ _ _ Hbf).
  destruct (Z.ltb_spec bf (tr_amount tr)) as [|_]; [lia|].
  unfold st_guard, negb. erewrite st_bind_eq by reflexivity.
  destruct (set_balance_run from (tr_asset_id tr) (bf - tr_amount tr) t) as (s1 & R1 & G1 & F1).
  erewrite st_bind_eq by exact R1.
  assert (Hbt1 : get_balance s1 (tr_to tr) (tr_asset_id tr) = Ok bt).
  { rewrite (get_balance_frame _ _ _ _ _ F1); [done|]. congruence. }
  rewrite (svc_read_bind _ _ (with_ss_state s1 t) _ Hbt1).
  unfold add_or_overflow, checked_add_u128.
  destruct (Z.leb_spec (bt + tr_amount tr) U128_MAX) as [Hfit|Hover].
  - erewrite st_bind_eq by reflexivity.
    destruct (set_balance_run (tr_to tr) (tr_asset_id tr) (bt + tr_amount tr) (with_ss_state s1 t))
      as (s2 & R2 & G2 & F2). erewrite st_bind_eq by exact R2.
    eexists. split_and!; [reflexivity| |exact G2|].
    + simpl. rewrite (get_balance_frame _ _ _ _ _ F2); [done|]. congruence.
    + simpl. eapply frame_trans; (eapply frame_weaken; [|eassumption]); intros k <-; tauto.
  - exists (with_ss_state s1 t). split_and!; [reflexivity|done|done|].
    eapply frame_weaken; [|exact F1]. intros k <-. by left.
Qed.

(** A transfer moves exactly the amount: the sender had it and loses
    it, the recipient gains it, the sum of the two balances is preserved, no
    other key of the state changes and a self-transfer never succeeds. *)
Theorem transfer_conserves from tr t t' bf bt :
  0 <= tr_amount tr ->
  get_balance (ss_state t) from (tr_asset_id tr) = Ok bf ->
  get_balance (ss_state t) (tr_to tr) (tr_asset_id tr) = Ok bt ->
  transfer from tr t = (Ok tt, t') ->
  from <> tr_to tr /\ tr_amount tr <= bf /\
  get_balance (ss_state t') from (tr_asset_id tr) = Ok (bf - tr_amount tr) /\
  get_balance (ss_state t') (tr_to tr) (tr_asset_id tr) = Ok (bt + tr_amount tr) /\
  bt + tr_amount tr <= U128_MAX /\
  frame (fun k => k = SK_Balance from (tr_asset_id tr) \/ k = SK_Balance (tr_to tr) (tr_asset_id tr))
    (ss_state t) (ss_state t').
Proof.
  intros Ha Hbf Hbt H. pose proof H as H0. unfold transfer in H0.
  apply st_bind_Ok in H0 as ([] & t0 & H1 & H0). apply st_guard_Ok in H1 as (Hne & -> & _).
  apply negb_true_iff, Z.eqb_neq in Hne.
  apply st_bind_Ok in H0 as (fa & t0 & H1 & H0). apply svc_read_Ok in H1 as [Hasset ->].
  apply st_bind_Ok in H0 as (asset & t0 & H1 & H0). apply st_lift_Ok in H1 as [H1 ->].
  apply ok_or_Ok in H1 as ->.
  apply st_bind_Ok in H0 as ([] & t0 & H1 & H0). apply st_guard_Ok in H1 as (Hcol & -> & _).
  apply st_bind_Ok in H0 as (bf' & t0 & H1 & H0). apply svc_read_Ok in H1 as [Hbf' ->].
  rewrite Hbf in Hbf'. injection Hbf' as <-.
  apply st_bind_Ok in H0 as ([] & t0 & H1 & H0). apply st_guard_Ok in H1 as (Hle & -> & _).
  apply negb_true_iff, Z.ltb_ge in Hle.
  destruct (transfer_run from tr t asset bf bt Hne Hasset Hcol Hbf Hbt Hle)
    as (t1 & R & G1 & G2 & F).
  rewrite H in R. destruct (Z.leb_spec (bt + tr_amount tr) U128_MAX); [|done].
  injection R as <-. done.
Qed.

(** A transfer that would overflow the recipient's balance fails after the
    sender was debited, and the debit stays: the amount is lost. *)
Theorem transfer_overflow_burns from tr t asset bf bt :
  from <> tr_to tr ->
  get_asset (ss_state t) (tr_asset_id tr) = Ok (Some asset) -> a_is_collateral asset = true ->
  get_balance (ss_state t) from (tr_asset_id tr) = Ok bf ->
  get_balance (ss_state t) (tr_to tr) (tr_asset_id tr) = Ok bt ->
  tr_amount tr <= bf -> U128_MAX < bt + tr_amount tr ->
  exists t', transfer from tr t = (Err Overflow, t') /\
    get_balance (ss_state t') from (tr_asset_id tr) = Ok (bf - tr_amount tr) /\
    get_balance (ss_state t') (tr_to tr) (tr_asset_id tr) = Ok bt.
Proof.
  intros Hne Hasset Hcol Hbf Hbt Hle Hover.
  destruct (transfer_run from tr t asset bf bt Hne Hasset Hcol Hbf Hbt Hle) as (t' & R & G1 & G2 & _).
  destruct (Z.leb_spec (bt + tr_amount tr) U128_MAX); [lia|]. eauto.
Qed.

(** Only bridge operators mint and burn through the bridge: for anybody
    else both operations fail and change nothing; for an operator a successful
    withdrawal takes exactly the amount from the user, who had it. *)
Theorem bridge_needs_operator operator d w t flag :
  is_bridge_operator (ss_state t) operator = Ok flag ->
  (flag = false -> bridge_deposit operator d t = (Err Unauthorized, t) /\
                   bridge_withdraw operator w t = (Err Unauthorized, t)) /\
  (forall t' bal, get_balance (ss_state t) (bw_user w) (bw_asset_id w) = Ok bal ->
     bridge_withdraw operator w t = (Ok tt, t') ->
     flag = true /\ bw_amount w <= bal /\
     get_balance (ss_state t') (bw_user w) (bw_asset_id w) = Ok (bal - bw_amount w) /\
     frame (eq (SK_Balance (bw_user w) (bw_asset_id w))) (ss_state t) (ss_state t')).
Proof.
  intros Hop. split.
  - intros ->. unfold bridge_deposit, bridge_withdraw. by rewrite !(svc_read_bind _ _ _ _ Hop).
  - intros t' bal Hbal H. unfold bridge_withdraw in H. rewrite (svc_read_bind _ _ _ _ Hop) in H.
    apply st_bind_Ok in H as ([] & t0 & H1 & H). apply st_guard_Ok in H1 as (-> & -> & _).
    apply st_bind_Ok in H as (fa & t0 & H1 & H). apply svc_read_Ok in H1 as [_ ->].
    apply st_bind_Ok in H as (asset & t0 & H1 & H). apply st_lift_Ok in H1 as [_ ->].
    rewrite (svc_read_bind _ _ _ _ Hbal) in H.
    apply st_bind_Ok in H as ([] & t0 & H1 & H). apply st_guard_Ok in H1 as (Hle & -> & _).
    apply negb_true_iff, Z.ltb_ge in Hle.
    destruct (set_balance_run (bw_user w) (bw_asset_id w) (bal - bw_amount w) t) as (s1 & R & G & F).
    erewrite st_bind_eq in H by exact R. injection H as <-. done.
Qed.

End runs.

(** * Witnesses *)

Definition demo_asset : Asset := {|
  a_id := 0; a_symbol := "USDC"; a_name := "USD Coin"; a_decimals := 6; a_is_collateral := true;
  a_collateral_weight_bps := 10000 |}.

(** Asset 0, operator 9, trader 1 with 60000, trader 4 with the largest balance. *)
Definition svc_demo : SvcState := {|
  ss_state := snd (set_bridge_operator 9 true (snd (set_asset 0 demo_asset
                (snd (set_balance 4 0 U128_MAX sm_market)))));
  ss_context := ServiceContext_new; ss_orderbook := OrderbookManager_new |}.

Lemma update_balance_exact_witness :
  exists t', withdraw 1 {| wd_amount := 1000; wd_asset_id := 0; wd_to := 1 |} svc_demo = (Ok tt, t') /\
    get_balance (ss_state t') 1 0 = Ok 59000.
Proof.
  destruct (update_balance_exact svc_demo 1 0 1000 false BCR_Withdraw 60000) as (t' & H & Hb & _);
    [vm_compute; reflexivity|lia|lia|].
  exists t'. split; [exact H|exact Hb].
Defined.

Definition demo_transfer_tx (to : Address) : TransferTx :=
  {| tr_to := to; tr_amount := 1000; tr_asset_id := 0 |}.

Lemma transfer_conserves_witness :
  exists t', transfer 1 (demo_transfer_tx 2) svc_demo = (Ok tt, t') /\
    get_balance (ss_state t') 1 0 = Ok 59000 /\ get_balance (ss_state t') 2 0 = Ok 1000.
Proof.
  pose (run := transfer 1 (demo_transfer_tx 2) svc_demo).
  assert (E : fst run = Ok tt) by (vm_compute; reflexivity).
  exists (snd run). assert (R : transfer 1 (demo_transfer_tx 2) svc_demo = (Ok tt, snd run))
    by (exact (run_result (transfer 1 (demo_transfer_tx 2)) svc_demo _ E)).
  split; [exact R|].
  destruct (transfer_conserves 1 (demo_transfer_tx 2) svc_demo (snd run) 60000 0)
    as (_ & _ & H1 & H2 & _);
    [vm_compute; congruence|vm_compute; reflexivity|vm_compute; reflexivity|exact R|].
  split; [exact H1|exact H2].
Defined.

Lemma transfer_overflow_burns_witness :
  exists t', transfer 1 (demo_transfer_tx 4) svc_demo = (Err Overflow, t') /\
    get_balance (ss_state t') 1 0 = Ok 59000 /\ get_balance (ss_state t') 4 0 = Ok U128_MAX.
Proof.
  destruct (transfer_overflow_burns 1 (demo_transfer_tx 4) svc_demo demo_asset 60000 U128_MAX)
    as (t' & R & H1 & H2);
    [discriminate|vm_compute; reflexivity|reflexivity|vm_compute; reflexivity
    |vm_compute; reflexivity|vm_compute; congruence|vm_compute; reflexivity|].
  exists t'. split; [exact R|]. split; [exact H1|exact H2].
Defined.

Lemma bridge_needs_operator_witness :
  bridge_deposit 8 {| bd_user := 1; bd_amount := 5; bd_asset_id := 0; bd_external_tx_hash := 0 |}
    svc_demo = (Err Unauthorized, svc_demo).
Proof.
  destruct (bridge_needs_operator 8
    {| bd_user := 1; bd_amount := 5; bd_asset_id := 0; bd_external_tx_hash := 0 |}
    {| bw_user := 1; bw_amount := 5; bw_asset_id := 0; bw_destination := 0;
       bw_external_tx_hash := 0 |} svc_demo false) as [H _]; [vm_compute; reflexivity|].
  exact (proj1 (H eq_refl)).
Defined.
