(* ===== verification/Trading.v ===== *)
(** Correctness of the order service: placing and cancelling orders keeps the
    order book in step with the state in every outcome, errors included; what a
    placed order becomes; trading and balances; fills and positions. *)
From stdpp Require Import base gmap sets list sorting strings.
From Stdlib Require Import ZArith Lia.
From S2P Require Import Prelude Types Storage State Tx EngineBase Orderbook Matching Position Risk Services.

(** * The trading invariant *)

Section invariant.
Context {B : Backend} {Bok : BackendOk B}.
Implicit Types (s : StateManager) (t : SvcState) (ob : OrderbookManager).

Definition order_counter s : result StateError Z := get_or_default 0 s SK_NextOrderId.

(** A stored order that is marked active is listed as active in its market. *)
Definition listed s : Prop :=
  forall id o, get_order s id = Ok (Some o) -> o_status o = Active -> id ∈ active s (o_market_id o).

(** The book is in step with the state, the active orders are exactly the listed
    ones and every one of them has an id below the counter. *)
Definition trading_inv ob s : Prop :=
  book_synced ob s /\ listed s /\
  exists n, order_counter s = Ok n /\ forall m id, id ∈ active s m -> id < n.

(** No level holds more than [F] allows. *)
Definition within (F : Z -> bool -> Z -> Z) s : Prop :=
  forall m side p, pl_total_size (level_of s m side p) <= F m side p.

(** The same while [id] has been drawn from the counter and is not yet active. *)
Definition drawn_inv (id : Z) ob s : Prop :=
  book_synced ob s /\ listed s /\
  exists n, order_counter s = Ok n /\ id < n /\ (forall m i, i ∈ active s m -> i < n) /\
    forall m, id ∉ active s m.

Lemma drawn_trading id ob s : drawn_inv id ob s -> trading_inv ob s.
Proof. intros (H & Hl & n & Hn & _ & Hb & _). split_and!; eauto. Qed.

(** Two states with the same orders and active lists. *)
Definition same_orders s s' : Prop :=
  (forall i, get_order s' i = get_order s i) /\
  (forall m, get_active_orders_by_market s' m = get_active_orders_by_market s m).

Lemma frame_same_orders P s s' :
  frame P s s' -> (forall k, trading_keys k -> ~ P k) -> same_orders s s'.
Proof.
  intros F H. split; intros.
  - eapply get_order_frame; [done|]. by apply H.
  - eapply get_or_default_frame; [done|]. by apply H.
Qed.

Lemma same_orders_synced ob s s' : same_orders s s' -> book_synced ob s -> book_synced ob s'.
Proof.
  intros [Ho Hl] [Hs Hb].
  assert (H : forall m, market_ok s' m /\ forall side p, level_of s' m side p = level_of s m side p).
  { intros m. apply market_ok_ext; auto. }
  split; [intros m; apply H|]. intros m side p. rewrite Hb. symmetry.
  apply expected_level_ext. apply H.
Qed.

Lemma same_orders_listed s s' : same_orders s s' -> listed s -> listed s'.
Proof.
  intros [Ho Hl] H id o. rewrite Ho. intros Hg Hst. rewrite (active_of s s' _ (Hl _)). by apply H.
Qed.

Lemma same_orders_within F s s' : state_ok s -> same_orders s s' -> within F s -> within F s'.
Proof.
  intros Hs [Ho Hl] H m side p.
  destruct (market_ok_ext s s' m (Hs m)) as [_ E]; [auto|auto|]. rewrite E. apply H.
Qed.

Lemma drawn_inv_frame P id ob s s' :
  frame P s s' -> (forall k, trading_keys k \/ k = SK_NextOrderId -> ~ P k) ->
  drawn_inv id ob s -> drawn_inv id ob s'.
Proof.
  intros F H (Hb & Hl & n & Hn & Hid & Hlt & Hf).
  assert (Hso : same_orders s s') by (eapply frame_same_orders; [done|auto]).
  assert (Ha : forall m, active s' m = active s m) by (intros m; apply active_of, Hso).
  split; [by eapply same_orders_synced|]. split; [by eapply same_orders_listed|]. exists n. split_and!; [|done| |].
  - rewrite <- Hn. eapply get_or_default_frame; [done|]. by auto.
  - intros m i. rewrite Ha. apply Hlt.
  - intros m. rewrite Ha. apply Hf.
Qed.

(** ** Matching *)

Lemma fills_run_active s fs s' m i :
  state_ok s -> fills_run s fs s' -> i ∈ active s' m -> i ∈ active s m.
Proof.
  intros Hs H. induction H as [|s f s1 fs s2 Hf Hr IH]; [done|]. intros Hi.
  apply IH in Hi; [|by eapply fill_step_state_ok].
  rewrite (fill_step_active' s f s1 Hs Hf) in Hi.
  destruct (_ =? 0); [|done]. by apply list_elem_of_filter in Hi as [_ ?].
Qed.

(** Filling only shrinks levels, and delists exactly the exhausted makers. *)
Lemma fills_run_within F s fs s' : state_ok s -> fills_run s fs s' -> within F s -> within F s'.
Proof.
  intros Hs H. induction H as [|s f s1 fs s2 Hf Hr IH]; [done|]. intros Hw.
  apply IH; [by eapply fill_step_state_ok|]. intros m side p.
  pose proof (fill_step_total s f s1 Hs Hf m side p) as E.
  pose proof (fill_step_size s f s1 Hf) as Hsz.
  specialize (Hw m side p). cbn [pl_total_size level_of] in *. rewrite E.
  destruct (decide _); lia.
Qed.

Lemma fill_step_listed s f s' : state_ok s -> fill_step s f s' -> listed s -> listed s'.
Proof.
  intros Hs Hf Hl id o Ho Hst. rewrite (fill_step_active' s f s' Hs Hf).
  pose proof Hf as [maker Hm Hact Hown Hpr Hside Hsz Hafter Hoth _ _].
  assert (Hrem : remaining_of s (f_maker_order_id f) = o_remaining_size maker)
    by (unfold remaining_of; by rewrite (order_of_Ok _ _ _ Hm)).
  destruct (decide (id = f_maker_order_id f)) as [->|Hne].
  - rewrite Hafter in Ho. injection Ho as <-. rewrite Hrem.
    destruct (after_fill_fields (f_size f) maker) as (_ & -> & _ & _ & _ & Hs1).
    assert (Hx : (o_remaining_size maker - f_size f =? 0) = false).
    { destruct (Z.eqb_spec (o_remaining_size maker - f_size f) 0) as [E|]; [|done].
      unfold after_fill in Hst. cbn [o_remaining_size set_remaining_size] in Hst.
      by rewrite E in Hst. }
    rewrite Hx. apply Z.eqb_neq in Hx. apply (Hl _ maker); [done|]. by rewrite <- Hs1.
  - rewrite Hoth in Ho by done. specialize (Hl _ _ Ho Hst).
    destruct (_ =? 0); [|done]. by apply list_elem_of_filter.
Qed.

Lemma fills_run_listed s fs s' : state_ok s -> fills_run s fs s' -> listed s -> listed s'.
Proof.
  intros Hs H. induction H as [|s f s1 fs s2 Hf Hr IH]; [done|]. intros Hl.
  apply IH; [by eapply fill_step_state_ok|by eapply fill_step_listed].
Qed.

(** [match_order] keeps [drawn_inv], whether it matches or refuses. *)
Lemma match_order_drawn id ob s order market r ob' s' :
  is_u64 (o_remaining_size order) -> is_u64 (o_price order) ->
  drawn_inv id ob s -> match_order order market (ob, s) = (r, (ob', s')) ->
  drawn_inv id ob' s' /\
  match r with Ok fills => fills = reference_match ob s order /\ fills_run s fills s' | Err _ => s' = s end.
Proof.
  intros Hsz Hpr Hinv H. pose proof Hinv as (Hb & Hl & n & Hn & Hid & Hlt & Hf).
  assert (Hrun : o_post_only order = true /\ would_match ob order = Ok true \/
    (o_post_only order = true -> would_match ob order = Ok false)).
  { destruct (o_post_only order); [|by right].
    destruct (would_match_Ok ob order) as [[] ->]; [by left|by right]. }
  destruct Hrun as [[Hp Hw]|Hp].
  - destruct (post_only_run ob s order market Hp Hpr) as [E|[E1 E2]]; [|congruence].
    rewrite H in E. by simplify_eq.
  - destruct (match_order_spec ob s order market Hb Hsz Hp) as (ob1 & s1 & E & Hb1 & R).
    rewrite H in E. simplify_eq. split; [|done]. split; [done|].
    split; [eapply fills_run_listed; [apply Hb|exact R|exact Hl]|]. exists n. split_and!.
    + rewrite <- Hn.
      assert (F : frame trading_keys s s1).
      { pose proof (frames_match_order order market (ob, s)) as F. by rewrite H in F. }
      eapply get_or_default_frame; [exact F|]. by intros [].
    + done.
    + intros m i Hi. eapply Hlt, fills_run_active; [apply Hb|exact R|exact Hi].
    + intros m Hi. eapply Hf, fills_run_active; [apply Hb|exact R|exact Hi].
Qed.

End invariant.

(** * Placing an order *)

Section placing.
Context {B : Backend} {Bok : BackendOk B}.
Implicit Types (s : StateManager) (t : SvcState) (ob : OrderbookManager).

Definition inv t : Prop := trading_inv (ss_orderbook t) (ss_state t).

(** The volume an order may leave resting, and the level it would join. *)
Definition resting_size (o : PlaceOrderTx) : Z :=
  match po_time_in_force o with GTC | PostOnly => po_size o | IOC | FOK => 0 end.
Definition own_level (o : PlaceOrderTx) : Z * bool * Z := (po_market_id o, po_is_buy o, po_price o).
(** The allowance [F] after the order. *)
Definition bump (F : Z -> bool -> Z -> Z) (o : PlaceOrderTx) : Z -> bool -> Z -> Z := fun m side p =>
  F m side p + if decide ((m, side, p) = own_level o) then resting_size o else 0.

(** The invariant with no level above its allowance, and beside it an invariant
    [S] of the rest of the state. *)
Definition inv_in (F : Z -> bool -> Z -> Z) (S : StateManager -> Prop) t : Prop :=
  inv t /\ within F (ss_state t) /\ S (ss_state t).

Lemma bump_le F o m side p : PlaceOrder_ok o -> F m side p <= bump F o m side p.
Proof.
  intros [[H _] _]. unfold bump, resting_size. destruct (decide _); [|lia].
  destruct (po_time_in_force o); lia.
Qed.

Lemma inv_in_bump F S o t : PlaceOrder_ok o -> inv_in F S t -> inv_in (bump F o) S t.
Proof.
  intros Ho (Hi & Hw & HS). split_and!; [done| |done]. intros m side p.
  pose proof (bump_le F o m side p Ho). specialize (Hw m side p). lia.
Qed.

(** Keys of orders, and keys of positions. *)
Definition order_key (k : StateKey) : Prop := trading_keys k \/ k = SK_NextOrderId.
Definition position_only (k : StateKey) : Prop :=
  match k with SK_Position _ _ | SK_PositionIndex _ => True | _ => False end.

Section allowance.
Context (F : Z -> bool -> Z -> Z) (S : StateManager -> Prop).
Context (S_frame : forall P s s', frame P s s' -> (forall k, P k -> order_key k) -> S s -> S s').
Context (S_fill : forall fill market t, is_u64 (f_size fill) -> S (ss_state t) ->
  S (ss_state (snd (process_fill fill market t)))).

(** Ready to settle order [id]: drawn, and the level it may join has room. *)
Definition ready (id : Z) (o : PlaceOrderTx) t : Prop :=
  drawn_inv id (ss_orderbook t) (ss_state t) /\ within F (ss_state t) /\
  S (ss_state t) /\
  F (po_market_id o) (po_is_buy o) (po_price o) + resting_size o <= U64_MAX.

Lemma ready_inv id o t : ready id o t -> inv_in F S t.
Proof. intros (H & Hw & HS & _). split_and!; [by eapply drawn_trading|done|done]. Qed.

Lemma same_orders_level ob s s' m side p :
  book_synced ob s -> same_orders s s' -> level_of s' m side p = level_of s m side p.
Proof.
  intros [Hs _] [Ho Hl].
  destruct (market_ok_ext s s' m (Hs m)) as [_ H]; auto.
Qed.

Lemma ready_frame P id o t t' :
  ss_orderbook t' = ss_orderbook t -> frame P (ss_state t) (ss_state t') ->
  (forall k, trading_keys k \/ k = SK_NextOrderId -> ~ P k) -> S (ss_state t') ->
  ready id o t -> ready id o t'.
Proof.
  intros Eo Hf H HS (Hd & Hw & _ & Hr). unfold ready. rewrite Eo.
  split_and!; [by eapply drawn_inv_frame| |done|done].
  eapply same_orders_within; [apply Hd| |exact Hw]. eapply frame_same_orders; [done|auto].
Qed.


Lemma triple_frames {A} P id o (m : ST SvcState EngineError A) :
  (forall t, ss_orderbook (snd (m t)) = ss_orderbook t) -> frames ss_state P m ->
  (forall k, trading_keys k \/ k = SK_NextOrderId -> ~ P k) ->
  (forall t, S (ss_state t) -> S (ss_state (snd (m t)))) ->
  triple (ready id o) m (fun _ => ready id o) (inv_in F S).
Proof.
  intros Ho Hf H HS t Ht. specialize (Ho t). specialize (Hf t).
  specialize (HS t (proj1 (proj2 (proj2 Ht)))).
  destruct (m t) as [[a|e] t']; [|eapply ready_inv]; by eapply ready_frame.
Qed.

(** Positions of two traders. *)
Lemma position_keys_only a m k : position_keys a m k -> position_only k.
Proof. by intros [-> | ->]. Qed.

Lemma frames_svc_engine {A} P (m : ST StateManager EngineError A) :
  frames id P m -> frames ss_state P (svc_engine m).
Proof. intros H. unfold svc_engine. by eapply frames_zoom; [| |exact H]. Qed.

Lemma frames_emit P e : frames ss_state P (emit e).
Proof. by apply frames_id. Qed.

Lemma frames_process_fill fill market : frames ss_state position_only (process_fill fill market).
Proof.
  unfold process_fill.
  apply frames_bind; [|intros u; apply frames_bind; [|intros u'; apply frames_emit]].
  all: apply frames_svc_engine; eapply frames_weaken; [apply position_keys_only|].
  all: apply frames_update_position.
Qed.

Lemma svc_engine_book {A} (m : ST StateManager EngineError A) t :
  ss_orderbook (snd (svc_engine m t)) = ss_orderbook t.
Proof. unfold svc_engine, st_zoom. by destruct (m _). Qed.

Lemma process_fill_book fill market t :
  ss_orderbook (snd (process_fill fill market t)) = ss_orderbook t.
Proof.
  unfold process_fill, st_bind.
  match goal with |- context [svc_engine ?m t] => pose proof (svc_engine_book m t) as H1;
    destruct (svc_engine m t) as [[[]|] t1] end; [|done].
  match goal with |- context [svc_engine ?m t1] => pose proof (svc_engine_book m t1) as H2;
    destruct (svc_engine m t1) as [[[]|] t2] end; simpl in *; congruence.
Qed.

Lemma triple_process_fill id o fill market :
  is_u64 (f_size fill) ->
  triple (ready id o) (process_fill fill market) (fun _ => ready id o) (inv_in F S).
Proof.
  intros Hsz.
  eapply triple_frames; [apply process_fill_book|apply frames_process_fill| |intros t; by apply S_fill].
  intros k [Hk| ->]; [|by intros []]. intros Hp. by destruct k.
Qed.

Lemma triple_emit id o e : triple (ready id o) (emit e) (fun _ => ready id o) (inv_in F S).
Proof. by intros t Ht. Qed.

(** Drawing an id. *)
Lemma triple_next_order_id o ob s0 :
  triple (fun t => inv_in F S t /\ ss_orderbook t = ob /\ ss_state t = s0 /\
            F (po_market_id o) (po_is_buy o) (po_price o) + resting_size o <= U64_MAX)
    (svc_state next_order_id)
    (fun id t => ready id o t /\ ss_orderbook t = ob /\ same_orders s0 (ss_state t) /\
                 order_counter s0 = Ok id /\ sm_version (ss_state t) = sm_version s0) (inv_in F S).
Proof.
  intros t (((Hb & Hl & n & Hn & Hlt) & Hw & HS) & Eo & Es & Hroom).
  unfold svc_state, st_zoom, lift_state, st_map_err.
  destruct (next_order_id (ss_state t)) as [r s1] eqn:E.
  assert (Hfr : frame (eq SK_NextOrderId) (ss_state t) s1)
    by (eapply frames_run_id; [apply frames_next_order_id|exact E]).
  assert (Hso : same_orders (ss_state t) s1)
    by (eapply frame_same_orders; [exact Hfr|]; intros k Hk <-; exact Hk).
  assert (Ha : forall m, active s1 m = active (ss_state t) m) by (intros m; apply active_of, Hso).
  assert (Hb1 : book_synced (ss_orderbook t) s1) by (by eapply same_orders_synced).
  assert (Hl1 : listed s1) by (by eapply same_orders_listed).
  assert (Hw1 : within F s1) by (eapply same_orders_within; [apply Hb|exact Hso|exact Hw]).
  assert (HS1 : S s1) by (eapply S_frame; [exact Hfr| |exact HS]; by intros k <-; right).
  destruct r as [id|e]; simpl.
  - apply next_order_id_Ok in E as (Hid & _ & Hn'). unfold order_counter in Hn.
    rewrite Hid in Hn. injection Hn as <-. rewrite <- Es. split_and!; [|done|exact Hso|exact Hid|apply Hfr].
    split_and!; cbn [ss_state ss_orderbook with_ss_state]; [|exact Hw1|exact HS1|exact Hroom].
    + split; [exact Hb1|]. split; [exact Hl1|]. exists (id + 1). split_and!; [done|lia| |].
      * intros m i. rewrite Ha. intros Hi. apply Hlt in Hi. lia.
      * intros m. rewrite Ha. intros Hi. apply Hlt in Hi. lia.
  - split; [|by split]. split; [exact Hb1|]. split; [exact Hl1|]. simpl.
    assert (Hs1 : s1 = ss_state t \/ order_counter s1 = Ok n).
    { revert E. unfold next_order_id. unfold st_bind at 1, st_read.
      unfold order_counter in Hn. rewrite Hn. unfold st_bind at 1, st_lift, checked_add_u64.
      destruct (_ <=? _); simpl; [|by intros; simplify_eq; left].
      destruct (set_succeeds serde_num SK_NextOrderId (n + 1) (ss_state t)) as [s2 R].
      erewrite st_bind_eq by exact R. by intros. }
    destruct Hs1 as [->|Hs1]; [eauto|]. exists n. split; [done|]. intros m i. rewrite Ha. apply Hlt.
Qed.

(** Matching the drawn order. *)
Lemma reference_match_fields ob s order f :
  f ∈ reference_match ob s order ->
  f_market_id f = o_market_id order /\ f_taker_is_buy f = o_is_buy order.
Proof. intros (p & i & mk & sz & _ & ->)%greedy_in. done. Qed.

Lemma triple_match id trader version o market ob s1 :
  PlaceOrder_ok o ->
  triple (fun t => ready id o t /\ ss_orderbook t = ob /\ ss_state t = s1)
    (svc_book (match_order (new_order id trader version o) market))
    (fun fills t => ready id o t /\ fills = reference_match ob s1 (new_order id trader version o) /\
       (0 <= sumZ f_size fills <= po_size o) /\ forall f, f ∈ fills -> is_u64 (f_size f)) (inv_in F S).
Proof.
  intros [Hsz Hpr] t ((Hd & Hw & HS & Hr) & Eo & Es). unfold svc_book, st_zoom.
  destruct (match_order (new_order id trader version o) market (ss_orderbook t, ss_state t))
    as [r [ob' s']] eqn:E.
  pose proof E as E'.
  apply (match_order_drawn id) in E as [Hd' Hfills]; [|exact Hsz|exact Hpr|exact Hd].
  destruct r as [fills|e].
  2:{ split; [by eapply drawn_trading|]. cbn [ss_state with_ss_orderbook with_ss_state]. by rewrite Hfills. }
  destruct Hfills as [-> R]. rewrite Eo, Es in *.
  assert (Hpos : forall f, f ∈ reference_match ob s1 (new_order id trader version o) -> 0 <= f_size f).
  { intros f Hf. pose proof (fills_run_size _ _ _ _ R Hf). lia. }
  assert (Hle : sumZ f_size (reference_match ob s1 (new_order id trader version o)) <= po_size o).
  { unfold reference_match. apply (greedy_bounds (new_order id trader version o)); [apply Hsz|].
    intros p i mk Hin. apply list_elem_of_In, in_flat_map in Hin as (q & _ & Hin).
    apply list_elem_of_In in Hin. pose proof Hin as (-> & _)%elem_of_resting.
    eapply makers_at_remaining; [apply Hd|exact Hin]. }
  split; [|split; [done|split; [split; [by apply sumZ_nonneg|exact Hle]|]]].
  2:{ intros f Hf. split; [by apply Hpos|]. etrans; [by apply (sumZ_elem f_size _ f Hpos)|].
      destruct Hsz. lia. }
  - split_and!; [exact Hd'| | |exact Hr].
    2:{ eapply (S_frame trading_keys); [|by intros k Hk; left|exact HS].
        pose proof (frames_match_order (new_order id trader version o) market (ob, s1)) as Hfr.
        rewrite E' in Hfr. exact Hfr. } cbn [ss_state with_ss_orderbook with_ss_state].
    eapply fills_run_within; [apply Hd|exact R|exact Hw].
Qed.
(** Storing an order that is nowhere active changes no level. *)
Lemma drawn_set_order id o ob s s' :
  drawn_inv id ob s -> o_status o <> Active -> set_order id o s = (Ok tt, s') ->
  drawn_inv id ob s' /\ get_order s' id = Ok (Some o) /\ (forall m, active s' m = active s m) /\
  forall m side p, level_of s' m side p = level_of s m side p.
Proof.
  intros ([Hs Hb] & Hli & n & Hn & Hid & Hlt & Hf) Hst H.
  destruct (set_order_spec id o s) as (s1 & R & Hfr & G & O & L).
  rewrite H in R. injection R as <-.
  assert (Ha : forall m, active s' m = active s m) by (intros m; apply active_of, L).
  assert (Hm : forall m, market_ok s' m /\ forall side p, level_of s' m side p = level_of s m side p).
  { intros m. apply market_ok_ext; [done|apply L|]. intros i Hi. apply O. intros ->. by apply (Hf m). }
  split_and!; [|done|done|intros; apply Hm]. split_and!.
  - split; [intros m; apply Hm|]. intros m side p. rewrite Hb. symmetry.
    apply expected_level_ext. apply Hm.
  - intros i o1 Hi Ha1. destruct (decide (i = id)) as [->|Hne]; [congruence|].
    rewrite Ha. apply Hli; [by rewrite <- O|done].
  - exists n. split_and!; [|done| |].
    + rewrite <- Hn. eapply get_or_default_frame; [exact Hfr|]. discriminate.
    + intros m i. rewrite Ha. apply Hlt.
    + intros m. rewrite Ha. apply Hf.
Qed.

Definition final_status (remaining : Z) (tif : TimeInForce) : OrderStatus :=
  if remaining =? 0 then Filled
  else match tif with GTC | PostOnly => Active | IOC | FOK => Cancelled end.

(** What the order [u] (with its final remaining size) has become. *)
Definition settled (id : Z) (u : Order) (o : PlaceOrderTx) (t : SvcState) : Prop :=
  let status := final_status (o_remaining_size u) (po_time_in_force o) in
  get_order (ss_state t) id = Ok (Some (set_status status u)) /\
  (forall m, id ∈ active (ss_state t) m <-> status = Active /\ m = po_market_id o) /\
  (po_time_in_force o = FOK -> o_remaining_size u = 0).

Lemma set_order_settled id u o st t :
  ready id o t -> st = final_status (o_remaining_size u) (po_time_in_force o) ->
  st <> Active -> (po_time_in_force o = FOK -> o_remaining_size u = 0) ->
  match svc_state (set_order id (set_status st u)) t with
  | (Ok _, t') => inv_in F S t' /\ settled id u o t' | (Err _, t') => inv_in F S t' end.
Proof.
  intros (Hd & Hw & HS & _) Hst Hne Hfok.
  destruct (set_order_succeeds id (set_status st u) (ss_state t)) as [s1 R].
  rewrite (svc_state_run _ _ _ _ R).
  destruct (drawn_set_order _ (set_status st u) _ _ _ Hd Hne R) as (Hd1 & G & A & L).
  split.
  { split_and!; [by eapply drawn_trading| |].
    - intros m side p. cbn [ss_state with_ss_state]. rewrite L. apply Hw.
    - eapply S_frame; [eapply frames_run_id; [apply frames_set_order|exact R]| |exact HS].
      by intros k <-; left. }
  unfold settled. rewrite <- Hst. split_and!; [done| |done].
  intros m. cbn [ss_state with_ss_state]. rewrite A. destruct Hd as (_ & _ & n & _ & _ & _ & Hf).
  split; [intros Hi; by apply Hf in Hi|]. by intros [? _].
Qed.

Lemma level_total_nonneg s m side p : state_ok s -> 0 <= pl_total_size (level_of s m side p).
Proof.
  intros Hs. apply sumZ_nonneg. intros i [_ Hi]%elem_of_queue.
  pose proof (live_remaining s m i (Hs m) Hi). lia.
Qed.

(** A resting order is listed, and raises its own level by its size only. *)
Lemma added_listed s id o s' :
  order_added s id o s' -> listed s -> listed s'.
Proof.
  intros Hadd Hl i o1 Hi Hst.
  assert (Ha : forall m, active s' m = if decide (m = o_market_id o) then active s m ++ [id] else active s m).
  { intros m. destruct (decide _) as [->|Hne].
    - unfold active at 1. by rewrite (oa_list _ _ _ _ Hadd).
    - by apply active_of, Hadd. }
  rewrite Ha. destruct (decide (i = id)) as [->|Hne].
  - rewrite (oa_order _ _ _ _ Hadd) in Hi. injection Hi as <-. rewrite decide_True by done.
    apply elem_of_app. right. by apply list_elem_of_singleton.
  - rewrite (oa_others _ _ _ _ Hadd) in Hi by done. specialize (Hl _ _ Hi Hst).
    destruct (decide _) as [E|]; [|done]. apply elem_of_app. by left.
Qed.

Lemma added_within s id u o s' :
  state_ok s -> order_added s id u s' -> (forall m, id ∉ active s m) -> PlaceOrder_ok o ->
  0 < o_remaining_size u <= resting_size o -> (o_market_id u, o_is_buy u, o_price u) = own_level o ->
  F (po_market_id o) (po_is_buy o) (po_price o) + resting_size o <= U64_MAX ->
  within F s -> within (bump F o) s'.
Proof.
  intros Hs Hadd Hfresh Ho Hr [= Em Eb Ep] Hfit Hw m side p.
  assert (Hfit' : pl_total_size (level_of s (o_market_id u) (o_is_buy u) (o_price u)) + o_remaining_size u <= U64_MAX).
  { rewrite Em, Eb, Ep. specialize (Hw (po_market_id o) (po_is_buy o) (po_price o)). lia. }
  assert (Hold : level_of s' m side p = level_of s m side p -> pl_total_size (level_of s' m side p) <= bump F o m side p).
  { intros ->. etrans; [apply Hw|by apply bump_le]. }
  destruct (decide (m = o_market_id u)) as [->|Hne].
  - pose proof (added_level s id u s' Hs Hadd Hfresh ltac:(lia) Hfit' side p) as E.
    destruct (decide _) as [[= -> ->]|_]; [|by apply Hold].
    rewrite E. cbn [level_add_order pl_total_size]. unfold wadd64, as_u64.
    unfold bump. rewrite decide_True by (unfold own_level; congruence).
    etrans; [apply Z.mod_le; [|lia]|].
    + pose proof (level_total_nonneg s (o_market_id u) (o_is_buy u) (o_price u) Hs). lia.
    + specialize (Hw (o_market_id u) (o_is_buy u) (o_price u)). lia.
  - apply Hold. apply (market_ok_ext s s' m (Hs m)); [by apply Hadd|].
    intros i Hi. apply Hadd. intros ->. by apply (Hfresh m).
Qed.

Lemma add_order_settled id u o t :
  PlaceOrder_ok o -> ready id o t -> o_market_id u = po_market_id o -> o_is_buy u = po_is_buy o ->
  o_price u = po_price o -> 0 < o_remaining_size u <= resting_size o ->
  final_status (o_remaining_size u) (po_time_in_force o) = Active ->
  (po_time_in_force o = FOK -> o_remaining_size u = 0) ->
  exists t', (svc_state (set_order id (set_status Active u)) ;;
    svc_state (add_active_order (po_market_id o) id) ;;
    st_modify (fun t => with_ss_orderbook (add_order id (set_status Active u) (ss_orderbook t)) t)) t
    = (Ok tt, t') /\ inv_in (bump F o) S t' /\ settled id u o t'.
Proof.
  intros Ho ((Hb & Hl & n & Hn & Hid & Hlt & Hf) & Hw & HS & Hroom) Em Eb Ep Hr Hst Hfok.
  pose proof (Hw (po_market_id o) (po_is_buy o) (po_price o)) as Hown.
  assert (Hs : state_ok (ss_state t)) by apply Hb.
  destruct (order_added_run (ss_state t) id (set_status Active u) Hs) as (s1 & s2 & R1 & R2 & Hadd).
  { apply Hf. }
  cbn [o_market_id set_status] in R2. rewrite Em in R2.
  exists (with_ss_orderbook (add_order id (set_status Active u) (ss_orderbook t)) (with_ss_state s2 t)).
  pose proof (svc_state_run _ t _ _ R1) as R1'.
  pose proof (svc_state_run _ (with_ss_state s1 t) _ _ R2) as R2'.
  assert (Ha : forall m, active s2 m = if decide (m = po_market_id o) then active (ss_state t) m ++ [id]
    else active (ss_state t) m).
  { intros m. destruct (decide _) as [->|Hne].
    - pose proof (oa_list _ _ _ _ Hadd) as L. cbn [o_market_id set_status] in L. rewrite Em in L.
      unfold active at 1. by rewrite L.
    - apply active_of, (oa_lists _ _ _ _ Hadd). cbn [o_market_id set_status]. by rewrite Em. }
  split_and!.
  - erewrite st_bind_eq by exact R1'. erewrite st_bind_eq by exact R2'. reflexivity.
  - split; [split_and!|split]; cbn [ss_state ss_orderbook with_ss_orderbook with_ss_state].
    + apply (add_order_synced (ss_state t)); try done.
      * cbn [o_remaining_size set_status]. lia.
      * cbn [o_remaining_size set_status o_market_id o_is_buy o_price]. rewrite Em, Eb, Ep. lia.
    + by eapply added_listed.
    + exists n. split.
      * rewrite <- Hn.
        assert (F1 : frame (eq (SK_Order id)) (ss_state t) s1)
          by (eapply frames_run_id; [apply frames_set_order|exact R1]).
        assert (F2 : frame (active_keys (po_market_id o) id) s1 s2)
          by (eapply frames_run_id; [apply frames_add_active_order|exact R2]).
        unfold order_counter. rewrite (get_or_default_frame _ _ _ _ _ _ F2) by (by intros [?|?]).
        eapply get_or_default_frame; [exact F1|discriminate].
      * intros m i. rewrite Ha. destruct (decide _); [|apply Hlt].
        intros [Hi| ->%list_elem_of_singleton]%elem_of_app; [by eapply Hlt|done].
    + eapply (added_within (ss_state t)); [done|exact Hadd|done|done|done| |done|done].
      cbn [o_market_id o_is_buy o_price set_status]. unfold own_level. by rewrite Em, Eb, Ep.
    + eapply (S_frame (fun k => k = SK_Order id \/ active_keys (po_market_id o) id k)); [| |exact HS].
      * eapply frame_trans; (eapply frame_weaken; [|eapply frames_run_id; [|eassumption]]);
          [|apply frames_set_order| |apply frames_add_active_order]; intros k Hk; [left|right]; done.
      * intros k [->|[->| ->]]; by left.
  - unfold settled. rewrite Hst. split_and!; [by apply Hadd| |done].
    intros m. cbn [ss_state with_ss_orderbook with_ss_state]. rewrite Ha.
    destruct (decide _) as [->|Hne].
    + split; [done|]. intros _. apply elem_of_app. right. by apply list_elem_of_singleton.
    + split; [intros Hi; by apply Hf in Hi|]. by intros [_ ?].
Qed.

Lemma triple_settle id u o :
  o_market_id u = po_market_id o -> o_is_buy u = po_is_buy o -> o_price u = po_price o ->
  0 <= o_remaining_size u <= po_size o ->
  PlaceOrder_ok o ->
  triple (ready id o) (settle_order id u o) (fun _ t => inv_in (bump F o) S t /\ settled id u o t)
    (inv_in F S).
Proof.
  intros Em Eb Ep Hr Ho t Ht. unfold settle_order.
  assert (Hdone : forall st, st = final_status (o_remaining_size u) (po_time_in_force o) ->
    st <> Active -> (po_time_in_force o = FOK -> o_remaining_size u = 0) ->
    match svc_state (set_order id (set_status st u)) t with
    | (Ok _, t') => inv_in (bump F o) S t' /\ settled id u o t' | (Err _, t') => inv_in F S t' end).
  { intros st H1 H2 H3. pose proof (set_order_settled id u o st t Ht H1 H2 H3) as H.
    destruct (svc_state _ t) as [[a|e] t']; [|done]. split; [apply inv_in_bump; [done|]|]; apply H. }
  destruct (Z.eqb_spec (o_remaining_size u) 0) as [E|E].
  - apply (Hdone Filled); try done. unfold final_status. by rewrite E.
  - assert (Hst : forall st, st = match po_time_in_force o with GTC | PostOnly => Active | _ => Cancelled end ->
      final_status (o_remaining_size u) (po_time_in_force o) = st).
    { intros st ->. unfold final_status. by destruct (Z.eqb_spec (o_remaining_size u) 0). }
    destruct (po_time_in_force o) eqn:Et.
    1, 4: destruct (add_order_settled id u o t Ho Ht Em Eb Ep) as (t' & -> & Hi & Hset);
      [unfold resting_size; rewrite Et; lia|rewrite Et; by apply Hst|by rewrite Et|]; by split.
    + apply (Hdone Cancelled); try done; symmetry; by apply Hst.
    + destruct (Z.ltb_spec 0 (o_remaining_size u)); [|lia]. by eapply ready_inv.
Qed.

Lemma reference_match_same ob s s1 order :
  same_orders s s1 -> reference_match ob s1 order = reference_match ob s order.
Proof.
  intros [Ho Hl]. unfold reference_match. f_equal.
  assert (Ha : forall m, active s1 m = active s m) by (intros m; apply active_of, Hl).
  assert (Hoo : forall i, order_of s1 i = order_of s i) by (intros i; apply order_of_eq, Ho).
  rewrite !flat_map_concat_map. f_equal. apply map_ext. intros p. unfold makers_at.
  rewrite (resting_ext order s s1) by auto. f_equal. unfold queue. rewrite Ha.
  apply filter_ext_on. intros i _. by rewrite (at_price_eq s s1) by auto.
Qed.

(** The price level the remainder may join has room for it: the level's total
    with the order's size (0 for an order that never rests) fits 64 bits. *)
Definition room (o : PlaceOrderTx) t : Prop :=
  pl_total_size (level_of (ss_state t) (po_market_id o) (po_is_buy o) (po_price o)) + resting_size o
    <= U64_MAX.

(** What a successful [place_order] from [t0] has done. *)
Definition placed (trader : Address) (o : PlaceOrderTx) (t0 : SvcState) (id : Z) t : Prop :=
  exists market,
    get_market (ss_state t0) (po_market_id o) = Ok (Some market) /\
    validate_order market o = Ok tt /\ check_order_allowed (ss_state t0) trader o = Ok tt /\
    order_counter (ss_state t0) = Ok id /\
    let order := new_order id trader (sm_version (ss_state t0)) o in
    let fills := reference_match (ss_orderbook t0) (ss_state t0) order in
    0 <= sumZ f_size fills <= po_size o /\
    settled id (set_remaining_size (po_size o - sumZ f_size fills) order) o t.

Lemma place_order_spec trader o t0 :
  PlaceOrder_ok o -> inv_in F S t0 ->
  F (po_market_id o) (po_is_buy o) (po_price o) + resting_size o <= U64_MAX ->
  match place_order trader o t0 with
  | (Ok id, t) => inv_in (bump F o) S t /\ placed trader o t0 id t
  | (Err _, t) => inv_in F S t
  end.
Proof.
  intros Ho Hi Hr. unfold place_order.
  destruct (get_market (ss_state t0) (po_market_id o)) as [[market|]|] eqn:Em.
  2:{ by rewrite (svc_read_bind _ _ _ _ Em). }
  2:{ unfold svc_read, st_bind at 1, st_read, state_result. by rewrite Em. }
  rewrite (svc_read_bind _ _ _ _ Em). erewrite st_bind_eq by reflexivity.
  destruct (validate_order market o) as [[]|] eqn:Ev; [|done].
  erewrite st_bind_eq by reflexivity.
  destruct (check_order_allowed (ss_state t0) trader o) as [[]|] eqn:Ec.
  2:{ unfold st_bind at 1, st_read. by rewrite Ec. }
  erewrite st_bind_eq by (unfold st_read; by rewrite Ec).
  pose proof (triple_next_order_id o (ss_orderbook t0) (ss_state t0) t0
    (conj Hi (conj eq_refl (conj eq_refl Hr)))) as H1.
  unfold st_bind at 1. destruct (svc_state next_order_id t0) as [[id|e] t1]; [|exact H1].
  destruct H1 as (Hready & Eob & Hso & Hid & Hver).
  erewrite st_bind_eq by reflexivity. rewrite Hver.
  set (order := new_order id trader (sm_version (ss_state t0)) o).
  pose proof (triple_match id trader (sm_version (ss_state t0)) o market (ss_orderbook t1)
    (ss_state t1) Ho t1 (conj Hready (conj eq_refl eq_refl))) as H2. fold order in H2.
  unfold st_bind at 1. destruct (svc_book (match_order order market) t1) as [[fills|e] t2]; [|exact H2].
  destruct H2 as (Hready2 & Hfills & Hsum & Hu64).
  rewrite Eob, (reference_match_same _ _ _ _ Hso) in Hfills.
  pose proof (triple_for (ready id o) (inv_in F S) fills (fun fill => process_fill fill market)
    (fun fill Hin => triple_process_fill id o fill market (Hu64 fill Hin)) t2 Hready2) as H3.
  unfold st_bind at 1. destruct (st_for fills _ t2) as [[[]|e] t3]; [|exact H3].
  erewrite st_bind_eq by reflexivity. cbv zeta.
  assert (Hrem : saturating_sub (o_remaining_size order) (as_u64 (sumZ f_size fills)) =
                 po_size o - sumZ f_size fills).
  { destruct Ho as [Hsz _]. unfold is_u64 in Hsz.
    rewrite as_u64_id by (unfold is_u64; lia). apply saturating_sub_le; simpl; lia. }
  rewrite Hrem. set (u := set_remaining_size _ order).
  match goal with |- context [st_bind (settle_order id u o) _ ?t4] =>
    pose proof (triple_settle id u o eq_refl eq_refl eq_refl
      ltac:(simpl; lia) Ho t4 (H3 : ready id o t4)) as H4;
    unfold st_bind; destruct (settle_order id u o t4) as [[[]|e] t5]; [|exact H4] end.
  destruct H4 as [Hi5 Hset]. split; [exact Hi5|].
  exists market. unfold u in Hset. rewrite Hfills in Hsum, Hset. do 4 (split; [done|]).
  split; [exact Hsum|exact Hset].
Qed.

End allowance.

Lemma place_order_inv trader o t :
  PlaceOrder_ok o -> inv t -> room o t ->
  match place_order trader o t with
  | (Ok id, t') => inv t' /\ placed trader o t id t'
  | (Err _, t') => inv t'
  end.
Proof.
  intros Ho Hi Hr.
  set (F := fun m side p => pl_total_size (level_of (ss_state t) m side p)).
  pose proof (place_order_spec F (fun _ => True) ltac:(done) ltac:(done) trader o t Ho) as H. unfold room in Hr.
  specialize (H ltac:(split_and!; [done|by intros ???|done]) ltac:(unfold F; lia)).
  destruct (place_order trader o t) as [[id|e] t']; [|apply H].
  destruct H as [[H1 _] H2]. by split.
Qed.


(** ** Cancelling *)

Lemma removed_active_all s m id s' :
  state_ok s -> id ∈ active s m -> order_removed s m id s' ->
  forall m', active s' m' = filter (fun i => i <> id) (active s m').
Proof.
  intros Hs Hin Hrm m'. destruct (decide (m' = m)) as [->|Hm].
  - unfold active at 1. by rewrite (or_list _ _ _ _ Hrm).
  - rewrite (active_of _ _ _ (or_lists _ _ _ _ Hrm m' Hm)). symmetry. apply filter_all.
    intros i Hi ->. apply Hm. by eapply active_market.
Qed.

Lemma removed_listed s m id s' o :
  state_ok s -> id ∈ active s m -> order_removed s m id s' -> get_order s' id = Ok (Some o) ->
  o_status o <> Active -> listed s -> listed s'.
Proof.
  intros Hs Hin Hrm G Hst Hl i o1 Hi Hst1. rewrite (removed_active_all s m id s') by done.
  assert (i <> id) by (intros ->; congruence).
  apply list_elem_of_filter. split; [done|]. apply Hl; [|done]. by rewrite <- (or_others _ _ _ _ Hrm).
Qed.

Lemma removed_within F s id o s' :
  state_ok s -> get_order s id = Ok (Some o) -> id ∈ active s (o_market_id o) ->
  order_removed s (o_market_id o) id s' -> within F s -> within F s'.
Proof.
  intros Hs Ho Hin Hrm Hw m side p. etrans; [|apply Hw].
  destruct (decide (m = o_market_id o)) as [->|Hne].
  - destruct (decide ((side, p) = (o_is_buy o, o_price o))) as [[= -> ->]|Hsp].
    + rewrite <- (removed_level s id o s' Hs Ho Hin Hrm). unfold level_remove_order.
      destruct (mok_live _ _ (Hs _) _ Hin) as (o' & Ho' & _ & _ & Hrem).
      assert (o' = o) as -> by congruence.
      pose proof (level_total_nonneg s (o_market_id o) (o_is_buy o) (o_price o) Hs).
      destruct (position _ _); [|done]. cbn [snd pl_total_size]. unfold saturating_sub. lia.
    + by rewrite (removed_level_other s id o s').
  - destruct (market_ok_ext s s' m (Hs m)) as [_ E]; [by apply Hrm| |by rewrite E].
    intros i Hi. apply Hrm. intros ->. apply Hne. by eapply active_market.
Qed.

Lemma cancel_order_run trader c order t :
  inv t -> get_order (ss_state t) (co_order_id c) = Ok (Some order) ->
  o_owner order = trader -> o_status order = Active ->
  co_order_id c ∈ active (ss_state t) (o_market_id order) ->
  exists t', cancel_order trader c t = (Ok tt, t') /\
    (inv t' /\ (forall F, within F (ss_state t) -> within F (ss_state t')) /\
     frame trading_keys (ss_state t) (ss_state t')) /\
    get_order (ss_state t') (co_order_id c) = Ok (Some (set_status Cancelled order)) /\
    (forall m, active (ss_state t') m = filter (fun i => i <> co_order_id c) (active (ss_state t) m)).
Proof.
  intros (Hb & Hl & n & Hn & Hlt) Ho Hown Hst Hin. pose proof (proj1 Hb) as Hs.
  unfold cancel_order. rewrite (svc_read_bind _ _ _ _ Ho). erewrite st_bind_eq by reflexivity.
  rewrite Hown, Z.eqb_refl, Hst. unfold st_guard at 1. erewrite st_bind_eq by reflexivity.
  rewrite bool_decide_eq_true_2 by done. unfold st_guard. erewrite st_bind_eq by reflexivity.
  erewrite st_bind_eq by reflexivity.
  destruct (order_removed_run (ss_state t) (o_market_id order) (co_order_id c)
    (set_status Cancelled order) Hs) as (s1 & s2 & R1 & R2 & Hrm & G).
  set (t1 := with_ss_orderbook (remove_order (co_order_id c) order (ss_orderbook t)) t).
  pose proof (svc_state_run _ t1 _ _ R1) as R1'. erewrite st_bind_eq by exact R1'.
  pose proof (svc_state_run _ (with_ss_state s1 t1) _ _ R2) as R2'.
  erewrite st_bind_eq by exact R2'.
  assert (Ha : forall m, active s2 m = filter (fun i => i <> co_order_id c) (active (ss_state t) m)).
  { by apply removed_active_all with (m := o_market_id order). }
  eexists. split; [reflexivity|]. split; [|split; [exact G|exact Ha]].
  split; cbn [ss_state ss_orderbook with_ss_orderbook with_ss_state with_ss_context].
  2:{ split; [intros F; by apply (removed_within F (ss_state t) (co_order_id c) order)|].
      eapply frame_trans; (eapply frame_weaken; [|eapply frames_run_id; [|eassumption]]);
        [|apply frames_set_order| |apply frames_remove_active_order]; [by intros k <-|by intros k [->| ->]]. }
  split_and!.
  - unfold t1. cbn [ss_orderbook with_ss_orderbook]. by apply (remove_order_synced (ss_state t)).
  - by apply (removed_listed (ss_state t) (o_market_id order) (co_order_id c) _ (set_status Cancelled order)).
  - exists n. split.
    + rewrite <- Hn.
      assert (F1 : frame (eq (SK_Order (co_order_id c))) (ss_state t) s1)
        by (eapply frames_run_id; [apply frames_set_order|exact R1]).
      assert (F2 : frame (active_keys (o_market_id order) (co_order_id c)) s1 s2)
        by (eapply frames_run_id; [apply frames_remove_active_order|exact R2]).
      unfold order_counter. rewrite (get_or_default_frame _ _ _ _ _ _ F2) by (by intros [?|?]).
      eapply get_or_default_frame; [exact F1|discriminate].
    + intros m i. rewrite Ha. intros [_ Hi]%list_elem_of_filter. by eapply Hlt.
Qed.

(** C14: cancelling.  The owner of a resting order can always cancel it: the
    order becomes cancelled, leaves the active list and the book stays in step
    with the state.  Nobody else can, and a refused cancellation changes
    nothing. *)
Theorem cancel_order_correct trader c order t :
  inv t -> get_order (ss_state t) (co_order_id c) = Ok (Some order) ->
  co_order_id c ∈ active (ss_state t) (o_market_id order) ->
  (o_owner order = trader ->
     exists t', cancel_order trader c t = (Ok tt, t') /\ inv t' /\
       get_order (ss_state t') (co_order_id c) = Ok (Some (set_status Cancelled order)) /\
       forall m, active (ss_state t') m =
                 filter (fun i => i <> co_order_id c) (active (ss_state t) m)) /\
  (o_owner order <> trader -> cancel_order trader c t = (Err Unauthorized, t)).
Proof.
  intros Hi Ho Hin. split.
  - intros Hown.
    destruct (mok_live _ _ (proj1 (proj1 Hi) _) _ Hin) as (o & Ho' & _ & Hst & _).
    destruct (cancel_order_run trader c order t Hi Ho Hown) as (t' & R & (H1 & _ & _) & H2 & H3);
      [congruence|done|]. by exists t'.
  - intros Hown. unfold cancel_order. rewrite (svc_read_bind _ _ _ _ Ho).
    erewrite st_bind_eq by reflexivity. by destruct (Z.eqb_spec (o_owner order) trader).
Qed.

(** Whatever comes of a cancellation, the invariant stays. *)
Lemma cancel_order_inv F (S : StateManager -> Prop) trader c t :
  (forall P s s', frame P s s' -> (forall k, P k -> order_key k) -> S s -> S s') ->
  inv_in F S t -> inv_in F S (snd (cancel_order trader c t)).
Proof.
  intros S_frame (Hi & Hw & HS). pose proof Hi as (_ & Hl & _).
  destruct (get_order (ss_state t) (co_order_id c)) as [[order|]|e] eqn:Ho.
  2, 3: unfold cancel_order, svc_read, st_bind, st_read; rewrite Ho; cbn; by split_and!.
  destruct (decide (o_owner order = trader /\ o_status order = Active)) as [[Hown Hst]|Hno].
  - destruct (cancel_order_run trader c order t Hi Ho Hown Hst (Hl _ _ Ho Hst))
      as (t' & -> & (H1 & H2 & H3) & _). split_and!; [done|by apply H2|].
    eapply (S_frame trading_keys); [exact H3| |exact HS]. intros k Hk. by left.
  - unfold cancel_order. rewrite (svc_read_bind _ _ _ _ Ho). erewrite st_bind_eq by reflexivity.
    unfold st_bind at 1, st_guard at 1. destruct (Z.eqb_spec (o_owner order) trader); [|by split_and!].
    unfold st_bind at 1, st_guard at 1. rewrite bool_decide_eq_false_2 by tauto. by split_and!.
Qed.

(** Closing is placing an order of the position's size at most. *)
Lemma close_position_inv F (S : StateManager -> Prop) trader c t :
  (forall P s s', frame P s s' -> (forall k, P k -> order_key k) -> S s -> S s') ->
  (forall fill market t, is_u64 (f_size fill) -> S (ss_state t) ->
     S (ss_state (snd (process_fill fill market t)))) ->
  (forall p, get_position (ss_state t) trader (cp_market_id c) = Ok (Some p) -> is_u64 (pos_size p)) ->
  is_u64 (cp_size c) -> F (cp_market_id c) true 0 <= U64_MAX -> F (cp_market_id c) false 0 <= U64_MAX ->
  inv_in F S t -> inv_in F S (snd (close_position trader c t)).
Proof.
  intros S_frame S_fill Hp Hc HF1 HF2 Hi. unfold close_position.
  destruct (get_position (ss_state t) trader (cp_market_id c)) as [[p|]|e] eqn:Ep.
  2, 3: unfold svc_read, st_bind, st_read; rewrite Ep; done.
  rewrite (svc_read_bind _ _ _ _ Ep). erewrite st_bind_eq by reflexivity.
  specialize (Hp p eq_refl).
  assert (Ho : PlaceOrder_ok (close_order c p)).
  { unfold close_order, PlaceOrder_ok, is_u64 in *. cbn. destruct (_ =? 0); unfold U64_MAX in *; lia. }
  pose proof (place_order_spec F S S_frame S_fill trader (close_order c p) t Ho Hi) as H.
  unfold st_bind.
  destruct (place_order trader (close_order c p) t) as [[id|e] t']; cbn [snd st_ret].
  - destruct H as [(H1 & H2 & H3) _]; [cbn; destruct (pos_is_long p); cbn; lia|].
    split_and!; [done| |done]. intros m side q. specialize (H2 m side q).
    unfold bump in H2. change (resting_size (close_order c p)) with 0 in H2. destruct (decide _); lia.
  - apply H. cbn. destruct (pos_is_long p); cbn; lia.
Qed.

(** ** Trading and balances *)

Definition trade_key (k : StateKey) : Prop :=
  trading_keys k \/ position_only k \/ k = SK_NextOrderId.

Lemma frames_svc_state {A} P (m : ST StateManager StateError A) :
  frames id P m -> frames ss_state P (svc_state m).
Proof. intros H. unfold svc_state. eapply frames_zoom; [| |apply frames_map_err, H]; done. Qed.

Lemma frames_svc_order {A} key (m : ST StateManager StateError A) :
  frames id key m -> (forall k, key k -> trade_key k) -> frames ss_state trade_key (svc_state m).
Proof. intros H Hk. eapply frames_weaken; [exact Hk|]. by apply frames_svc_state. Qed.

Lemma frames_settle_order id u o : frames ss_state trade_key (settle_order id u o).
Proof.
  unfold settle_order. repeat frames_step; try (by apply frames_id).
  all: eapply frames_svc_order; [by auto with frames|].
  all: (intros k <- || intros k [-> | ->]); by left.
Qed.

Lemma frames_place_order trader o : frames ss_state trade_key (place_order trader o).
Proof.
  unfold place_order, svc_read. repeat frames_step; try (by apply frames_id).
  - eapply frames_svc_order; [by auto with frames|]. intros k <-. by right; right.
  - unfold svc_book. eapply frames_zoom; [| |].
    3:{ eapply frames_weaken; [|apply frames_match_order]. intros k Hk. by left. }
    + done.
    + by intros [? ?] ?.
  - eapply frames_weaken; [|apply frames_process_fill]. intros k Hk. by right; left.
  - apply frames_settle_order.
Qed.

Lemma frames_cancel_order trader c : frames ss_state trade_key (cancel_order trader c).
Proof.
  unfold cancel_order, svc_read. repeat frames_step; try (by apply frames_id).
  all: eapply frames_svc_order; [by auto with frames|].
  all: (intros k <- || intros k [-> | ->]); by left.
Qed.

Lemma frames_close_position trader c : frames ss_state trade_key (close_position trader c).
Proof.
  unfold close_position, svc_read. repeat frames_step; try (by apply frames_id).
  apply frames_place_order.
Qed.

(** Trading never touches money: placing, cancelling and closing leave
    every balance, nonce and market as it was, in every outcome; margin is
    recorded in positions but never debited, profit and loss never settled. *)
Theorem trading_keeps_balances trader o c cl t a i :
  get_balance (ss_state (snd (place_order trader o t))) a i = get_balance (ss_state t) a i /\
  get_balance (ss_state (snd (cancel_order trader c t))) a i = get_balance (ss_state t) a i /\
  get_balance (ss_state (snd (close_position trader cl t))) a i = get_balance (ss_state t) a i /\
  get_nonce (ss_state (snd (place_order trader o t))) a = get_nonce (ss_state t) a /\
  get_market (ss_state (snd (place_order trader o t))) i = get_market (ss_state t) i.
Proof.
  split_and!.
  - eapply get_balance_frame; [apply frames_place_order|]. by intros [[]|[[]|?]].
  - eapply get_balance_frame; [apply frames_cancel_order|]. by intros [[]|[[]|?]].
  - eapply get_balance_frame; [apply frames_close_position|]. by intros [[]|[[]|?]].
  - eapply get_nonce_frame; [apply frames_place_order|]. by intros [[]|[[]|?]].
  - eapply get_market_frame; [apply frames_place_order|]. by intros [[]|[[]|?]].
Qed.

(** ** Fills and positions *)

Lemma svc_engine_Ok {A} (m : ST StateManager EngineError A) t a t' :
  svc_engine m t = (Ok a, t') -> m (ss_state t) = (Ok a, ss_state t').
Proof.
  unfold svc_engine, st_zoom. intros H. destruct (m (ss_state t)) as [r s]. by simplify_eq/=.
Qed.

(** What [traded] leaves, read back, when a closed position was never committed. *)
Lemma traded_exposure s0 s a m size is_buy po :
  traded s0 a m size is_buy po s ->
  (closes po size is_buy = true -> committed s0 (SK_Position a m) = None) ->
  exists q, get_position s a m = Ok q /\ exposure_opt q = exposure_opt po + signed is_buy size.
Proof.
  unfold traded. destruct (closes po size is_buy).
  - intros [H0 ->] Hc. exists None. unfold committed_position. rewrite Hc by done. by split.
  - intros (p & Hp & He) _. by exists (Some p).
Qed.

(** C23: a successful fill between two different traders.  Each party's position
    becomes one whose signed exposure is the old one moved by the signed size,
    the taker's by the fill's and the maker's by its opposite; the party whose
    position the fill closes reads instead what the last commits left under its
    key.  When a closed position was never committed, the fill is zero-sum: the
    exposures that are read back are moved by opposite amounts and their sum is
    what it was.  (Closing a committed position leaves the committed exposure
    readable.)  Market and positions have their types,
    size and price fit 64 bits, and so do the sums of sizes. *)
Theorem process_fill_zero_sum fill market t t' pt pm :
  let m := f_market_id fill in let size := f_size fill in let buy := f_taker_is_buy fill in
  f_taker fill <> f_maker fill -> is_u64 size -> is_u64 (f_price fill) ->
  Market_ok market ->
  get_position (ss_state t) (f_taker fill) m = Ok pt ->
  get_position (ss_state t) (f_maker fill) m = Ok pm ->
  (forall p, pt = Some p \/ pm = Some p -> Position_ok p /\ pos_size p + size <= U64_MAX) ->
  process_fill fill market t = (Ok tt, t') ->
  traded (ss_state t) (f_taker fill) m size buy pt (ss_state t') /\
  traded (ss_state t) (f_maker fill) m size (negb buy) pm (ss_state t') /\
  ((closes pt size buy = true -> committed (ss_state t) (SK_Position (f_taker fill) m) = None) ->
   (closes pm size (negb buy) = true ->
      committed (ss_state t) (SK_Position (f_maker fill) m) = None) ->
   exists qt qm,
     get_position (ss_state t') (f_taker fill) m = Ok qt /\
     get_position (ss_state t') (f_maker fill) m = Ok qm /\
     exposure_opt qt = exposure_opt pt + signed buy size /\
     exposure_opt qm = exposure_opt pm - signed buy size /\
     exposure_opt qt + exposure_opt qm = exposure_opt pt + exposure_opt pm).
Proof.
  intros m size buy Hne Hsz Hpr (_ & _ & _ & _ & _ & Hbps & _) Ht Hm Hok H. unfold is_u32 in Hbps.
  unfold process_fill in H.
  apply st_bind_Ok in H as ([] & t1 & H1 & H). apply st_bind_Ok in H as ([] & t2 & H2 & H).
  assert (E : ss_state t' = ss_state t2) by (unfold emit, st_modify in H; by simplify_eq).
  apply svc_engine_Ok in H1, H2. rewrite E. fold m size buy in H1, H2.
  assert (F1 : frame (position_keys (f_taker fill) m) (ss_state t) (ss_state t1))
    by (eapply frames_run_id; [apply frames_update_position|exact H1]).
  assert (F2 : frame (position_keys (f_maker fill) m) (ss_state t1) (ss_state t2))
    by (eapply frames_run_id; [apply frames_update_position|exact H2]).
  apply (update_position_outcome _ _ _ _ _ _ _ _ _ Ht) in H1; [|done|done|lia|auto].
  assert (Hm1 : get_position (ss_state t1) (f_maker fill) m = Ok pm).
  { rewrite (get_position_frame _ _ _ _ _ F1); [done|]. intros [?|?]; congruence. }
  apply (update_position_outcome _ _ _ _ _ _ _ _ _ Hm1) in H2; [|done|done|lia|auto].
  assert (T1 : traded (ss_state t) (f_taker fill) m size buy pt (ss_state t2))
    by (eapply traded_frame; [exact F2|intros [?|?]; congruence|exact H1]).
  assert (T2 : traded (ss_state t) (f_maker fill) m size (negb buy) pm (ss_state t2))
    by (unfold traded in *; by rewrite (committed_position_frame _ _ _ (f_maker fill) m F1) in H2).
  split_and!; [done|done|]. intros C1 C2.
  destruct (traded_exposure _ _ _ _ _ _ _ T1 C1) as (qt & G1 & E1).
  destruct (traded_exposure _ _ _ _ _ _ _ T2 C2) as (qm & G2 & E2).
  exists qt, qm. rewrite E1, E2. unfold signed. destruct buy; simpl; split_and!; (done || lia).
Qed.
End placing.

(** * Witnesses *)

Lemma frames_set_market {B : Backend} {Bok : BackendOk B} m info :
  frames id (fun k => k = SK_Market m \/ k = SK_MarketList) (set_market m info).
Proof. unfold set_market, add_to_list. repeat frames_step; tauto. Qed.

(** Market 0 exists, trader 1 has 60000, trader 2 nothing; no order rests. *)
Definition desk0 : SvcState := {|
  ss_state := sm_market; ss_context := ServiceContext_new; ss_orderbook := OrderbookManager_new |}.

Lemma desk0_active m : get_active_orders_by_market (ss_state desk0) m = Ok [].
Proof.
  transitivity (get_active_orders_by_market (snd (set_market 0 btc_perp sm_demo)) m).
  - eapply get_or_default_frame; [exact (frames_set_balance 1 0 60000 _)|discriminate].
  - transitivity (get_active_orders_by_market sm_demo m); [|reflexivity].
    eapply get_or_default_frame; [exact (frames_set_market 0 btc_perp _)|].
    intros [?|?]; discriminate.
Qed.

Lemma desk0_orders i : get_order (ss_state desk0) i = Ok None.
Proof.
  transitivity (get_order (snd (set_market 0 btc_perp sm_demo)) i).
  - eapply get_order_frame; [exact (frames_set_balance 1 0 60000 _)|discriminate].
  - transitivity (get_order sm_demo i); [|reflexivity].
    eapply get_order_frame; [exact (frames_set_market 0 btc_perp _)|].
    intros [?|?]; discriminate.
Qed.

Lemma desk0_inv : inv desk0.
Proof.
  split_and!.
  - apply book_synced_empty. apply desk0_active.
  - intros i o Hi. by rewrite desk0_orders in Hi.
  - exists 0. split; [vm_compute; reflexivity|]. intros m i. unfold active. rewrite desk0_active.
    set_solver.
Qed.

(** Trader 1 bids for 10 at 50000; trader 2 sells 4 at the market. *)
Definition demo_sell : PlaceOrderTx := {|
  po_market_id := 0; po_is_buy := false; po_order_type := OT_Market; po_price := 0; po_size := 4;
  po_time_in_force := IOC; po_reduce_only := false; po_post_only := false |}.

Definition desk1_run := place_order 1 demo_order desk0.
Definition desk1 : SvcState := snd desk1_run.
Definition desk2_run := place_order 2 demo_sell desk1.

Lemma desk1_ok : place_order 1 demo_order desk0 = (Ok 0, desk1).
Proof.
  apply (run_result (place_order 1 demo_order) desk0). vm_compute. reflexivity.
Qed.

Lemma demo_order_ok : PlaceOrder_ok demo_order /\ PlaceOrder_ok demo_sell.
Proof. vm_compute; intuition congruence. Qed.


Definition demo_cancel : CancelOrderTx := {| co_order_id := 0 |}.
Definition desk1_order : Order := new_order 0 1 0 demo_order.

Lemma desk1_inv : inv desk1.
Proof.
  pose proof (place_order_inv 1 demo_order desk0 (proj1 demo_order_ok) desk0_inv) as H.
  rewrite desk1_ok in H. apply H. vm_compute. congruence.
Qed.

Lemma cancel_order_correct_witness :
  (exists t', cancel_order 1 demo_cancel desk1 = (Ok tt, t')) /\
  cancel_order 2 demo_cancel desk1 = (Err Unauthorized, desk1).
Proof.
  assert (G : get_order (ss_state desk1) 0 = Ok (Some desk1_order)) by (vm_compute; reflexivity).
  assert (A : 0 ∈ active (ss_state desk1) 0) by (vm_compute; left).
  split.
  - destruct (cancel_order_correct 1 demo_cancel desk1_order desk1 desk1_inv G A) as [H _].
    destruct (H eq_refl) as (t' & R & _). exists t'. exact R.
  - destruct (cancel_order_correct 2 demo_cancel desk1_order desk1 desk1_inv G A) as [_ H].
    apply H. discriminate.
Defined.

(** The fill of the second order: trader 2 sells 4 to trader 1. *)
Definition demo_fill : Fill := {|
  f_maker := 1; f_taker := 2; f_market_id := 0; f_price := 50000; f_size := 4;
  f_taker_is_buy := false; f_maker_order_id := 0; f_taker_order_id := 1 |}.

Lemma process_fill_zero_sum_witness :
  exists t' qt qm, process_fill demo_fill btc_perp desk1 = (Ok tt, t') /\
    get_position (ss_state t') 2 0 = Ok qt /\ get_position (ss_state t') 1 0 = Ok qm /\
    exposure_opt qt = -4 /\ exposure_opt qt + exposure_opt qm = 0.
Proof.
  pose (run := process_fill demo_fill btc_perp desk1).
  assert (E : fst run = Ok tt) by (vm_compute; reflexivity).
  assert (R : process_fill demo_fill btc_perp desk1 = (Ok tt, snd run))
    by (exact (run_result (process_fill demo_fill btc_perp) desk1 _ E)).
  destruct (process_fill_zero_sum demo_fill btc_perp desk1 (snd run) None None)
    as (_ & _ & H);
    [discriminate|vm_compute; intuition congruence|vm_compute; intuition congruence
    |vm_compute; intuition congruence|vm_compute; reflexivity|vm_compute; reflexivity
    |intros p [?|?]; discriminate|exact R|].
  destruct H as (qt & qm & H1 & H2 & H3 & _ & H5); [discriminate|discriminate|].
  exists (snd run), qt, qm.
  split; [exact R|]. split; [exact H1|]. split; [exact H2|]. split; [exact H3|exact H5].
Defined.
