(* ===== verification/Engine.v ===== *)
(** The engine (crates/engine/src/lib.rs): the services and infrastructure put
    together, per-transaction events, and the recovery of the order book. *)
From stdpp Require Import base gmap sets list sorting strings.
From Stdlib Require Import ZArith Lia.
From S2P Require Import Prelude Types Storage State Tx EngineBase Orderbook Matching Position Risk Funding Liquidation Services Trading.

Record BlockContext := { bc_height : Z; bc_timestamp : Z; bc_tx_hash : B256 }.
Definition BlockContext_default : BlockContext :=
  {| bc_height := 0; bc_timestamp := 0; bc_tx_hash := B256_ZERO |}.

Section engine.
Context {B : Backend}.

(** The services and the position manager are stateless. *)
Record Engine := {
  en_state : StateManager;
  en_orderbook : OrderbookManager;
  en_liquidation : LiquidationEngine;
  en_funding : FundingRateCalculator;
  en_risk : RiskEngine;
  en_context : ServiceContext;
  en_current_block : BlockContext;
}.
Notation EngM A := (ST Engine EngineError A).

Definition Engine_new (state : StateManager) : Engine := {|
  en_state := state; en_orderbook := OrderbookManager_new;
  en_liquidation := LiquidationEngine_default; en_funding := FundingRateCalculator_default;
  en_risk := RiskEngine_default; en_context := ServiceContext_new;
  en_current_block := BlockContext_default |}.

Definition with_en_state (s : StateManager) (e : Engine) : Engine := {|
  en_state := s; en_orderbook := en_orderbook e; en_liquidation := en_liquidation e;
  en_funding := en_funding e; en_risk := en_risk e; en_context := en_context e;
  en_current_block := en_current_block e |}.
Definition with_en_orderbook (b : OrderbookManager) (e : Engine) : Engine := {|
  en_state := en_state e; en_orderbook := b; en_liquidation := en_liquidation e;
  en_funding := en_funding e; en_risk := en_risk e; en_context := en_context e;
  en_current_block := en_current_block e |}.
Definition with_en_liquidation (l : LiquidationEngine) (e : Engine) : Engine := {|
  en_state := en_state e; en_orderbook := en_orderbook e; en_liquidation := l;
  en_funding := en_funding e; en_risk := en_risk e; en_context := en_context e;
  en_current_block := en_current_block e |}.
Definition with_en_context (c : ServiceContext) (b : BlockContext) (e : Engine) : Engine := {|
  en_state := en_state e; en_orderbook := en_orderbook e; en_liquidation := en_liquidation e;
  en_funding := en_funding e; en_risk := en_risk e; en_context := c; en_current_block := b |}.

(** * Events of a transaction *)

Definition begin_tx (tx_hash : B256) (block_height timestamp : Z) (e : Engine) : Engine :=
  with_en_context ServiceContext_new
    {| bc_height := block_height; bc_timestamp := timestamp; bc_tx_hash := tx_hash |} e.

Definition domain_event (block : BlockContext) (idx : nat) (event : Event) : DomainEvent :=
  DomainEvent_new (bc_height block) (bc_tx_hash block) (as_u32 (Z.of_nat idx))
    (bc_timestamp block) event.

Definition take_events (e : Engine) : list DomainEvent * Engine :=
  let '(evs, context) := ctx_take_events (en_context e) in
  (imap (domain_event (en_current_block e)) evs, with_en_context context (en_current_block e) e).

(** * Delegation *)

(** A service borrows the state, the context and the order book. *)
Definition on_services {A} (m : ST SvcState EngineError A) : EngM A :=
  st_zoom
    (fun e => {| ss_state := en_state e; ss_context := en_context e; ss_orderbook := en_orderbook e |})
    (fun t e => with_en_context (ss_context t) (en_current_block e)
                  (with_en_orderbook (ss_orderbook t) (with_en_state (ss_state t) e))) m.
(** The liquidation engine borrows the state and the order book. *)
Definition on_liquidation {A} (m : ST LiqState EngineError A) : EngM A :=
  st_zoom
    (fun e => {| ls_engine := en_liquidation e; ls_book := en_orderbook e; ls_state := en_state e |})
    (fun t e => with_en_liquidation (ls_engine t)
                  (with_en_orderbook (ls_book t) (with_en_state (ls_state t) e))) m.
Definition on_state {A} (m : ST StateManager EngineError A) : EngM A :=
  st_zoom en_state with_en_state m.

Definition process_deposit (from : Address) (d : DepositTx) : EngM unit := on_services (deposit from d).
Definition process_withdraw (from : Address) (w : WithdrawTx) : EngM unit :=
  on_services (withdraw from w).
Definition process_transfer (from : Address) (t : TransferTx) : EngM unit :=
  on_services (transfer from t).
Definition process_bridge_deposit (operator : Address) (d : BridgeDepositTx) : EngM unit :=
  on_services (bridge_deposit operator d).
Definition process_bridge_withdraw (operator : Address) (w : BridgeWithdrawTx) : EngM unit :=
  on_services (bridge_withdraw operator w).
Definition process_place_order (trader : Address) (o : PlaceOrderTx) : EngM Z :=
  on_services (place_order trader o).
Definition process_cancel_order (trader : Address) (c : CancelOrderTx) : EngM unit :=
  on_services (cancel_order trader c).
Definition process_close_position (trader : Address) (c : ClosePositionTx) : EngM unit :=
  on_services (close_position trader c).
Definition process_set_agent (account : Address) (a : SetAgentTx) : EngM unit :=
  on_services (set_agent account a).
Definition process_remove_agent (account : Address) (a : RemoveAgentTx) : EngM unit :=
  on_services (remove_agent account a).

(** * Infrastructure *)

Definition rebuild_order (market_id order_id : Z) : EngM unit :=
  let! found := st_read (fun e => state_result (get_order (en_state e) order_id)) in
  match found with
  | Some order =>
      if bool_decide (o_status order = Active) && (0 <? o_remaining_size order)
      then st_modify (fun e => with_en_orderbook (add_order order_id order (en_orderbook e)) e)
      else on_state (lift_state (remove_active_order market_id order_id))
  | None => st_ret tt
  end.

Definition rebuild_market (market_id : Z) : EngM unit :=
  let! active_orders :=
    st_read (fun e => state_result (get_active_orders_by_market (en_state e) market_id)) in
  st_for active_orders (rebuild_order market_id).

Definition rebuild_orderbook_from_state : EngM unit :=
  st_modify (with_en_orderbook OrderbookManager_new) ;;
  let! markets := st_read (fun e => state_result (list_all_markets (en_state e))) in
  st_for markets rebuild_market.

Definition get_orderbook_depth (e : Engine) (market_id : Z) (depth : nat)
    : list (Z * Z) * list (Z * Z) := get_depth (en_orderbook e) market_id depth.

Definition engine_update_funding_rate (market_id mark_price oracle_price timestamp : Z) : EngM unit :=
  let! funding := st_gets en_funding in
  on_state (update_funding_rate funding market_id mark_price oracle_price timestamp).

Definition engine_should_liquidate (e : Engine) (trader : Address) (market_id mark_price : Z)
    : result EngineError bool :=
  let* found := state_result (get_market (en_state e) market_id) in
  let* market := ok_or MarketNotFound found in
  should_liquidate (en_state e) trader market_id mark_price market.

Definition engine_liquidate_with_incentive (trader : Address) (market_id mark_price : Z)
    (liquidator : Address) : EngM (option LiquidationResult) :=
  on_liquidation (liquidate_with_incentive trader market_id mark_price liquidator).

Definition engine_update_risk_index (trader : Address) (market_id mark_price : Z) : EngM unit :=
  let! s := st_gets en_state in
  st_zoom en_liquidation with_en_liquidation (update_risk_index s trader market_id mark_price).
Definition engine_rebuild_risk_index (market_id mark_price : Z) : EngM unit :=
  let! s := st_gets en_state in
  st_zoom en_liquidation with_en_liquidation (rebuild_risk_index s market_id mark_price).
Definition engine_get_at_risk_positions (e : Engine) (market_id threshold_bps : Z)
    : list (Address * Z) := get_at_risk_positions (en_liquidation e) market_id threshold_bps.
Definition engine_get_insurance_fund (e : Engine) (market_id : Z) : InsuranceFund :=
  get_insurance_fund (en_liquidation e) market_id.
Definition engine_process_liquidation_batch (market_id mark_price : Z) (liquidator : Address)
    (max_liquidations : nat) : EngM (list LiquidationResult) :=
  on_liquidation (process_liquidation_batch market_id mark_price liquidator max_liquidations).
Definition engine_auto_deleverage (market_id required_amount mark_price : Z)
    : EngM (list (Address * Z)) :=
  let! l := st_gets en_liquidation in
  on_state (auto_deleverage l market_id required_amount mark_price).

End engine.

(** * Recovery of the order book *)

Section recovery.
Context {B : Backend} {Bok : BackendOk B}.
Implicit Types (s : StateManager) (e : Engine) (ob : OrderbookManager).

(** The level that a prefix [ids] of the active list makes up. *)
Definition partial_level s (side : bool) (p : Z) (ids : list Z) : PriceLevel :=
  let q := filter (fun id => at_price s side p id = true) ids in
  {| pl_orders := q; pl_total_size := sumZ (remaining_of s) q |}.
Definition partial_expected s side p ids : option PriceLevel :=
  if level_is_empty (partial_level s side p ids) then None else Some (partial_level s side p ids).

Lemma partial_full s m side p :
  partial_expected s side p (active s m) = expected_level s m side p.
Proof. reflexivity. Qed.

Lemma partial_default s side p ids :
  default PriceLevel_new (partial_expected s side p ids) = partial_level s side p ids.
Proof.
  unfold partial_expected, level_is_empty, partial_level. simpl. by destruct (filter _ ids).
Qed.

(** One more order of the market. *)
Lemma partial_snoc s m ids id rest o side p :
  state_ok s -> active s m = ids ++ id :: rest -> get_order s id = Ok (Some o) ->
  partial_expected s side p (ids ++ [id]) =
  if decide ((side, p) = (o_is_buy o, o_price o))
  then Some (level_add_order id (o_remaining_size o) (partial_level s side p ids))
  else partial_expected s side p ids.
Proof.
  intros Hs Hact Ho.
  assert (Hp : at_price s side p id = bool_decide ((side, p) = (o_is_buy o, o_price o))).
  { unfold at_price. rewrite (order_of_Ok _ _ _ Ho). case_bool_decide as H.
    - injection H as -> ->. by rewrite eqb_reflx, Z.eqb_refl.
    - apply andb_false_iff. destruct (Bool.eqb _ _) eqn:E1; [|by left]. right.
      apply Z.eqb_neq. apply eqb_prop in E1. congruence. }
  unfold partial_expected, partial_level. rewrite filter_app.
  destruct (decide _) as [H|H].
  - rewrite bool_decide_eq_true_2 in Hp by done.
    rewrite (filter_cons_True _ id []) by done.
    unfold level_is_empty. cbn [pl_orders].
    destruct (filter _ ids ++ id :: _) eqn:E; [by destruct (filter _ ids)|]. rewrite <- E.
    clear E. unfold level_add_order. cbn [pl_orders pl_total_size]. rewrite sumZ_app. f_equal.
    f_equal. unfold sumZ at 2. simpl. unfold remaining_of at 2. rewrite (order_of_Ok _ _ _ Ho).
    rewrite Z.add_0_r. unfold wadd64. symmetry. apply as_u64_id.
    pose proof (mok_total _ _ (Hs m) side p) as Ht. simpl in Ht. unfold queue in Ht.
    rewrite Hact, filter_app, sumZ_app in Ht. rewrite (filter_cons_True _ id rest) in Ht by done.
    rewrite sumZ_cons in Ht. unfold remaining_of at 2 in Ht. rewrite (order_of_Ok _ _ _ Ho) in Ht.
    assert (Hnn : forall q, (forall i, i ∈ q -> i ∈ active s m) -> 0 <= sumZ (remaining_of s) q).
    { intros q Hq. apply sumZ_nonneg. intros i Hi.
      pose proof (live_remaining s m i (Hs m) (Hq i Hi)). lia. }
    pose proof (Hnn (filter (fun i => at_price s side p i = true) ids)
      ltac:(intros i [_ Hi]%list_elem_of_filter; rewrite Hact; set_solver)).
    pose proof (Hnn (filter (fun i => at_price s side p i = true) rest)
      ltac:(intros i [_ Hi]%list_elem_of_filter; rewrite Hact; set_solver)).
    destruct (mok_live _ _ (Hs m) id) as (o' & Ho' & _ & _ & Hr); [rewrite Hact; set_solver|].
    rewrite Ho in Ho'. injection Ho' as <-. unfold is_u64. lia.
  - rewrite bool_decide_eq_false_2 in Hp by done.
    rewrite (filter_cons_False _ id []) by (by rewrite Hp). by rewrite app_nil_r.
Qed.

(** Rebuilding the rest of a market's list. *)
Lemma rebuild_market_from s m rest : forall ids ob e,
  state_ok s -> active s m = ids ++ rest -> en_state e = s -> en_orderbook e = ob ->
  (forall side p, level_at ob m side p = partial_expected s side p ids) ->
  exists e', st_for rest (rebuild_order m) e = (Ok tt, e') /\ en_state e' = s /\
    (forall side p, level_at (en_orderbook e') m side p = expected_level s m side p) /\
    (forall m' side p, m' <> m -> level_at (en_orderbook e') m' side p = level_at ob m' side p).
Proof.
  induction rest as [|id rest IH]; intros ids ob e Hs Hact Es Eob Hlev.
  - exists e. split_and!; [done|done| |by rewrite Eob].
    intros side p. rewrite Eob, Hlev, <- partial_full, Hact. by rewrite app_nil_r.
  - destruct (mok_live _ _ (Hs m) id) as (o & Ho & Hm & Hst & Hr); [rewrite Hact; set_solver|].
    cbn [st_for]. set (e1 := with_en_orderbook (add_order id o ob) e).
    assert (Hrun : rebuild_order m id e = (Ok tt, e1)).
    { unfold rebuild_order. erewrite st_read_bind.
      2:{ rewrite Es. unfold state_result. by rewrite Ho. }
      cbv beta iota.
      rewrite bool_decide_eq_true_2 by done. destruct (Z.ltb_spec 0 (o_remaining_size o)); [|lia].
      simpl. unfold st_modify. by rewrite Eob. }
    erewrite st_bind_eq by exact Hrun.
    destruct (IH (ids ++ [id]) (add_order id o ob) e1) as (e' & R & E1 & E2 & E3);
      [done|by rewrite Hact, <- app_assoc|done|done| |].
    + intros side p. rewrite level_at_add_order, (partial_snoc s m ids id rest o) by done.
      rewrite Hm. destruct (decide ((side, p) = _)) as [[= -> ->]|Hne].
      * rewrite decide_True by done. rewrite Hlev, partial_default. done.
      * rewrite decide_False by congruence. apply Hlev.
    + exists e'. split_and!; [done|done|done|]. intros m' side p Hne. rewrite E3 by done.
      rewrite level_at_add_order, decide_False by congruence. done.
Qed.

Lemma rebuild_markets s ms : forall e,
  state_ok s -> NoDup ms -> en_state e = s ->
  (forall m side p, m ∈ ms -> level_at (en_orderbook e) m side p = None) ->
  exists e', st_for ms rebuild_market e = (Ok tt, e') /\ en_state e' = s /\
    (forall m side p, m ∈ ms -> level_at (en_orderbook e') m side p = expected_level s m side p) /\
    (forall m side p, m ∉ ms ->
       level_at (en_orderbook e') m side p = level_at (en_orderbook e) m side p).
Proof.
  induction ms as [|m ms IH]; intros e Hs Hnd Es Hempty.
  - exists e. split_and!; [done|done|set_solver|done].
  - apply NoDup_cons in Hnd as [Hm Hnd]. cbn [st_for].
    destruct (rebuild_market_from s m (active s m) [] (en_orderbook e) e) as (e1 & R1 & S1 & L1 & O1);
      [done|done|done|done| |].
    { intros side p. rewrite Hempty by set_solver. done. }
    assert (Hrun : rebuild_market m e = (Ok tt, e1)).
    { unfold rebuild_market. erewrite st_read_bind.
      2:{ rewrite Es. unfold state_result. by rewrite (mok_readable _ _ (Hs m)). }
      exact R1. }
    erewrite st_bind_eq by exact Hrun.
    destruct (IH e1 Hs Hnd S1) as (e' & R & E1 & E2 & E3).
    { intros m' side p Hin. rewrite O1 by (by intros ->). apply Hempty. set_solver. }
    exists e'. split_and!; [done|done| |].
    + intros m' side p [->|Hin]%elem_of_cons; [|by apply E2]. rewrite E3 by done. apply L1.
    + intros m' side p Hin. rewrite E3 by set_solver. apply O1. set_solver.
Qed.

Lemma rebuild_restores e ms :
  state_ok (en_state e) ->
  list_all_markets (en_state e) = Ok ms -> NoDup ms ->
  (forall m, active (en_state e) m <> [] -> m ∈ ms) ->
  exists e', rebuild_orderbook_from_state e = (Ok tt, e') /\ en_state e' = en_state e /\
    book_synced (en_orderbook e') (en_state e') /\
    forall ob, book_synced ob (en_state e) -> forall m side p,
      level_at (en_orderbook e') m side p = level_at ob m side p.
Proof.
  intros Hs Hms Hnd Hall.
  destruct (rebuild_markets (en_state e) ms (with_en_orderbook OrderbookManager_new e))
    as (e' & R & E1 & E2 & E3); [done|done|done| |].
  { intros m side p _. unfold level_at. by destruct side. }
  assert (Hb : forall m side p, level_at (en_orderbook e') m side p = expected_level (en_state e) m side p).
  { intros m side p. destruct (decide (m ∈ ms)) as [Hin|Hin]; [by apply E2|].
    rewrite E3 by done. assert (Ha : active (en_state e) m = []).
    { destruct (active (en_state e) m) eqn:E; [done|]. exfalso. apply Hin, Hall. by rewrite E. }
    unfold expected_level, level_of, queue. rewrite Ha. unfold level_at. by destruct side. }
  exists e'. split_and!; [|done| |].
  - unfold rebuild_orderbook_from_state. erewrite st_bind_eq by reflexivity.
    erewrite st_read_bind; [exact R|]. simpl. unfold state_result. by rewrite Hms.
  - rewrite E1. split; [done|exact Hb].
  - intros ob [_ Hob] m side p. by rewrite Hb, Hob.
Qed.

(** C9: recovery loses nothing: from any state whose active orders are
    consistent and whose market list is complete, rebuilding the order book
    succeeds, leaves the state alone, and yields a book in step with it; in
    particular every level (members, arrival order, total) equals that of any
    other book in step with the state, such as the one lost in a crash. *)
Theorem rebuild_restores_book e ms :
  state_ok (en_state e) ->
  list_all_markets (en_state e) = Ok ms -> NoDup ms ->
  (forall m, active (en_state e) m <> [] -> m ∈ ms) ->
  exists e', rebuild_orderbook_from_state e = (Ok tt, e') /\ en_state e' = en_state e /\
    book_synced (en_orderbook e') (en_state e') /\
    forall ob, book_synced ob (en_state e) -> forall m side p,
      level_at (en_orderbook e') m side p = level_at ob m side p.
Proof. apply rebuild_restores. Qed.

(** ** Events *)

(** The events of a transaction come out in the order they were emitted,
    numbered from 0, stamped with the transaction's hash, height and timestamp,
    and are given out once: a second call returns nothing. *)
Theorem take_events_indexed e tx_hash height timestamp evs e1 :
  (Z.of_nat (length (events (en_context e))) <= U32_MAX) ->
  en_current_block e = {| bc_height := height; bc_timestamp := timestamp; bc_tx_hash := tx_hash |} ->
  take_events e = (evs, e1) ->
  map de_event evs = events (en_context e) /\
  (forall i ev, evs !! i = Some ev ->
     de_event_index ev = Z.of_nat i /\ de_block_height ev = height /\ de_tx_hash ev = tx_hash /\
     de_timestamp ev = timestamp) /\
  fst (take_events e1) = [] /\ en_state e1 = en_state e.
Proof.
  intros Hlen Hblk H. unfold take_events, ctx_take_events in H. injection H as <- <-.
  rewrite Hblk. split_and!; [| |done|done].
  - apply list_eq. intros i. rewrite list_lookup_fmap, list_lookup_imap.
    by destruct (events (en_context e) !! i).
  - intros i ev Hi. rewrite list_lookup_imap in Hi.
    destruct (events (en_context e) !! i) as [x|] eqn:Ex; [|done]. injection Hi as <-.
    simpl. split_and!; try done. apply lookup_lt_Some in Ex.
    unfold as_u32. apply Z.mod_small. unfold U32_MAX in Hlen. lia.
Qed.

End recovery.

(** * Witnesses *)

(** The demo book's state with its market registered, reopened with an empty book. *)
Definition sm_listed : StateManager := snd (set_market 0 btc_perp (snd demo_book)).
Definition en_restarted : Engine := Engine_new sm_listed.

Lemma set_market_same_orders {B : Backend} {Bok : BackendOk B} m info s :
  same_orders s (snd (set_market m info s)).
Proof.
  eapply frame_same_orders; [exact (frames_set_market m info s)|].
  intros k Hk [->| ->]; exact Hk.
Qed.

Lemma sm_listed_same : same_orders (snd demo_book) sm_listed.
Proof. exact (set_market_same_orders 0 btc_perp (snd demo_book)). Qed.

Lemma sm_listed_synced : book_synced (fst demo_book) sm_listed.
Proof. exact (same_orders_synced _ _ _ sm_listed_same (proj1 demo_state3)). Qed.

Lemma sm_listed_active m : active sm_listed m = if decide (m = 0) then [0; 1; 2] else [].
Proof.
  rewrite (active_of _ _ _ (proj2 sm_listed_same m)). exact (proj2 demo_state3 m).
Qed.

Lemma restarted_lists {B : Backend} (s : StateManager) (ms : list Z) :
  (forall m, active s m <> [] -> m ∈ ms) ->
  forall m, active (en_state (Engine_new s)) m <> [] -> m ∈ ms.
Proof. intros H m. exact (H m). Qed.

Lemma sm_listed_lists m : active sm_listed m <> [] -> m ∈ [0].
Proof.
  rewrite sm_listed_active. destruct (decide (m = 0)) as [->|]; [intros _; left|congruence].
Qed.

Lemma restarted_synced {B : Backend} ob (s : StateManager) : book_synced ob s -> book_synced ob (en_state (Engine_new s)).
Proof. intros H. exact H. Qed.

Lemma sm_listed_markets : list_all_markets (en_state en_restarted) = Ok [0].
Proof. vm_compute. reflexivity. Qed.

Lemma rebuild_restores_book_witness :
  exists e', rebuild_orderbook_from_state en_restarted = (Ok tt, e') /\
    forall p, level_at (en_orderbook e') 0 false p = level_at (fst demo_book) 0 false p.
Proof.
  destruct (rebuild_restores_book en_restarted [0]
    (proj1 (restarted_synced _ _ sm_listed_synced)) sm_listed_markets
    (NoDup_singleton 0) (restarted_lists _ _ sm_listed_lists)) as (e' & R & _ & _ & H).
  exact (ex_intro _ e' (conj R
    (fun p => H (fst demo_book) (restarted_synced _ _ sm_listed_synced) 0 false p))).
Defined.

Definition en_with_events : Engine :=
  snd (process_set_agent 1 {| sa_agent := 2; sa_permissions := 3 |}
    (snd (process_remove_agent 1 {| ra_agent := 5 |} (begin_tx 77 8 9 (Engine_new sm_demo))))).

Lemma take_events_indexed_witness :
  map de_event (fst (take_events en_with_events)) = [EvAgentRemoved 1 5; EvAgentSet 1 2 3].
Proof.
  destruct (take_events_indexed en_with_events 77 8 9 (fst (take_events en_with_events))
    (snd (take_events en_with_events))) as [H _];
    [vm_compute; congruence|reflexivity|apply surjective_pairing|].
  exact H.
Defined.
