(* ===== verification/KeyOrder.v ===== *)
(** The order in which RocksDB iterates a database whose keys are byte strings,
    and the prefix iteration of its clients: the event store
    (crates/engine/src/event_store.rs) and the state storage
    (crates/state/src/rocksdb_storage.rs). *)
From stdpp Require Import base gmap sets list sorting.
From Stdlib Require Import ZArith Lia.
From S2P Require Import Prelude.

(** RocksDB compares keys byte by byte. *)
Fixpoint bytes_le (a b : list Z) : bool :=
  match a, b with
  | [], _ => true
  | _ :: _, [] => false
  | x :: a', y :: b' => if x <? y then true else if y <? x then false else bytes_le a' b'
  end.

Lemma bytes_le_refl a : bytes_le a a = true.
Proof. induction a as [|x a IH]; [done|]. cbn. by rewrite Z.ltb_irrefl. Qed.

Lemma bytes_le_total a b : bytes_le a b = true \/ bytes_le b a = true.
Proof.
  revert b. induction a as [|x a IH]; intros [|y b]; cbn; auto.
  destruct (Z.ltb_spec x y), (Z.ltb_spec y x); auto.
Qed.

Lemma bytes_le_trans a b c : bytes_le a b = true -> bytes_le b c = true -> bytes_le a c = true.
Proof.
  revert b c. induction a as [|x a IH]; intros [|y b] [|z c]; cbn; try done.
  destruct (Z.ltb_spec x y), (Z.ltb_spec y x), (Z.ltb_spec y z), (Z.ltb_spec z y),
    (Z.ltb_spec x z), (Z.ltb_spec z x); try done; try lia. apply IH.
Qed.

(** A key is no smaller than its prefixes, and what lies between a prefix and
    a key that has it has it too. *)
Lemma prefix_bytes_le p k : p `prefix_of` k -> bytes_le p k = true.
Proof. intros [x ->]. induction p as [|b p IH]; [done|]. cbn. by rewrite Z.ltb_irrefl. Qed.

Lemma prefix_between p k1 k2 :
  bytes_le p k1 = true -> bytes_le k1 k2 = true -> p `prefix_of` k2 -> p `prefix_of` k1.
Proof.
  revert k1 k2. induction p as [|b p IH]; intros k1 k2 H1 H2 Hp; [apply prefix_nil|].
  destruct k2 as [|y k2]; [by apply prefix_nil_not in Hp|].
  apply prefix_cons_inv_1 in Hp as Hb. apply prefix_cons_inv_2 in Hp. subst y.
  destruct k1 as [|x k1]; [done|]. cbn in H1, H2.
  destruct (Z.ltb_spec b x), (Z.ltb_spec x b); try done; try lia.
  assert (x = b) as -> by lia. apply prefix_cons. by apply (IH k1 k2).
Qed.

Lemma filter_nil_all {A} (P : A -> Prop) `{forall x, Decision (P x)} (l : list A) :
  (forall x, x ∈ l -> ~ P x) -> filter P l = [].
Proof.
  intros H0. induction l as [|x l IH]; [done|]. rewrite filter_cons_False by (apply H0; left).
  apply IH. intros y Hy. apply H0. by right.
Qed.

Section iteration.
Context {A : Type}.

Definition key_le (x y : list Z * A) : Prop := bytes_le x.1 y.1 = true.
#[export] Instance key_le_dec x y : Decision (key_le x y).
Proof. unfold key_le. apply _. Defined.
#[export] Instance key_le_trans : Transitive key_le.
Proof. intros x y z. apply bytes_le_trans. Qed.
#[export] Instance key_le_total : Total key_le.
Proof. intros x y. apply bytes_le_total. Qed.

(** The entries in iteration order, and those from a prefix on: with no prefix
    extractor configured the iterator does not stop where the prefix ends. *)
Definition db_iterator (d : gmap (list Z) A) : list (list Z * A) := merge_sort key_le (map_to_list d).
Definition prefix_iterator (p : list Z) (d : gmap (list Z) A) : list (list Z * A) :=
  filter (fun kv => bytes_le p kv.1 = true) (db_iterator d).

Lemma db_iterator_elem d k v : (k, v) ∈ db_iterator d <-> d !! k = Some v.
Proof.
  unfold db_iterator. rewrite (merge_sort_Permutation key_le). apply elem_of_map_to_list.
Qed.

Lemma db_iterator_sorted d : StronglySorted key_le (db_iterator d).
Proof. apply StronglySorted_merge_sort; apply _. Qed.

(** Iterating from a prefix meets exactly the entries that have it, in order,
    before anything else. *)
Lemma prefix_iterator_split p d :
  exists rest,
    prefix_iterator p d = filter (fun kv => p `prefix_of` kv.1) (db_iterator d) ++ rest /\
    Forall (fun kv => ~ p `prefix_of` kv.1) rest.
Proof.
  unfold prefix_iterator. pose proof (db_iterator_sorted d) as Hs.
  induction (db_iterator d) as [|kv l IH]; [by exists []|].
  apply StronglySorted_inv in Hs as [Hs Hall]. rewrite !filter_cons.
  destruct (IH Hs) as (rest & E & Hr).
  destruct (decide (bytes_le p kv.1 = true)) as [Hle|Hle], (decide (p `prefix_of` kv.1)) as [Hp|Hp].
  - exists rest. by rewrite E.
  - assert (Hnone : filter (fun kv => p `prefix_of` kv.1) l = []).
    { apply filter_nil_all. intros x Hx Hpx. apply Hp.
      rewrite Forall_forall in Hall. by eapply prefix_between; [|apply Hall|]. }
    exists (kv :: rest). rewrite E, Hnone. split; [done|by constructor].
  - by apply prefix_bytes_le in Hp.
  - exists rest. done.
Qed.

End iteration.
