(* ===== verification/StorageKeys.v ===== *)
(** [StorageKey] as bytes (crates/state/src/storage_key.rs) and the parts of
    [RocksDbStorage] (rocksdb_storage.rs) that work on raw keys: the iteration by
    prefix of [list_snapshots] and the collection of old versions.

    [Storage.v] keeps the database as a map from storage keys; here it is the map
    from byte strings RocksDB holds, and the operations on bytes are shown to be
    those of [Storage.v].  The encoding is borsh's. *)
From stdpp Require Import base gmap sets list sorting.
From Stdlib Require Import ZArith Lia.
From S2P Require Import Prelude Types Storage State KeyOrder.

(** The versions in a key are [u64]s. *)
Definition storage_key_ok {B : Backend} (k : StorageKey) : Prop :=
  match k with
  | JmtValue _ v | Snapshot v | RightmostLeaf v => is_u64 v
  | CurrentVersion | JmtNode _ | LatestVersion _ => True
  end.

#[export] Instance storage_key_ok_dec {B : Backend} k : Decision (storage_key_ok k).
Proof. destruct k; unfold storage_key_ok, is_u64; apply _. Defined.

Class StorageKeyCodec (B : Backend) := {
  (** the 32 bytes of a key hash, and borsh at [jmt]'s [NodeKey] *)
  key_hash_bytes : KeyHash -> list Z;
  node_key_bytes : NodeKey -> list Z;
  (** borsh at [StorageKey] *)
  skey_to_bytes : StorageKey -> list Z;
  skey_from_bytes : list Z -> option StorageKey;
}.

(** The number of the variant, then its fields, integers little-endian. *)
Definition storage_key_layout {B : Backend} {K : StorageKeyCodec B} (k : StorageKey) : list Z :=
  match k with
  | CurrentVersion => [0]
  | JmtNode nk => [1] ++ node_key_bytes nk
  | JmtValue kh v => [2] ++ key_hash_bytes kh ++ le_bytes 8 v
  | LatestVersion kh => [3] ++ key_hash_bytes kh
  | Snapshot v => [4] ++ le_bytes 8 v
  | RightmostLeaf v => [5] ++ le_bytes 8 v
  end.

(** What borsh documents: the layout, that a key reads back, and that bytes
    which read as a key are its encoding. *)
Class StorageKeyCodecOk {B : Backend} (K : StorageKeyCodec B) := {
  skey_layout k : skey_to_bytes k = storage_key_layout k;
  skey_from_layout bytes k :
    skey_from_bytes bytes = Some k <-> storage_key_ok k /\ bytes = storage_key_layout k;
}.

Section raw.
Context {B : Backend} {K : StorageKeyCodec B}.

(** ** The byte-level operations *)

Definition prefix_for_jmt_values : list Z := [2].
Definition prefix_for_snapshots : list Z := [4].

Definition raw_list_snapshots (d : gmap (list Z) DbValue) : list Z :=
  merge_sort Z.le
    (omap (fun '(key, _) => match skey_from_bytes key with
                            | Some (Snapshot version) => Some version
                            | _ => None
                            end) (prefix_iterator prefix_for_snapshots d)).

(** A key that does not decode is kept. *)
Definition raw_should_delete (before : Z) (keep : gset Z) (key : list Z) : bool :=
  match skey_from_bytes key with
  | Some storage_key => should_delete before keep storage_key
  | None => false
  end.

Definition raw_collect_and_delete_old_versions (before : Z) (keep : gset Z)
    (d : gmap (list Z) DbValue) : nat * gmap (list Z) DbValue :=
  let '(keys, n, d) :=
    foldl (collect_step (Z.to_nat 10000) (raw_should_delete before keep)) ([], O, d)
      (db_iterator d).*1 in
  (n, batch_delete keys d).

Definition raw_put (key : StorageKey) (v : DbValue) (d : gmap (list Z) DbValue)
    : gmap (list Z) DbValue := <[skey_to_bytes key := v]> d.
Definition raw_get (key : StorageKey) (d : gmap (list Z) DbValue) : option DbValue :=
  d !! skey_to_bytes key.

(** What RocksDB holds for the database of [Storage.v]. *)
Definition disk_bytes (m : gmap StorageKey DbValue) : gmap (list Z) DbValue :=
  list_to_map ((fun '(k, v) => (skey_to_bytes k, v)) <$> map_to_list m).

Definition keys_ok (m : gmap StorageKey DbValue) : Prop :=
  forall k, is_Some (m !! k) -> storage_key_ok k.

End raw.

(** * Lemmas *)

Section facts.
Context {B : Backend} {K : StorageKeyCodec B} {Kok : StorageKeyCodecOk K}.
Implicit Types (m : gmap StorageKey DbValue) (k : StorageKey).

Lemma skey_roundtrip k : storage_key_ok k -> skey_from_bytes (skey_to_bytes k) = Some k.
Proof. intros Hk. apply skey_from_layout. by rewrite skey_layout. Qed.

Lemma skey_canonical bytes k :
  skey_from_bytes bytes = Some k -> storage_key_ok k /\ bytes = skey_to_bytes k.
Proof. intros [Hk ->]%skey_from_layout. by rewrite skey_layout. Qed.

Lemma skey_inj k1 k2 :
  storage_key_ok k1 -> storage_key_ok k2 -> skey_to_bytes k1 = skey_to_bytes k2 -> k1 = k2.
Proof. intros H1 H2 E. apply skey_roundtrip in H1, H2. congruence. Qed.

(** A hand-written prefix selects the keys of its variant. *)
Lemma prefix_snapshots_iff k :
  prefix_for_snapshots `prefix_of` skey_to_bytes k <-> exists v, k = Snapshot v.
Proof.
  rewrite skey_layout. split.
  - intros [x E]. destruct k; try discriminate E. eauto.
  - intros [v ->]. by apply prefix_app_r.
Qed.

Lemma prefix_jmt_values_iff k :
  prefix_for_jmt_values `prefix_of` skey_to_bytes k <-> exists kh v, k = JmtValue kh v.
Proof.
  rewrite skey_layout. split.
  - intros [x E]. destruct k; try discriminate E. eauto.
  - intros (kh & v & ->). by apply prefix_app_r.
Qed.

Lemma keys_ok_elem m k v : keys_ok m -> (k, v) ∈ map_to_list m -> storage_key_ok k.
Proof. intros Hm Hk%elem_of_map_to_list. apply Hm. by rewrite Hk. Qed.

Lemma disk_bytes_nodup m :
  keys_ok m -> NoDup ((fun '(k, v) => (skey_to_bytes k, v)) <$> map_to_list m).*1.
Proof.
  intros Hm. rewrite <- list_fmap_compose. apply NoDup_fmap_2_strong; [|apply NoDup_map_to_list].
  intros [k1 v1] [k2 v2] H1 H2 E. cbn in E.
  apply skey_inj in E as ->; [|by eapply keys_ok_elem..].
  apply elem_of_map_to_list in H1, H2. congruence.
Qed.

Lemma disk_bytes_lookup m bytes :
  keys_ok m -> disk_bytes m !! bytes = skey_from_bytes bytes ≫= fun k => m !! k.
Proof.
  intros Hm. apply option_eq. intros v. unfold disk_bytes.
  rewrite <- elem_of_list_to_map by (by apply disk_bytes_nodup). rewrite list_elem_of_fmap. split.
  - intros ([k w] & [= -> ->] & Hk). rewrite skey_roundtrip by (by eapply keys_ok_elem).
    by apply elem_of_map_to_list in Hk.
  - rewrite bind_Some. intros (k & Hk & Hv). apply skey_canonical in Hk as [_ ->].
    exists (k, v). split; [done|]. by apply elem_of_map_to_list.
Qed.

Lemma raw_get_exact m k : keys_ok m -> storage_key_ok k -> raw_get k (disk_bytes m) = m !! k.
Proof. intros Hm Hk. unfold raw_get. by rewrite disk_bytes_lookup, skey_roundtrip. Qed.

Lemma keys_ok_insert m k v : keys_ok m -> storage_key_ok k -> keys_ok (<[k := v]> m).
Proof. intros Hm Hk k'. rewrite lookup_insert_is_Some. intros [<-|[_ Hk']]; [done|by apply Hm]. Qed.

Lemma raw_put_exact m k v :
  keys_ok m -> storage_key_ok k -> raw_put k v (disk_bytes m) = disk_bytes (<[k := v]> m).
Proof.
  intros Hm Hk. apply map_eq. intros bytes. unfold raw_put.
  rewrite (disk_bytes_lookup (<[k := v]> m)) by (by apply keys_ok_insert).
  destruct (decide (skey_to_bytes k = bytes)) as [<-|Hne].
  - rewrite lookup_insert_eq, skey_roundtrip by done. cbn. by rewrite lookup_insert_eq.
  - rewrite lookup_insert_ne, disk_bytes_lookup by done.
    destruct (skey_from_bytes bytes) as [k'|] eqn:E; [|done]. cbn.
    rewrite lookup_insert_ne; [done|]. intros ->. by apply skey_canonical in E as [_ ->].
Qed.

(** ** Iteration *)

Lemma db_iterator_disk m :
  keys_ok m -> db_iterator (disk_bytes m) ≡ₚ (fun '(k, v) => (skey_to_bytes k, v)) <$> map_to_list m.
Proof.
  intros Hm. unfold db_iterator. rewrite (merge_sort_Permutation key_le).
  apply map_to_list_to_map. by apply disk_bytes_nodup.
Qed.

Lemma omap_filter_keep {A C} (f : A -> option C) (P : A -> Prop) `{forall x, Decision (P x)} (l : list A) :
  (forall x, is_Some (f x) -> P x) -> omap f (filter P l) = omap f l.
Proof.
  intros Hf. induction l as [|x l IH]; [done|]. rewrite filter_cons.
  destruct (decide (P x)) as [Hx|Hx]; cbn; rewrite IH; [done|].
  destruct (f x) eqn:E; [|done]. destruct Hx. apply Hf. by rewrite E.
Qed.

Lemma raw_list_snapshots_exact st :
  keys_ok (db st) -> raw_list_snapshots (disk_bytes (db st)) = list_snapshots st.
Proof.
  intros Hm. apply (StronglySorted_unique Z.le); [apply StronglySorted_merge_sort; apply _..|].
  unfold raw_list_snapshots, list_snapshots. rewrite !(merge_sort_Permutation Z.le). unfold prefix_iterator.
  rewrite omap_filter_keep.
  - rewrite (db_iterator_disk _ Hm). apply Permutation_refl', list_omap_ext.
    rewrite Forall2_fmap_l, Forall2_fmap_r. apply Forall_Forall2_diag, Forall_forall.
    intros [k v] Hk. cbn. by rewrite skey_roundtrip by (by eapply keys_ok_elem).
  - intros [key v] [w Hw]. cbn -[bytes_le] in *. destruct (skey_from_bytes key) as [k|] eqn:E; [|done].
    apply skey_canonical in E as [_ ->]. apply prefix_bytes_le, prefix_snapshots_iff.
    destruct k; try done. eauto.
Qed.

Lemma raw_should_delete_key before keep k :
  storage_key_ok k -> raw_should_delete before keep (skey_to_bytes k) = should_delete before keep k.
Proof. intros Hk. unfold raw_should_delete. by rewrite skey_roundtrip. Qed.

Lemma collected_length before keep m :
  keys_ok m ->
  length (filter (fun b => raw_should_delete before keep b = true) (db_iterator (disk_bytes m)).*1) =
  length (filter (fun k => should_delete before keep k = true) (map_to_list m).*1).
Proof.
  intros Hm. rewrite (db_iterator_disk _ Hm), <- list_fmap_compose.
  assert (Hl : Forall (fun kv => storage_key_ok kv.1) (map_to_list m)).
  { apply Forall_forall. intros [k v] Hk. by eapply keys_ok_elem. }
  induction Hl as [|[k v] l Hk Hl IH]; [done|]. cbn [fmap list_fmap fst compose].
  rewrite !filter_cons, raw_should_delete_key by done. by destruct (decide _); cbn; rewrite IH.
Qed.

(** What a collection over all keys of a map counts and leaves. *)
Lemma collect_all {T V} `{Countable T} limit (doomed : T -> bool) ks (d : gmap T V) :
  (forall x, is_Some (d !! x) -> x ∈ ks) ->
  let '(keys, n, d') := foldl (collect_step limit doomed) ([], O, d) ks in
  n = length (filter (fun x => doomed x = true) ks) /\
  forall x, batch_delete keys d' !! x = if doomed x then None else d !! x.
Proof.
  intros Hks. pose proof (collect_fold_lookup limit doomed ks [] O d) as Hc.
  destruct (foldl _ _ ks) as [[keys n] d']. destruct Hc as [-> Hc]. split; [done|].
  intros x. rewrite Hc. cbn [app].
  destruct (doomed x) eqn:Hk; case_decide as Hin; rewrite list_elem_of_filter in Hin; try done.
  - destruct (d !! x) eqn:E; [|done]. destruct Hin. split; [done|]. apply Hks. by rewrite E.
  - destruct Hin. congruence.
Qed.

Lemma map_keys_elem {T V} `{Countable T} (d : gmap T V) x : is_Some (d !! x) -> x ∈ (map_to_list d).*1.
Proof.
  intros [v Hv]. apply list_elem_of_fmap. exists (x, v). split; [done|]. by apply elem_of_map_to_list.
Qed.

Lemma raw_collect_exact before keep st :
  keys_ok (db st) ->
  let '(n, st') := collect_and_delete_old_versions before keep st in
  keys_ok (db st') /\
  raw_collect_and_delete_old_versions before keep (disk_bytes (db st)) = (n, disk_bytes (db st')).
Proof.
  intros Hm. unfold collect_and_delete_old_versions, raw_collect_and_delete_old_versions.
  pose proof (collect_all (Z.to_nat 10000) (should_delete before keep) (map_to_list (db st)).*1 (db st)
    (map_keys_elem _)) as Ht.
  pose proof (collect_all (Z.to_nat 10000) (raw_should_delete before keep)
    (db_iterator (disk_bytes (db st))).*1 (disk_bytes (db st))) as Hr.
  destruct (foldl _ _ (map_to_list _).*1) as [[keys n] d].
  destruct (foldl _ _ (db_iterator _).*1) as [[keys' n'] d'].
  destruct Ht as [-> Ht], Hr as [-> Hr].
  { intros b [v Hb]. apply list_elem_of_fmap. exists (b, v). split; [done|]. by apply db_iterator_elem. }
  assert (Hk : keys_ok (batch_delete keys d)).
  { intros k. rewrite Ht. destruct (should_delete _ _ k); [by intros [? ?]|apply Hm]. }
  split; [exact Hk|]. f_equal; [by apply collected_length|]. cbn [with_db db].
  apply map_eq. intros b. rewrite Hr, !disk_bytes_lookup by done. unfold raw_should_delete.
  destruct (skey_from_bytes b) as [k|]; [|done]. cbn. by rewrite Ht.
Qed.

(** ** The keys of a store are within range *)

Lemma keys_ok_write_nodes nodes st : keys_ok (db st) -> keys_ok (db (write_node_batch nodes st)).
Proof.
  unfold write_node_batch. revert st. induction nodes as [|[nk n] nodes IH]; intros st Hm; [done|].
  apply IH. by apply keys_ok_insert.
Qed.

Lemma keys_ok_store_values pending version st :
  is_u64 version -> keys_ok (db st) -> keys_ok (db (store_values pending version st)).
Proof.
  intros Hv. unfold store_values. revert st.
  induction pending as [|[kh b] pending IH]; intros st Hm; [done|].
  apply IH. by apply keys_ok_insert.
Qed.

Lemma keys_ok_store_latest khs version st :
  keys_ok (db st) -> keys_ok (db (store_latest_versions khs version st)).
Proof.
  unfold store_latest_versions. revert st. induction khs as [|kh khs IH]; intros st Hm; [done|].
  apply IH. by apply keys_ok_insert.
Qed.

Lemma keys_ok_prune before st : keys_ok (db st) -> keys_ok (db (prune_before_version before st)).
Proof.
  intros Hm k. rewrite prune_lookup. destruct (should_delete _ _ k); [by intros [? ?]|apply Hm].
Qed.

Lemma keys_ok_modify (f : RocksDbStorage -> RocksDbStorage) :
  (forall st, keys_ok (db st) -> keys_ok (db (f st))) ->
  preserves (fun st => keys_ok (db st)) (st_modify f : ST RocksDbStorage StateError unit).
Proof. intros Hf s Hs. by apply Hf. Qed.

Lemma write_pending_keys_ok version :
  is_u64 version -> preserves (fun st => keys_ok (db st)) (write_pending version).
Proof.
  intros Hv. unfold write_pending. apply preserves_bind; [apply preserves_gets|intros pending].
  apply preserves_bind; [apply preserves_gets|intros h].
  apply preserves_bind; [by apply keys_ok_modify|intros _].
  apply preserves_if; [apply preserves_ret|]. apply preserves_bind; [by intros s Hs|intros st].
  destruct (jmt_put_value_set _ _ _ _) as [[root nodes]|]; [|apply preserves_fail].
  repeat (apply preserves_bind; [|intros _]); apply keys_ok_modify; intros.
  - by apply keys_ok_write_nodes.
  - by apply keys_ok_store_values.
  - by apply keys_ok_store_latest.
Qed.

Lemma storage_commit_keys_ok version :
  is_u64 version -> preserves (fun st => keys_ok (db st)) (storage_commit version).
Proof.
  intros Hv. unfold storage_commit. apply preserves_bind; [by apply write_pending_keys_ok|intros _].
  apply preserves_bind; [apply preserves_read|intros root].
  do 2 (apply preserves_bind; [by apply keys_ok_modify|intros _]).
  apply preserves_bind; [apply keys_ok_modify; intros; by apply keys_ok_insert|intros _].
  apply preserves_bind; [apply preserves_gets|intros config].
  apply preserves_bind; [|intros _; apply preserves_ret].
  apply preserves_if; [|apply preserves_ret]. apply preserves_bind; [|intros _];
    (apply preserves_if; [apply keys_ok_modify; intros|apply preserves_ret]).
  - by apply keys_ok_insert.
  - by apply keys_ok_prune.
Qed.

(** C17: the storage keyed by [StorageKey]s is what RocksDB holds under their
    borsh bytes.  For a store whose versions are [u64]s, which every commit at a
    [u64] version keeps true, reading and writing a key, and pruning old versions
    by decoding every raw key in byte order in batches of 10000, act on the bytes
    as on the keys and delete the same number of entries; and iterating from the
    hand-written snapshot prefix, which runs on past the last snapshot, lists
    exactly the snapshots. *)
Theorem storage_on_bytes st :
  keys_ok (db st) ->
  (forall k v, storage_key_ok k ->
    raw_get k (disk_bytes (db st)) = db st !! k /\
    raw_put k v (disk_bytes (db st)) = disk_bytes (<[k := v]> (db st))) /\
  (forall before keep,
    let '(n, st') := collect_and_delete_old_versions before keep st in
    raw_collect_and_delete_old_versions before keep (disk_bytes (db st)) = (n, disk_bytes (db st'))) /\
  raw_list_snapshots (disk_bytes (db st)) = list_snapshots st /\
  (forall version r st', is_u64 version -> storage_commit version st = (r, st') -> keys_ok (db st')).
Proof.
  intros Hm. split_and!.
  - intros k v Hk. split; [by apply raw_get_exact|by apply raw_put_exact].
  - intros before keep. pose proof (raw_collect_exact before keep st Hm) as Hc.
    destruct (collect_and_delete_old_versions _ _ _). apply Hc.
  - by apply raw_list_snapshots_exact.
  - intros version r st' Hv Hc. pose proof (storage_commit_keys_ok version Hv st Hm) as Hk.
    by rewrite Hc in Hk.
Qed.

End facts.

(** * A concrete codec

    Key hashes of the concrete backend are state keys, numbered by their
    encoding; its node keys are numbers.  Fields are read off and accepted when
    they are in range and encode back to the same bytes. *)

Definition toy_hash (h : Z) : StateKey := default SK_NextOrderId (countable.decode (Z.to_pos h)).

Definition skey_candidate (bytes : list Z) : @StorageKey mem_backend :=
  match bytes with
  | [1; nk] => JmtNode (nk : @NodeKey mem_backend)
  | 2 :: h :: v => JmtValue (toy_hash h : @KeyHash mem_backend) (le_value v)
  | [3; h] => LatestVersion (toy_hash h : @KeyHash mem_backend)
  | 4 :: v => Snapshot (le_value v)
  | 5 :: v => RightmostLeaf (le_value v)
  | _ => CurrentVersion
  end.

#[export] Instance toy_skey_codec : StorageKeyCodec mem_backend :=
  let to_bytes k := match k with
    | CurrentVersion => [0]
    | JmtNode nk => [1; nk]
    | JmtValue kh v => 2 :: Z.pos (encode (kh : StateKey)) :: le_bytes 8 v
    | LatestVersion kh => [3; Z.pos (encode (kh : StateKey))]
    | Snapshot v => 4 :: le_bytes 8 v
    | RightmostLeaf v => 5 :: le_bytes 8 v
    end in {|
  key_hash_bytes kh := [Z.pos (encode (kh : StateKey))];
  node_key_bytes nk := [nk];
  skey_to_bytes := to_bytes;
  skey_from_bytes bytes :=
    let k := skey_candidate bytes in
    if decide (storage_key_ok k /\ bytes = to_bytes k) then Some k else None;
|}.

Lemma skey_candidate_layout k : storage_key_ok k -> skey_candidate (storage_key_layout k) = k.
Proof.
  assert (Hh : forall kh : StateKey, toy_hash (Z.pos (encode kh)) = kh).
  { intros kh. unfold toy_hash. cbn [Z.to_pos]. by rewrite decode_encode. }
  intros Hk. destruct k as [|nk|kh v|kh|v|v]; cbn -[le_bytes encode] in *; try done;
    rewrite ?Hh, ?le_value_bytes by (by apply u64_bytes); done.
Qed.

#[export] Instance toy_skey_codec_ok : StorageKeyCodecOk toy_skey_codec.
Proof.
  assert (Hl : forall k, skey_to_bytes k = storage_key_layout k) by (by intros []).
  constructor; [done|]. intros bytes k. cbn [skey_from_bytes toy_skey_codec]. split.
  - case_decide as H; [|done]. intros [= <-]. destruct H as [Hk H]. split; [done|].
    by rewrite <- Hl.
  - intros [Hk ->]. rewrite (skey_candidate_layout k Hk). rewrite decide_True; [done|].
    split; [done|]. symmetry. apply Hl.
Qed.

(** Two committed versions, the second past a snapshot. *)
Definition demo_keys_store : RocksDbStorage :=
  create_snapshot 2000 (create_snapshot 1000
    (storage_commit 2000 (storage_set (SK_Nonce 7) (5 : Z) (storage_new ∅ PruningConfig_default demo_hash)).2).2).

Lemma demo_keys_ok : keys_ok (db demo_keys_store).
Proof.
  do 2 (apply keys_ok_insert; [|by vm_compute]).
  assert (H0 : keys_ok (db (storage_set (SK_Nonce 7) (5 : Z) (storage_new ∅ PruningConfig_default demo_hash)).2))
    by (by intros k [? ?]).
  exact (storage_commit_keys_ok 2000 ltac:(by vm_compute) _ H0).
Qed.

Lemma storage_on_bytes_witness :
  keys_ok (db demo_keys_store) /\
  raw_list_snapshots (disk_bytes (db demo_keys_store)) = [1000; 2000].
Proof.
  split; [exact demo_keys_ok|].
  destruct (storage_on_bytes demo_keys_store demo_keys_ok) as (_ & _ & -> & _).
  vm_compute. reflexivity.
Defined.
