(* ===== verification/EventKeys.v ===== *)
(** [EventStoreKey] (crates/engine/src/event_store_key.rs): the keys of the event
    database and their byte layout.
    The encoding itself is borsh's; [KeyCodecOk] states its documented layout,
    on which the hand-written prefixes of the source rely. *)
From stdpp Require Import base gmap sets list sorting strings.
From Stdlib Require Import ZArith Lia.
From S2P Require Import Prelude Types Tx KeyOrder.

Inductive EventStoreKey :=
| EKEvent (block_height : Z) (tx_hash : B256) (event_index : Z)
| EKBlockIndex (block_height : Z) (tx_hash : B256) (event_index : Z)
| EKTxIndex (tx_hash : B256) (event_index : Z)
| EKMetaCount.
#[export] Instance EventStoreKey_eq_dec : EqDecision EventStoreKey.
Proof. solve_decision. Defined.

(** Keys are built from a [u64], 32 bytes and a [u32]. *)
Definition is_hash (h : B256) : Prop := 0 <= h < 256 ^ 32.
Definition key_ok (k : EventStoreKey) : Prop :=
  match k with
  | EKEvent h t i | EKBlockIndex h t i => is_u64 h /\ is_hash t /\ is_u32 i
  | EKTxIndex t i => is_hash t /\ is_u32 i
  | EKMetaCount => True
  end.

Class KeyCodec := {
  key_to_bytes : EventStoreKey -> list Z;
  key_from_bytes : list Z -> option EventStoreKey;
}.

(** A discriminant byte, then the fields: integers little-endian, hashes as
    they are. *)
Definition key_layout (k : EventStoreKey) : list Z :=
  match k with
  | EKEvent h t i => [0] ++ le_bytes 8 h ++ b256_slice t ++ le_bytes 4 i
  | EKBlockIndex h t i => [1] ++ le_bytes 8 h ++ b256_slice t ++ le_bytes 4 i
  | EKTxIndex t i => [2] ++ b256_slice t ++ le_bytes 4 i
  | EKMetaCount => [3]
  end.
Class KeyCodecOk (K : KeyCodec) := {
  key_bytes_layout k : key_to_bytes k = key_layout k;
  key_from_layout bytes k : key_from_bytes bytes = Some k <-> key_ok k /\ bytes = key_layout k;
}.

(** ** Prefixes *)

Definition prefix_for_events : list Z := [0].
Definition prefix_for_block_index : list Z := [1].
Definition prefix_for_tx_index : list Z := [2].
Definition prefix_for_block (block_height : Z) : list Z := [1] ++ le_bytes 8 block_height.
Definition prefix_for_tx (tx_hash : B256) : list Z := [2] ++ b256_slice tx_hash.

Lemma slice_inj y z : is_hash y -> is_hash z -> b256_slice y = b256_slice z -> y = z.
Proof. intros Hy Hz. apply (be_bytes_inj 32); [exact Hy|exact Hz]. Qed.

Lemma length_slice t : length (b256_slice t) = 32%nat.
Proof. apply length_be_bytes. Qed.

(** Distinct keys have distinct bytes. *)
Lemma key_layout_inj k1 k2 : key_ok k1 -> key_ok k2 -> key_layout k1 = key_layout k2 -> k1 = k2.
Proof.
  destruct k1 as [h t i|h t i|t i|], k2 as [h2 t2 i2|h2 t2 i2|t2 i2|]; cbn [key_ok key_layout];
    intros H1 H2 E; try discriminate E; try done; apply app_inv_head in E.
  1,2: apply app_inj_len in E as [Eh E]; [|by rewrite !length_le_bytes];
    apply app_inj_len in E as [Et Ei]; [|by rewrite !length_slice];
    apply le8_inj in Eh; [|tauto..]; apply slice_inj in Et; [|tauto..];
    apply le4_inj in Ei; [|tauto..]; congruence.
  apply app_inj_len in E as [Et Ei]; [|by rewrite !length_slice].
  apply slice_inj in Et; [|tauto..]. apply le4_inj in Ei; [|tauto..]. congruence.
Qed.

Lemma prefix_block_iff h k :
  is_u64 h -> key_ok k ->
  prefix_for_block h `prefix_of` key_layout k <-> exists t i, k = EKBlockIndex h t i.
Proof.
  intros Hh Hk. split.
  - intros [x E]. unfold prefix_for_block in E. destruct k as [h2 t i|h2 t i|t i|];
      try discriminate E.
    cbn [key_layout] in E. rewrite <- app_assoc in E. apply app_inv_head in E. apply app_inj_len in E as [Eh _]; [|by rewrite !length_le_bytes].
    apply le8_inj in Eh; [|by apply Hk|done]. subst. eauto.
  - intros (t & i & ->). cbn [key_layout]. unfold prefix_for_block.
    rewrite app_assoc. by apply prefix_app_r.
Qed.

Lemma prefix_tx_iff t k :
  is_hash t -> key_ok k ->
  prefix_for_tx t `prefix_of` key_layout k <-> exists i, k = EKTxIndex t i.
Proof.
  intros Ht Hk. split.
  - intros [x E]. unfold prefix_for_tx in E. destruct k as [h t2 i|h t2 i|t2 i|]; try discriminate E.
    cbn [key_layout] in E. rewrite <- app_assoc in E. apply app_inv_head in E. apply app_inj_len in E as [Et _]; [|by rewrite !length_slice].
    apply slice_inj in Et; [|by apply Hk|done]. subst. eauto.
  - intros (i & ->). cbn [key_layout]. unfold prefix_for_tx.
    rewrite app_assoc. by apply prefix_app_r.
Qed.

Lemma prefix_events_iff k :
  prefix_for_events `prefix_of` key_layout k <-> exists h t i, k = EKEvent h t i.
Proof.
  split.
  - intros [x E]. destruct k; try discriminate E. eauto.
  - intros (h & t & i & ->). by apply prefix_app_r.
Qed.

(** * A concrete codec

    Read the fields off and accept them when they are in range and encode back
    to the same bytes. *)
Definition be_value (l : list Z) : Z := le_value (rev l).

Definition key_candidate (bytes : list Z) : EventStoreKey :=
  match bytes with
  | 0 :: r => EKEvent (le_value (take 8 r)) (be_value (take 32 (drop 8 r))) (le_value (drop 40 r))
  | 1 :: r => EKBlockIndex (le_value (take 8 r)) (be_value (take 32 (drop 8 r))) (le_value (drop 40 r))
  | 2 :: r => EKTxIndex (be_value (take 32 r)) (le_value (drop 32 r))
  | _ => EKMetaCount
  end.

#[export] Instance key_ok_dec k : Decision (key_ok k).
Proof. destruct k; unfold key_ok, is_u64, is_u32, is_hash; apply _. Defined.

Definition toy_key_codec : KeyCodec := {|
  key_to_bytes := key_layout;
  key_from_bytes bytes :=
    let k := key_candidate bytes in
    if decide (key_ok k /\ bytes = key_layout k) then Some k else None;
|}.

Lemma be_value_slice t : is_hash t -> be_value (b256_slice t) = t.
Proof.
  intros Ht. unfold be_value, b256_slice, be_bytes. rewrite rev_involutive.
  by apply le_value_bytes.
Qed.

Lemma key_fields h t i :
  is_u64 h -> is_hash t -> is_u32 i ->
  let r := le_bytes 8 h ++ b256_slice t ++ le_bytes 4 i in
  le_value (take 8 r) = h /\ be_value (take 32 (drop 8 r)) = t /\ le_value (drop 40 r) = i.
Proof.
  intros Hh Ht Hi r. subst r.
  rewrite take_app_len, drop_app_len by apply length_le_bytes.
  rewrite take_app_len by apply length_slice. rewrite app_assoc, drop_app_len
    by (rewrite length_app, length_le_bytes, length_slice; done).
  rewrite !le_value_bytes, be_value_slice by (by apply u64_bytes || by apply u32_bytes || done).
  done.
Qed.

Lemma key_candidate_layout k : key_ok k -> key_candidate (key_layout k) = k.
Proof.
  intros Hk. destruct k as [h t i|h t i|t i|]; cbn [key_ok] in Hk; [| | |done].
  1,2: destruct (key_fields h t i) as (E1 & E2 & E3); [tauto..|];
    cbn -[take drop le_bytes b256_slice]; by rewrite E1, E2, E3.
  destruct Hk as [Ht Hi]. cbn -[take drop le_bytes b256_slice].
  rewrite take_app_len, drop_app_len by apply length_slice.
  by rewrite be_value_slice, le_value_bytes by (done || by apply u32_bytes).
Qed.

#[export] Instance toy_key_codec_ok : KeyCodecOk toy_key_codec.
Proof.
  constructor; [done|]. intros bytes k. cbn [key_from_bytes toy_key_codec]. split.
  - case_decide as H; [|done]. intros [= <-]. exact H.
  - intros [Hk ->]. rewrite (key_candidate_layout k Hk). by rewrite decide_True.
Qed.
