(* ===== verification/EventStore.v ===== *)
(** Event stores (crates/engine/src/event_store.rs): the trait [EventStore], its
    laws as an interface, and the in-memory implementation with its indices,
    shown to satisfy them. *)
From stdpp Require Import base gmap sets list sorting strings.
From Stdlib Require Import ZArith Lia.
From S2P Require Import Prelude Types Tx KeyOrder EventKeys.

Definition event_involves_address (event : Event) (address : Address) : bool :=
  match event with
  | EvBalanceChanged addr _ _ _ _ => addr =? address
  | EvTransfer from to _ _ => (from =? address) || (to =? address)
  | EvOrderPlaced _ owner _ _ _ _ _ => owner =? address
  | EvOrderCancelled _ owner _ _ => owner =? address
  | EvOrderFilled _ _ maker taker _ _ _ _ _ _ => (maker =? address) || (taker =? address)
  | EvPositionOpened trader _ _ _ _ _ => trader =? address
  | EvPositionClosed trader _ _ _ _ _ => trader =? address
  | EvPositionModified trader _ _ _ => trader =? address
  | EvPositionLiquidated trader _ liquidator _ _ _ _ _ =>
      (trader =? address) || default false ((fun l => l =? address) <$> liquidator)
  | EvFundingPaid trader _ _ _ _ _ => trader =? address
  | EvBridgeDeposit _ user _ _ _ => user =? address
  | EvBridgeWithdraw _ user _ _ _ _ => user =? address
  | EvAgentSet account agent _ => (account =? address) || (agent =? address)
  | EvAgentRemoved account agent => (account =? address) || (agent =? address)
  | _ => false
  end.

Inductive EventStoreError :=
| SerializationError
| StorageError
| NotFound
| Other
| RocksDbError.

(** A query can panic, [None], or return a result. *)
Definition query (A : Type) : Type := option (result EventStoreError A).

(** The trait. *)
Class EventStore (S : Type) := {
  append : list DomainEvent -> ST S EventStoreError unit;
  get_by_block_range : S -> Z -> Z -> query (list DomainEvent);
  get_by_tx : S -> B256 -> query (list DomainEvent);
  get_by_address : S -> Address -> nat -> query (list DomainEvent);
  count : S -> query Z;
}.

(** [from..=to] *)
Definition range_inclusive (from to : Z) : list Z := seqZ from (to - from + 1).

(** Values of the Rust types.  Strings are bytes in the model; only ASCII ones
    are taken to be valid. *)
Definition is_i64 (z : Z) : Prop := - 2 ^ 63 <= z <= I64_MAX.
Definition is_ascii (s : string) : Prop := Forall (fun b => b < 128) (as_bytes s).
Definition payload_ok (event : Event) : Prop :=
  match event with
  | EvBalanceChanged a asset o n _ => is_address a /\ is_u32 asset /\ is_u128 o /\ is_u128 n
  | EvTransfer from to asset amount =>
      is_address from /\ is_address to /\ is_u32 asset /\ is_u128 amount
  | EvNonceUpdated a o n => is_address a /\ is_u64 o /\ is_u64 n
  | EvOrderPlaced id owner market _ price size _ =>
      is_u64 id /\ is_address owner /\ is_u32 market /\ is_u64 price /\ is_u64 size
  | EvOrderCancelled id owner market remaining =>
      is_u64 id /\ is_address owner /\ is_u32 market /\ is_u64 remaining
  | EvOrderFilled mid tid maker taker market price size _ mfee tfee =>
      is_u64 mid /\ is_u64 tid /\ is_address maker /\ is_address taker /\ is_u32 market /\
      is_u64 price /\ is_u64 size /\ is_u128 mfee /\ is_u128 tfee
  | EvPositionOpened trader market _ size entry margin =>
      is_address trader /\ is_u32 market /\ is_u64 size /\ is_u64 entry /\ is_u128 margin
  | EvPositionClosed trader market size exit pnl _ =>
      is_address trader /\ is_u32 market /\ is_u64 size /\ is_u64 exit /\ is_i128 pnl
  | EvPositionModified trader market o n =>
      is_address trader /\ is_u32 market /\ is_u128 o /\ is_u128 n
  | EvPositionLiquidated trader market liquidator size price fee contribution usage =>
      is_address trader /\ is_u32 market /\ from_option is_address True liquidator /\ is_u64 size /\
      is_u64 price /\ is_u128 fee /\ is_u128 contribution /\ is_u128 usage
  | EvFundingPaid trader market amount _ rate index =>
      is_address trader /\ is_u32 market /\ is_i128 amount /\ is_i64 rate /\ is_i128 index
  | EvFundingRateUpdated market rate mark oracle index =>
      is_u32 market /\ is_i64 rate /\ is_u64 mark /\ is_u64 oracle /\ is_i128 index
  | EvBridgeDeposit operator user asset amount tx =>
      is_address operator /\ is_address user /\ is_u32 asset /\ is_u128 amount /\ is_hash tx
  | EvBridgeWithdraw operator user asset amount destination tx =>
      is_address operator /\ is_address user /\ is_u32 asset /\ is_u128 amount /\
      is_address destination /\ is_hash tx
  | EvAgentSet account agent permissions =>
      is_address account /\ is_address agent /\ is_u64 permissions
  | EvAgentRemoved account agent => is_address account /\ is_address agent
  | EvMarketUpdated market symbol => is_u32 market /\ is_ascii symbol
  | EvInsuranceFundUpdated market o n _ => is_u32 market /\ is_u128 o /\ is_u128 n
  end.

Definition header_ok (e : DomainEvent) : Prop :=
  is_u64 (de_block_height e) /\ is_hash (de_tx_hash e) /\ is_u32 (de_event_index e).
Definition event_ok (e : DomainEvent) : Prop :=
  header_ok e /\ is_u64 (de_timestamp e) /\ payload_ok (de_event e).

(** A log that block execution can produce: blocks are appended in order, the
    events of a transaction by increasing index. *)
Definition height_le (x y : DomainEvent) : Prop := de_block_height x <= de_block_height y.
Definition height_ge (x y : DomainEvent) : Prop := de_block_height y <= de_block_height x.
Definition index_le (x y : DomainEvent) : Prop := de_event_index x <= de_event_index y.
#[export] Instance height_le_dec x y : Decision (height_le x y).
Proof. unfold height_le. apply _. Defined.
#[export] Instance height_ge_dec x y : Decision (height_ge x y).
Proof. unfold height_ge. apply _. Defined.
#[export] Instance index_le_dec x y : Decision (index_le x y).
Proof. unfold index_le. apply _. Defined.
#[export] Instance height_ge_trans : Transitive height_ge.
Proof. unfold height_ge. intros x y z. lia. Qed.
#[export] Instance height_ge_total : Total height_ge.
Proof. unfold height_ge. intros x y. lia. Qed.
#[export] Instance Zge_antisymm : AntiSymm (=) Z.ge.
Proof. intros x y. lia. Qed.
#[export] Instance index_le_trans : Transitive index_le.
Proof. unfold index_le. intros x y z. lia. Qed.
#[export] Instance index_le_total : Total index_le.
Proof. unfold index_le. intros x y. lia. Qed.

Definition tx_order (x y : DomainEvent) : Prop :=
  de_tx_hash x = de_tx_hash y -> de_event_index x < de_event_index y.

Record log_ok (log : list DomainEvent) : Prop := {
  log_events : Forall event_ok log;
  log_heights : StronglySorted height_le log;
  log_indices : StronglySorted tx_order log;
  log_length : is_u64 (Z.of_nat (length log));
}.

(** * The interface

    [holds t log visible]: the events [log] were appended to [t], oldest first;
    queries see those of [visible]. *)
Class EventStoreOk (S : Type) `{EventStore S} := {
  holds : S -> list DomainEvent -> list DomainEvent -> Prop;
  visible_prefix t log visible : holds t log visible -> visible `prefix_of` log;
  append_holds t log visible new :
    log_ok (log ++ new) -> holds t log visible ->
    exists t' visible',
      append new t = (Ok tt, t') /\ holds t' (log ++ new) visible' /\ visible `prefix_of` visible';
  block_range_law t log visible from to :
    log_ok visible -> holds t log visible -> 0 <= from -> to <= U64_MAX ->
    exists l,
      get_by_block_range t from to = Some (Ok l) /\
      l ≡ₚ filter (fun e => from <= de_block_height e <= to) visible /\
      StronglySorted height_le l;
  tx_law t log visible tx :
    log_ok visible -> holds t log visible -> is_hash tx ->
    get_by_tx t tx = Some (Ok (filter (fun e => de_tx_hash e = tx) visible));
  address_law t log visible a limit :
    log_ok visible -> holds t log visible ->
    exists all,
      get_by_address t a limit = Some (Ok (take limit all)) /\
      all ≡ₚ filter (fun e => event_involves_address (de_event e) a = true) visible /\
      StronglySorted height_ge all;
  count_law t log visible :
    log_ok visible -> holds t log visible -> count t = Some (Ok (Z.of_nat (length visible)));
}.

(** * Lemmas on logs *)

Lemma prefix_log_ok log log' : log `prefix_of` log' -> log_ok log' -> log_ok log.
Proof.
  intros [k ->] [Hh Hs Hi Hl].
  apply Forall_app in Hh as [Hh _]. apply StronglySorted_app_1_l in Hs, Hi.
  rewrite length_app in Hl. constructor; [done..|]. unfold is_u64 in *. lia.
Qed.

Lemma suffix_log_ok log new : log_ok (log ++ new) -> log_ok new.
Proof.
  intros [Hh Hs Hi Hl].
  apply Forall_app in Hh as [_ Hh]. apply StronglySorted_app_1_r in Hs, Hi.
  rewrite length_app in Hl. constructor; [done..|]. unfold is_u64 in *. lia.
Qed.

Lemma empty_log_ok : log_ok [].
Proof. by repeat constructor. Qed.

(** An event is identified by its transaction and index. *)
Definition event_id (e : DomainEvent) : B256 * Z := (de_tx_hash e, de_event_index e).

Lemma log_ids log : log_ok log -> NoDup (event_id <$> log).
Proof.
  intros [_ _ Hs _]. induction Hs as [|e log Hs IH Hall]; cbn; constructor; [|done].
  intros (x & E & Hx)%list_elem_of_fmap. rewrite Forall_forall in Hall.
  specialize (Hall x Hx). unfold event_id in E. injection E as E1 E2.
  specialize (Hall E1). lia.
Qed.

Lemma log_NoDup log : log_ok log -> NoDup log.
Proof. intros H. by apply (NoDup_fmap_1 event_id), log_ids. Qed.

Lemma log_same log x y :
  log_ok log -> x ∈ log -> y ∈ log -> event_id x = event_id y -> x = y.
Proof.
  intros Hi%log_ids Hx Hy E.
  apply list_elem_of_lookup in Hx as [i Hx]. apply list_elem_of_lookup in Hy as [j Hy].
  assert (i = j) as ->; [|congruence].
  eapply NoDup_lookup; [exact Hi|rewrite list_lookup_fmap, Hx; done|].
  rewrite list_lookup_fmap, Hy. cbn. by rewrite E.
Qed.

Lemma log_event log e : log_ok log -> e ∈ log -> event_ok e.
Proof. intros H. revert e. apply Forall_forall, (log_events _ H). Qed.

Lemma range_inclusive_elem from to h : h ∈ range_inclusive from to <-> from <= h <= to.
Proof. unfold range_inclusive. rewrite elem_of_seqZ. lia. Qed.

Lemma range_inclusive_sorted from to : StronglySorted Z.lt (range_inclusive from to).
Proof.
  apply Sorted_StronglySorted; [intros x y z; lia|].
  unfold range_inclusive. generalize (to - from + 1) as n. intros n. unfold seqZ.
  generalize 0%nat as k. induction (Z.to_nat n) as [|m IH]; intros k; cbn; constructor; [apply IH|].
  destruct m; constructor. lia.
Qed.

Lemma same_height_sorted h l :
  Forall (fun e => de_block_height e = h) l -> StronglySorted height_le l.
Proof.
  intros Hall. induction Hall as [|x l Hx Hall IH]; constructor; [done|].
  eapply Forall_impl; [exact Hall|]. unfold height_le. intros y Hy. cbn in *. lia.
Qed.

(** The events of one height after the other, heights increasing, are the
    events of those heights, by height. *)
Lemma blocks_of_heights (f : Z -> list DomainEvent) log hs :
  NoDup log -> StronglySorted Z.lt hs ->
  (forall h, h ∈ hs -> f h ≡ₚ filter (fun e => de_block_height e = h) log) ->
  concat (f <$> hs) ≡ₚ filter (fun e => de_block_height e ∈ hs) log /\
  StronglySorted height_le (concat (f <$> hs)).
Proof.
  intros Hnd. induction hs as [|h hs IH]; intros Hs HF; cbn.
  { split; [|constructor]. rewrite filter_nil_all; [done|]. intros e _. apply not_elem_of_nil. }
  apply StronglySorted_inv in Hs as [Hs Hlt]. rewrite Forall_forall in Hlt.
  destruct (IH Hs) as [IHp IHs]; [intros h' Hh'; apply HF; by right|].
  assert (Hh : f h ≡ₚ filter (fun e => de_block_height e = h) log) by (apply HF; left).
  split.
  - rewrite Hh, IHp. apply NoDup_Permutation.
    + apply NoDup_app. split_and!; [by apply NoDup_filter| |by apply NoDup_filter].
      intros e [He _]%list_elem_of_filter [He2 _]%list_elem_of_filter.
      apply Hlt in He2. lia.
    + by apply NoDup_filter.
    + intros e. rewrite elem_of_app, !list_elem_of_filter, elem_of_cons. tauto.
  - apply StronglySorted_app_2; [|apply (same_height_sorted h)|done].
    + intros x y Hx Hy. rewrite Hh in Hx. apply list_elem_of_filter in Hx as [Hx _].
      rewrite IHp in Hy. apply list_elem_of_filter in Hy as [Hy _].
      apply Hlt in Hy. unfold height_le. lia.
    + apply Forall_forall. intros x Hx. rewrite Hh in Hx.
      by apply list_elem_of_filter in Hx as [Hx _].
Qed.

Lemma blocks_in_range (f : Z -> list DomainEvent) log from to :
  NoDup log ->
  (forall h, from <= h <= to -> f h ≡ₚ filter (fun e => de_block_height e = h) log) ->
  concat (f <$> range_inclusive from to) ≡ₚ filter (fun e => from <= de_block_height e <= to) log /\
  StronglySorted height_le (concat (f <$> range_inclusive from to)).
Proof.
  intros Hnd Hf.
  rewrite (filter_ext_on _ (fun e => de_block_height e ∈ range_inclusive from to) log).
  - apply blocks_of_heights; [done|apply range_inclusive_sorted|].
    intros h Hh. by apply Hf, range_inclusive_elem.
  - intros e _. symmetry. apply range_inclusive_elem.
Qed.

(** * The in-memory store *)

Record InMemoryEventStore := {
  events : list DomainEvent;
  by_tx : gmap B256 (list nat);
  by_block : gmap Z (list nat);
}.

Module Memory.

Definition mem_default : InMemoryEventStore := {| events := []; by_tx := ∅; by_block := ∅ |}.

Definition clear (t : InMemoryEventStore) : InMemoryEventStore := mem_default.

Definition all_events (t : InMemoryEventStore) : list DomainEvent := events t.

(** [map.entry(k).or_default().push(i)] *)
Definition push_index (k : Z) (i : nat) (m : gmap Z (list nat)) : gmap Z (list nat) :=
  <[k := default [] (m !! k) ++ [i]]> m.

Definition append_one (t : InMemoryEventStore) (event : DomainEvent) : InMemoryEventStore :=
  let idx := length (events t) in
  {| by_tx := push_index (de_tx_hash event) idx (by_tx t);
     by_block := push_index (de_block_height event) idx (by_block t);
     events := events t ++ [event] |}.

Definition append (evs : list DomainEvent) : ST InMemoryEventStore EventStoreError unit :=
  fun t => (Ok tt, foldl append_one t evs).

(** [self.events[idx]], which panics out of bounds. *)
Definition at_index (t : InMemoryEventStore) (idx : nat) : option DomainEvent := events t !! idx.

Definition at_indices (t : InMemoryEventStore) (indices : option (list nat)) : option (list DomainEvent) :=
  match indices with
  | Some indices => mapM (at_index t) indices
  | None => Some []
  end.

Definition get_by_block_range (t : InMemoryEventStore) (from_height to_height : Z)
    : query (list DomainEvent) :=
  let found := mapM (fun height => at_indices t (by_block t !! height))
    (range_inclusive from_height to_height) in
  (fun blocks => Ok (concat blocks)) <$> found.

Definition get_by_tx (t : InMemoryEventStore) (tx_hash : B256) : query (list DomainEvent) :=
  Ok <$> at_indices t (by_tx t !! tx_hash).

(** The scan stops once [limit] events are found. *)
Fixpoint scan_involving (address : Address) (limit count : nat) (l : list DomainEvent) : list DomainEvent :=
  match l with
  | [] => []
  | event :: rest =>
      if (limit <=? count)%nat then []
      else if event_involves_address (de_event event) address
      then event :: scan_involving address limit (S count) rest
      else scan_involving address limit count rest
  end.

Definition get_by_address (t : InMemoryEventStore) (address : Address) (limit : nat)
    : query (list DomainEvent) :=
  Some (Ok (scan_involving address limit 0 (reverse (events t)))).

Definition count (t : InMemoryEventStore) : query Z := Some (Ok (as_u64 (Z.of_nat (length (events t))))).

End Memory.

#[export] Instance in_memory_event_store : EventStore InMemoryEventStore := {
  append := Memory.append;
  get_by_block_range := Memory.get_by_block_range;
  get_by_tx := Memory.get_by_tx;
  get_by_address := Memory.get_by_address;
  count := Memory.count;
}.

(** ** The indices *)

(** The positions of the events that satisfy [P]. *)
Definition positions (P : DomainEvent -> Prop) `{forall e, Decision (P e)} (l : list DomainEvent) : list nat :=
  (filter (fun p => P p.2) (zip (seq 0 (length l)) l)).*1.

Lemma positions_snoc (P : DomainEvent -> Prop) `{forall e, Decision (P e)} l x :
  positions P (l ++ [x]) = positions P l ++ (if decide (P x) then [length l] else []).
Proof.
  unfold positions. rewrite length_app, seq_app, zip_with_app; [|by rewrite length_seq].
  rewrite filter_app, fmap_app. cbn [length seq zip_with Nat.add].
  f_equal. destruct (decide (P x)).
  - by rewrite filter_cons_True.
  - by rewrite filter_cons_False.
Qed.

Lemma positions_lookup (P : DomainEvent -> Prop) `{forall e, Decision (P e)} l :
  mapM (fun i => l !! i) (positions P l) = Some (filter P l).
Proof.
  apply mapM_Some. induction l as [|x l IH] using rev_ind; [constructor|].
  rewrite positions_snoc, filter_app. apply Forall2_app.
  - eapply Forall2_impl; [exact IH|]. intros i y. apply lookup_app_l_Some.
  - rewrite filter_cons. case_decide; [|constructor]. constructor; [|constructor].
    by rewrite lookup_app_r, Nat.sub_diag.
Qed.

(** An index maps a key to the positions of the events that have it. *)
Definition index_of (key : DomainEvent -> Z) (m : gmap Z (list nat)) (l : list DomainEvent) : Prop :=
  forall k, default [] (m !! k) = positions (fun e => key e = k) l.

Lemma index_of_snoc key m l x :
  index_of key m l -> index_of key (Memory.push_index (key x) (length l) m) (l ++ [x]).
Proof.
  intros Hm k. unfold Memory.push_index. rewrite positions_snoc.
  destruct (decide (key x = k)) as [->|Hne].
  - rewrite lookup_insert_eq. cbn. by rewrite Hm.
  - rewrite lookup_insert_ne by done. by rewrite Hm, app_nil_r.
Qed.

Lemma index_of_lookup key m t k :
  index_of key m (events t) ->
  Memory.at_indices t (m !! k) = Some (filter (fun e => key e = k) (events t)).
Proof.
  intros Hm. rewrite <- (positions_lookup (fun e => key e = k)). rewrite <- (Hm k).
  by destruct (m !! k).
Qed.

Definition memory_ok (t : InMemoryEventStore) : Prop :=
  index_of de_tx_hash (by_tx t) (events t) /\ index_of de_block_height (by_block t) (events t).

Lemma memory_append_ok evs t :
  memory_ok t -> memory_ok (foldl Memory.append_one t evs) /\
  events (foldl Memory.append_one t evs) = events t ++ evs.
Proof.
  revert t. induction evs as [|e evs IH]; intros t Ht; cbn; [by rewrite app_nil_r|].
  destruct (IH (Memory.append_one t e)) as [H1 H2].
  { destruct Ht as [H1 H2]. split; by apply index_of_snoc. }
  split; [done|]. rewrite H2. cbn. by rewrite <- app_assoc.
Qed.

Lemma scan_involving_filter a limit l : forall n, (n <= limit)%nat ->
  Memory.scan_involving a limit n l =
  take (limit - n) (filter (fun e => event_involves_address (de_event e) a = true) l).
Proof.
  induction l as [|e l IH]; intros n Hn; cbn [Memory.scan_involving]; [by rewrite filter_nil, take_nil|].
  destruct (Nat.leb_spec limit n).
  { by replace (limit - n)%nat with 0%nat by lia. }
  rewrite filter_cons. destruct (event_involves_address (de_event e) a) eqn:E.
  - rewrite decide_True by done. replace (limit - n)%nat with (S (limit - S n)) by lia.
    cbn [take]. by rewrite IH by lia.
  - rewrite decide_False by done. by rewrite IH by lia.
Qed.

Lemma reverse_heights l : StronglySorted height_le l -> StronglySorted height_ge (reverse l).
Proof.
  induction 1 as [|e l Hs IH Hall]; [constructor|]. rewrite reverse_cons.
  apply StronglySorted_app_2; [|done|repeat constructor].
  intros x y Hx ->%list_elem_of_singleton. rewrite elem_of_reverse in Hx.
  rewrite Forall_forall in Hall. exact (Hall x Hx).
Qed.

Lemma StronglySorted_filter {A} (R : A -> A -> Prop) (P : A -> Prop) `{forall x, Decision (P x)} l :
  StronglySorted R l -> StronglySorted R (filter P l).
Proof.
  induction 1 as [|x l Hs IH Hall]; [constructor|]. rewrite filter_cons.
  destruct (decide (P x)); [|done]. constructor; [done|].
  apply Forall_forall. intros y [_ Hy]%list_elem_of_filter. rewrite Forall_forall in Hall. by apply Hall.
Qed.

#[export] Instance in_memory_ok : EventStoreOk InMemoryEventStore.
Proof.
  apply (Build_EventStoreOk _ _ (fun t log visible => memory_ok t /\ events t = log /\ visible = log)).
  - by intros t log visible (_ & _ & ->).
  - intros t log visible new _ (Ht & <- & ->). destruct (memory_append_ok new t Ht) as [H1 H2].
    eexists _, _. split; [done|]. split; [by split_and!|]. rewrite H2. by apply prefix_app_r.
  - intros t log visible from to Hok (Ht & <- & ->) _ _.
    destruct (blocks_in_range (fun h => filter (fun e => de_block_height e = h) (events t))
      (events t) from to) as [Hp Hs]; [by apply log_NoDup|done|].
    eexists. split; [|by split]. cbn. unfold Memory.get_by_block_range.
    rewrite (proj2 (mapM_Some _ _ ((fun h => filter (fun e => de_block_height e = h) (events t))
      <$> range_inclusive from to))); [done|].
    apply Forall2_fmap_r, Forall_Forall2_diag, Forall_forall.
    intros h _. apply index_of_lookup, Ht.
  - intros t log visible tx _ (Ht & <- & ->) _. cbn. unfold Memory.get_by_tx. by rewrite (index_of_lookup de_tx_hash) by apply Ht.
  - intros t log visible a limit Hok (Ht & <- & ->).
    exists (filter (fun e => event_involves_address (de_event e) a = true) (reverse (events t))).
    split_and!.
    + cbn. unfold Memory.get_by_address. rewrite scan_involving_filter by lia.
      by rewrite Nat.sub_0_r.
    + by rewrite reverse_Permutation.
    + apply StronglySorted_filter, reverse_heights, (log_heights _ Hok).
  - intros t log visible Hok (Ht & <- & ->). cbn. unfold Memory.count.
    by rewrite as_u64_id by apply (log_length _ Hok).
Defined.
