(* ===== verification/RocksEvents.v ===== *)
(** [RocksDbEventStore] (crates/engine/src/event_store.rs): the event store over
    RocksDB with its write buffer.  It is shown to satisfy the interface of
    [EventStore.v], and what a client of the interface may conclude is stated
    once for both implementations. *)
From stdpp Require Import base gmap sets list sorting strings.
From Stdlib Require Import ZArith Lia.
From S2P Require Import Prelude Types Tx KeyOrder EventKeys EventStore.

(** * The RocksDB store *)

(** The borsh encoding of stored events. *)
Class EventCodec := {
  event_to_vec : DomainEvent -> list Z;
  event_from_slice : list Z -> option DomainEvent;
}.
Class EventCodecOk (C : EventCodec) :=
  event_roundtrip e : event_ok e -> event_from_slice (event_to_vec e) = Some e.

Record RocksDbEventStore := {
  rdb : gmap (list Z) (list Z);
  write_buffer : list DomainEvent;
  buffer_limit : nat;
}.

Module Rocks.
Section operations.
Context `{K : KeyCodec} `{C : EventCodec}.

(** [rocksdb::DB::open] of a directory with contents [disk]. *)
Definition new (disk : gmap (list Z) (list Z)) (limit : nat) : RocksDbEventStore :=
  {| rdb := disk; write_buffer := []; buffer_limit := limit |}.

Definition event_key (e : DomainEvent) : EventStoreKey :=
  EKEvent (de_block_height e) (de_tx_hash e) (de_event_index e).
Definition block_idx_key (e : DomainEvent) : EventStoreKey :=
  EKBlockIndex (de_block_height e) (de_tx_hash e) (de_event_index e).
Definition tx_idx_key (e : DomainEvent) : EventStoreKey :=
  EKTxIndex (de_tx_hash e) (de_event_index e).

(** The three puts of an event, and the writes of a batch, in order. *)
Definition event_puts (e : DomainEvent) : list (list Z * list Z) :=
  [(key_to_bytes (event_key e), event_to_vec e);
   (key_to_bytes (block_idx_key e), []);
   (key_to_bytes (tx_idx_key e), [])].
Definition db_write (batch : list (list Z * list Z)) (d : gmap (list Z) (list Z)) : gmap (list Z) (list Z) :=
  foldl (fun d kv => <[kv.1 := kv.2]> d) d batch.

Definition count (t : RocksDbEventStore) : result EventStoreError Z :=
  match rdb t !! key_to_bytes EKMetaCount with
  | Some bytes => if (length bytes =? 8)%nat then Ok (le_value bytes) else Err Other
  | None => Ok 0
  end.

(** The buffer is drained before the count is read: a count that cannot be
    read loses the buffered events. *)
Definition flush : ST RocksDbEventStore EventStoreError unit := fun t =>
  match write_buffer t with
  | [] => (Ok tt, t)
  | _ =>
      let buffer_len := Z.of_nat (length (write_buffer t)) in
      let batch := write_buffer t ≫= event_puts in
      let drained := {| rdb := rdb t; write_buffer := []; buffer_limit := buffer_limit t |} in
      match count drained with
      | Err e => (Err e, drained)
      | Ok n =>
          let batch := batch ++ [(key_to_bytes EKMetaCount, le_bytes 8 (wadd64 n buffer_len))] in
          (Ok tt, {| rdb := db_write batch (rdb t); write_buffer := [];
                     buffer_limit := buffer_limit t |})
      end
  end.

(** [drop] flushes and ignores the result; what is left is the disk. *)
Definition drop_store (t : RocksDbEventStore) : gmap (list Z) (list Z) := rdb (flush t).2.

Definition append (evs : list DomainEvent) : ST RocksDbEventStore EventStoreError unit := fun t =>
  let t := {| rdb := rdb t; write_buffer := write_buffer t ++ evs; buffer_limit := buffer_limit t |} in
  if (buffer_limit t <=? length (write_buffer t))%nat then flush t else (Ok tt, t).

Definition decode (value : list Z) : result EventStoreError DomainEvent :=
  ok_or SerializationError (event_from_slice value).

(** The loop over the index entries of one height. *)
Fixpoint block_scan (t : RocksDbEventStore) (height : Z) (items : list (list Z * list Z))
    : result EventStoreError (list DomainEvent) :=
  match items with
  | [] => Ok []
  | (key, _) :: rest =>
      match key_from_bytes key with
      | None => Ok []
      | Some (EKBlockIndex block_height tx_hash event_index) =>
          if block_height =? height then
            match rdb t !! key_to_bytes (EKEvent block_height tx_hash event_index) with
            | Some value =>
                let* event := decode value in
                let* events := block_scan t height rest in
                Ok (event :: events)
            | None => block_scan t height rest
            end
          else Ok []
      | Some _ => Ok []
      end
  end.

Fixpoint range_scan (t : RocksDbEventStore) (heights : list Z) : result EventStoreError (list DomainEvent) :=
  match heights with
  | [] => Ok []
  | height :: rest =>
      let* block := block_scan t height (prefix_iterator (prefix_for_block height) (rdb t)) in
      let* events := range_scan t rest in
      Ok (block ++ events)
  end.

Definition get_by_block_range (t : RocksDbEventStore) (from_height to_height : Z)
    : result EventStoreError (list DomainEvent) :=
  range_scan t (range_inclusive from_height to_height).

(** The inner loop of [get_by_tx]: the first event with this transaction and
    index among all entries from the event prefix on. *)
Fixpoint find_event (tx_hash : B256) (event_index : Z) (items : list (list Z * list Z))
    : result EventStoreError (option DomainEvent) :=
  match items with
  | [] => Ok None
  | (event_key_bytes, event_value) :: rest =>
      match key_from_bytes event_key_bytes with
      | Some (EKEvent _ event_tx_hash event_idx) =>
          if (event_tx_hash =? tx_hash) && (event_idx =? event_index)
          then let* event := decode event_value in Ok (Some event)
          else find_event tx_hash event_index rest
      | _ => find_event tx_hash event_index rest
      end
  end.

Fixpoint tx_scan (t : RocksDbEventStore) (tx_hash : B256) (items : list (list Z * list Z))
    : result EventStoreError (list DomainEvent) :=
  match items with
  | [] => Ok []
  | (key, _) :: rest =>
      match key_from_bytes key with
      | None => Ok []
      | Some (EKTxIndex key_tx_hash event_index) =>
          if key_tx_hash =? tx_hash then
            let* found := find_event tx_hash event_index (prefix_iterator prefix_for_events (rdb t)) in
            let* events := tx_scan t tx_hash rest in
            Ok (option_list found ++ events)
          else Ok []
      | Some _ => Ok []
      end
  end.

(** [sort_by_key] and [sort_by] are stable, as [merge_sort] is. *)
Definition get_by_tx (t : RocksDbEventStore) (tx_hash : B256) : result EventStoreError (list DomainEvent) :=
  let* found := tx_scan t tx_hash (prefix_iterator (prefix_for_tx tx_hash) (rdb t)) in
  Ok (merge_sort index_le found).

Fixpoint address_scan (address : Address) (items : list (list Z * list Z))
    : result EventStoreError (list DomainEvent) :=
  match items with
  | [] => Ok []
  | (key, value) :: rest =>
      match key_from_bytes key with
      | Some (EKEvent _ _ _) =>
          let* event := decode value in
          let* events := address_scan address rest in
          Ok (if event_involves_address (de_event event) address then event :: events else events)
      | _ => Ok []
      end
  end.

Definition get_by_address (t : RocksDbEventStore) (address : Address) (limit : nat)
    : result EventStoreError (list DomainEvent) :=
  let* found := address_scan address (prefix_iterator prefix_for_events (rdb t)) in
  Ok (take limit (merge_sort height_ge found)).

End operations.
End Rocks.

#[export] Instance rocksdb_event_store `{K : KeyCodec} `{C : EventCodec} : EventStore RocksDbEventStore := {
  append := Rocks.append;
  get_by_block_range t from to := Some (Rocks.get_by_block_range t from to);
  get_by_tx t tx := Some (Rocks.get_by_tx t tx);
  get_by_address t a limit := Some (Rocks.get_by_address t a limit);
  count t := Some (Rocks.count t);
}.

(** ** What is on disk

    After the events [flushed] were written, the database holds their entries
    and their number. *)
Section disk.
Context `{K : KeyCodec} {KO : KeyCodecOk K} `{C : EventCodec} {CO : EventCodecOk C}.

Definition disk_entry (flushed : list DomainEvent) (kv : list Z * list Z) : Prop :=
  (exists e, e ∈ flushed /\ kv ∈ Rocks.event_puts e) \/
  (flushed <> [] /\ kv = (key_layout EKMetaCount, le_bytes 8 (Z.of_nat (length flushed)))).
Definition disk_ok (d : gmap (list Z) (list Z)) (flushed : list DomainEvent) : Prop :=
  forall k v, d !! k = Some v <-> disk_entry flushed (k, v).

Lemma db_write_lookup batch d k v :
  NoDup batch.*1 ->
  Rocks.db_write batch d !! k = Some v <-> (k, v) ∈ batch \/ (k ∉ batch.*1 /\ d !! k = Some v).
Proof.
  unfold Rocks.db_write. revert d. induction batch as [|[k1 v1] batch IH]; intros d Hnd; cbn.
  { set_solver. }
  apply NoDup_cons in Hnd as [Hk Hnd]. rewrite (IH _ Hnd), lookup_insert_Some. clear IH.
  rewrite !elem_of_cons. split.
  - intros [H|[H [[-> ->]|[Hne H2]]]]; [auto|auto|]. right. split; [|done]. intros [->|?]; done.
  - intros [[E|H]|[H H2]]; [|auto|].
    + injection E as -> ->. right. split; [done|]. auto.
    + right. split; [tauto|]. right. split; [|done]. intros ->. tauto.
Qed.

(** The kinds of entry. *)
Lemma event_key_ok e : event_ok e -> key_ok (Rocks.event_key e).
Proof. intros [H _]. exact H. Qed.
Lemma block_idx_key_ok e : event_ok e -> key_ok (Rocks.block_idx_key e).
Proof. intros [H _]. exact H. Qed.
Lemma tx_idx_key_ok e : event_ok e -> key_ok (Rocks.tx_idx_key e).
Proof. intros [[_ H] _]. exact H. Qed.

Lemma event_puts_elem e kv :
  kv ∈ Rocks.event_puts e <->
  kv = (key_layout (Rocks.event_key e), event_to_vec e) \/
  kv = (key_layout (Rocks.block_idx_key e), []) \/
  kv = (key_layout (Rocks.tx_idx_key e), []).
Proof. unfold Rocks.event_puts. rewrite !key_bytes_layout. rewrite !elem_of_cons, elem_of_nil. tauto. Qed.

Definition event_keys (e : DomainEvent) : list EventStoreKey :=
  [Rocks.event_key e; Rocks.block_idx_key e; Rocks.tx_idx_key e].
Lemma event_puts_keys e : (Rocks.event_puts e).*1 = key_layout <$> event_keys e.
Proof. cbn. by rewrite !key_bytes_layout. Qed.

Lemma event_keys_ok e k : event_ok e -> k ∈ event_keys e -> key_ok k.
Proof.
  intros He. unfold event_keys. rewrite !elem_of_cons, elem_of_nil.
  intros [-> |[-> |[-> |[]]]]; auto using event_key_ok, block_idx_key_ok, tx_idx_key_ok.
Qed.

Lemma event_keys_id e1 e2 k : k ∈ event_keys e1 -> k ∈ event_keys e2 -> event_id e1 = event_id e2.
Proof.
  unfold event_keys. rewrite !elem_of_cons, !elem_of_nil.
  intros [-> |[-> |[-> |[]]]] [E|[E|[E|[]]]]; try discriminate E; injection E; unfold event_id; congruence.
Qed.

Lemma log_keys_ok log e k : log_ok log -> e ∈ log -> k ∈ event_keys e -> key_ok k.
Proof. intros Hok He. apply event_keys_ok. by apply (log_event log). Qed.

(** An entry's key tells its event. *)
Lemma entry_key_same log e1 e2 k :
  log_ok log -> e1 ∈ log -> e2 ∈ log ->
  k ∈ (Rocks.event_puts e1).*1 -> k ∈ (Rocks.event_puts e2).*1 -> e1 = e2.
Proof.
  intros Hok H1 H2. rewrite !event_puts_keys.
  intros (k1 & -> & Hk1)%list_elem_of_fmap (k2 & E & Hk2)%list_elem_of_fmap.
  apply (log_same log); [done..|]. apply (event_keys_id _ _ k1); [done|].
  apply key_layout_inj in E as ->; [done|by apply (log_keys_ok log e1)|by apply (log_keys_ok log e2)].
Qed.

Lemma bind_keys l : (l ≫= Rocks.event_puts).*1 = l ≫= (fun e => (Rocks.event_puts e).*1).
Proof. induction l as [|e l IH]; [done|]. cbn [mbind list_bind]. by rewrite fmap_app, IH. Qed.

Lemma puts_key_not_meta log e k :
  log_ok log -> e ∈ log -> k ∈ (Rocks.event_puts e).*1 -> k <> key_layout EKMetaCount.
Proof.
  intros Hok He. rewrite event_puts_keys. intros (k1 & -> & Hk)%list_elem_of_fmap E.
  apply key_layout_inj in E as ->; [|by apply (log_keys_ok log e)|done].
  unfold event_keys in Hk. rewrite !elem_of_cons, elem_of_nil in Hk. naive_solver.
Qed.

Lemma batch_keys_NoDup log meta :
  log_ok log ->
  NoDup ((log ≫= Rocks.event_puts) ++ [(key_to_bytes EKMetaCount, meta)]).*1.
Proof.
  intros Hok. rewrite fmap_app, bind_keys, key_bytes_layout. apply NoDup_app. split_and!.
  - apply NoDup_bind; [| |by apply log_NoDup].
    + intros e1 e2 k. by apply (entry_key_same log).
    + intros e He. rewrite event_puts_keys. apply NoDup_fmap_2_strong.
      * intros k1 k2 H1 H2. apply key_layout_inj; by apply (log_keys_ok log e).
      * unfold event_keys. repeat (apply NoDup_cons; split; [rewrite ?elem_of_cons, elem_of_nil; naive_solver|]).
        constructor.
  - intros k (e & Hk & He)%list_elem_of_bind ->%list_elem_of_singleton.
    by apply (puts_key_not_meta log e _ Hok He) in Hk.
  - apply NoDup_singleton.
Qed.

Lemma length_pos (l : list DomainEvent) : l <> [] -> length l <> 0%nat.
Proof. by destruct l. Qed.

Lemma disk_count d flushed limit buf :
  is_u64 (Z.of_nat (length flushed)) -> disk_ok d flushed ->
  Rocks.count {| rdb := d; write_buffer := buf; buffer_limit := limit |} = Ok (Z.of_nat (length flushed)).
Proof.
  intros Hl Hd. unfold Rocks.count. cbn [rdb]. rewrite key_bytes_layout.
  destruct (d !! key_layout EKMetaCount) as [v|] eqn:E.
  - apply Hd in E as [(e & He & Hin)|[Hne E]].
    + apply event_puts_elem in Hin. by destruct Hin as [?|[?|?]].
    + apply (f_equal snd) in E. cbn [snd] in E. subst v. rewrite length_le_bytes. cbn [Nat.eqb]. rewrite le_value_bytes; [done|by apply u64_bytes].
  - destruct flushed as [|e flushed]; [done|].
    assert (d !! key_layout EKMetaCount = Some (le_bytes 8 (Z.of_nat (length (e :: flushed))))) as E2.
    { apply Hd. right. done. }
    congruence.
Qed.

Lemma empty_disk_ok : disk_ok ∅ [].
Proof.
  intros k v. rewrite lookup_empty. split; [done|]. intros [(e & He & _)|[? _]]; [|done].
  by apply elem_of_nil in He.
Qed.

(** The writes of a flush turn the disk of [flushed] into that of
    [flushed ++ buf]. *)
Lemma batch_disk_ok d flushed buf :
  buf <> [] -> log_ok (flushed ++ buf) -> disk_ok d flushed ->
  disk_ok (Rocks.db_write ((buf ≫= Rocks.event_puts) ++
    [(key_to_bytes EKMetaCount, le_bytes 8 (Z.of_nat (length (flushed ++ buf))))]) d) (flushed ++ buf).
Proof.
  intros Hne Hok Hd k v.
  assert (Hb : log_ok buf) by (by apply (suffix_log_ok flushed)).
  rewrite db_write_lookup by (by apply batch_keys_NoDup).
  rewrite fmap_app, bind_keys, !not_elem_of_app, elem_of_app. cbn [fmap list_fmap fst].
  rewrite !not_elem_of_cons, list_elem_of_singleton, !list_elem_of_bind, !key_bytes_layout.
  rewrite (Hd k v). unfold disk_entry. split.
  - intros [[(e & Hin & He)|E]|[(_ & Hm & _) [(e & He & Hin)|[_ E]]]].
    + left. exists e. split; [apply elem_of_app; by right|done].
    + right. split; [by destruct flushed, buf|done].
    + left. exists e. split; [apply elem_of_app; by left|done].
    + congruence.
  - intros [(e & He & Hin)|[_ E]]; [|by left; right].
    assert (Hk : k ∈ (Rocks.event_puts e).*1) by (apply list_elem_of_fmap; by exists (k, v)).
    apply elem_of_app in He as Hc. destruct Hc as [Hf|Hf]; [|left; left; by exists e].
    right. split; [split_and!|left; by exists e].
    + intros (e2 & Hk2 & He2).
      assert (e2 = e) as ->.
      { apply (entry_key_same (flushed ++ buf) _ _ k); [done|apply elem_of_app; by right|done..]. }
      apply log_NoDup, NoDup_app in Hok as (_ & Hdis & _). by apply (Hdis e).
    + by apply (puts_key_not_meta (flushed ++ buf) e).
    + apply not_elem_of_nil.
Qed.

Lemma flush_ok d flushed buf limit :
  log_ok (flushed ++ buf) -> disk_ok d flushed ->
  exists d',
    Rocks.flush {| rdb := d; write_buffer := buf; buffer_limit := limit |} =
      (Ok tt, {| rdb := d'; write_buffer := []; buffer_limit := limit |}) /\
    disk_ok d' (flushed ++ buf).
Proof.
  intros Hok Hd. unfold Rocks.flush. cbn [write_buffer rdb buffer_limit].
  destruct buf as [|e buf]; [exists d; by rewrite app_nil_r|].
  pose proof (log_length _ Hok) as Hl. rewrite length_app, Nat2Z.inj_add in Hl.
  rewrite (disk_count d flushed) by (done || (unfold is_u64 in *; lia)).
  eexists. split; [reflexivity|].
  replace (wadd64 (Z.of_nat (length flushed)) (Z.of_nat (length (e :: buf))))
    with (Z.of_nat (length (flushed ++ e :: buf))).
  - by apply batch_disk_ok.
  - unfold wadd64. rewrite as_u64_id by done. by rewrite length_app, Nat2Z.inj_add.
Qed.

End disk.

(** ** Scans *)
Section scans.
Context `{K : KeyCodec} {KO : KeyCodecOk K} `{C : EventCodec} {CO : EventCodecOk C}.
Context (t : RocksDbEventStore) (flushed : list DomainEvent).
Context (Hok : log_ok flushed) (Hdisk : disk_ok (rdb t) flushed).

(** A list without duplicates whose elements are the images of the events of
    [flushed] that satisfy [P] is the image of these events in some order. *)
Lemma images_of {A} (g : DomainEvent -> A) (P : DomainEvent -> Prop) `{forall e, Decision (P e)} items :
  NoDup items ->
  (forall x, x ∈ items <-> exists e, x = g e /\ e ∈ flushed /\ P e) ->
  (forall e1 e2, e1 ∈ flushed -> e2 ∈ flushed -> g e1 = g e2 -> e1 = e2) ->
  exists l, items = g <$> l /\ l ≡ₚ filter P flushed.
Proof.
  intros Hnd Hin Hinj.
  assert (Hex : forall sub, (forall x, x ∈ sub -> x ∈ items) ->
    exists l, sub = g <$> l /\ Forall (fun e => e ∈ flushed /\ P e) l).
  { induction sub as [|x sub IH]; intros Hsub; [exists []; by split|].
    destruct IH as (l & -> & Hl); [intros y Hy; apply Hsub; by right|].
    destruct (proj1 (Hin x) (Hsub x ltac:(by left))) as (e & -> & He).
    exists (e :: l). split; [done|by constructor]. }
  destruct (Hex items) as (l & -> & Hl); [done|]. exists l. split; [done|].
  rewrite Forall_forall in Hl.
  apply NoDup_Permutation; [by apply NoDup_fmap_1 in Hnd|by apply NoDup_filter, log_NoDup|].
  intros e. rewrite list_elem_of_filter. split; [intros He%Hl; tauto|]. intros [HP He].
  assert (Hge : g e ∈ g <$> l) by (apply Hin; by exists e).
  apply list_elem_of_fmap in Hge as (e2 & E & He2).
  apply Hinj in E as ->; [done|done|by apply Hl].
Qed.

(** Every key on disk is the encoding of a valid key. *)
Lemma disk_key k v : rdb t !! k = Some v -> exists key, key_ok key /\ k = key_layout key.
Proof.
  intros [(e & He & Hin)|[_ E]]%Hdisk; [|exists EKMetaCount; split; [done|congruence]].
  apply (list_elem_of_fmap_2 fst) in Hin. rewrite event_puts_keys in Hin.
  apply list_elem_of_fmap in Hin as (key & E & Hin). exists key.
  split; [by apply (log_keys_ok flushed e)|done].
Qed.

Lemma from_layout key : key_ok key -> key_from_bytes (key_layout key) = Some key.
Proof. intros H. by apply key_from_layout. Qed.

(** The entries with a given prefix, in some order, then others. *)
Lemma prefix_entries p (kind : DomainEvent -> EventStoreKey) (value : DomainEvent -> list Z)
    (P : DomainEvent -> Prop) `{forall e, Decision (P e)} :
  (forall e, kind e ∈ event_keys e) ->
  (forall kv, disk_entry flushed kv /\ p `prefix_of` kv.1 <->
     exists e, kv = (key_layout (kind e), value e) /\ e ∈ flushed /\ P e) ->
  exists l rest,
    prefix_iterator p (rdb t) = ((fun e => (key_layout (kind e), value e)) <$> l) ++ rest /\
    l ≡ₚ filter P flushed /\
    Forall (fun kv => exists key, key_ok key /\ kv.1 = key_layout key /\ ~ p `prefix_of` key_layout key) rest.
Proof.
  intros Hkind Hentry. destruct (prefix_iterator_split p (rdb t)) as (rest & E & Hrest).
  destruct (images_of (fun e => (key_layout (kind e), value e)) P
    (filter (fun kv => p `prefix_of` kv.1) (db_iterator (rdb t)))) as (l & El & Hl).
  - apply NoDup_filter. unfold db_iterator. rewrite merge_sort_Permutation. apply NoDup_map_to_list.
  - intros [k v]. rewrite list_elem_of_filter, db_iterator_elem, (Hdisk k v), <- Hentry. tauto.
  - intros e1 e2 H1 H2 E12. apply (f_equal fst) in E12. cbn [fst] in E12.
    apply (log_same flushed); [done..|].
    apply key_layout_inj in E12; [|by apply (log_keys_ok flushed e1)|by apply (log_keys_ok flushed e2)].
    apply (event_keys_id _ _ (kind e1)); [done|]. by rewrite E12.
  - exists l, rest. rewrite E, El. split_and!; [done|done|].
    apply Forall_forall. intros [k v] Hkv. rewrite Forall_forall in Hrest.
    assert (Hin : (k, v) ∈ prefix_iterator p (rdb t)) by (rewrite E; apply elem_of_app; by right).
    apply list_elem_of_filter in Hin as [_ Hin]. apply db_iterator_elem, disk_key in Hin as (key & Hkey & ->).
    exists key. split_and!; [done|done|]. exact (Hrest _ Hkv).
Qed.

Lemma disk_entry_kind kv :
  disk_entry flushed kv <->
  (exists e, e ∈ flushed /\ kv = (key_layout (Rocks.event_key e), event_to_vec e)) \/
  (exists e, e ∈ flushed /\ kv = (key_layout (Rocks.block_idx_key e), [])) \/
  (exists e, e ∈ flushed /\ kv = (key_layout (Rocks.tx_idx_key e), [])) \/
  (flushed <> [] /\ kv = (key_layout EKMetaCount, le_bytes 8 (Z.of_nat (length flushed)))).
Proof. unfold disk_entry. setoid_rewrite event_puts_elem. naive_solver. Qed.

Lemma stored_event e : e ∈ flushed -> rdb t !! key_layout (Rocks.event_key e) = Some (event_to_vec e).
Proof. intros He. apply Hdisk, disk_entry_kind. left. by exists e. Qed.

Lemma decode_event e : e ∈ flushed -> Rocks.decode (event_to_vec e) = Ok e.
Proof.
  intros He. unfold Rocks.decode. rewrite event_roundtrip; [done|]. by apply (log_event flushed).
Qed.

Lemma stored_key_ok e : e ∈ flushed ->
  key_ok (Rocks.event_key e) /\ key_ok (Rocks.block_idx_key e) /\ key_ok (Rocks.tx_idx_key e).
Proof.
  intros He. apply (log_event flushed) in He; [|done].
  auto using event_key_ok, block_idx_key_ok, tx_idx_key_ok.
Qed.

(** An entry satisfying [p] is of one kind. *)
Ltac entry_kinds He Hp lem :=
  apply disk_entry_kind in He;
  destruct He as [(e & He & ->)|[(e & He & ->)|[(e & He & ->)|[_ ->]]]]; cbn [fst] in Hp;
  first [destruct (stored_key_ok e He) as (Hk1 & Hk2 & Hk3)|idtac];
  rewrite lem in Hp by done.

(** The three prefixes. *)
Lemma block_entries h :
  is_u64 h ->
  exists l rest,
    prefix_iterator (prefix_for_block h) (rdb t) =
      ((fun e => (key_layout (Rocks.block_idx_key e), [])) <$> l) ++ rest /\
    l ≡ₚ filter (fun e => de_block_height e = h) flushed /\
    Forall (fun kv => exists key, key_ok key /\ kv.1 = key_layout key /\
      ~ prefix_for_block h `prefix_of` key_layout key) rest.
Proof.
  intros Hh. apply prefix_entries; [intros e; unfold event_keys; set_solver|]. intros kv. split.
  - intros [He Hp]. entry_kinds He Hp prefix_block_iff; destruct Hp as (tx & i & E); try discriminate E.
    exists e. split_and!; [done|done|]. injection E. done.
  - intros (e & -> & He & <-). split; [apply disk_entry_kind; right; left; by exists e|].
    apply prefix_block_iff; [done|by apply stored_key_ok|]. by eexists _, _.
Qed.

Lemma tx_entries tx :
  is_hash tx ->
  exists l rest,
    prefix_iterator (prefix_for_tx tx) (rdb t) =
      ((fun e => (key_layout (Rocks.tx_idx_key e), [])) <$> l) ++ rest /\
    l ≡ₚ filter (fun e => de_tx_hash e = tx) flushed /\
    Forall (fun kv => exists key, key_ok key /\ kv.1 = key_layout key /\
      ~ prefix_for_tx tx `prefix_of` key_layout key) rest.
Proof.
  intros Ht. apply prefix_entries; [intros e; unfold event_keys; set_solver|]. intros kv. split.
  - intros [He Hp]. entry_kinds He Hp prefix_tx_iff; destruct Hp as (i & E); try discriminate E.
    exists e. split_and!; [done|done|]. injection E. done.
  - intros (e & -> & He & <-). split; [apply disk_entry_kind; right; right; left; by exists e|].
    apply prefix_tx_iff; [done|by apply stored_key_ok|]. by eexists.
Qed.

Lemma event_entries :
  exists l rest,
    prefix_iterator prefix_for_events (rdb t) =
      ((fun e => (key_layout (Rocks.event_key e), event_to_vec e)) <$> l) ++ rest /\
    l ≡ₚ flushed /\
    Forall (fun kv => exists key, key_ok key /\ kv.1 = key_layout key /\
      ~ prefix_for_events `prefix_of` key_layout key) rest.
Proof.
  destruct (prefix_entries prefix_for_events Rocks.event_key event_to_vec (fun _ => True))
    as (l & rest & E & Hl & Hrest); [intros e; unfold event_keys; set_solver| |].
  - intros kv. split.
    + intros [He Hp]. entry_kinds He Hp prefix_events_iff; destruct Hp as (h & tx & i & E); try discriminate E.
      by exists e.
    + intros (e & -> & He & _). split; [apply disk_entry_kind; left; by exists e|].
      apply prefix_events_iff. by eexists _, _, _.
  - exists l, rest. split_and!; [done| |done]. by rewrite Hl, filter_all.
Qed.

(** *** What the loops return *)
Lemma block_scan_ok h l rest :
  is_u64 h -> (forall e, e ∈ l -> e ∈ flushed /\ de_block_height e = h) ->
  Forall (fun kv => exists key, key_ok key /\ kv.1 = key_layout key /\
    ~ prefix_for_block h `prefix_of` key_layout key) rest ->
  Rocks.block_scan t h (((fun e => (key_layout (Rocks.block_idx_key e), [])) <$> l) ++ rest) = Ok l.
Proof.
  intros Hh Hl Hrest. induction l as [|e l IH].
  - destruct Hrest as [|[k v] rest (key & Hkey & Ek & Hp)]; [done|]. cbn in Ek |- *. subst k.
    rewrite from_layout by done. destruct key as [| h2 tx i| |]; try done.
    destruct (Z.eqb_spec h2 h) as [->|]; [|done]. exfalso. apply Hp, prefix_block_iff; [done|done|].
    by eexists _, _.
  - destruct (Hl e) as [He Hhe]; [left|]. destruct (stored_key_ok e He) as (_ & Hk & _).
    cbn [fmap list_fmap app Rocks.block_scan]. rewrite from_layout by done.
    cbn [Rocks.block_idx_key]. rewrite Hhe, Z.eqb_refl, key_bytes_layout, <- Hhe.
    change (EKEvent _ _ _) with (Rocks.event_key e). rewrite stored_event by done.
    rewrite decode_event by done. cbn [result_bind]. rewrite Hhe, IH; [done|].
    intros e2 He2. apply Hl. by right.
Qed.

Lemma find_event_ok e items :
  e ∈ flushed ->
  (key_layout (Rocks.event_key e), event_to_vec e) ∈ items ->
  (forall k v, (k, v) ∈ items -> rdb t !! k = Some v) ->
  Rocks.find_event (de_tx_hash e) (de_event_index e) items = Ok (Some e).
Proof.
  intros He Hin Hitems. induction items as [|[k v] items IH]; [by apply elem_of_nil in Hin|].
  cbn [Rocks.find_event].
  assert (Hkv : rdb t !! k = Some v) by (apply Hitems; left).
  assert (IH' : (k, v) <> (key_layout (Rocks.event_key e), event_to_vec e) ->
    Rocks.find_event (de_tx_hash e) (de_event_index e) items = Ok (Some e)).
  { intros Hne. apply IH; [|intros k2 v2 H2; apply Hitems; by right].
    apply elem_of_cons in Hin as [E|Hin]; [by rewrite E in Hne|done]. }
  apply Hdisk, disk_entry_kind in Hkv.
  destruct Hkv as [(e2 & He2 & E)|[(e2 & He2 & E)|[(e2 & He2 & E)|[_ E]]]];
    pose proof (f_equal fst E) as Ek; pose proof (f_equal snd E) as Ev; cbn [fst snd] in Ek, Ev; subst k v;
    first [destruct (stored_key_ok e2 He2) as (Hk1 & Hk2 & Hk3)|idtac]; rewrite from_layout by done.
  2,3,4: apply IH'; intros E2; apply (f_equal fst) in E2; cbn [fst] in E2; discriminate E2.
  cbn [Rocks.event_key].
  destruct (Z.eqb_spec (de_tx_hash e2) (de_tx_hash e)) as [E1|E1], 
    (Z.eqb_spec (de_event_index e2) (de_event_index e)) as [E2|E2]; cbn [andb].
  1: { rewrite decode_event by done. cbn. do 2 f_equal. apply (log_same flushed); [done..|].
       unfold event_id. by rewrite E1, E2. }
  all: apply IH'; intros Eq; apply (f_equal fst) in Eq; cbn [fst] in Eq;
    apply key_layout_inj in Eq; [injection Eq; congruence|done|by apply stored_key_ok].
Qed.

Lemma event_item e : e ∈ flushed ->
  (key_layout (Rocks.event_key e), event_to_vec e) ∈ prefix_iterator prefix_for_events (rdb t).
Proof.
  intros He. destruct event_entries as (l & rest & -> & Hl & _). apply elem_of_app. left.
  apply (list_elem_of_fmap_2 (fun e => (key_layout (Rocks.event_key e), event_to_vec e))).
  by rewrite Hl.
Qed.

Lemma tx_scan_ok tx l rest :
  is_hash tx -> (forall e, e ∈ l -> e ∈ flushed /\ de_tx_hash e = tx) ->
  Forall (fun kv => exists key, key_ok key /\ kv.1 = key_layout key /\
    ~ prefix_for_tx tx `prefix_of` key_layout key) rest ->
  Rocks.tx_scan t tx (((fun e => (key_layout (Rocks.tx_idx_key e), [])) <$> l) ++ rest) = Ok l.
Proof.
  intros Ht Hl Hrest. induction l as [|e l IH].
  - destruct Hrest as [|[k v] rest (key & Hkey & Ek & Hp)]; [done|]. cbn in Ek |- *. subst k.
    rewrite from_layout by done. destruct key as [| |tx2 i|]; try done.
    destruct (Z.eqb_spec tx2 tx) as [->|]; [|done]. exfalso. apply Hp, prefix_tx_iff; [done|done|].
    by eexists.
  - destruct (Hl e) as [He <-]; [left|]. destruct (stored_key_ok e He) as (_ & _ & Hk).
    cbn [fmap list_fmap app Rocks.tx_scan]. rewrite from_layout by done.
    cbn [Rocks.tx_idx_key]. rewrite Z.eqb_refl, (find_event_ok e); [|done|by apply event_item|].
    + cbn [result_bind]. rewrite IH; [done|]. intros e2 He2. apply Hl. by right.
    + intros k v [_ Hin]%list_elem_of_filter. by apply db_iterator_elem.
Qed.

Lemma address_scan_ok a l rest :
  (forall e, e ∈ l -> e ∈ flushed) ->
  Forall (fun kv => exists key, key_ok key /\ kv.1 = key_layout key /\
    ~ prefix_for_events `prefix_of` key_layout key) rest ->
  Rocks.address_scan a (((fun e => (key_layout (Rocks.event_key e), event_to_vec e)) <$> l) ++ rest) =
    Ok (filter (fun e => event_involves_address (de_event e) a = true) l).
Proof.
  intros Hl Hrest. induction l as [|e l IH].
  - destruct Hrest as [|[k v] rest (key & Hkey & Ek & Hp)]; [done|]. cbn in Ek |- *. subst k.
    rewrite from_layout by done. destruct key; try done. exfalso. apply Hp, prefix_events_iff. eauto.
  - assert (He : e ∈ flushed) by (apply Hl; left). destruct (stored_key_ok e He) as (Hk & _).
    cbn [fmap list_fmap app Rocks.address_scan]. rewrite from_layout by done. cbn [Rocks.event_key].
    rewrite decode_event by done. cbn [result_bind].
    rewrite IH by (intros e2 He2; apply Hl; by right). cbn [result_bind].
    rewrite filter_cons. by destruct (event_involves_address (de_event e) a).
Qed.

End scans.

Lemma range_scan_ok `{K : KeyCodec} {KO : KeyCodecOk K} `{C : EventCodec} {CO : EventCodecOk C}
    t flushed hs :
  log_ok flushed -> disk_ok (rdb t) flushed -> StronglySorted Z.lt hs -> (forall h, h ∈ hs -> is_u64 h) ->
  exists f, Rocks.range_scan t hs = Ok (concat (f <$> hs)) /\
    forall h, h ∈ hs -> f h ≡ₚ filter (fun e => de_block_height e = h) flushed.
Proof.
  intros Hok Hd Hs Hu. induction Hs as [|h hs Hs IH Hlt].
  { exists (fun _ => []). split; [done|]. intros h Hh. by apply elem_of_nil in Hh. }
  destruct IH as (f & E & Hf); [intros h2 Hh2; apply Hu; by right|].
  destruct (block_entries t flushed Hok Hd h) as (l & rest & Eh & Hl & Hrest); [apply Hu; left|].
  exists (fun x => if decide (x = h) then l else f x). cbn [Rocks.range_scan].
  rewrite Eh, (block_scan_ok t flushed Hok Hd); [|apply Hu; left| |done].
  - rewrite Forall_forall in Hlt. cbn [result_bind]. rewrite E. cbn [result_bind fmap list_fmap concat].
    rewrite decide_True by done. split.
    + do 3 f_equal. apply list_fmap_ext. intros i x Hx%list_elem_of_lookup_2.
      rewrite decide_False; [done|]. intros ->. apply Hlt in Hx. lia.
    + intros x [->|Hx]%elem_of_cons; [by rewrite decide_True|].
      rewrite decide_False; [by apply Hf|]. intros ->. apply Hlt in Hx. lia.
  - intros e He. rewrite Hl in He. by apply list_elem_of_filter in He as [??].
Qed.

(** ** The RocksDB store satisfies the interface *)

Lemma sort_unique l1 l2 :
  l1 ≡ₚ l2 ->
  StronglySorted (fun x y => de_event_index x < de_event_index y) l1 -> StronglySorted index_le l2 ->
  l2 = l1.
Proof.
  intros Hp H1. revert l2 Hp. induction H1 as [|x l1 Hs IH Hx]; intros l2 Hp H2.
  { by apply Permutation_nil_l in Hp. }
  destruct H2 as [|y l2 Hs2 Hy]; [by apply Permutation_nil_r in Hp|].
  rewrite Forall_forall in Hx, Hy.
  destruct (decide (x = y)) as [->|Hne].
  - apply Permutation_cons_inv in Hp. f_equal. by apply IH.
  - exfalso. assert (Hxin : x ∈ y :: l2) by (rewrite <- Hp; left).
    assert (Hyin : y ∈ x :: l1) by (rewrite Hp; left).
    apply elem_of_cons in Hxin as [?|Hxin]; [done|]. apply elem_of_cons in Hyin as [?|Hyin]; [by subst|].
    apply Hy in Hxin. apply Hx in Hyin. unfold index_le in Hxin. lia.
Qed.

Lemma tx_sorted log tx :
  StronglySorted tx_order log ->
  StronglySorted (fun x y => de_event_index x < de_event_index y) (filter (fun e => de_tx_hash e = tx) log).
Proof.
  induction 1 as [|e log Hs IH Hall]; [constructor|]. rewrite filter_cons.
  destruct (decide (de_tx_hash e = tx)) as [He|He]; [|done]. constructor; [done|].
  apply Forall_forall. intros y [Hty Hy]%list_elem_of_filter. rewrite Forall_forall in Hall.
  apply (Hall y Hy). congruence.
Qed.

#[export] Instance rocksdb_ok `{K : KeyCodec} {KO : KeyCodecOk K} `{C : EventCodec} {CO : EventCodecOk C} :
  EventStoreOk RocksDbEventStore.
Proof.
  apply (Build_EventStoreOk _ _ (fun t log visible => disk_ok (rdb t) visible /\ log = visible ++ write_buffer t)).
  - intros t log visible [_ ->]. by apply prefix_app_r.
  - intros [d buf limit] log visible new Hok [Hd ->]. cbn [rdb write_buffer] in *.
    cbn [append rocksdb_event_store]. unfold Rocks.append. cbn [rdb write_buffer buffer_limit].
    rewrite <- app_assoc in Hok. destruct (_ <=? _)%nat.
    + destruct (flush_ok d visible (buf ++ new) limit Hok Hd) as (d' & E & Hd').
      eexists _, _. split; [exact E|]. split; [split; [exact Hd'|]|by apply prefix_app_r].
      cbn [write_buffer]. by rewrite app_nil_r, <- app_assoc.
    + eexists _, visible. split; [done|]. split; [split; [done|by rewrite <- app_assoc]|done].
  - intros t log visible from to Hok [Hd _] Hfrom Hto.
    cbn [get_by_block_range rocksdb_event_store]. unfold Rocks.get_by_block_range.
    destruct (range_scan_ok t visible (range_inclusive from to)) as (f & -> & Hf);
      [done|done|apply range_inclusive_sorted| |].
    + intros h Hh%range_inclusive_elem. unfold is_u64. lia.
    + eexists. split; [done|]. apply blocks_in_range; [by apply log_NoDup|].
      intros h Hh. by apply Hf, range_inclusive_elem.
  - intros t log visible tx Hok [Hd _] Htx. cbn [get_by_tx rocksdb_event_store]. unfold Rocks.get_by_tx.
    destruct (tx_entries t visible Hok Hd tx Htx) as (l & rest & -> & Hl & Hrest).
    rewrite (tx_scan_ok t visible Hok Hd); [|done| |done].
    + cbn [result_bind]. do 2 f_equal. apply sort_unique.
      * by rewrite merge_sort_Permutation, Hl.
      * apply tx_sorted, log_indices, Hok.
      * apply StronglySorted_merge_sort; apply _.
    + intros e He. rewrite Hl in He. by apply list_elem_of_filter in He as [??].
  - intros t log visible a limit Hok [Hd _]. cbn [get_by_address rocksdb_event_store].
    unfold Rocks.get_by_address. destruct (event_entries t visible Hok Hd) as (l & rest & -> & Hl & Hrest).
    rewrite (address_scan_ok visible Hok); [|intros e He; by rewrite Hl in He|done].
    eexists. split; [done|]. split.
    + by rewrite merge_sort_Permutation, Hl.
    + apply StronglySorted_merge_sort; apply _.
  - intros t log visible Hok [Hd _]. destruct t as [d buf limit]. cbn [count rocksdb_event_store].
    rewrite (disk_count d visible); [done|by apply log_length|done].
Defined.

(** * A concrete codec for events

    A header, a tag, and the fields. *)
Definition all_order_types : list OrderType :=
  [OT_Market; OT_Limit; OT_StopMarket; OT_StopLimit; OT_TakeProfitMarket; OT_TakeProfitLimit].
Definition all_bcr : list BalanceChangeReason :=
  [BCR_Deposit; BCR_Withdraw; BCR_Transfer; BCR_TradeFee; BCR_FundingPayment; BCR_FundingReceipt;
   BCR_Liquidation; BCR_PnLSettlement; BCR_BridgeDeposit; BCR_BridgeWithdraw].
Definition all_ifc : list InsuranceFundChangeReason :=
  [IFC_LiquidationFee; IFC_LiquidationCoverage; IFC_AdminDeposit; IFC_AdminWithdraw].
Definition enum_code {A} `{EqDecision A} (all : list A) (x : A) : Z :=
  Z.of_nat (default 0%nat (position x all)).
Definition enum_of {A} (all : list A) (z : Z) : option A := all !! Z.to_nat z.
Definition of_bytes (l : list Z) : string :=
  String.string_of_list_ascii ((fun b => Ascii.ascii_of_N (Z.to_N b)) <$> l).

Definition event_fields (event : Event) : list Z :=
  match event with
  | EvBalanceChanged a asset o n r => [0; a; asset; o; n; enum_code all_bcr r]
  | EvTransfer from to asset amount => [1; from; to; asset; amount]
  | EvNonceUpdated a o n => [2; a; o; n]
  | EvOrderPlaced id owner market b price size ty =>
      [10; id; owner; market; Z.b2z b; price; size; enum_code all_order_types ty]
  | EvOrderCancelled id owner market remaining => [11; id; owner; market; remaining]
  | EvOrderFilled mid tid maker taker market price size b mfee tfee =>
      [12; mid; tid; maker; taker; market; price; size; Z.b2z b; mfee; tfee]
  | EvPositionOpened trader market b size entry margin => [20; trader; market; Z.b2z b; size; entry; margin]
  | EvPositionClosed trader market size exit pnl b => [21; trader; market; size; exit; pnl; Z.b2z b]
  | EvPositionModified trader market o n => [22; trader; market; o; n]
  | EvPositionLiquidated trader market l size price fee contribution usage =>
      [23; trader; market; size; price; fee; contribution; usage] ++ option_list l
  | EvFundingPaid trader market amount b rate index => [30; trader; market; amount; Z.b2z b; rate; index]
  | EvFundingRateUpdated market rate mark oracle index => [31; market; rate; mark; oracle; index]
  | EvBridgeDeposit operator user asset amount tx => [40; operator; user; asset; amount; tx]
  | EvBridgeWithdraw operator user asset amount destination tx =>
      [41; operator; user; asset; amount; destination; tx]
  | EvAgentSet account agent permissions => [50; account; agent; permissions]
  | EvAgentRemoved account agent => [51; account; agent]
  | EvMarketUpdated market symbol => 60 :: market :: as_bytes symbol
  | EvInsuranceFundUpdated market o n r => [61; market; o; n; enum_code all_ifc r]
  end.

Definition fields_event (l : list Z) : option Event :=
  match l with
  | [0; a; asset; o; n; r] => EvBalanceChanged a asset o n <$> enum_of all_bcr r
  | [1; from; to; asset; amount] => Some (EvTransfer from to asset amount)
  | [2; a; o; n] => Some (EvNonceUpdated a o n)
  | [10; id; owner; market; b; price; size; ty] =>
      EvOrderPlaced id owner market (b =? 1) price size <$> enum_of all_order_types ty
  | [11; id; owner; market; remaining] => Some (EvOrderCancelled id owner market remaining)
  | [12; mid; tid; maker; taker; market; price; size; b; mfee; tfee] =>
      Some (EvOrderFilled mid tid maker taker market price size (b =? 1) mfee tfee)
  | [20; trader; market; b; size; entry; margin] =>
      Some (EvPositionOpened trader market (b =? 1) size entry margin)
  | [21; trader; market; size; exit; pnl; b] => Some (EvPositionClosed trader market size exit pnl (b =? 1))
  | [22; trader; market; o; n] => Some (EvPositionModified trader market o n)
  | 23 :: trader :: market :: size :: price :: fee :: contribution :: usage :: l =>
      Some (EvPositionLiquidated trader market (head l) size price fee contribution usage)
  | [30; trader; market; amount; b; rate; index] =>
      Some (EvFundingPaid trader market amount (b =? 1) rate index)
  | [31; market; rate; mark; oracle; index] => Some (EvFundingRateUpdated market rate mark oracle index)
  | [40; operator; user; asset; amount; tx] => Some (EvBridgeDeposit operator user asset amount tx)
  | [41; operator; user; asset; amount; destination; tx] =>
      Some (EvBridgeWithdraw operator user asset amount destination tx)
  | [50; account; agent; permissions] => Some (EvAgentSet account agent permissions)
  | [51; account; agent] => Some (EvAgentRemoved account agent)
  | 60 :: market :: symbol => Some (EvMarketUpdated market (of_bytes symbol))
  | [61; market; o; n; r] => EvInsuranceFundUpdated market o n <$> enum_of all_ifc r
  | _ => None
  end.

Definition toy_event_codec : EventCodec := {|
  event_to_vec e :=
    de_block_height e :: de_tx_hash e :: de_event_index e :: de_timestamp e :: event_fields (de_event e);
  event_from_slice l :=
    match l with
    | h :: tx :: i :: ts :: fields => DomainEvent_new h tx i ts <$> fields_event fields
    | _ => None
    end;
|}.

Lemma of_bytes_as_bytes s : of_bytes (as_bytes s) = s.
Proof.
  unfold of_bytes, as_bytes. rewrite <- list_fmap_compose.
  rewrite <- (String.string_of_list_ascii_of_string s) at 2. f_equal.
  rewrite <- (list_fmap_id (String.list_ascii_of_string s)) at 2. apply list_fmap_ext.
  intros i a _. cbn. by rewrite N2Z.id, Ascii.ascii_N_embedding.
Qed.

Lemma fields_event_fields e : fields_event (event_fields e) = Some e.
Proof.
  destruct e; cbn [event_fields app]; try reflexivity.
  all: try (match goal with r : BalanceChangeReason |- _ => destruct r end; reflexivity).
  all: try (match goal with r : InsuranceFundChangeReason |- _ => destruct r end; reflexivity).
  all: try (match goal with b : bool |- _ => destruct b end; try reflexivity).
  all: try (match goal with r : OrderType |- _ => destruct r end; reflexivity).
  - by destruct liquidator.
  - cbn. by rewrite of_bytes_as_bytes.
Qed.

#[export] Instance toy_event_codec_ok : EventCodecOk toy_event_codec.
Proof.
  intros e _. cbn [event_from_slice event_to_vec toy_event_codec].
  rewrite fields_event_fields. by destruct e.
Qed.

(** * What clients may rely on *)

Lemma StronglySorted_weaken {A} (R R' : A -> A -> Prop) l :
  (forall x y, R x y -> R' x y) -> StronglySorted R l -> StronglySorted R' l.
Proof.
  intros HR. induction 1 as [|x l Hs IH Hx]; constructor; [done|].
  eapply Forall_impl; [exact Hx|]. auto.
Qed.
Lemma StronglySorted_fmap {A B} (R : B -> B -> Prop) (f : A -> B) l :
  StronglySorted (fun x y => R (f x) (f y)) l -> StronglySorted R (f <$> l).
Proof.
  induction 1 as [|x l Hs IH Hx]; cbn; constructor; [done|]. by apply Forall_fmap.
Qed.

(** Two stores with the same visible events answer alike, whatever they are. *)
Section clients.
Context {S1 S2 : Type} `{E1 : EventStore S1} {O1 : EventStoreOk S1} `{E2 : EventStore S2} {O2 : EventStoreOk S2}.

(** Any two event stores that see the same log give the same answer to a
    transaction query and to the count, the same events to a range query
    (in the same order of heights), and address answers of the same heights. *)
Theorem stores_agree (t1 : S1) (t2 : S2) log1 log2 visible :
  log_ok visible -> holds t1 log1 visible -> holds t2 log2 visible ->
  (forall tx, is_hash tx -> get_by_tx t1 tx = get_by_tx t2 tx) /\
  count t1 = count t2 /\
  (forall from to, 0 <= from -> to <= U64_MAX -> exists l1 l2,
     get_by_block_range t1 from to = Some (Ok l1) /\ get_by_block_range t2 from to = Some (Ok l2) /\
     l1 ≡ₚ l2 /\ de_block_height <$> l1 = de_block_height <$> l2) /\
  (forall a limit, exists l1 l2,
     get_by_address t1 a limit = Some (Ok l1) /\ get_by_address t2 a limit = Some (Ok l2) /\
     de_block_height <$> l1 = de_block_height <$> l2).
Proof.
  intros Hok H1 H2. split_and!.
  - intros tx Htx. by rewrite (tx_law t1 log1 visible), (tx_law t2 log2 visible).
  - by rewrite (count_law t1 log1 visible), (count_law t2 log2 visible).
  - intros from to Hf Ht.
    destruct (block_range_law t1 log1 visible from to) as (l1 & E1' & Hl1 & Hs1); [done..|].
    destruct (block_range_law t2 log2 visible from to) as (l2 & E2' & Hl2 & Hs2); [done..|].
    exists l1, l2. split_and!; [done|done|by rewrite Hl1, Hl2|].
    apply (StronglySorted_unique Z.le); [by apply StronglySorted_fmap..|by rewrite Hl1, Hl2].
  - intros a limit.
    destruct (address_law t1 log1 visible a limit) as (l1 & E1' & Hl1 & Hs1); [done..|].
    destruct (address_law t2 log2 visible a limit) as (l2 & E2' & Hl2 & Hs2); [done..|].
    exists (take limit l1), (take limit l2). split_and!; [done|done|].
    rewrite !fmap_take. f_equal.
    assert (Hge : forall l, StronglySorted height_ge l -> StronglySorted Z.ge (de_block_height <$> l)).
    { intros l Hl. apply StronglySorted_fmap. eapply StronglySorted_weaken; [|exact Hl].
      unfold height_ge. intros x y. lia. }
    apply (StronglySorted_unique Z.ge); [by apply Hge..|by rewrite Hl1, Hl2].
Qed.
End clients.

(** ** A node's event store over time *)
Inductive StoreOp := OpAppend (evs : list DomainEvent) | OpFlush | OpReopen.

Section histories.
Context `{K : KeyCodec} {KO : KeyCodecOk K} `{C : EventCodec} {CO : EventCodecOk C}.

(** Closing and opening the database again: [drop] flushes. *)
Definition store_op (op : StoreOp) : ST RocksDbEventStore EventStoreError unit :=
  match op with
  | OpAppend evs => Rocks.append evs
  | OpFlush => Rocks.flush
  | OpReopen => fun t => (Ok tt, Rocks.new (Rocks.drop_store t) (buffer_limit t))
  end.
Definition op_events (op : StoreOp) : list DomainEvent :=
  match op with OpAppend evs => evs | _ => [] end.
Definition settles (ops : list StoreOp) : bool :=
  match last ops with Some (OpAppend _) => false | _ => true end.

(** The invariant of a history. *)
Definition history_ok (t : RocksDbEventStore) (log : list DomainEvent) (limit : nat) : Prop :=
  exists visible,
    disk_ok (rdb t) visible /\ log = visible ++ write_buffer t /\ buffer_limit t = limit /\
    (length (write_buffer t) < Nat.max 1 limit)%nat.

Lemma flush_history t log limit :
  log_ok log -> history_ok t log limit ->
  exists d, Rocks.flush t = (Ok tt, {| rdb := d; write_buffer := []; buffer_limit := limit |}) /\
    disk_ok d log.
Proof.
  destruct t as [d buf lim]. intros Hok (visible & Hd & -> & <- & _). by apply flush_ok.
Qed.

Lemma store_op_history op t log limit :
  log_ok (log ++ op_events op) -> history_ok t log limit ->
  exists t', store_op op t = (Ok tt, t') /\ history_ok t' (log ++ op_events op) limit /\
    (settles [op] = true -> write_buffer t' = []).
Proof.
  intros Hok Ht. destruct op as [evs| |]; cbn [op_events store_op settles last] in *;
    rewrite ?app_nil_r in *.
  - destruct Ht as (visible & Hd & -> & <- & Hlt). unfold Rocks.append. cbn [write_buffer buffer_limit rdb].
    rewrite <- app_assoc in Hok |- *.
    destruct (Nat.leb_spec (buffer_limit t) (length (write_buffer t ++ evs))).
    + destruct (flush_ok (rdb t) visible (write_buffer t ++ evs) (buffer_limit t)) as (d & E & Hd');
        [done|done|]. eexists. split; [exact E|]. split; [|done]. eexists. split; [exact Hd'|].
      cbn [write_buffer buffer_limit length]. rewrite app_nil_r. split_and!; [done|done|lia].
    + eexists. split; [done|]. split; [|done]. exists visible. split_and!; [done|done|done|].
      cbn [write_buffer]. lia.
  - destruct (flush_history t log limit Hok Ht) as (d & E & Hd). eexists. split; [exact E|].
    split; [|done]. exists log. cbn. rewrite app_nil_r. split_and!; [done|done|done|lia].
  - destruct (flush_history t log limit Hok Ht) as (d & E & Hd).
    destruct Ht as (_ & _ & _ & Hl & _). eexists. split; [done|]. split; [|done].
    exists log. unfold Rocks.drop_store. rewrite E. cbn. rewrite app_nil_r, Hl.
    split_and!; [done|done|done|lia].
Qed.

Lemma store_history ops limit : forall t log,
  log_ok (log ++ (ops ≫= op_events)) -> history_ok t log limit ->
  exists t', st_for ops store_op t = (Ok tt, t') /\ history_ok t' (log ++ (ops ≫= op_events)) limit /\
    (settles ops = true -> ops <> [] -> write_buffer t' = []).
Proof.
  induction ops as [|op ops IH]; intros t log Hok Ht.
  - eexists. split; [done|]. cbn. by rewrite app_nil_r.
  - cbn [mbind list_bind] in Hok |- *. rewrite app_assoc in Hok |- *.
    destruct (store_op_history op t log limit) as (t1 & E1 & H1 & Hs1); [|done|].
    { by apply (prefix_log_ok _ _ (prefix_app_r _ _ _ (reflexivity _))) in Hok. }
    destruct (IH t1 (log ++ op_events op)) as (t2 & E2 & H2 & Hs2); [done|done|].
    exists t2. split; [|split; [exact H2|]].
    + cbn [st_for]. by rewrite (st_bind_eq _ _ _ _ _ E1).
    + intros Hs _. destruct ops as [|op2 ops]; [|by apply Hs2].
      cbn in E2. unfold st_ret in E2. assert (t2 = t1) as -> by congruence. by apply Hs1.
Qed.

Lemma history_start limit : history_ok (Rocks.new ∅ limit) [] limit.
Proof. exists []. split_and!; [apply empty_disk_ok|done|done|]. cbn. lia. Qed.

Lemma settled_holds ops limit :
  log_ok (ops ≫= op_events) -> settles ops = true -> ops <> [] ->
  holds (st_for ops store_op (Rocks.new ∅ limit)).2 (ops ≫= op_events) (ops ≫= op_events).
Proof.
  intros Hok Hs Hne.
  destruct (store_history ops limit (Rocks.new ∅ limit) []) as (t & E & (vis & Hd & Hlog & _) & Hb);
    [done|apply history_start|].
  rewrite E. cbn [snd holds rocksdb_ok]. cbn [app] in Hlog.
  rewrite (Hb Hs Hne), app_nil_r in Hlog |- *. by subst vis.
Qed.

End histories.

(** C20: a RocksDB event store that starts on an empty disk never fails: after
    any sequence of appends, flushes and restarts whose events have fields of
    their types, heights that never go down and, for each transaction hash,
    indices that go up strictly, its queries answer for a
    prefix of what was appended, which lacks fewer events than the buffer limit
    and nothing after a flush or a restart.  For that prefix a range query
    returns exactly the events of the heights asked for, by height; a
    transaction query exactly its events, in order; an address query the
    latest of the events that involve it; the count their number.  (An event with
    the hash and index of an earlier one replaces it or is hidden behind it, while
    the count still grows: [duplicate_event_replaces].) *)
Theorem rocksdb_store_exact `{K : KeyCodec} {KO : KeyCodecOk K} `{C : EventCodec} {CO : EventCodecOk C}
    (ops : list StoreOp) (limit : nat) (log_is_ok : log_ok (ops ≫= op_events)) :
  let log := ops ≫= op_events in
  exists t visible,
    st_for ops store_op (Rocks.new ∅ limit) = (Ok tt, t) /\
    visible `prefix_of` log /\
    (length log < length visible + Nat.max 1 limit)%nat /\
    (settles ops = true -> visible = log) /\
    (forall from to, 0 <= from -> to <= U64_MAX -> exists l,
       Rocks.get_by_block_range t from to = Ok l /\
       l ≡ₚ filter (fun e => from <= de_block_height e <= to) visible /\ StronglySorted height_le l) /\
    (forall tx, is_hash tx -> Rocks.get_by_tx t tx = Ok (filter (fun e => de_tx_hash e = tx) visible)) /\
    (forall a n, exists l,
       Rocks.get_by_address t a n = Ok (take n l) /\
       l ≡ₚ filter (fun e => event_involves_address (de_event e) a = true) visible /\
       StronglySorted height_ge l) /\
    Rocks.count t = Ok (Z.of_nat (length visible)).
Proof.
  intros log. destruct (store_history ops limit (Rocks.new ∅ limit) []) as
    (t & E & (visible & Hd & Hlog & _ & Hlt) & Hb); [exact log_is_ok|apply history_start|].
  cbn [app] in Hlog. change (ops ≫= op_events) with log in Hlog.
  assert (Hp : visible `prefix_of` log) by (rewrite Hlog; by apply prefix_app_r).
  assert (Hv : log_ok visible) by (by apply (prefix_log_ok _ log)).
  assert (Hh : holds t log visible) by (by split).
  exists t, visible. split_and!; [done|done| | | | | |].
  - rewrite Hlog, length_app. lia.
  - intros Hs. rewrite Hlog. destruct ops as [|op ops].
    + destruct (app_eq_nil visible (write_buffer t)) as [-> ->]; [by rewrite <- Hlog|done].
    + by rewrite (Hb Hs), app_nil_r.
  - intros from to Hf Ht. destruct (block_range_law t log visible from to) as (l & [= E1] & H1); [done..|].
    by exists l.
  - intros tx Htx. pose proof (tx_law t log visible tx Hv Hh Htx) as [= E1]. exact E1.
  - intros a n. destruct (address_law t log visible a n) as (l & [= E1] & H1); [done..|]. by exists l.
  - pose proof (count_law t log visible Hv Hh) as [= E1]. exact E1.
Qed.

Module Demo.
#[local] Existing Instances toy_key_codec toy_event_codec.

Definition ev (height tx index from to : Z) : DomainEvent :=
  DomainEvent_new height tx index 1700 (EvTransfer from to 0 10).
Definition log : list DomainEvent :=
  [ev 5 77 0 1 2; ev 5 77 1 2 3; ev 5 77 256 3 1; ev 6 12 0 1 4].
Definition ops : list StoreOp :=
  [OpAppend (take 2 log); OpAppend (drop 2 (take 3 log)); OpReopen; OpAppend (drop 3 log); OpFlush].

Lemma log_is_ok : log_ok log.
Proof.
  constructor.
  - unfold log. repeat apply Forall_cons_2; try apply Forall_nil_2;
      unfold event_ok, header_ok, is_u64, is_hash, is_u32, is_address, is_u128; vm_compute; intuition congruence.
  - unfold log, height_le. repeat constructor; cbn; lia.
  - unfold log, tx_order. repeat constructor; cbn; lia.
  - unfold is_u64. vm_compute. intuition congruence.
Qed.

Lemma store_holds : holds (st_for ops store_op (Rocks.new ∅ 3)).2 log log.
Proof. apply (settled_holds ops 3); [exact log_is_ok|done|done]. Qed.
Lemma memory_holds : holds (Memory.append log Memory.mem_default).2 log log.
Proof.
  destruct (memory_append_ok log Memory.mem_default) as [H1 H2]; [by split; intros k|].
  by split_and!.
Qed.
End Demo.

#[local] Existing Instances toy_key_codec toy_event_codec.

Lemma rocksdb_store_exact_witness :
  exists t, st_for Demo.ops store_op (Rocks.new ∅ 3) = (Ok tt, t) /\ Rocks.count t = Ok 4 /\
    Rocks.get_by_tx t 77 = Ok (take 3 Demo.log).
Proof.
  destruct (rocksdb_store_exact (K := toy_key_codec) (C := toy_event_codec) Demo.ops 3 Demo.log_is_ok)
    as (t & visible & E & _ & _ & Hs & _ & Htx & _ & Hc).
  rewrite (Hs eq_refl) in Hc, Htx. exists t. split; [exact E|]. split; [exact Hc|].
  apply (Htx 77). split; [discriminate|reflexivity].
Defined.

Lemma stores_agree_witness :
  get_by_tx (Memory.append Demo.log Memory.mem_default).2 77 =
    get_by_tx (st_for Demo.ops store_op (Rocks.new ∅ 3)).2 77.
Proof.
  destruct (stores_agree (O1 := in_memory_ok) (O2 := rocksdb_ok) _ _ Demo.log Demo.log Demo.log Demo.log_is_ok Demo.memory_holds Demo.store_holds)
    as (Htx & _).
  apply Htx. split; [discriminate|reflexivity].
Defined.

(** Within a block the two stores differ: RocksDB answers in the order of the
    encoded keys, where index 256 (bytes 0, 1, 0, 0) comes before index 1. *)
Lemma block_order_is_key_order :
  let mem := (Memory.append Demo.log Memory.mem_default).2 in
  let db := (st_for Demo.ops store_op (Rocks.new ∅ 3)).2 in
  option_map (result_map (List.map de_event_index)) (get_by_block_range mem 5 5) = Some (Ok [0; 1; 256]) /\
  result_map (List.map de_event_index)
    (Rocks.get_by_block_range (K := toy_key_codec) (C := toy_event_codec) db 5 5) = Ok [0; 256; 1].
Proof. split; vm_compute; reflexivity. Qed.

(** Two events of one transaction hash with the same index.  In one block the
    second replaces the first, and is counted beside it.  In two blocks, as when a
    failed transaction is executed again later, both are kept, but a query of the
    transaction finds only the first. *)
Lemma duplicate_event_replaces :
  let first := Demo.ev 5 77 0 1 2 in let second := Demo.ev 5 77 0 1 3 in
  let later := Demo.ev 6 77 0 1 3 in
  let store := fun e => (st_for [OpAppend [first]; OpAppend [e]; OpFlush] store_op (Rocks.new ∅ 3)).2 in
  Rocks.get_by_tx (store second) 77 = Ok [second] /\ Rocks.count (store second) = Ok 2 /\
  Rocks.get_by_tx (store later) 77 = Ok [first] /\ Rocks.count (store later) = Ok 2 /\
  Rocks.get_by_block_range (store later) 5 6 = Ok [first; later].
Proof. split_and!; vm_compute; reflexivity. Qed.

(** A count that cannot be read makes a flush fail and drops the buffer. *)
Lemma flush_drops_buffer `{K : KeyCodec} `{C : EventCodec} t bytes e buf :
  write_buffer t = e :: buf -> rdb t !! key_to_bytes EKMetaCount = Some bytes -> length bytes <> 8%nat ->
  Rocks.flush t = (Err Other, Rocks.new (rdb t) (buffer_limit t)).
Proof.
  intros Hb Hm Hl. unfold Rocks.flush. rewrite Hb. unfold Rocks.count. cbn [rdb]. rewrite Hm.
  destruct (Nat.eqb_spec (length bytes) 8); done.
Qed.
