(* ===== verification/Auth.v ===== *)
(** [pranklin-auth] (crates/auth/src): agent nominations and their EIP-712
    hash, the registry of agents, and [AuthService], which decides whether the
    signer of a transaction may act for its sender.  Signatures and public-key
    recovery belong to alloy: the class [SigEnv]. *)
From stdpp Require Import base gmap sets list sorting strings.
From Stdlib Require Import ZArith Lia.
From S2P Require Import Prelude Types Storage State Tx.

(** [AuthError] (error.rs); the message of [InvalidSignature] is left out. *)
Inductive AuthError :=
| InvalidSignature
| AuthUnauthorized (signer account : Address).
#[export] Instance AuthError_eq_dec : EqDecision AuthError.
Proof. solve_decision. Defined.

(** [alloy_primitives::Signature]. *)
Class SigEnv := {
  Signature : Type;
  from_bytes_and_parity : list Z -> bool -> Signature;
  recover_address_from_prehash : Signature -> B256 -> option Address;
}.

(** * Nominations (agent.rs) *)

Record AgentNominationDomain := {
  and_name : string;
  and_version : string;
  and_chain_id : Z;
  and_verifying_contract : Address;
}.
Definition AgentNominationDomain_default : AgentNominationDomain :=
  {| and_name := "PranklinPerp"; and_version := "1"; and_chain_id := 1;
     and_verifying_contract := 0 |}.

Record AgentNomination := {
  an_account : Address;
  an_agent : Address;
  an_permissions : Z;
  an_nonce : Z;
}.

Section nomination.
Context {V : TxEnv} {G : SigEnv}.

Definition domain_separator (d : AgentNominationDomain) : B256 :=
  keccak256
    (b256_slice (keccak256 (as_bytes
       "EIP712Domain(string name,string version,uint256 chainId,address verifyingContract)"))
     ++ b256_slice (keccak256 (as_bytes (and_name d)))
     ++ b256_slice (keccak256 (as_bytes (and_version d)))
     ++ be_bytes 8 (and_chain_id d)
     ++ address_slice (and_verifying_contract d)).

(** The bytes of a nomination: addresses unpadded, integers on 8 bytes. *)
Definition nomination_data (n : AgentNomination) : list Z :=
  address_slice (an_account n) ++ address_slice (an_agent n) ++
  be_bytes 8 (an_permissions n) ++ be_bytes 8 (an_nonce n).

Definition struct_hash (n : AgentNomination) : B256 :=
  keccak256
    (b256_slice (keccak256 (as_bytes
       "AgentNomination(address account,address agent,uint64 permissions,uint64 nonce)"))
     ++ nomination_data n).

Definition eip712_hash (n : AgentNomination) (domain : AgentNominationDomain) : B256 :=
  keccak256 ([25; 1] ++ b256_slice (domain_separator domain) ++ b256_slice (struct_hash n)).

Definition recover (signature : Signature) (hash : B256) : result AuthError Address :=
  ok_or InvalidSignature (recover_address_from_prehash signature hash).

Definition nomination_verify (n : AgentNomination) (signature : Signature)
    (domain : AgentNominationDomain) : result AuthError Address :=
  recover signature (eip712_hash n domain).

(** * The registry (agent.rs) *)

Record AgentRegistry := { agents : gmap Address (gmap Address Z) }.
Definition AgentRegistry_default : AgentRegistry := {| agents := ∅ |}.

Definition reg_set_agent (account agent : Address) (permissions : Z) (r : AgentRegistry)
    : AgentRegistry :=
  {| agents := <[account := <[agent := permissions]> (default ∅ (agents r !! account))]> (agents r) |}.

Definition reg_remove_agent (account agent : Address) (r : AgentRegistry) : AgentRegistry :=
  match agents r !! account with
  | Some m =>
      let m := delete agent m in
      if decide (m = ∅) then {| agents := delete account (agents r) |}
      else {| agents := <[account := m]> (agents r) |}
  | None => r
  end.

Definition get_permissions (r : AgentRegistry) (account agent : Address) : option Z :=
  m ← agents r !! account; m !! agent.

Definition reg_is_authorized (r : AgentRegistry) (account agent : Address) (permission : Z) : bool :=
  match get_permissions r account agent with
  | Some perms => Z.land perms permission =? permission
  | None => false
  end.

Definition get_agents `{HashOrder} (r : AgentRegistry) (account : Address) : list (Address * Z) :=
  match agents r !! account with Some m => hash_order (map_to_list m) | None => [] end.

Definition clear_agents (account : Address) (r : AgentRegistry) : AgentRegistry :=
  {| agents := delete account (agents r) |}.

Definition account_count (r : AgentRegistry) : nat := size (agents r).
Definition total_agent_count (r : AgentRegistry) : nat :=
  sum_list (size <$> (map_to_list (agents r)).*2).

(** * The service (lib.rs) *)

Record AuthService := { as_agents : AgentRegistry }.
Definition AuthService_new : AuthService := {| as_agents := AgentRegistry_default |}.
Definition on_agents (f : AgentRegistry -> AgentRegistry) (a : AuthService) : AuthService :=
  {| as_agents := f (as_agents a) |}.

Definition recover_signer (tx : Transaction) : result AuthError Address :=
  let sig_bytes := signature_bytes tx in
  recover (from_bytes_and_parity (take 64 sig_bytes) (negb (nth 64 sig_bytes 0 =? 0)))
          (signing_hash tx).

Definition verify_transaction (tx : Transaction) : result AuthError unit :=
  result_bind (recover_signer tx) (fun signer =>
  if signer =? tx_from tx then Ok tt else Err (AuthUnauthorized signer (tx_from tx))).

Definition verify_with_agent (a : AuthService) (tx : Transaction) (permission : Z)
    : result AuthError Address :=
  result_bind (recover_signer tx) (fun signer =>
  if (signer =? tx_from tx) || reg_is_authorized (as_agents a) (tx_from tx) signer permission
  then Ok (tx_from tx) else Err (AuthUnauthorized signer (tx_from tx))).

Definition auth_set_agent (account agent : Address) (permissions : Z) : AuthService -> AuthService :=
  on_agents (reg_set_agent account agent permissions).
Definition auth_remove_agent (account agent : Address) : AuthService -> AuthService :=
  on_agents (reg_remove_agent account agent).

Definition nominate_agent (n : AgentNomination) (signature : Signature)
    (domain : AgentNominationDomain) : ST AuthService AuthError unit :=
  let! recovered := st_lift (nomination_verify n signature domain) in
  st_guard (recovered =? an_account n) (AuthUnauthorized recovered (an_account n)) ;;
  st_modify (auth_set_agent (an_account n) (an_agent n) (an_permissions n)).

Definition auth_is_authorized (a : AuthService) := reg_is_authorized (as_agents a).
Definition agent_permissions (a : AuthService) := get_permissions (as_agents a).
Definition auth_agents `{HashOrder} (a : AuthService) := get_agents (as_agents a).

End nomination.

(** * What the registry promises *)

Section registry.

(** The registry seen as one map from (account, agent) to permissions. *)
Definition flat (r : AgentRegistry) : gmap (Address * Address) Z :=
  map_uncurry (M1 := gmap Address) (M2 := gmap Address) (agents r).

(** No account is kept without agents. *)
Definition registry_ok (r : AgentRegistry) : Prop := forall a, agents r !! a <> Some ∅.

Lemma flat_lookup r account agent : flat r !! (account, agent) = get_permissions r account agent.
Proof. unfold flat. rewrite lookup_map_uncurry. unfold get_permissions. done. Qed.

Lemma flat_ext r f :
  (forall a g, get_permissions r a g = f !! (a, g)) -> flat r = f.
Proof. intros H. apply map_eq. intros [a g]. by rewrite flat_lookup. Qed.

Lemma get_permissions_set account agent p r a g :
  get_permissions (reg_set_agent account agent p r) a g =
  if decide ((a, g) = (account, agent)) then Some p else get_permissions r a g.
Proof.
  unfold get_permissions, reg_set_agent. cbn [agents].
  destruct (decide (a = account)) as [->|Ha].
  - rewrite lookup_insert_eq. cbn. destruct (decide (g = agent)) as [->|Hg].
    + by rewrite lookup_insert_eq, decide_True.
    + rewrite lookup_insert_ne, decide_False by congruence.
      by destruct (agents r !! account); rewrite ?lookup_empty.
  - by rewrite lookup_insert_ne, decide_False by congruence.
Qed.

Lemma get_permissions_remove account agent r a g :
  get_permissions (reg_remove_agent account agent r) a g =
  if decide ((a, g) = (account, agent)) then None else get_permissions r a g.
Proof.
  unfold get_permissions, reg_remove_agent.
  destruct (agents r !! account) as [m|] eqn:E; [destruct (decide (delete agent m = ∅)) as [Hm|Hm]|];
    cbn [agents]; (destruct (decide (a = account)) as [->|Ha];
      [|rewrite ?lookup_delete_ne, ?lookup_insert_ne, decide_False by congruence; done]).
  - rewrite lookup_delete_eq, E. cbn. case_decide as Hd; [done|].
    assert (Hg : delete agent m !! g = m !! g) by (apply lookup_delete_ne; congruence).
    by rewrite <- Hg, Hm.
  - rewrite lookup_insert_eq, E. cbn. case_decide as Hd.
    + injection Hd as ->. apply lookup_delete_eq.
    + apply lookup_delete_ne. congruence.
  - rewrite E. by case_decide.
Qed.

Lemma get_permissions_clear account r a g :
  get_permissions (clear_agents account r) a g =
  if decide (a = account) then None else get_permissions r a g.
Proof.
  unfold get_permissions, clear_agents. cbn [agents]. case_decide as H.
  - subst. by rewrite lookup_delete_eq.
  - by rewrite lookup_delete_ne by congruence.
Qed.

Lemma registry_ok_set account agent p r :
  registry_ok r -> registry_ok (reg_set_agent account agent p r).
Proof.
  intros H a. unfold reg_set_agent. cbn [agents]. destruct (decide (a = account)) as [->|Ha].
  - rewrite lookup_insert_eq. intros [= E]. by apply insert_non_empty in E.
  - by rewrite lookup_insert_ne by congruence.
Qed.

Lemma registry_ok_remove account agent r :
  registry_ok r -> registry_ok (reg_remove_agent account agent r).
Proof.
  intros H a. unfold reg_remove_agent.
  destruct (agents r !! account) as [m|]; [|apply H]. case_decide as Hm; cbn [agents];
    (destruct (decide (a = account)) as [->|Ha];
      [|rewrite ?lookup_delete_ne, ?lookup_insert_ne by congruence; apply H]).
  - by rewrite lookup_delete_eq.
  - rewrite lookup_insert_eq. congruence.
Qed.

Lemma registry_ok_clear account r : registry_ok r -> registry_ok (clear_agents account r).
Proof.
  intros H a. unfold clear_agents. cbn [agents]. destruct (decide (a = account)) as [->|Ha].
  - by rewrite lookup_delete_eq.
  - by rewrite lookup_delete_ne by congruence.
Qed.

(** The count of a registry is the size of the flat map. *)
Lemma total_count_flat r : total_agent_count r = size (flat r).
Proof.
  unfold total_agent_count, flat. induction (agents r) as [|a m R Ha IH] using map_ind; [done|].
  rewrite map_to_list_insert by done. cbn.
  rewrite IH. set (f := map_uncurry R).
  assert (E : map_uncurry (M1 := gmap Address) (M2 := gmap Address) (<[a := m]> R) =
              (kmap (M2 := gmap (Address * Address)) (pair a) m ∪ f)).
  { apply map_eq. intros [x g]. rewrite lookup_map_uncurry, lookup_union.
    assert (Hf : f !! (x, g) = R !! x ≫= lookup g) by (unfold f; by rewrite lookup_map_uncurry).
    destruct (decide (x = a)) as [->|Hx].
    - rewrite lookup_insert_eq, Hf, Ha, lookup_kmap by apply _. cbn. by destruct (m !! g).
    - rewrite lookup_insert_ne, Hf by congruence.
      rewrite (proj2 (lookup_kmap_None (pair a) m (x, g))); [by destruct (_ ≫= _)|].
      intros y [= -> _]; congruence. }
  rewrite E, map_size_disj_union.
  { by rewrite <- (length_map_to_list (kmap _ _)), map_to_list_kmap, length_fmap,
      length_map_to_list by apply _. }
  apply map_disjoint_spec. intros [x g] p1 p2 H1 H2.
  apply lookup_kmap_Some in H1 as (g' & [= -> ->] & _); [|apply _].
  unfold f in H2. rewrite lookup_map_uncurry, Ha in H2. done.
Qed.

End registry.

(** * Properties *)

Section properties.
Context {V : TxEnv} {G : SigEnv}.

(** One operation of the registry. *)
Inductive RegOp :=
| OpSet (account agent : Address) (permissions : Z)
| OpRemove (account agent : Address)
| OpClear (account : Address).

Definition reg_op (r : AgentRegistry) (o : RegOp) : AgentRegistry :=
  match o with
  | OpSet a g p => reg_set_agent a g p r
  | OpRemove a g => reg_remove_agent a g r
  | OpClear a => clear_agents a r
  end.
(** The same operation on a flat map. *)
Definition flat_op (f : gmap (Address * Address) Z) (o : RegOp) : gmap (Address * Address) Z :=
  match o with
  | OpSet a g p => <[(a, g) := p]> f
  | OpRemove a g => delete (a, g) f
  | OpClear a => filter (fun kv => kv.1.1 <> a) f
  end.

Lemma reg_op_flat r o : flat (reg_op r o) = flat_op (flat r) o.
Proof.
  apply flat_ext. intros x y. destruct o as [a g p|a g|a]; cbn [reg_op flat_op].
  - rewrite get_permissions_set. case_decide as H.
    + rewrite <- H. by rewrite lookup_insert_eq.
    + by rewrite lookup_insert_ne, flat_lookup by congruence.
  - rewrite get_permissions_remove. case_decide as H.
    + rewrite <- H. by rewrite lookup_delete_eq.
    + by rewrite lookup_delete_ne, flat_lookup by congruence.
  - rewrite get_permissions_clear. symmetry. case_decide as H.
    + apply map_lookup_filter_None. right. intros p _ Hn. by apply Hn.
    + rewrite <- flat_lookup. destruct (flat r !! (x, y)) as [p|] eqn:E.
      * by apply map_lookup_filter_Some.
      * apply map_lookup_filter_None. by left.
Qed.

Lemma reg_op_ok r o : registry_ok r -> registry_ok (reg_op r o).
Proof.
  destruct o; [apply registry_ok_set|apply registry_ok_remove|apply registry_ok_clear].
Qed.

Lemma registry_runs ops : forall r, registry_ok r ->
  registry_ok (foldl reg_op r ops) /\ flat (foldl reg_op r ops) = foldl flat_op (flat r) ops.
Proof.
  induction ops as [|o ops IH]; intros r H; [done|]. cbn.
  rewrite <- reg_op_flat. apply IH. by apply reg_op_ok.
Qed.

(** The nested registry implements a flat map from (account, agent) to
    permissions: after any sequence of sets, removals and clears from the
    empty registry every lookup answers as the flat map does, no account is
    kept without agents, and the total count is the number of entries. *)
Theorem registry_refines_flat ops :
  let r := foldl reg_op AgentRegistry_default ops in
  let f := foldl flat_op ∅ ops in
  (forall account agent, get_permissions r account agent = f !! (account, agent)) /\
  (forall account, agents r !! account <> Some ∅) /\
  total_agent_count r = size f.
Proof.
  cbn zeta. destruct (registry_runs ops AgentRegistry_default) as [H1 H2]; [done|].
  change (flat AgentRegistry_default) with (∅ : gmap (Address * Address) Z) in H2.
  rewrite <- H2. split_and!; [|exact H1|apply total_count_flat].
  intros a g. symmetry. apply flat_lookup.
Qed.

Lemma reg_authorized_bits r account agent permission :
  0 <= permission ->
  reg_is_authorized r account agent permission = true <->
  exists perms, get_permissions r account agent = Some perms /\
    forall i, 0 <= i -> Z.testbit permission i = true -> Z.testbit perms i = true.
Proof.
  intros Hp. unfold reg_is_authorized. split.
  - destruct (get_permissions r account agent) as [perms|]; [|done]. intros H%Z.eqb_eq.
    exists perms. split; [done|]. intros i Hi Hb. rewrite <- H, Z.land_spec in Hb.
    by apply andb_true_iff in Hb as [? _].
  - intros (perms & -> & H). apply Z.eqb_eq, Z.bits_inj'. intros i Hi. rewrite Z.land_spec.
    destruct (Z.testbit permission i) eqn:E; [|by rewrite andb_false_r].
    by rewrite (H i Hi E).
Qed.

Lemma recover_signer_case tx :
  recover_signer tx = Err InvalidSignature \/ exists a, recover_signer tx = Ok a.
Proof.
  unfold recover_signer, recover. destruct (recover_address_from_prehash _ _); [right; eauto|by left].
Qed.

(** C34: [verify_with_agent] accepts a transaction exactly when its signature
    recovers to the sender itself or to an agent of the sender whose bits
    include every bit of the permission asked for; it then answers the sender,
    and otherwise says whose signature it was. *)
Theorem verify_with_agent_exact a tx permission :
  0 <= permission ->
  match recover_signer tx with
  | Err e => verify_with_agent a tx permission = Err e
  | Ok signer =>
      let agent_ok := exists perms,
        get_permissions (as_agents a) (tx_from tx) signer = Some perms /\
        forall i, 0 <= i -> Z.testbit permission i = true -> Z.testbit perms i = true in
      (signer = tx_from tx \/ agent_ok ->
         verify_with_agent a tx permission = Ok (tx_from tx)) /\
      (signer <> tx_from tx -> ~ agent_ok ->
         verify_with_agent a tx permission = Err (AuthUnauthorized signer (tx_from tx)))
  end.
Proof.
  intros Hp. unfold verify_with_agent. destruct (recover_signer tx) as [signer|e]; [|done].
  cbn [result_bind]. rewrite <- reg_authorized_bits by done. split.
  - intros [->|H]; [by rewrite Z.eqb_refl|]. by rewrite H, orb_true_r.
  - intros H1 H2. apply Z.eqb_neq in H1. rewrite H1.
    destruct (reg_is_authorized _ _ _ _); [by destruct H2|done].
Qed.

(** C35: a nomination takes effect only when its signature recovers to the
    nominating account, and then changes the permissions of that account's
    agent and nothing else; a refused one changes nothing. The nonce of the
    nomination is not used up: once the agent has been removed, the same
    signature makes it an agent again. *)
Theorem nominate_agent_exact n signature domain a :
  let '(r, a') := nominate_agent n signature domain a in
  (forall account agent,
     agent_permissions a' account agent =
     if decide (is_ok r = true /\ (account, agent) = (an_account n, an_agent n))
     then Some (an_permissions n) else agent_permissions a account agent) /\
  (is_ok r = true <-> nomination_verify n signature domain = Ok (an_account n)) /\
  (is_ok r = true ->
     is_ok (fst (nominate_agent n signature domain
                   (auth_remove_agent (an_account n) (an_agent n) a'))) = true).
Proof.
  unfold nominate_agent.
  destruct (nomination_verify n signature domain) as [x|e]; cbn; [|split_and!; [|easy|easy]].
  - unfold st_guard. destruct (Z.eqb_spec x (an_account n)) as [->|Hx]; cbn.
    + split_and!; [|easy|easy]. intros account agent. unfold agent_permissions.
      cbn [auth_set_agent on_agents as_agents]. rewrite get_permissions_set.
      destruct (decide ((account, agent) = _)) as [E|E].
      * by rewrite decide_True.
      * rewrite decide_False; [done|]. by intros [_ ?].
    + split_and!; [|split; [easy|congruence]|easy]. intros. rewrite decide_False; [done|].
      by intros [? _].
  - intros. rewrite decide_False; [done|]. by intros [? _].
Qed.

(** Every non-zero parity byte stands for the same signature: two
    transactions that differ only there have the same signer, so a signed
    transaction has many valid encodings, each with its own hash. *)
Theorem parity_byte_malleable tx rs v w :
  length rs = 64%nat -> v <> 0 -> w <> 0 ->
  recover_signer (with_signature tx (rs ++ [v])) = recover_signer (with_signature tx (rs ++ [w])).
Proof.
  intros Hl Hv Hw.
  assert (E : forall z, z <> 0 -> recover_signer (with_signature tx (rs ++ [z])) =
    recover (from_bytes_and_parity rs true)
            (signing_hash (with_signature tx (rs ++ [z])))).
  { intros z Hz. unfold recover_signer, signature_bytes, with_signature, set_signature.
    cbn [tx_signature]. assert (Hs : sig_as_ref (sig_set (rs ++ [z]) (tx_signature tx)) = rs ++ [z])
      by by destruct (tx_signature tx).
    rewrite Hs, <- Hl, take_app_length, nth_middle. apply Z.eqb_neq in Hz. by rewrite Hz. }
  rewrite !E by done. f_equal. unfold signing_hash, with_signature, set_signature.
  by destruct (tx_signature tx).
Qed.

End properties.

(** * Witnesses *)

(** A recovery function in which the first byte of a signature names its signer. *)
#[export] Instance toy_sig : SigEnv := {|
  Signature := list Z * bool;
  from_bytes_and_parity l p := (l, p);
  recover_address_from_prehash s _ := head s.1;
|}.

(** A transfer from account 1 signed by [signer]. *)
Definition signed_by (signer nonce : Z) (p : TxPayload) : Transaction :=
  with_signature (new_raw nonce 1 p) (signer :: replicate 63 0 ++ [1]).

(** Account 1 lets agent 5 place and cancel orders. *)
Definition auth_demo : AuthService := auth_set_agent 1 5 3 AuthService_new.

Lemma verify_with_agent_exact_witness :
  verify_with_agent auth_demo (signed_by 5 0 (demo_transfer 1)) PLACE_ORDER = Ok 1.
Proof.
  pose proof (verify_with_agent_exact auth_demo (signed_by 5 0 (demo_transfer 1)) PLACE_ORDER
    ltac:(vm_compute; congruence)) as H.
  change (recover_signer (signed_by 5 0 (demo_transfer 1))) with (@Ok AuthError Address 5) in H.
  apply (proj1 H). right. exists 3. split; [vm_compute; reflexivity|].
  intros i Hi Hb. change PLACE_ORDER with (2 ^ 0) in Hb.
  rewrite Z.pow2_bits_eqb in Hb by lia. apply Z.eqb_eq in Hb. subst. reflexivity.
Defined.

Lemma parity_byte_malleable_witness :
  recover_signer (with_signature (new_raw 0 1 (demo_transfer 1)) (replicate 64 9 ++ [1])) =
  recover_signer (with_signature (new_raw 0 1 (demo_transfer 1)) (replicate 64 9 ++ [27])).
Proof.
  exact (parity_byte_malleable (new_raw 0 1 (demo_transfer 1)) (replicate 64 9) 1 27
    eq_refl ltac:(discriminate) ltac:(discriminate)).
Defined.
