(* ===== verification/Signer.v ===== *)
(** [TxSigner] (crates/auth/src/signer.rs): a private key wrapped for signing.
    The key itself, its address and its signatures are alloy's. *)
From stdpp Require Import base gmap sets list strings.
From Stdlib Require Import ZArith Lia.
From S2P Require Import Prelude Types Tx Auth.

(** [PrivateKeySigner]; [sig_bytes] gives the [r] and [s] of a signature and
    [sig_parity] its parity. *)
Class PrivateKey {G : SigEnv} := {
  PrivateKeySigner : Type;
  key_signer_address : PrivateKeySigner -> Address;
  sign_hash_sync : PrivateKeySigner -> B256 -> option Signature;
  sig_bytes : Signature -> list Z;
  sig_parity : Signature -> bool;
}.

(** Signing with a local key succeeds; what is recovered is the signer, also
    from the 65 bytes. *)
Class PrivateKeyOk {G : SigEnv} (P : PrivateKey) := {
  sign_recovers_signer : forall k h, exists s, sign_hash_sync k h = Some s /\
    recover_address_from_prehash s h = Some (key_signer_address k) /\
    length (sig_bytes s) = 64%nat /\ from_bytes_and_parity (sig_bytes s) (sig_parity s) = s;
}.

Section signer.
Context {V : TxEnv} {G : SigEnv} {P : PrivateKey}.

Record TxSigner := { ts_key : PrivateKeySigner }.

(** [key] is the one [PrivateKeySigner::random] drew. *)
Definition TxSigner_random (key : PrivateKeySigner) : TxSigner := {| ts_key := key |}.
Definition signer_address (s : TxSigner) : Address := key_signer_address (ts_key s).
Definition signer_of_key (key : PrivateKeySigner) : TxSigner := {| ts_key := key |}.
Definition key_of_signer (s : TxSigner) : PrivateKeySigner := ts_key s.
Definition signer_deref (s : TxSigner) : PrivateKeySigner := ts_key s.
Definition signer_deref_mut (f : PrivateKeySigner -> PrivateKeySigner) (s : TxSigner) : TxSigner :=
  {| ts_key := f (ts_key s) |}.
(** The name and the fields that [Debug] shows: never the key. *)
Definition signer_fmt (s : TxSigner) : string * list (string * Address) :=
  ("TxSigner", [("address", signer_address s)])%string.

(** The 65 bytes a transaction carries, as [recover_signer] reads them. *)
Definition signature_65 (s : Signature) : list Z := sig_bytes s ++ [if sig_parity s then 1 else 0].

Context {Pok : PrivateKeyOk P}.

(** A transaction signed by its sender is verified, and by another key refused
    with that key's address. *)
Theorem signed_transaction_verdict (s : TxSigner) tx sg :
  sign_hash_sync (signer_deref s) (signing_hash tx) = Some sg ->
  verify_transaction (with_signature tx (signature_65 sg)) =
  if signer_address s =? tx_from tx then Ok tt
  else Err (AuthUnauthorized (signer_address s) (tx_from tx)).
Proof.
  intros Hs. destruct (sign_recovers_signer (ts_key s) (signing_hash tx)) as (sg' & Hs' & Hr & Hl & Hb).
  unfold signer_deref in Hs. rewrite Hs in Hs'. injection Hs' as <-.
  assert (Hsig : signature_bytes (with_signature tx (signature_65 sg)) = signature_65 sg)
    by (unfold signature_bytes, with_signature, set_signature; cbn; by destruct (tx_signature tx)).
  assert (Hh : signing_hash (with_signature tx (signature_65 sg)) = signing_hash tx)
    by (unfold with_signature, set_signature, signing_hash, sig_set; cbn; by destruct (tx_signature tx)).
  assert (Hf : tx_from (with_signature tx (signature_65 sg)) = tx_from tx) by done.
  unfold verify_transaction, recover_signer. rewrite Hsig, Hh, Hf. unfold signature_65.
  rewrite <- Hl, take_app_length, nth_middle.
  replace (negb ((if sig_parity sg then 1 else 0) =? 0)) with (sig_parity sg) by (by destruct (sig_parity sg)).
  rewrite Hb. unfold recover. rewrite Hr. done.
Qed.

(** A nomination signed by the account itself makes the agent; any other key's
    signature changes nothing. *)
Theorem signed_nomination (s : TxSigner) n domain sg a :
  sign_hash_sync (signer_deref s) (eip712_hash n domain) = Some sg ->
  nominate_agent n sg domain a =
  if signer_address s =? an_account n
  then (Ok tt, auth_set_agent (an_account n) (an_agent n) (an_permissions n) a)
  else (Err (AuthUnauthorized (signer_address s) (an_account n)), a).
Proof.
  intros Hs. destruct (sign_recovers_signer (ts_key s) (eip712_hash n domain)) as (sg' & Hs' & Hr & _).
  unfold signer_deref in Hs. rewrite Hs in Hs'. injection Hs' as <-.
  unfold nominate_agent, nomination_verify, recover. rewrite Hr. unfold st_bind, st_lift, st_guard. cbn.
  change (key_signer_address (ts_key s)) with (signer_address s).
  by destruct (signer_address s =? an_account n).
Qed.
End signer.

(** ** Toy keys: their own address, written into the signature's first byte *)

#[export] Instance toy_private_key : PrivateKey (G := toy_sig) := {|
  PrivateKeySigner := Z;
  key_signer_address k := k;
  sign_hash_sync k _ := Some (k :: replicate 63 0, true);
  sig_bytes s := take 64 (s.1 ++ replicate 64 0);
  sig_parity s := s.2;
|}.
#[export] Instance toy_private_key_ok : PrivateKeyOk toy_private_key.
Proof. split. intros k h. by exists (k :: replicate 63 0, true). Qed.

Lemma signed_transaction_verdict_witness :
  verify_transaction (with_signature (new_raw 0 1 (demo_transfer 1)) (signature_65 (1 :: replicate 63 0, true))) = Ok tt.
Proof.
  exact (signed_transaction_verdict (signer_of_key (P := toy_private_key) 1) (new_raw 0 1 (demo_transfer 1))
    (1 :: replicate 63 0, true) eq_refl).
Defined.
