(* ===== verification/Mempool.v ===== *)
(** [pranklin-mempool] (crates/mempool/src): the configuration, the index of
    pending transactions by hash and by sender and nonce, and the pool with
    its capacity, duplicate and per-sender limits.  Counts ([usize]) are [nat]. *)
From stdpp Require Import base gmap sets list sorting strings.
From Stdlib Require Import ZArith Lia.
From S2P Require Import Prelude Float64 Types Storage State Tx Auth.

(** * Configuration (config.rs) *)

Record MempoolConfig := {
  max_size : nat;
  max_txs_per_sender : nat;
  strict_nonce_ordering : bool;
}.
Definition MempoolConfig_new (size per_sender : nat) : MempoolConfig :=
  {| max_size := size; max_txs_per_sender := per_sender; strict_nonce_ordering := true |}.
Definition with_relaxed_nonce_ordering (c : MempoolConfig) : MempoolConfig :=
  {| max_size := max_size c; max_txs_per_sender := max_txs_per_sender c;
     strict_nonce_ordering := false |}.
Definition MempoolConfig_default : MempoolConfig := MempoolConfig_new (Z.to_nat 10000) 100.
(** The conversions from tuples. *)
Definition config_of_pair (p : nat * nat) : MempoolConfig := MempoolConfig_new p.1 p.2.
Definition config_of_triple (t : nat * nat * bool) : MempoolConfig :=
  let '(size, per_sender, strict) := t in
  {| max_size := size; max_txs_per_sender := per_sender; strict_nonce_ordering := strict |}.

Inductive ConfigError := MaxSizeZero | PerSenderZero | PerSenderExceedsMax.
Definition config_validate (c : MempoolConfig) : result ConfigError unit :=
  if (max_size c =? 0)%nat then Err MaxSizeZero
  else if (max_txs_per_sender c =? 0)%nat then Err PerSenderZero
  else if (max_size c <? max_txs_per_sender c)%nat then Err PerSenderExceedsMax
  else Ok tt.

(** * Errors (error.rs) *)

Inductive MempoolError :=
| MempoolFull (capacity : nat)
| DuplicateTransaction (hash : B256)
| TransactionNotFound (hash : B256)
| MpInvalidNonce (sender : Address) (nonce expected : Z)
| MpNonceGap (sender : Address) (nonce expected : Z)
| RateLimitExceeded (sender : Address) (current max : nat)
| InvalidConfig
| ValidationFailed
| MpOther.
#[export] Instance MempoolError_eq_dec : EqDecision MempoolError.
Proof. solve_decision. Defined.

Definition is_retryable (e : MempoolError) : bool :=
  match e with MempoolFull _ => true | _ => false end.
Definition is_rate_limited (e : MempoolError) : bool :=
  match e with RateLimitExceeded _ _ _ => true | _ => false end.
Definition is_nonce_error (e : MempoolError) : bool :=
  match e with MpInvalidNonce _ _ _ | MpNonceGap _ _ _ => true | _ => false end.
Definition error_as_ref (e : MempoolError) : string :=
  match e with
  | MempoolFull _ => "mempool full"
  | DuplicateTransaction _ => "duplicate transaction"
  | TransactionNotFound _ => "transaction not found"
  | MpInvalidNonce _ _ _ => "invalid nonce"
  | MpNonceGap _ _ _ => "nonce gap"
  | RateLimitExceeded _ _ _ => "rate limit exceeded"
  | InvalidConfig => "invalid config"
  | ValidationFailed => "validation failed"
  | MpOther => "other error"
  end.
(** The conversions from texts. *)
Definition mp_error_of_str (_ : string) : MempoolError := MpOther.
Definition mp_error_of_string (_ : string) : MempoolError := MpOther.

(** * The index (transaction_index.rs) *)

Record TransactionIndex := {
  txs : gmap B256 Transaction;
  by_sender : gmap Address (gmap Z B256);
}.
Definition TransactionIndex_new : TransactionIndex := {| txs := ∅; by_sender := ∅ |}.

Section index.
Context {V : TxEnv} {O : HashOrder}.

Definition idx_insert (tx : Transaction) (i : TransactionIndex) : B256 * TransactionIndex :=
  let hash := tx_hash tx in
  (hash,
   {| txs := <[hash := tx]> (txs i);
      by_sender := <[tx_from tx :=
        <[tx_nonce tx := hash]> (default ∅ (by_sender i !! tx_from tx))]> (by_sender i) |}).

Definition idx_remove (hash : B256) (i : TransactionIndex) : option Transaction * TransactionIndex :=
  match txs i !! hash with
  | None => (None, i)
  | Some tx =>
      let senders := match by_sender i !! tx_from tx with
        | Some nonces =>
            let nonces := delete (tx_nonce tx) nonces in
            if decide (nonces = ∅) then delete (tx_from tx) (by_sender i)
            else <[tx_from tx := nonces]> (by_sender i)
        | None => by_sender i
        end in
      (Some tx, {| txs := delete hash (txs i); by_sender := senders |})
  end.

Definition idx_get (i : TransactionIndex) (hash : B256) : option Transaction := txs i !! hash.
Definition sender_count (i : TransactionIndex) : nat := size (by_sender i).
Definition idx_contains (i : TransactionIndex) (hash : B256) : bool :=
  bool_decide (is_Some (txs i !! hash)).

(** The transactions a sender's nonces point to, in nonce order. *)
Definition get_by_sender (i : TransactionIndex) (sender : Address) : list Transaction :=
  match by_sender i !! sender with
  | Some nonces => omap (fun n => hash ← nonces !! n; txs i !! hash) (btree_keys nonces)
  | None => []
  end.

Definition sender_tx_count (i : TransactionIndex) (sender : Address) : nat :=
  match by_sender i !! sender with Some nonces => size nonces | None => 0%nat end.
Definition get_highest_nonce (i : TransactionIndex) (sender : Address) : option Z :=
  nonces ← by_sender i !! sender; last (btree_keys nonces).
Definition get_lowest_nonce (i : TransactionIndex) (sender : Address) : option Z :=
  nonces ← by_sender i !! sender; head (btree_keys nonces).
Definition idx_has_nonce (i : TransactionIndex) (sender : Address) (nonce : Z) : bool :=
  match by_sender i !! sender with
  | Some nonces => bool_decide (is_Some (nonces !! nonce))
  | None => false
  end.

(** One step of the removal loop: the nonces left, the transactions left, what
    was removed. *)
Definition remove_nonce (acc : gmap Z B256 * gmap B256 Transaction * list (B256 * Transaction))
    (n : Z) : gmap Z B256 * gmap B256 Transaction * list (B256 * Transaction) :=
  let '(nonces, pool, removed) := acc in
  match nonces !! n with
  | None => acc
  | Some hash =>
      match pool !! hash with
      | None => (delete n nonces, pool, removed)
      | Some tx => (delete n nonces, delete hash pool, removed ++ [(hash, tx)])
      end
  end.

Definition remove_up_to_nonce (sender : Address) (nonce : Z) (i : TransactionIndex)
    : list (B256 * Transaction) * TransactionIndex :=
  match by_sender i !! sender with
  | None => ([], i)
  | Some nonces =>
      let to_remove := filter (fun n => n <= nonce) (btree_keys nonces) in
      let '(nonces, pool, removed) := foldl remove_nonce (nonces, txs i, []) to_remove in
      (removed,
       {| txs := pool;
          by_sender := if decide (nonces = ∅) then delete sender (by_sender i)
                       else <[sender := nonces]> (by_sender i) |})
  end.

Definition get_all_senders (i : TransactionIndex) : list Address :=
  hash_order ((map_to_list (by_sender i)).*1).
Definition idx_len (i : TransactionIndex) : nat := size (txs i).
Definition idx_is_empty (i : TransactionIndex) : bool := (idx_len i =? 0)%nat.
Definition idx_clear (_ : TransactionIndex) : TransactionIndex := TransactionIndex_new.
(** The entries a borrow of the index iterates over. *)
Definition idx_into_iter (i : TransactionIndex) : list (B256 * Transaction) :=
  hash_order (map_to_list (txs i)).
Definition idx_senders_iter (i : TransactionIndex) : list Address :=
  hash_order ((map_to_list (by_sender i)).*1).
(** The hashes of the sender's map in key order, then those that are in the pool. *)
Definition idx_sender_txs_iter (i : TransactionIndex) (sender : Address) : list Transaction :=
  let hashes := flat_map (fun nonces : gmap Z B256 => omap (fun n => nonces !! n) (btree_keys nonces))
    (option_list (by_sender i !! sender)) in
  omap (fun hash => txs i !! hash) hashes.
(** [index[&hash]]; [None] is the panic. *)
Definition idx_index (i : TransactionIndex) (hash : B256) : option Transaction := idx_get i hash.

(** * The pool (lib.rs) *)

Record Mempool := { mp_index : TransactionIndex; mp_config : MempoolConfig }.
Notation PoolM A := (ST Mempool MempoolError A).

Definition Mempool_new (c : MempoolConfig) : Mempool :=
  {| mp_index := TransactionIndex_new; mp_config := c |}.
Definition with_limits (size per_sender : nat) : Mempool :=
  Mempool_new (config_of_pair (size, per_sender)).
Definition mempool_of_config (c : MempoolConfig) : Mempool := Mempool_new c.
Definition Mempool_default : Mempool := Mempool_new MempoolConfig_default.
Definition with_index (i : TransactionIndex) (p : Mempool) : Mempool :=
  {| mp_index := i; mp_config := mp_config p |}.

Definition mp_len (p : Mempool) : nat := idx_len (mp_index p).
Definition is_full (p : Mempool) : bool := (max_size (mp_config p) <=? mp_len p)%nat.
Definition available_capacity (p : Mempool) : nat := (max_size (mp_config p) - mp_len p)%nat.

Record MempoolStats := {
  ms_total_txs : nat;
  ms_unique_senders : nat;
  ms_capacity : nat;
  ms_available : nat;
  ms_utilization_pct : Z;
}.
(** The percentage is truncated. *)
Definition utilization_pct (len capacity : nat) : Z :=
  f64_as_u8 (f64_mul (f64_div (f64_of_int (Z.of_nat len)) (f64_of_int (Z.of_nat capacity))) (f64_of_int 100)).
Definition stats (p : Mempool) : MempoolStats := {|
  ms_total_txs := mp_len p; ms_unique_senders := sender_count (mp_index p);
  ms_capacity := max_size (mp_config p); ms_available := available_capacity p;
  ms_utilization_pct := utilization_pct (mp_len p) (max_size (mp_config p)) |}.

Definition validate_capacity (p : Mempool) : result MempoolError unit :=
  if is_full p then Err (MempoolFull (max_size (mp_config p))) else Ok tt.
Definition validate_not_duplicate (hash : B256) (p : Mempool) : result MempoolError unit :=
  if idx_contains (mp_index p) hash then Err (DuplicateTransaction hash) else Ok tt.
Definition validate_sender_rate_limit (sender : Address) (p : Mempool) : result MempoolError unit :=
  let count := sender_tx_count (mp_index p) sender in
  if (max_txs_per_sender (mp_config p) <=? count)%nat
  then Err (RateLimitExceeded sender count (max_txs_per_sender (mp_config p))) else Ok tt.

Definition mp_add (tx : Transaction) : PoolM B256 :=
  st_read validate_capacity ;;
  let hash := tx_hash tx in
  st_read (validate_not_duplicate hash) ;;
  st_read (validate_sender_rate_limit (tx_from tx)) ;;
  st_modify (fun p => with_index (snd (idx_insert tx (mp_index p))) p) ;;
  st_ret hash.

Definition mp_remove (hash : B256) (p : Mempool) : option Transaction * Mempool :=
  let '(tx, i) := idx_remove hash (mp_index p) in (tx, with_index i p).
Definition mp_get (p : Mempool) := idx_get (mp_index p).
Definition mp_contains (p : Mempool) := idx_contains (mp_index p).
Definition get_sender_txs (p : Mempool) := get_by_sender (mp_index p).
Definition mp_sender_tx_count (p : Mempool) := sender_tx_count (mp_index p).
Definition senders (p : Mempool) : list Address := get_all_senders (mp_index p).
Definition senders_iter (p : Mempool) : list Address := idx_senders_iter (mp_index p).
Definition sender_txs_iter (p : Mempool) := idx_sender_txs_iter (mp_index p).
Definition mp_iter (p : Mempool) : list (B256 * Transaction) := idx_into_iter (mp_index p).
Definition mp_into_iter (p : Mempool) : list (B256 * Transaction) := idx_into_iter (mp_index p).
Definition mp_index_hash (p : Mempool) (hash : B256) : option Transaction := mp_get p hash.

(** [Deref], [DerefMut], [AsRef], [AsMut] and [Borrow] lend the index itself; what
    a borrower changes goes back into the pool, past the limits. *)
Definition mp_deref (p : Mempool) : TransactionIndex := mp_index p.
Definition mp_deref_mut {A} (f : TransactionIndex -> A * TransactionIndex) (p : Mempool) : A * Mempool :=
  let '(a, i) := f (mp_index p) in (a, with_index i p).
Definition mp_as_ref (p : Mempool) : TransactionIndex := mp_index p.
Definition mp_as_mut {A} (f : TransactionIndex -> A * TransactionIndex) (p : Mempool) : A * Mempool :=
  let '(a, i) := f (mp_index p) in (a, with_index i p).
Definition mp_borrow (p : Mempool) : TransactionIndex := mp_index p.

Definition ready_txs (p : Mempool) (limit : nat) : list Transaction :=
  take limit (flat_map (get_by_sender (mp_index p)) (get_all_senders (mp_index p))).

Definition prune_sender_nonces (sender : Address) (up_to_nonce : Z) (p : Mempool)
    : list B256 * Mempool :=
  let '(removed, i) := remove_up_to_nonce sender up_to_nonce (mp_index p) in
  (removed.*1, with_index i p).

Definition mp_is_empty (p : Mempool) : bool := idx_is_empty (mp_index p).
Definition mp_clear (p : Mempool) : Mempool := with_index (idx_clear (mp_index p)) p.
Definition next_nonce (p : Mempool) (sender : Address) : option Z :=
  (fun n => wadd64 n 1) <$> get_highest_nonce (mp_index p) sender.
Definition next_nonce_or_default (p : Mempool) (sender : Address) : Z :=
  default 0 (next_nonce p sender).
Definition has_nonce (p : Mempool) := idx_has_nonce (mp_index p).
Definition highest_nonce (p : Mempool) := get_highest_nonce (mp_index p).

Fixpoint add_batch (batch : list Transaction) (p : Mempool)
    : list (result MempoolError B256) * Mempool :=
  match batch with
  | [] => ([], p)
  | tx :: rest =>
      let '(r, p) := mp_add tx p in
      let '(rs, p) := add_batch rest p in
      (r :: rs, p)
  end.

(** The borrowed and the owned view of a sender's transactions agree. *)
Lemma sender_txs_iter_eq i sender : idx_sender_txs_iter i sender = get_by_sender i sender.
Proof.
  unfold idx_sender_txs_iter, get_by_sender. destruct (by_sender i !! sender) as [nonces|]; [|done].
  cbn. rewrite app_nil_r. induction (btree_keys nonces) as [|n l IH]; [done|].
  cbn. destruct (nonces !! n) as [hash|]; cbn; [|done]. by rewrite IH.
Qed.

End index.

(** * What the index promises *)

Section contract.
Context {V : TxEnv} {O : HashOrder} {Ook : HashOrderOk O}.
Implicit Types (i : TransactionIndex) (p : Mempool) (tx : Transaction).

(** The hash the index holds for a sender and nonce. *)
Definition entry i (a : Address) (n : Z) : option B256 := by_sender i !! a ≫= lookup n.

(** Transactions are filed under their hash, no sender is kept without nonces,
    and every entry points to a transaction of that sender and nonce. *)
Record index_ok i : Prop := {
  iok_hash : forall h tx, txs i !! h = Some tx -> h = tx_hash tx;
  iok_nonempty : forall a, by_sender i !! a <> Some ∅;
  iok_entry : forall a n h, entry i a n = Some h ->
    exists tx, txs i !! h = Some tx /\ tx_from tx = a /\ tx_nonce tx = n;
}.

Lemma index_ok_new : index_ok TransactionIndex_new.
Proof. split; unfold entry; cbn; intros *; rewrite ?lookup_empty; done. Qed.

(** ** Entries after each operation *)

Lemma entry_insert tx i a n :
  entry (snd (idx_insert tx i)) a n =
  if decide ((a, n) = (tx_from tx, tx_nonce tx)) then Some (tx_hash tx) else entry i a n.
Proof.
  unfold entry, idx_insert. cbn [snd by_sender]. destruct (decide (a = tx_from tx)) as [->|Ha].
  - rewrite lookup_insert_eq. cbn. destruct (decide (n = tx_nonce tx)) as [->|Hn].
    + by rewrite lookup_insert_eq, decide_True.
    + rewrite lookup_insert_ne, decide_False by congruence.
      by destruct (by_sender i !! tx_from tx); rewrite ?lookup_empty.
  - by rewrite lookup_insert_ne, decide_False by congruence.
Qed.

(** Writing back a sender's nonces, dropping an empty map. *)
Lemma entry_put (nonces : gmap Z B256) (senders : gmap Address (gmap Z B256)) a b n :
  (if decide (nonces = ∅) then delete a senders else <[a := nonces]> senders) !! b ≫= lookup n =
  if decide (b = a) then nonces !! n else senders !! b ≫= lookup n.
Proof.
  case_decide as E; case_decide as Hb; subst.
  - by rewrite lookup_delete_eq, lookup_empty.
  - by rewrite lookup_delete_ne by congruence.
  - by rewrite lookup_insert_eq.
  - by rewrite lookup_insert_ne by congruence.
Qed.

Lemma nonempty_put (nonces : gmap Z B256) (senders : gmap Address (gmap Z B256)) a :
  (forall b, senders !! b <> Some ∅) ->
  forall b, (if decide (nonces = ∅) then delete a senders else <[a := nonces]> senders) !! b
    <> Some ∅.
Proof.
  intros H b. case_decide as E; destruct (decide (b = a)) as [->|Hb].
  - by rewrite lookup_delete_eq.
  - rewrite lookup_delete_ne by congruence. apply H.
  - rewrite lookup_insert_eq. congruence.
  - rewrite lookup_insert_ne by congruence. apply H.
Qed.

Lemma entry_remove h tx i a n :
  txs i !! h = Some tx ->
  entry (snd (idx_remove h i)) a n =
  if decide ((a, n) = (tx_from tx, tx_nonce tx)) then None else entry i a n.
Proof.
  intros Hh. unfold entry, idx_remove. rewrite Hh. cbn [snd by_sender].
  destruct (by_sender i !! tx_from tx) as [nonces|] eqn:E.
  - rewrite entry_put. destruct (decide (a = tx_from tx)) as [->|Ha].
    + rewrite E. cbn. destruct (decide (n = tx_nonce tx)) as [->|Hn].
      * by rewrite lookup_delete_eq, decide_True.
      * by rewrite lookup_delete_ne, decide_False by congruence.
    + by rewrite decide_False by congruence.
  - case_decide as Hd; [|done]. injection Hd as -> _. by rewrite E.
Qed.

Lemma idx_remove_None h i : txs i !! h = None -> idx_remove h i = (None, i).
Proof. intros H. unfold idx_remove. by rewrite H. Qed.

Lemma txs_remove h i : txs (snd (idx_remove h i)) = delete h (txs i).
Proof.
  unfold idx_remove. destruct (txs i !! h) eqn:E; [done|]. cbn. by rewrite delete_id.
Qed.

(** ** Preservation *)

Lemma index_ok_insert tx i :
  index_ok i -> txs i !! tx_hash tx = None -> index_ok (snd (idx_insert tx i)).
Proof.
  intros [H1 H2 H3] Hf. split.
  - intros h t. cbn. intros [[<- <-]|[_ H]]%lookup_insert_Some; [done|by apply H1].
  - intros a. cbn. destruct (decide (a = tx_from tx)) as [->|Ha].
    + rewrite lookup_insert_eq. intros [= E]. by apply insert_non_empty in E.
    + rewrite lookup_insert_ne by congruence. apply H2.
  - intros a n h. rewrite entry_insert. cbn [idx_insert snd txs]. case_decide as E.
    + injection E as -> ->. intros [= <-]. exists tx. by rewrite lookup_insert_eq.
    + intros (t & Ht & Ha & Hn)%H3. exists t. split; [|done].
      rewrite lookup_insert_ne; [done|]. congruence.
Qed.

Lemma index_ok_remove h i : index_ok i -> index_ok (snd (idx_remove h i)).
Proof.
  intros H. destruct (txs i !! h) as [tx|] eqn:E; [|by rewrite idx_remove_None].
  destruct H as [H1 H2 H3]. split.
  - intros h' t. rewrite txs_remove. intros [_ ?]%lookup_delete_Some. by apply H1.
  - unfold idx_remove. rewrite E. cbn [snd by_sender].
    destruct (by_sender i !! tx_from tx); [by apply nonempty_put|done].
  - intros a n h'. rewrite (entry_remove h tx) by done. case_decide as Hd; [done|].
    intros (t & Ht & Ha & Hn)%H3. exists t. split; [|done]. rewrite txs_remove.
    rewrite lookup_delete_ne; [done|]. intros <-. congruence.
Qed.

(** ** The removal loop *)

Definition removed_at (nonces : gmap Z B256) (pool : gmap B256 Transaction) (n : Z)
    : option (B256 * Transaction) :=
  h ← nonces !! n; tx ← pool !! h; Some (h, tx).

Lemma remove_nonces_run l : forall nonces pool acc,
  NoDup l ->
  (forall n, n ∈ l -> exists h tx, nonces !! n = Some h /\ pool !! h = Some tx /\ tx_nonce tx = n) ->
  exists nonces' pool',
    foldl remove_nonce (nonces, pool, acc) l =
      (nonces', pool', acc ++ omap (removed_at nonces pool) l) /\
    (forall n, nonces' !! n = if decide (n ∈ l) then None else nonces !! n) /\
    (forall h, pool' !! h =
       if decide (h ∈ (omap (removed_at nonces pool) l).*1) then None else pool !! h).
Proof.
  induction l as [|n l IH]; intros nonces pool acc Hnd Hl.
  - exists nonces, pool. cbn. rewrite app_nil_r. done.
  - apply NoDup_cons in Hnd as [Hn Hnd]. destruct (Hl n) as (h & tx & Eh & Et & En); [left|].
    assert (Hother : forall k h', k ∈ l -> nonces !! k = Some h' -> h' <> h).
    { intros k h' Hk E' ->. destruct (Hl k) as (h2 & t2 & E2 & T2 & N2); [by right|].
      assert (k = n) as -> by congruence. by destruct Hn. }
    assert (Hsame : omap (removed_at (delete n nonces) (delete h pool)) l =
                    omap (removed_at nonces pool) l).
    { clear -Hn Hother. induction l as [|k l IH]; [done|]. cbn.
      assert (E : removed_at (delete n nonces) (delete h pool) k = removed_at nonces pool k).
      { unfold removed_at. rewrite lookup_delete_ne by set_solver.
        destruct (nonces !! k) as [h'|] eqn:E; [|done]. cbn.
        assert (h' <> h) by (by eapply (Hother k h'); [left|]).
        by rewrite lookup_delete_ne by congruence. }
      rewrite E, IH; [done|set_solver|]. intros k' h' ?. apply Hother. by right. }
    destruct (IH (delete n nonces) (delete h pool) (acc ++ [(h, tx)])) as (N & P & R & E1 & E2);
      [done| |].
    { intros k Hk. destruct (Hl k) as (h' & t' & A1 & A2 & A3); [by right|]. exists h', t'.
      rewrite (lookup_delete_ne nonces) by (by intros <-).
      rewrite (lookup_delete_ne pool); [done|]. intros ->. by eapply (Hother k h'). }
    exists N, P. cbn [foldl remove_nonce]. rewrite Eh, Et. rewrite Hsame in R, E2.
    assert (Ecut : omap (removed_at nonces pool) (n :: l) =
                   (h, tx) :: omap (removed_at nonces pool) l).
    { cbn. unfold removed_at at 1. rewrite Eh. cbn. by rewrite Et. }
    rewrite Ecut. split_and!.
    + rewrite R, <- app_assoc. done.
    + intros k. rewrite E1. destruct (decide (k ∈ l)); [rewrite decide_True; [done|by right]|].
      destruct (decide (k = n)) as [->|Hk]; [rewrite lookup_delete_eq, decide_True; [done|left]|].
      rewrite lookup_delete_ne by congruence. rewrite decide_False; [done|]. set_solver.
    + intros k. rewrite E2. rewrite fmap_cons. cbn [fst].
      destruct (decide (k ∈ _)) as [Hk|Hk]; [rewrite decide_True; [done|by right]|].
      destruct (decide (k = h)) as [->|Hkh]; [rewrite lookup_delete_eq, decide_True; [done|left]|].
      rewrite lookup_delete_ne by congruence. rewrite decide_False; [done|].
      by intros [?|?]%elem_of_cons.
Qed.

Lemma entry_nonces i a nonces : by_sender i !! a = Some nonces -> forall n, entry i a n = nonces !! n.
Proof. intros H n. unfold entry. by rewrite H. Qed.

Lemma entry_none i a : by_sender i !! a = None -> forall n, entry i a n = None.
Proof. intros H n. unfold entry. by rewrite H. Qed.

(** What [remove_up_to_nonce] takes out and leaves. *)
Lemma remove_up_to_spec a n i :
  index_ok i ->
  let '(removed, i') := remove_up_to_nonce a n i in
  (forall h tx, (h, tx) ∈ removed <->
     txs i !! h = Some tx /\ exists k, k <= n /\ entry i a k = Some h) /\
  (forall b k, entry i' b k = if decide (b = a /\ k <= n) then None else entry i b k) /\
  (forall h, txs i' !! h = if decide (h ∈ removed.*1) then None else txs i !! h) /\
  (forall b, by_sender i' !! b <> Some ∅).
Proof.
  intros Hi. unfold remove_up_to_nonce. destruct (by_sender i !! a) as [nonces|] eqn:Ea.
  2:{ split_and!; [| |done|apply Hi].
      - intros h tx. split; [set_solver|]. intros (_ & k & _ & E). by rewrite entry_none in E.
      - intros b k. case_decide as Hd; [|done]. destruct Hd as [-> _]. by apply entry_none. }
  pose proof (entry_nonces i a nonces Ea) as He.
  assert (Hk : forall k, k ∈ filter (fun k => k <= n) (btree_keys nonces) <->
                         k <= n /\ is_Some (nonces !! k)).
  { intros k. by rewrite list_elem_of_filter, btree_keys_elem. }
  destruct (remove_nonces_run (filter (fun k => k <= n) (btree_keys nonces)) nonces (txs i) [])
    as (N & P & R & E1 & E2).
  - apply NoDup_filter, btree_keys_NoDup.
  - intros k [_ [h Hh]]%Hk. rewrite <- He in Hh. destruct (iok_entry i Hi a k h Hh) as (tx & ? & _ & ?).
    exists h, tx. by rewrite <- He.
  - rewrite R. cbn [app txs]. split_and!.
    + intros h tx. rewrite list_elem_of_omap. unfold removed_at. split.
      * intros (k & [Hkn _]%Hk & E). destruct (nonces !! k) as [h'|] eqn:Eh; [|done]. cbn in E.
        destruct (txs i !! h') eqn:Et; [|done]. cbn in E. injection E as -> ->.
        split; [done|]. exists k. by rewrite He.
      * intros (Ht & k & Hkn & E). exists k. rewrite He in E. split; [apply Hk; eauto|].
        rewrite E. cbn. by rewrite Ht.
    + intros b k. unfold entry. cbn [by_sender]. rewrite entry_put.
      destruct (decide (b = a)) as [->|Hb]; [|by rewrite decide_False by (by intros [? _])].
      rewrite E1, Ea. cbn. destruct (decide (k <= n)) as [Hkn|Hkn].
      * rewrite (decide_True (P := a = a /\ k <= n)) by done. case_decide as Hm; [done|].
        destruct (nonces !! k) eqn:E; [|done]. destruct Hm. apply Hk. eauto.
      * rewrite decide_False by (by intros [? _]%Hk). by rewrite decide_False by (by intros [_ ?]).
    + exact E2.
    + apply nonempty_put. apply Hi.
Qed.

Lemma index_ok_remove_up_to a n i : index_ok i -> index_ok (snd (remove_up_to_nonce a n i)).
Proof.
  intros Hi. pose proof (remove_up_to_spec a n i Hi) as H.
  destruct (remove_up_to_nonce a n i) as [removed i']. destruct H as (Hr & He & Ht & Hn). cbn [snd].
  split; [|done|].
  - intros h tx. rewrite Ht. case_decide; [done|]. apply Hi.
  - intros b k h. rewrite He. case_decide as Hd; [done|]. intros E.
    destruct (iok_entry i Hi b k h E) as (tx & Hh & Hb & Hkn). exists tx. split; [|done].
    rewrite Ht, decide_False; [done|]. intros ([h' t] & Eh & Hin)%list_elem_of_fmap. cbn in Eh. subst h'.
    apply Hr in Hin as (Hh2 & k2 & Hk2 & E2).
    destruct (iok_entry i Hi a k2 h E2) as (t2 & Hh3 & Ha2 & Hn2).
    apply Hd. split; congruence.
Qed.

(** ** Counts *)

Lemma size_remove_up_to a n i : index_ok i -> (idx_len (snd (remove_up_to_nonce a n i)) <= idx_len i)%nat.
Proof.
  intros Hi. pose proof (remove_up_to_spec a n i Hi) as H.
  destruct (remove_up_to_nonce a n i) as [removed i']. destruct H as (_ & _ & Ht & _).
  unfold idx_len. cbn [snd]. apply map_subseteq_size. apply map_subseteq_spec. intros h tx.
  rewrite Ht. by case_decide.
Qed.

(** Fewer entries, lower counts. *)
Lemma sender_count_mono i i' a :
  (forall n h, entry i' a n = Some h -> entry i a n = Some h) ->
  (sender_tx_count i' a <= sender_tx_count i a)%nat.
Proof.
  unfold sender_tx_count, entry. intros H.
  destruct (by_sender i' !! a) as [m'|]; [|lia]. cbn in H.
  destruct (by_sender i !! a) as [m|]; cbn in H.
  - apply map_subseteq_size. apply map_subseteq_spec. exact H.
  - assert (m' = ∅) as ->; [|done]. apply map_eq. intros n. rewrite lookup_empty.
    destruct (m' !! n) eqn:E; [|done]. by apply H in E.
Qed.

Lemma sender_count_insert tx i a :
  sender_tx_count (snd (idx_insert tx i)) a =
  if decide (a = tx_from tx) then
    match entry i a (tx_nonce tx) with Some _ => sender_tx_count i a | None => S (sender_tx_count i a) end
  else sender_tx_count i a.
Proof.
  unfold sender_tx_count, entry, idx_insert. cbn [snd by_sender].
  case_decide as Ha; [subst|by rewrite lookup_insert_ne by congruence].
  rewrite lookup_insert_eq. destruct (by_sender i !! tx_from tx) as [m|]; cbn.
  - rewrite map_size_insert. by destruct (m !! tx_nonce tx).
  - by rewrite map_size_insert, lookup_empty.
Qed.

Lemma entry_remove_sub h i a n h' :
  entry (snd (idx_remove h i)) a n = Some h' -> entry i a n = Some h'.
Proof.
  destruct (txs i !! h) as [tx|] eqn:E; [|by rewrite idx_remove_None].
  rewrite (entry_remove h tx) by done. by case_decide.
Qed.

End contract.

(** * Properties *)

Section properties.
Context {V : TxEnv} {O : HashOrder}.
Implicit Types (i : TransactionIndex) (p : Mempool) (tx : Transaction).

(** The pool changes by these calls. *)
Inductive pool_step : Mempool -> Mempool -> Prop :=
| step_add tx p : pool_step p (snd (mp_add tx p))
| step_remove h p : pool_step p (snd (mp_remove h p))
| step_prune a n p : pool_step p (snd (prune_sender_nonces a n p))
| step_clear p : pool_step p (mp_clear p).

Definition pool_ok p : Prop :=
  index_ok (mp_index p) /\
  (mp_len p <= max_size (mp_config p))%nat /\
  (forall a, (sender_tx_count (mp_index p) a <= max_txs_per_sender (mp_config p))%nat).

Lemma pool_ok_new c : pool_ok (Mempool_new c).
Proof.
  split_and!; [apply index_ok_new| |]; cbn [mp_index mp_config Mempool_new].
  - unfold mp_len, idx_len. cbn [mp_index Mempool_new TransactionIndex_new txs].
    rewrite map_size_empty. lia.
  - intros a. unfold sender_tx_count. cbn [by_sender TransactionIndex_new].
    rewrite lookup_empty. lia.
Qed.

(** The four outcomes of [add]. *)
Lemma mp_add_cases tx p :
  let i := mp_index p in
  (is_full p = true /\ mp_add tx p = (Err (MempoolFull (max_size (mp_config p))), p)) \/
  (is_full p = false /\ is_Some (txs i !! tx_hash tx) /\
     mp_add tx p = (Err (DuplicateTransaction (tx_hash tx)), p)) \/
  (is_full p = false /\ txs i !! tx_hash tx = None /\
     (max_txs_per_sender (mp_config p) <= sender_tx_count i (tx_from tx))%nat /\
     mp_add tx p = (Err (RateLimitExceeded (tx_from tx) (sender_tx_count i (tx_from tx))
                           (max_txs_per_sender (mp_config p))), p)) \/
  (is_full p = false /\ txs i !! tx_hash tx = None /\
     (sender_tx_count i (tx_from tx) < max_txs_per_sender (mp_config p))%nat /\
     mp_add tx p = (Ok (tx_hash tx), with_index (snd (idx_insert tx i)) p)).
Proof.
  cbn zeta. unfold mp_add. destruct (is_full p) eqn:Ef.
  { left. split; [done|]. erewrite st_bind_err; [done|]. unfold st_read, validate_capacity. by rewrite Ef. }
  erewrite st_read_bind by (unfold validate_capacity; by rewrite Ef).
  destruct (txs (mp_index p) !! tx_hash tx) as [t|] eqn:Et.
  { right; left. split_and!; [done|eauto|]. erewrite st_bind_err; [done|].
    unfold st_read, validate_not_duplicate, idx_contains. by rewrite Et. }
  erewrite st_read_bind by (unfold validate_not_duplicate, idx_contains; by rewrite Et).
  destruct (Nat.leb_spec (max_txs_per_sender (mp_config p))
              (sender_tx_count (mp_index p) (tx_from tx))) as [Hl|Hl].
  { right; right; left. split_and!; [done|done|done|]. erewrite st_bind_err; [done|].
    unfold st_read, validate_sender_rate_limit. apply Nat.leb_le in Hl. by rewrite Hl. }
  right; right; right. split_and!; [done|done|done|]. erewrite st_read_bind; [done|].
  unfold validate_sender_rate_limit. apply Nat.leb_gt in Hl. by rewrite Hl.
Qed.

Lemma prune_index a n p :
  snd (prune_sender_nonces a n p) = with_index (snd (remove_up_to_nonce a n (mp_index p))) p.
Proof. unfold prune_sender_nonces. by destruct (remove_up_to_nonce _ _ _). Qed.

Lemma remove_index h p :
  snd (mp_remove h p) = with_index (snd (idx_remove h (mp_index p))) p.
Proof. unfold mp_remove. by destruct (idx_remove _ _). Qed.

Lemma pool_step_ok p p' : pool_step p p' -> pool_ok p -> pool_ok p' /\ mp_config p' = mp_config p.
Proof.
  intros Hstep (Hi & Hlen & Hcnt). destruct Hstep as [tx p|h p|a n p|p].
  - destruct (mp_add_cases tx p) as [(_ & ->)|[(_ & _ & ->)|[(_ & _ & _ & ->)|(Hf & Hn & Hr & ->)]]];
      cbn [snd]; try done.
    split; [split_and!|done].
    + by apply index_ok_insert.
    + unfold is_full in Hf. apply Nat.leb_gt in Hf. unfold mp_len, idx_len. cbn.
      rewrite map_size_insert_None by done. exact Hf.
    + intros a. cbn [mp_index with_index mp_config]. rewrite sender_count_insert.
      case_decide as Ha; [subst|apply Hcnt]. destruct (entry _ _ _); lia.
  - rewrite remove_index. split; [split_and!|done].
    + by apply index_ok_remove.
    + unfold mp_len, idx_len in *. cbn [mp_index with_index mp_config]. rewrite txs_remove.
      etrans; [|exact Hlen]. apply map_subseteq_size, delete_subseteq.
    + intros a. etrans; [|apply Hcnt]. apply sender_count_mono. apply entry_remove_sub.
  - rewrite prune_index. split; [split_and!|done].
    + by apply index_ok_remove_up_to.
    + etrans; [by apply size_remove_up_to|done].
    + intros b. etrans; [|apply (Hcnt b)]. apply sender_count_mono. intros k h.
      pose proof (remove_up_to_spec a n (mp_index p) Hi) as H. cbn [mp_index with_index].
      destruct (remove_up_to_nonce a n (mp_index p)) as [removed i']. destruct H as (_ & He & _).
      cbn [snd]. rewrite He. by case_decide.
  - split; [apply pool_ok_new|done].
Qed.

Lemma pool_reach c p :
  rtc pool_step (Mempool_new c) p -> pool_ok p /\ mp_config p = c.
Proof.
  intros H. pose proof (pool_ok_new c) as H0. change c with (mp_config (Mempool_new c)).
  revert H0. induction H as [p|p q r Hpq Hqr IH]; [done|].
  intros Hp. destruct (pool_step_ok p q Hpq Hp) as [Hq Ec]. rewrite <- Ec. by apply IH.
Qed.

(** C27: whatever sequence of additions, removals, prunings and clears is
    applied to an empty pool, it never holds more transactions than its
    capacity nor counts more than the per-sender limit, its configuration stays
    as given, and its index stays consistent: transactions are filed under
    their own hash and every (sender, nonce) entry points to such a
    transaction. *)
Theorem mempool_limits c p :
  rtc pool_step (Mempool_new c) p ->
  mp_config p = c /\
  (mp_len p <= max_size c)%nat /\
  (forall a, (sender_tx_count (mp_index p) a <= max_txs_per_sender c)%nat) /\
  (forall h tx, mp_get p h = Some tx -> h = tx_hash tx) /\
  (forall a n h, entry (mp_index p) a n = Some h ->
     exists tx, mp_get p h = Some tx /\ tx_from tx = a /\ tx_nonce tx = n).
Proof.
  intros H. destruct (pool_reach c p H) as [(Hi & Hl & Hc) <-]. split_and!; [done|done|done|apply Hi|apply Hi].
Qed.

(** A transaction added at a sender and nonce that the pool already has is
    accepted and takes over the index entry, but the old one stays: the
    pool grows, the sender's count does not (so the per-sender limit does not
    see it), and from then on the old transaction is neither offered for
    execution nor removed by pruning its nonces. *)
Theorem replacement_orphans p p' tx old h :
  HashOrderOk O -> index_ok (mp_index p) ->
  entry (mp_index p) (tx_from tx) (tx_nonce tx) = Some (tx_hash old) ->
  mp_get p (tx_hash old) = Some old ->
  mp_add tx p = (Ok h, p') ->
  mp_len p' = S (mp_len p) /\
  sender_tx_count (mp_index p') (tx_from tx) = sender_tx_count (mp_index p) (tx_from tx) /\
  mp_get p' (tx_hash old) = Some old /\
  (forall limit, old ∉ ready_txs p' limit) /\
  (forall a n, tx_hash old ∉ fst (prune_sender_nonces a n p') /\
     mp_get (snd (prune_sender_nonces a n p')) (tx_hash old) = Some old).
Proof.
  intros HO Hi He Hold Hadd.
  destruct (mp_add_cases tx p) as [(_ & E)|[(_ & _ & E)|[(_ & _ & _ & E)|(Hf & Hn & Hr & E)]]];
    rewrite E in Hadd; try done.
  assert (p' = with_index (snd (idx_insert tx (mp_index p))) p) as -> by congruence.
  cbn [mp_index with_index].
  pose proof (index_ok_insert tx (mp_index p) Hi Hn) as Hi'.
  destruct (iok_entry _ Hi _ _ _ He) as (t & Ht & Hfrom & Hnonce).
  unfold mp_get, idx_get in *. assert (t = old) by congruence. subst t. clear Ht.
  assert (Hne : tx_hash tx <> tx_hash old) by congruence.
  assert (Hold' : txs (snd (idx_insert tx (mp_index p))) !! tx_hash old = Some old).
  { cbn. by rewrite lookup_insert_ne by congruence. }
  assert (Hun : forall a n, entry (snd (idx_insert tx (mp_index p))) a n <> Some (tx_hash old)).
  { intros a n E2. destruct (iok_entry _ Hi' _ _ _ E2) as (t & Ht & Ha & Hna).
    assert (t = old) by congruence. subst t. rewrite entry_insert in E2.
    rewrite decide_True in E2 by congruence. congruence. }
  split_and!.
  - unfold mp_len, idx_len. cbn. by rewrite map_size_insert_None.
  - pose proof (sender_count_insert tx (mp_index p) (tx_from tx)) as Hc.
    rewrite decide_True, He in Hc by done. exact Hc.
  - done.
  - intros limit Hin. unfold ready_txs in Hin. apply elem_of_take in Hin as (k & Hk & _).
    apply list_elem_of_lookup_2, list_elem_of_In, in_flat_map in Hk as (a & _ & Hk).
    apply list_elem_of_In in Hk. unfold get_by_sender in Hk. cbn [mp_index with_index] in Hk.
    destruct (by_sender _ !! a) as [nonces|] eqn:Ea; [|by apply not_elem_of_nil in Hk].
    apply list_elem_of_omap in Hk as (n & _ & Hk).
    destruct (nonces !! n) as [hh|] eqn:Eh; [|done]. cbn [option_bind mbind] in Hk.
    apply (Hun a n). unfold entry. rewrite Ea. cbn. rewrite Eh.
    by rewrite <- (iok_hash _ Hi' _ _ Hk).
  - intros a n. pose proof (remove_up_to_spec a n _ Hi') as H.
    unfold prune_sender_nonces. cbn [mp_index with_index].
    destruct (remove_up_to_nonce a n _) as [removed i']. destruct H as (Hr2 & _ & Ht & _). cbn [fst snd].
    assert (Hnot : tx_hash old ∉ removed.*1).
    { intros ([hh t] & Eh & Hin)%list_elem_of_fmap. cbn in Eh. subst hh.
      apply Hr2 in Hin as (_ & k & _ & E2). by apply Hun in E2. }
    split; [done|]. cbn. by rewrite Ht, decide_False.
Qed.

(** [add] accepts a transaction exactly when the pool is not full, does not
    hold its hash and the sender is below its limit; the answer is then its
    hash, the transaction is filed and reachable at its nonce, and no other
    transaction or entry changes. Otherwise the error names the first limit in
    that order and the pool is left alone. *)
Theorem mp_add_exact tx p :
  match fst (mp_add tx p) with
  | Ok h =>
      let p' := snd (mp_add tx p) in
      h = tx_hash tx /\ is_full p = false /\ mp_get p h = None /\
      (sender_tx_count (mp_index p) (tx_from tx) < max_txs_per_sender (mp_config p))%nat /\
      (forall h', mp_get p' h' = if decide (h' = h) then Some tx else mp_get p h') /\
      (forall a n, entry (mp_index p') a n =
         if decide ((a, n) = (tx_from tx, tx_nonce tx)) then Some h else entry (mp_index p) a n)
  | Err e =>
      snd (mp_add tx p) = p /\
      match e with
      | MempoolFull c => c = max_size (mp_config p) /\ (c <= mp_len p)%nat
      | DuplicateTransaction h =>
          (mp_len p < max_size (mp_config p))%nat /\ h = tx_hash tx /\ is_Some (mp_get p h)
      | RateLimitExceeded a current max =>
          (mp_len p < max_size (mp_config p))%nat /\ mp_get p (tx_hash tx) = None /\
          a = tx_from tx /\ current = sender_tx_count (mp_index p) a /\
          max = max_txs_per_sender (mp_config p) /\ (max <= current)%nat
      | _ => False
      end
  end.
Proof.
  destruct (mp_add_cases tx p) as [(Hf & E)|[(Hf & Hs & E)|[(Hf & Hn & Hr & E)|(Hf & Hn & Hr & E)]]];
    rewrite E; cbn [fst snd]; [| | |assert (Hf' := Hf)]; unfold is_full in Hf;
    rewrite ?Nat.leb_le, ?Nat.leb_gt in Hf; try done.
  split_and!; [done|done|done|done| |].
  - intros h'. unfold mp_get, idx_get. cbn. case_decide as Hd; [subst; apply lookup_insert_eq|].
    by rewrite lookup_insert_ne by congruence.
  - intros a n. cbn [mp_index with_index]. apply entry_insert.
Qed.

(** ** What is offered for execution *)

(** Between two transactions of one sender the earlier has the lower nonce. *)
Definition nonce_order (t u : Transaction) : Prop := tx_from t = tx_from u -> tx_nonce t < tx_nonce u.

Lemma get_by_sender_elem i a tx :
  index_ok i ->
  tx ∈ get_by_sender i a <->
  exists n h, entry i a n = Some h /\ txs i !! h = Some tx /\ tx_from tx = a /\ tx_nonce tx = n.
Proof.
  intros Hi. unfold get_by_sender. destruct (by_sender i !! a) as [nonces|] eqn:Ea.
  - pose proof (entry_nonces i a nonces Ea) as He. rewrite list_elem_of_omap. split.
    + intros (n & _ & E). destruct (nonces !! n) as [h|] eqn:Eh; [|done]. cbn in E.
      rewrite <- He in Eh. destruct (iok_entry i Hi a n h Eh) as (t & Ht & ? & ?).
      exists n, h. assert (t = tx) by congruence. by subst.
    + intros (n & h & E & Ht & _). rewrite He in E. exists n. split; [apply btree_keys_elem; eauto|].
      rewrite E. exact Ht.
  - split; [set_solver|]. intros (n & h & E & _). by rewrite entry_none in E.
Qed.

Lemma get_by_sender_sorted i a : index_ok i -> StronglySorted nonce_order (get_by_sender i a).
Proof.
  intros Hi. unfold get_by_sender. destruct (by_sender i !! a) as [nonces|] eqn:Ea; [|constructor].
  pose proof (entry_nonces i a nonces Ea) as He.
  pose proof (btree_keys_sorted nonces) as Hs. pose proof (btree_keys_NoDup nonces) as Hnd.
  assert (Hat : forall n t, (h ← nonces !! n; txs i !! h) = Some t -> tx_nonce t = n).
  { intros n t E. destruct (nonces !! n) as [h|] eqn:Eh; [|done]. cbn in E. rewrite <- He in Eh.
    destruct (iok_entry i Hi a n h Eh) as (t' & Ht' & _ & Hn). congruence. }
  induction (btree_keys nonces) as [|n l IH]; [constructor|].
  apply StronglySorted_inv in Hs as [Hs Hall]. apply NoDup_cons in Hnd as [Hn Hnd]. cbn.
  destruct (h ← nonces !! n; txs i !! h) as [t|] eqn:E; [|by apply IH].
  constructor; [by apply IH|]. apply Forall_forall. intros u Hu _.
  apply list_elem_of_omap in Hu as (k & Hk & Eu).
  rewrite (Hat n t E), (Hat k u Eu).
  rewrite Forall_forall in Hall. specialize (Hall k Hk).
  destruct (decide (k = n)) as [->|]; [done|]. lia.
Qed.

Lemma flat_map_sorted i l :
  index_ok i -> NoDup l -> StronglySorted nonce_order (flat_map (get_by_sender i) l).
Proof.
  intros Hi. induction l as [|a l IH]; intros Hnd; [constructor|].
  apply NoDup_cons in Hnd as [Ha Hnd]. cbn. apply StronglySorted_app. split_and!.
  - intros t u Ht Hu E. apply get_by_sender_elem in Ht as (_ & _ & _ & _ & Hf & _); [|done].
    apply list_elem_of_In, in_flat_map in Hu as (b & Hb & Hu). apply list_elem_of_In in Hb, Hu.
    apply get_by_sender_elem in Hu as (_ & _ & _ & _ & Hg & _); [|done].
    destruct Ha. congruence.
  - by apply get_by_sender_sorted.
  - by apply IH.
Qed.

Lemma sorted_take {A} (R : A -> A -> Prop) n l : StronglySorted R l -> StronglySorted R (take n l).
Proof. rewrite <- (take_drop n l) at 1. apply StronglySorted_app_1_l. Qed.

Lemma sorted_irreflexive_NoDup {A} (R : A -> A -> Prop) l :
  (forall x, ~ R x x) -> StronglySorted R l -> NoDup l.
Proof.
  intros HR. induction 1 as [|x l _ IH Hall]; constructor; [|done].
  intros Hx. rewrite Forall_forall in Hall. by eapply HR, Hall.
Qed.

Lemma ready_elem p t :
  index_ok (mp_index p) -> HashOrderOk O ->
  t ∈ flat_map (get_by_sender (mp_index p)) (get_all_senders (mp_index p)) <->
  exists h, entry (mp_index p) (tx_from t) (tx_nonce t) = Some h /\ mp_get p h = Some t.
Proof.
  intros Hi HO. rewrite list_elem_of_In, in_flat_map. setoid_rewrite <- list_elem_of_In.
  unfold get_all_senders. split.
  - intros (a & _ & Ht). apply get_by_sender_elem in Ht as (n & h & E & Ht & <- & <-); eauto.
  - intros (h & E & Ht). exists (tx_from t). split.
    + rewrite (hash_order_perm (HashOrderOk := HO)). unfold entry in E.
      destruct (by_sender (mp_index p) !! tx_from t) as [m|] eqn:Em; [|done].
      apply list_elem_of_fmap. exists (tx_from t, m). split; [done|]. by apply elem_of_map_to_list.
    + apply get_by_sender_elem; eauto 10.
Qed.

(** Before it is cut off at the limit: in nonce order, each transaction entered
    under its own hash, and no more of them than the pool holds. *)
Lemma ready_sorted p : HashOrderOk O -> index_ok (mp_index p) ->
  StronglySorted nonce_order (flat_map (get_by_sender (mp_index p)) (get_all_senders (mp_index p))).
Proof.
  intros HO Hi. apply flat_map_sorted; [done|]. unfold get_all_senders.
  rewrite (hash_order_perm (HashOrderOk := HO)). apply NoDup_fst_map_to_list.
Qed.

Lemma ready_listed p t : HashOrderOk O -> index_ok (mp_index p) ->
  t ∈ flat_map (get_by_sender (mp_index p)) (get_all_senders (mp_index p)) ->
  entry (mp_index p) (tx_from t) (tx_nonce t) = Some (tx_hash t) /\ mp_get p (tx_hash t) = Some t.
Proof.
  intros HO Hi Ht. apply ready_elem in Ht as (h & E & Hg); [|done..].
  pose proof (iok_hash _ Hi _ _ Hg) as Hh. by subst h.
Qed.

Lemma nonce_order_irreflexive t : ~ nonce_order t t.
Proof. intros H. specialize (H eq_refl). lia. Qed.

Lemma ready_all p limit : HashOrderOk O -> index_ok (mp_index p) -> (mp_len p <= limit)%nat ->
  ready_txs p limit = flat_map (get_by_sender (mp_index p)) (get_all_senders (mp_index p)).
Proof.
  intros HO Hi Hlim. unfold ready_txs. apply take_ge. etrans; [|exact Hlim].
  unfold mp_len, idx_len. rewrite <- length_map_to_list, <- (length_fmap snd).
  apply submseteq_length, NoDup_submseteq.
  - eapply sorted_irreflexive_NoDup; [apply nonce_order_irreflexive|by apply ready_sorted].
  - intros u Hu. apply ready_listed in Hu as [_ Hu]; [|done..]. apply list_elem_of_fmap.
    exists (tx_hash u, u). split; [done|]. by apply elem_of_map_to_list.
Qed.

(** C28: [ready_txs] offers at most [limit] transactions of the pool, none twice,
    and each sender's in increasing nonce order, whatever order the senders
    are visited in; and with a limit of at least the pool's length it offers
    every transaction that its index points to. *)
Theorem ready_txs_exact p limit :
  HashOrderOk O -> index_ok (mp_index p) ->
  let ready := ready_txs p limit in
  (length ready <= limit)%nat /\ NoDup ready /\ StronglySorted nonce_order ready /\
  (forall t, t ∈ ready -> mp_get p (tx_hash t) = Some t) /\
  ((mp_len p <= limit)%nat -> forall t,
     t ∈ ready <-> entry (mp_index p) (tx_from t) (tx_nonce t) = Some (tx_hash t) /\
                   mp_get p (tx_hash t) = Some t).
Proof.
  intros HO Hi ready. pose proof (ready_sorted p HO Hi) as Hs. unfold ready. split_and!.
  - unfold ready_txs. rewrite length_take. lia.
  - eapply sorted_irreflexive_NoDup; [apply nonce_order_irreflexive|by apply sorted_take].
  - by apply sorted_take.
  - intros t Ht. apply elem_of_take in Ht as (k & Hk & _). apply list_elem_of_lookup_2 in Hk.
    by apply ready_listed.
  - intros Hlim t. rewrite ready_all by done. split; [by apply ready_listed|].
    intros [E Hg]. apply ready_elem; [done..|eauto].
Qed.

(** [prune_sender_nonces] removes exactly the indexed transactions of the
    sender up to the nonce, reports their hashes, and leaves everything else. *)
Theorem prune_sender_nonces_exact a n p :
  index_ok (mp_index p) ->
  let '(hashes, p') := prune_sender_nonces a n p in
  (forall h, h ∈ hashes <-> exists k, k <= n /\ entry (mp_index p) a k = Some h) /\
  (forall h, mp_get p' h = if decide (h ∈ hashes) then None else mp_get p h) /\
  (forall b k, entry (mp_index p') b k =
     if decide (b = a /\ k <= n) then None else entry (mp_index p) b k).
Proof.
  intros Hi. pose proof (remove_up_to_spec a n _ Hi) as H. unfold prune_sender_nonces.
  destruct (remove_up_to_nonce a n _) as [removed i']. destruct H as (Hr & He & Ht & _).
  cbn [mp_index with_index]. split_and!; [|exact Ht|exact He].
  intros h. rewrite list_elem_of_fmap. split.
  - intros ([h' t] & -> & Hin). by apply Hr in Hin as [_ ?].
  - intros (k & Hk & E). destruct (iok_entry _ Hi _ _ _ E) as (t & Hg & _). exists (h, t).
    split; [done|]. apply Hr. eauto.
Qed.

End properties.

(** * Witnesses *)

(** Account 1 has nonces 3 and 2 pending; then its nonce 3 is sent again. *)
Definition pool_demo : Mempool :=
  snd (mp_add (signed_by 1 2 (demo_transfer 1))
    (snd (mp_add (signed_by 1 3 (demo_transfer 1)) (with_limits 5 2)))).
Definition old_tx : Transaction := signed_by 1 3 (demo_transfer 1).
Definition new_tx : Transaction := signed_by 1 3 (demo_transfer 2).

Lemma pool_demo_reach : rtc pool_step (with_limits 5 2) pool_demo.
Proof.
  eapply rtc_l; [exact (step_add (signed_by 1 3 (demo_transfer 1)) (with_limits 5 2))|].
  eapply rtc_l; [exact (step_add (signed_by 1 2 (demo_transfer 1)) _)|].
  apply rtc_refl.
Qed.

Lemma pool_demo_ok : index_ok (mp_index pool_demo).
Proof. exact (proj1 (proj1 (pool_reach _ _ pool_demo_reach))). Qed.

Lemma mem_hash_order_ok : HashOrderOk mem_hash_order.
Proof. intros A l. reflexivity. Qed.

Lemma mempool_limits_witness : (mp_len pool_demo = 2 /\ mp_len pool_demo <= 5)%nat.
Proof.
  split; [vm_compute; reflexivity|].
  exact (proj1 (proj2 (mempool_limits (MempoolConfig_new 5 2) pool_demo pool_demo_reach))).
Defined.

Lemma replacement_orphans_witness :
  fst (mp_add new_tx (snd (mp_add old_tx (with_limits 5 2)))) = Ok (tx_hash new_tx) /\
  forall limit, old_tx ∉ ready_txs (O := mem_hash_order)
    (snd (mp_add new_tx (snd (mp_add old_tx (with_limits 5 2))))) limit.
Proof.
  assert (E : fst (mp_add new_tx (snd (mp_add old_tx (with_limits 5 2)))) = Ok (tx_hash new_tx))
    by (vm_compute; reflexivity).
  split; [exact E|].
  assert (Hr : rtc pool_step (with_limits 5 2) (snd (mp_add old_tx (with_limits 5 2)))).
  { eapply rtc_l; [exact (step_add old_tx (with_limits 5 2))|apply rtc_refl]. }
  destruct (replacement_orphans (O := mem_hash_order)
    (snd (mp_add old_tx (with_limits 5 2))) _ new_tx old_tx (tx_hash new_tx)
    mem_hash_order_ok (proj1 (proj1 (pool_reach _ _ Hr)))
    ltac:(vm_compute; reflexivity) ltac:(vm_compute; reflexivity) (run_result _ _ _ E))
    as (_ & _ & _ & H & _).
  exact H.
Defined.

Lemma ready_txs_exact_witness :
  map tx_nonce (ready_txs (O := mem_hash_order) pool_demo 5) = [2; 3] /\
  StronglySorted nonce_order (ready_txs (O := mem_hash_order) pool_demo 5).
Proof.
  split; [vm_compute; reflexivity|].
  exact (proj1 (proj2 (proj2
    (ready_txs_exact (O := mem_hash_order) pool_demo 5 mem_hash_order_ok pool_demo_ok)))).
Defined.

Lemma prune_sender_nonces_exact_witness :
  fst (prune_sender_nonces 1 2 pool_demo) = [tx_hash (signed_by 1 2 (demo_transfer 1))] /\
  mp_get (snd (prune_sender_nonces 1 2 pool_demo)) (tx_hash (signed_by 1 2 (demo_transfer 1))) = None.
Proof.
  assert (E : fst (prune_sender_nonces 1 2 pool_demo) = [tx_hash (signed_by 1 2 (demo_transfer 1))])
    by (vm_compute; reflexivity).
  split; [exact E|].
  pose proof (prune_sender_nonces_exact 1 2 pool_demo pool_demo_ok) as H.
  destruct (prune_sender_nonces 1 2 pool_demo) as [hashes p'] eqn:Ep. cbn [fst snd] in *.
  rewrite (proj1 (proj2 H)), E. reflexivity.
Defined.

(** The percentage of a pool with 29 transactions of 100: the quotient is the
    double below 0.29, and the product is truncated. *)
Lemma utilization_truncated : utilization_pct 29 100 = 28 /\ utilization_pct 7 100 = 7.
Proof. split; vm_compute; reflexivity. Qed.
