(* ===== verification/Snapshot.v ===== *)
(** Snapshot export: crates/state/src/snapshot_exporter.rs, the part of
    crates/exec/src/server.rs that triggers it after a block, and the part of
    crates/app/src/config.rs that configures it.

    The export is a sequence of calls on the file system, the database and a
    cloud client.  Each is an [IoAction]; whether it succeeds, and the number it
    returns (a time or a size), is up to the outside, [io].  Within one export
    every action occurs once, so one function describes any outcome.  Object
    names are kept as data instead of formatted strings. *)
From stdpp Require Import base gmap sets list sorting strings.
From Stdlib Require Import ZArith Lia.
From S2P Require Import Prelude Types Storage.

(** * Configuration *)

Record S3Config := { s3_bucket : string; s3_region : string; s3_prefix : string }.
Record GCSConfig := { gcs_bucket : string; gcs_prefix : string }.
Inductive CloudProvider := S3 (c : S3Config) | GCS (c : GCSConfig) | Local (path : string).

Record SnapshotExporterConfig := {
  provider : CloudProvider;
  auto_export_interval : Z;
  sx_chain_id : string;
}.

Definition s3_config_of (t : string * string * string) : S3Config :=
  let '(bucket, region, prefix) := t in {| s3_bucket := bucket; s3_region := region; s3_prefix := prefix |}.
Definition gcs_config_of (t : string * string) : GCSConfig :=
  let '(bucket, prefix) := t in {| gcs_bucket := bucket; gcs_prefix := prefix |}.

(** The command-line options (crates/app/src/config.rs). *)
Record SnapshotConfig := {
  opt_s3_bucket : option string; opt_s3_region : string; opt_s3_prefix : string;
  opt_gcs_bucket : option string; opt_gcs_prefix : string; opt_local_path : string;
}.
Record StartConfig := {
  grpc_addr : string;
  rpc_addr : string;
  db_path : string;
  chain_id : string;
  debug : bool;
  bridge_operators : list string;
  snapshot_enable : bool;
  snapshot_interval : Z;
  snapshot : SnapshotConfig;
}.

Definition cloud_provider (config : SnapshotConfig) : CloudProvider :=
  match opt_s3_bucket config with
  | Some bucket =>
      S3 {| s3_bucket := bucket; s3_region := opt_s3_region config; s3_prefix := opt_s3_prefix config |}
  | None =>
      match opt_gcs_bucket config with
      | Some bucket => GCS {| gcs_bucket := bucket; gcs_prefix := opt_gcs_prefix config |}
      | None => Local (opt_local_path config)
      end
  end.

Definition snapshot_exporter_config (c : StartConfig) : option SnapshotExporterConfig :=
  if snapshot_enable c
  then Some {| provider := cloud_provider (snapshot c); auto_export_interval := snapshot_interval c;
               sx_chain_id := chain_id c |}
  else None.

Definition has_bridge_operators (c : StartConfig) : bool := negb (bool_decide (bridge_operators c = [])).

(** [parse] is the address type's [FromStr]. *)
Definition parse_bridge_operators (parse : string -> option Address) (c : StartConfig) : option (list Address) :=
  mapM parse (bridge_operators c).

(** * The exporter *)

Record SnapshotMetadata := {
  sm_height : Z; sm_state_root : B256; sm_timestamp : Z; sm_db_size : Z; sm_snapshot_size : Z;
  sm_chain_id : string;
}.

Record SnapshotExporter := { config : SnapshotExporterConfig; last_export_height : Z }.
Definition SnapshotExporter_new (c : SnapshotExporterConfig) : SnapshotExporter :=
  {| config := c; last_export_height := 0 |}.

Definition should_export (x : SnapshotExporter) (height : Z) : bool :=
  if auto_export_interval (config x) =? 0 then false
  else (0 <? height) && (wadd64 (last_export_height x) (auto_export_interval (config x)) <=? height).

(** The names a snapshot is stored under. *)
Inductive ObjectName :=
| SnapshotObject (prefix : string) (height : Z)
| MetadataObject (prefix : string) (height : Z)
| LatestObject (prefix : string).

Inductive IoAction :=
| IoFlush
| IoCreateTempDir (height : Z)
| IoCreateCheckpoint (height : Z)
| IoDirSize
| IoNow
| IoCreateArchive (height : Z) | IoLz4Encoder | IoAppendDir | IoFinishTar | IoFinishLz4
| IoSnapshotSize (height : Z)
| IoEncodeMetadata | IoWriteMetadata (height : Z)
| IoConnect
| IoReadSnapshot | IoReadMetadata | IoEncodeLatest
| IoPut (name : ObjectName)
| IoCreateDestDir (path : string)
| IoRemoveTempDir (height : Z).
#[export] Instance ObjectName_eq_dec : EqDecision ObjectName.
Proof. solve_decision. Defined.
#[export] Instance IoAction_eq_dec : EqDecision IoAction.
Proof. solve_decision. Defined.

Section export.
Context (io : IoAction -> option Z) (get_root : Z -> B256).

(** The exporter and the actions that have succeeded so far. *)
Record Export := { ex_exporter : SnapshotExporter; ex_done : list IoAction }.
Notation ExportM A := (ST Export StateError A).

Definition act (a : IoAction) : ExportM Z := fun s =>
  match io a with
  | Some v => (Ok v, {| ex_exporter := ex_exporter s; ex_done := ex_done s ++ [a] |})
  | None => (Err StorageError, s)
  end.

Definition compress_lz4 (height : Z) : ExportM unit :=
  act (IoCreateArchive height) ;; act IoLz4Encoder ;; act IoAppendDir ;; act IoFinishTar ;;
  act IoFinishLz4 ;; st_ret tt.

Definition upload_to_s3 (c : S3Config) (height : Z) : ExportM unit :=
  act IoReadSnapshot ;;
  act (IoPut (SnapshotObject (s3_prefix c) height)) ;;
  act IoReadMetadata ;;
  act (IoPut (MetadataObject (s3_prefix c) height)) ;;
  act (IoPut (LatestObject (s3_prefix c))) ;;
  st_ret tt.

Definition upload_to_gcs (c : GCSConfig) (height : Z) : ExportM unit :=
  act IoConnect ;;
  act IoReadSnapshot ;;
  act (IoPut (SnapshotObject (gcs_prefix c) height)) ;;
  act IoReadMetadata ;;
  act (IoPut (MetadataObject (gcs_prefix c) height)) ;;
  act IoEncodeLatest ;;
  act (IoPut (LatestObject (gcs_prefix c))) ;;
  st_ret tt.

Definition copy_to_local (path : string) (height : Z) : ExportM unit :=
  act (IoCreateDestDir path) ;;
  act (IoPut (SnapshotObject path height)) ;;
  act (IoPut (MetadataObject path height)) ;;
  act (IoPut (LatestObject path)) ;;
  st_ret tt.

Definition upload (p : CloudProvider) (height : Z) : ExportM unit :=
  match p with
  | S3 c => upload_to_s3 c height
  | GCS c => upload_to_gcs c height
  | Local path => copy_to_local path height
  end.

Definition export_snapshot (height : Z) : ExportM SnapshotMetadata :=
  act IoFlush ;;
  act (IoCreateTempDir height) ;;
  act (IoCreateCheckpoint height) ;;
  let state_root := get_root height in
  let! db_size := act IoDirSize in
  let! timestamp := act IoNow in
  compress_lz4 height ;;
  let! snapshot_size := act (IoSnapshotSize height) in
  let! cfg := st_gets (fun s => config (ex_exporter s)) in
  let metadata := {| sm_height := height; sm_state_root := state_root; sm_timestamp := timestamp;
    sm_db_size := db_size; sm_snapshot_size := snapshot_size; sm_chain_id := sx_chain_id cfg |} in
  act IoEncodeMetadata ;;
  act (IoWriteMetadata height) ;;
  upload (provider cfg) height ;;
  act (IoRemoveTempDir height) ;;
  st_modify (fun s => {| ex_exporter := {| config := config (ex_exporter s); last_export_height := height |};
                         ex_done := ex_done s |}) ;;
  st_ret metadata.

End export.

(** ** The size of a directory *)

(** What the file system holds; [None] where it cannot be read. *)
Inductive DirEntry :=
| FileEntry (len : option Z)
| DirEntryOf (entries : option (list DirEntry)).

Fixpoint entry_size (e : DirEntry) : result StateError Z :=
  match e with
  | FileEntry len => ok_or StorageError len
  | DirEntryOf None => Err StorageError
  | DirEntryOf (Some entries) =>
      (fix sum (l : list DirEntry) (acc : Z) : result StateError Z :=
         match l with
         | [] => Ok acc
         | x :: l => let* size := entry_size x in sum l (wadd64 acc size)
         end) entries 0
  end.

(** A path that is not a directory has size 0. *)
Definition get_dir_size (path : DirEntry) : result StateError Z :=
  match path with FileEntry _ => Ok 0 | DirEntryOf _ => entry_size path end.

(** * The trigger (crates/exec/src/server.rs) *)

(** The service's exporter and the exports it has started in the background,
    each on a clone of the exporter as it was then. *)
Record SnapshotService := {
  snapshot_exporter : option SnapshotExporter;
  spawned : list (SnapshotExporter * Z);
}.
Definition SnapshotService_new (c : option SnapshotExporterConfig) : SnapshotService :=
  {| snapshot_exporter := SnapshotExporter_new <$> c; spawned := [] |}.

Definition handle_snapshot_export (block_height : Z) (s : SnapshotService) : SnapshotService :=
  match snapshot_exporter s with
  | Some exporter =>
      if should_export exporter block_height
      then {| snapshot_exporter := Some exporter; spawned := spawned s ++ [(exporter, block_height)] |}
      else s
  | None => s
  end.

(** * The order of an export *)

(** What an export is to do, in order. *)
Definition upload_plan (p : CloudProvider) (height : Z) : list IoAction :=
  match p with
  | S3 c => [IoReadSnapshot; IoPut (SnapshotObject (s3_prefix c) height);
             IoReadMetadata; IoPut (MetadataObject (s3_prefix c) height); IoPut (LatestObject (s3_prefix c))]
  | GCS c => [IoConnect; IoReadSnapshot; IoPut (SnapshotObject (gcs_prefix c) height);
              IoReadMetadata; IoPut (MetadataObject (gcs_prefix c) height);
              IoEncodeLatest; IoPut (LatestObject (gcs_prefix c))]
  | Local path => [IoCreateDestDir path; IoPut (SnapshotObject path height);
                   IoPut (MetadataObject path height); IoPut (LatestObject path)]
  end.
Definition prepare_plan (height : Z) : list IoAction :=
  [IoFlush; IoCreateTempDir height; IoCreateCheckpoint height; IoDirSize; IoNow;
   IoCreateArchive height; IoLz4Encoder; IoAppendDir; IoFinishTar; IoFinishLz4;
   IoSnapshotSize height; IoEncodeMetadata; IoWriteMetadata height].
Definition export_plan (p : CloudProvider) (height : Z) : list IoAction :=
  prepare_plan height ++ upload_plan p height ++ [IoRemoveTempDir height].

(** Where a plan stops: the actions done before the first one that fails, or
    [None] when none does. *)
Fixpoint stops (io : IoAction -> option Z) (plan : list IoAction) : option (list IoAction) :=
  match plan with
  | [] => None
  | a :: plan => match io a with Some _ => cons a <$> stops io plan | None => Some [] end
  end.

Lemma stops_Some io plan p :
  stops io plan = Some p ->
  exists a q, plan = p ++ a :: q /\ io a = None /\ Forall (fun b => is_Some (io b)) p.
Proof.
  revert p; induction plan as [|b plan IH]; intros p; cbn; [done|].
  destruct (io b) eqn:E; [|intros [= <-]; by exists b, plan].
  destruct (stops io plan) as [p'|] eqn:Es; [|done].
  intros [= <-]. destruct (IH p' eq_refl) as (a & q & -> & ? & ?).
  exists a, q. repeat split; [done|]. constructor; [by eexists|done].
Qed.

(** From exporter [x], a part of the export follows a plan: it does the whole
    of it, returns [v] and leaves exporter [x']; or it fails where the plan
    stops, with the exporter as it was. *)
Definition keeps_plan {A} (io : IoAction -> option Z) (x : SnapshotExporter)
    (m : ST Export StateError A) (v : A) (plan : list IoAction) (x' : SnapshotExporter) : Prop :=
  forall done, m {| ex_exporter := x; ex_done := done |} =
    match stops io plan with
    | None => (Ok v, {| ex_exporter := x'; ex_done := done ++ plan |})
    | Some p => (Err StorageError, {| ex_exporter := x; ex_done := done ++ p |})
    end.

(** What an action that is known to succeed returns. *)
Definition value (io : IoAction -> option Z) (a : IoAction) : Z := default 0 (io a).

Section plans.
Context (io : IoAction -> option Z).

Lemma keeps_plan_ret {A} x (v : A) : keeps_plan io x (st_ret v) v [] x.
Proof. intros done; cbn. by rewrite app_nil_r. Qed.

Lemma keeps_plan_act {A} x a (k : Z -> ST Export StateError A) v plan x' :
  keeps_plan io x (k (value io a)) v plan x' ->
  keeps_plan io x (let! z := act io a in k z) v (a :: plan) x'.
Proof.
  unfold value; intros Hk done; unfold st_bind, act; cbn.
  destruct (io a) as [z|]; cbn in *; [|by rewrite app_nil_r].
  rewrite Hk. destruct (stops io plan); cbn; by rewrite <- app_assoc.
Qed.

Lemma keeps_plan_bind {A} x m plan (k : ST Export StateError A) v plan' x' :
  keeps_plan io x m tt plan x -> keeps_plan io x k v plan' x' ->
  keeps_plan io x (m ;; k) v (plan ++ plan') x'.
Proof.
  intros Hm Hk done; unfold st_bind; rewrite Hm; clear Hm m.
  revert done; induction plan as [|a plan IH]; intros done; cbn.
  { by rewrite app_nil_r, Hk. }
  destruct (io a) as [z|]; [|by rewrite app_nil_r].
  specialize (IH (done ++ [a])). rewrite <- !app_assoc in IH. cbn in IH.
  destruct (stops io plan) as [q|], (stops io (plan ++ plan')) as [q'|]; cbn in *;
    rewrite <- ?app_assoc in IH; cbn in IH; exact IH.
Qed.

Lemma keeps_plan_gets {A B} x (f : Export -> B) (g : SnapshotExporter -> B) (k : B -> ST Export StateError A) v plan x' :
  (forall d, f {| ex_exporter := x; ex_done := d |} = g x) ->
  keeps_plan io x (k (g x)) v plan x' -> keeps_plan io x (let! b := st_gets f in k b) v plan x'.
Proof. intros Hf Hk done; unfold st_bind, st_gets; rewrite Hf; apply Hk. Qed.

#[local] Hint Resolve keeps_plan_ret keeps_plan_act : core.

Lemma upload_follows x p height : keeps_plan io x (upload io p height) tt (upload_plan p height) x.
Proof. destruct p as [c|c|path]; cbn; unfold upload_to_s3, upload_to_gcs, copy_to_local; auto 20. Qed.

Lemma compress_follows x height :
  keeps_plan io x (compress_lz4 io height) tt
    [IoCreateArchive height; IoLz4Encoder; IoAppendDir; IoFinishTar; IoFinishLz4] x.
Proof. unfold compress_lz4; auto 20. Qed.

(** What a successful export returns and leaves. *)
Definition exported_metadata (get_root : Z -> B256) (x : SnapshotExporter) (height : Z) : SnapshotMetadata :=
  {| sm_height := height; sm_state_root := get_root height; sm_timestamp := value io IoNow;
     sm_db_size := value io IoDirSize; sm_snapshot_size := value io (IoSnapshotSize height);
     sm_chain_id := sx_chain_id (config x) |}.
Definition exported_at (x : SnapshotExporter) (height : Z) : SnapshotExporter :=
  {| config := config x; last_export_height := height |}.

Lemma export_follows get_root x height :
  keeps_plan io x (export_snapshot io get_root height) (exported_metadata get_root x height)
    (export_plan (provider (config x)) height) (exported_at x height).
Proof.
  unfold export_snapshot, export_plan, prepare_plan.
  do 5 apply keeps_plan_act.
  apply (keeps_plan_bind _ _ [_; _; _; _; _]); [apply compress_follows|].
  apply keeps_plan_act.
  apply (keeps_plan_gets _ _ config); [done|].
  do 2 apply keeps_plan_act.
  apply keeps_plan_bind; [apply upload_follows|].
  apply keeps_plan_act. intros done. cbn. by rewrite app_nil_r.
Qed.

End plans.

(** A prefix of an export that has put the latest pointer has put both objects
    the pointer names. *)
Lemma latest_after_objects p height done a rest prefix :
  export_plan p height = done ++ a :: rest -> IoPut (LatestObject prefix) ∈ done ->
  IoPut (SnapshotObject prefix height) ∈ done /\ IoPut (MetadataObject prefix height) ∈ done.
Proof.
  intros Hplan Hin.
  destruct p as [c|c|path]; cbn in Hplan;
    repeat (destruct done as [|? done]; [|injection Hplan as <- Hplan]);
    repeat (apply elem_of_cons in Hin as [[= Heq]|Hin]; [subst|]);
    first [split; set_solver | set_solver | destruct done; discriminate].
Qed.

(** The removal of the temporary directory is the last action of the plan. *)
Lemma cleanup_last p height done a rest :
  export_plan p height = done ++ a :: rest -> IoRemoveTempDir height ∉ done.
Proof.
  intros Hplan Hin.
  destruct p as [c|c|path]; cbn in Hplan;
    repeat (destruct done as [|? done]; [set_solver|injection Hplan as <- Hplan]);
    try (destruct done; discriminate).
Qed.

(** * Exports over a run of blocks *)

(** The exports of a service that keeps its exporter's [last_export_height],
    which is how the exporter is written to be used. *)
Fixpoint kept_exports (x : SnapshotExporter) (heights : list Z) : list Z :=
  match heights with
  | [] => []
  | h :: heights => if should_export x h then h :: kept_exports (exported_at x h) heights else kept_exports x heights
  end.

Definition run_blocks (heights : list Z) (s : SnapshotService) : SnapshotService :=
  foldl (fun s h => handle_snapshot_export h s) s heights.

Lemma run_blocks_spawned x heights old :
  run_blocks heights {| snapshot_exporter := Some x; spawned := old |} =
  {| snapshot_exporter := Some x;
     spawned := old ++ map (pair x) (List.filter (should_export x) heights) |}.
Proof.
  revert old; induction heights as [|h heights IH]; intros old; cbn.
  { by rewrite app_nil_r. }
  unfold handle_snapshot_export; cbn.
  destruct (should_export x h) eqn:E; cbn; [|apply IH].
  unfold run_blocks in IH. rewrite IH. by rewrite <- app_assoc.
Qed.

Lemma should_export_spaced x h :
  is_u64 (last_export_height x + auto_export_interval (config x)) ->
  should_export x h = negb (auto_export_interval (config x) =? 0) && (0 <? h) &&
    (last_export_height x + auto_export_interval (config x) <=? h).
Proof.
  intros Hr. unfold should_export. unfold wadd64. rewrite as_u64_id by done. by destruct (_ =? 0).
Qed.

Lemma kept_spaced x heights i :
  auto_export_interval (config x) = i ->
  is_u64 (last_export_height x + i) -> Forall (fun h => is_u64 (h + i)) heights ->
  Sorted (fun a b => a + i <= b) (last_export_height x :: kept_exports x heights).
Proof.
  intros Hi Hx Hall; revert x Hi Hx; induction Hall as [|h heights Hh _ IH]; intros x Hi Hx; cbn.
  { repeat constructor. }
  destruct (should_export x h) eqn:E; [|by apply IH].
  rewrite should_export_spaced, Hi in E by (by rewrite Hi).
  constructor; [by apply (IH (exported_at x h))|]. constructor. lia.
Qed.

(** C39: an export does its plan in order and stops at the first
    action that fails.  It is [Ok], with the metadata of this height and the new
    [last_export_height], exactly when every action succeeds; otherwise the
    exporter is unchanged, exactly the actions before the failing one are done,
    so the temporary directory stays behind, and the pointer to the latest
    snapshot has been replaced only if the snapshot and the metadata of this
    height are both stored. *)
Theorem export_exact (io : IoAction -> option Z) (get_root : Z -> B256) (x : SnapshotExporter) (height : Z) :
  let plan := export_plan (provider (config x)) height in
  export_snapshot io get_root height {| ex_exporter := x; ex_done := [] |} =
    match stops io plan with
    | None => (Ok (exported_metadata io get_root x height), {| ex_exporter := exported_at x height; ex_done := plan |})
    | Some p => (Err StorageError, {| ex_exporter := x; ex_done := p |})
    end /\
  forall p, stops io plan = Some p ->
    (exists a rest, plan = p ++ a :: rest /\ io a = None) /\
    IoRemoveTempDir height ∉ p /\
    forall prefix, IoPut (LatestObject prefix) ∈ p ->
      IoPut (SnapshotObject prefix height) ∈ p /\ IoPut (MetadataObject prefix height) ∈ p.
Proof.
  cbv zeta. split; [apply export_follows|].
  intros p (a & rest & Hplan & Ha & _)%stops_Some.
  split; [by exists a, rest|]. split; [by eapply cleanup_last|].
  intros prefix. by eapply latest_after_objects.
Qed.

(** The service starts each export on a clone of its
    exporter, so the shared [last_export_height] stays 0: over a run of blocks
    the exports started are those of every block from the first interval on.  An
    exporter that keeps its height exports at blocks at least an interval apart. *)
Theorem snapshot_jobs_exact (c : SnapshotExporterConfig) (heights : list Z) :
  is_u64 (auto_export_interval c) ->
  map snd (spawned (run_blocks heights (SnapshotService_new (Some c)))) =
    List.filter (fun h => negb (auto_export_interval c =? 0) && (0 <? h) && (auto_export_interval c <=? h)) heights /\
  (Forall (fun h => is_u64 (h + auto_export_interval c)) heights ->
   Sorted (fun a b => a + auto_export_interval c <= b) (0 :: kept_exports (SnapshotExporter_new c) heights)).
Proof.
  intros Hi. split.
  - change (SnapshotService_new (Some c)) with
      {| snapshot_exporter := Some (SnapshotExporter_new c); spawned := [] |}.
    rewrite run_blocks_spawned. cbn. rewrite map_map, map_id.
    apply filter_ext. intros h. by rewrite should_export_spaced.
  - by apply (kept_spaced (SnapshotExporter_new c)).
Qed.

Definition demo_config : SnapshotExporterConfig :=
  {| provider := Local "/backup"; auto_export_interval := 100; sx_chain_id := "pranklin" |}.

(** The disk fills up while the pointer is written. *)
Definition demo_io (a : IoAction) : option Z :=
  if decide (a = IoPut (LatestObject "/backup")) then None else Some 7.

Lemma export_exact_witness :
  stops demo_io (export_plan (provider demo_config) 100) =
    Some (prepare_plan 100 ++ take 3 (upload_plan (provider demo_config) 100)) /\
  IoRemoveTempDir 100 ∉ prepare_plan 100 ++ take 3 (upload_plan (provider demo_config) 100).
Proof.
  assert (H : stops demo_io (export_plan (provider demo_config) 100) =
    Some (prepare_plan 100 ++ take 3 (upload_plan (provider demo_config) 100))) by (vm_compute; reflexivity).
  split; [exact H|].
  destruct (export_exact demo_io (fun _ => B256_ZERO) (SnapshotExporter_new demo_config) 100) as [_ He].
  destruct (He _ H) as (_ & Hr & _). exact Hr.
Defined.

(** With an interval of 100, blocks 100 to 104 start an export each; the
    exporter that keeps its height exports once. *)
Lemma snapshot_jobs_exact_witness :
  map snd (spawned (run_blocks [99; 100; 101; 102; 103; 104] (SnapshotService_new (Some demo_config)))) =
    [100; 101; 102; 103; 104] /\
  kept_exports (SnapshotExporter_new demo_config) [99; 100; 101; 102; 103; 104] = [100].
Proof.
  split; [|vm_compute; reflexivity].
  destruct (snapshot_jobs_exact demo_config [99; 100; 101; 102; 103; 104]) as [H _].
  { split; vm_compute; discriminate. }
  rewrite H. reflexivity.
Defined.
