(* ===== verification/Exec.v ===== *)
(** [pranklin-exec] (crates/exec/src): the transaction executor
    (tx_executor.rs) and the block-level service (server.rs), with its
    constants and errors.  The service's read-write locks are held for the whole
    of each request, so a request is one step on [Node]; logging and the
    background snapshot export, which change nothing here, are left out. *)
From stdpp Require Import base gmap sets list sorting strings.
From Stdlib Require Import ZArith Lia.
From S2P Require Import Prelude Types Storage State Tx EngineBase Orderbook Matching Position Risk Funding Liquidation Services Trading Engine Auth Mempool.

(** * Constants and errors (constants.rs, error.rs) *)

Definition DEFAULT_MAX_BYTES : Z := 1000000.
Definition MAX_TXS_PER_BLOCK : nat := Z.to_nat 1000.
Definition GENESIS_HEIGHT : Z := 1.

Inductive TxExecutionError :=
| TeAuth (e : AuthError)
| TeEngine (e : EngineError)
| TeState (e : StateError)
| TeDecode (e : TxError)
| TeInvalidNonce (expected got : Z)
| TeNonceGap (expected got : Z)
| TeNotImplemented (what : string)
| TeUnauthorized.

(** The statuses the gRPC service answers with. *)
Inductive Status := InvalidArgument | Internal.

Record TxExecutionStats := { successful : nat; failed : nat }.
Definition TxExecutionStats_new : TxExecutionStats := {| successful := 0; failed := 0 |}.
Definition record_success (s : TxExecutionStats) : TxExecutionStats :=
  {| successful := S (successful s); failed := failed s |}.
Definition record_failure (s : TxExecutionStats) : TxExecutionStats :=
  {| successful := successful s; failed := S (failed s) |}.

Section exec.
Context {B : Backend} {V : TxEnv} {G : SigEnv}.

(** The components the executor and the service work on. *)
Record Node := {
  nd_engine : Engine;
  nd_auth : AuthService;
  nd_mempool : Mempool;
  nd_max_bytes : Z;
}.
Notation NodeM A := (ST Node TxExecutionError A).

Definition with_nd_engine (e : Engine) (n : Node) : Node :=
  {| nd_engine := e; nd_auth := nd_auth n; nd_mempool := nd_mempool n;
     nd_max_bytes := nd_max_bytes n |}.
Definition with_nd_auth (a : AuthService) (n : Node) : Node :=
  {| nd_engine := nd_engine n; nd_auth := a; nd_mempool := nd_mempool n;
     nd_max_bytes := nd_max_bytes n |}.
Definition with_nd_mempool (p : Mempool) (n : Node) : Node :=
  {| nd_engine := nd_engine n; nd_auth := nd_auth n; nd_mempool := p;
     nd_max_bytes := nd_max_bytes n |}.

Definition nd_state (n : Node) : StateManager := en_state (nd_engine n).
(** [engine.process_*(...)?], on the engine alone and on the node's, and
    [engine.state_mut().*(...)?]. *)
Definition engine_call {A} (m : ST Engine EngineError A) : ST Engine TxExecutionError A :=
  st_map_err TeEngine m.
Definition with_engine {A} (m : ST Engine TxExecutionError A) : NodeM A :=
  st_zoom nd_engine with_nd_engine m.
Definition on_engine {A} (m : ST Engine EngineError A) : NodeM A := with_engine (engine_call m).
Definition on_node_state {E A} (f : StateError -> E) (m : ST StateManager StateError A)
    : ST Node E A :=
  st_map_err f (st_zoom nd_state (fun s n => with_nd_engine (with_en_state s (nd_engine n)) n) m).
Definition auth_result {A} (r : result AuthError A) : result TxExecutionError A := map_err TeAuth r.

(** * The transaction executor (tx_executor.rs) *)

Definition execute_tx_payload_readonly (tx : Transaction) : ST Engine TxExecutionError unit :=
  match tx_payload tx with
  | Deposit d => engine_call (process_deposit (tx_from tx) d)
  | Withdraw w => engine_call (process_withdraw (tx_from tx) w)
  | Transfer t => engine_call (process_transfer (tx_from tx) t)
  | PlaceOrder o => let! _ := engine_call (process_place_order (tx_from tx) o) in st_ret tt
  | CancelOrder c => engine_call (process_cancel_order (tx_from tx) c)
  | ClosePosition p => engine_call (process_close_position (tx_from tx) p)
  | SetAgent a => engine_call (process_set_agent (tx_from tx) a)
  | RemoveAgent a => engine_call (process_remove_agent (tx_from tx) a)
  | BridgeDeposit d => engine_call (process_bridge_deposit (tx_from tx) d)
  | BridgeWithdraw w => engine_call (process_bridge_withdraw (tx_from tx) w)
  | ModifyOrder _ => st_fail (TeNotImplemented "ModifyOrder")
  end.

Definition verify_tx_owner (tx : Transaction) : NodeM unit :=
  let! signer := st_lift (auth_result (recover_signer tx)) in
  st_guard (signer =? tx_from tx) TeUnauthorized.

Definition execute_tx_payload (tx : Transaction) : NodeM unit :=
  match tx_payload tx with
  | SetAgent a =>
      verify_tx_owner tx ;;
      st_modify (fun n =>
        with_nd_auth (auth_set_agent (tx_from tx) (sa_agent a) (sa_permissions a) (nd_auth n)) n) ;;
      on_engine (process_set_agent (tx_from tx) a)
  | RemoveAgent a =>
      verify_tx_owner tx ;;
      st_modify (fun n =>
        with_nd_auth (auth_remove_agent (tx_from tx) (ra_agent a) (nd_auth n)) n) ;;
      on_engine (process_remove_agent (tx_from tx) a)
  | _ => with_engine (execute_tx_payload_readonly tx)
  end.

Definition verify_nonce (tx : Transaction) : NodeM unit :=
  let! current_nonce := st_read (fun n => map_err TeState (get_nonce (nd_state n) (tx_from tx))) in
  match tx_nonce tx ?= current_nonce with
  | Lt => st_fail (TeInvalidNonce current_nonce (tx_nonce tx))
  | Gt => st_fail (TeNonceGap current_nonce (tx_nonce tx))
  | Eq => st_ret tt
  end.

Definition execute (tx : Transaction) : NodeM unit :=
  let hash := tx_hash tx in
  st_lift (auth_result (verify_transaction tx)) ;;
  verify_nonce tx ;;
  execute_tx_payload tx ;;
  let! _ := on_node_state TeState (increment_nonce (tx_from tx)) in
  st_modify (fun n => with_nd_mempool (snd (mp_remove hash (nd_mempool n))) n).

(** One step of the fold of [execute_batch]. *)
Definition execute_bytes (acc : TxExecutionStats * Node) (tx_bytes : list Z)
    : TxExecutionStats * Node :=
  let '(stats, n) := acc in
  match decode_tx tx_bytes with
  | Err _ => (record_failure stats, n)
  | Ok tx =>
      let '(r, n) := execute tx n in
      ((if is_ok r then record_success stats else record_failure stats), n)
  end.

Definition execute_batch (tx_bytes_list : list (list Z)) (n : Node) : TxExecutionStats * Node :=
  foldl execute_bytes (TxExecutionStats_new, n) tx_bytes_list.

(** The free functions around an executor, which borrows the node's components;
    the height it carries is only logged. *)
Definition execute_payload (tx : Transaction) : NodeM unit := execute_tx_payload tx.
Definition execute_single_tx (_block_height : Z) (tx : Transaction) : NodeM unit := execute tx.
Definition execute_tx_batch (_block_height : Z) (tx_bytes_list : list (list Z)) (n : Node)
    : TxExecutionStats * Node :=
  execute_batch tx_bytes_list n.

(** * The block service (server.rs) *)

Definition default_assets : list Asset := [
  {| a_id := 0; a_symbol := "USDC"; a_name := "USD Coin"; a_decimals := 6;
     a_is_collateral := true; a_collateral_weight_bps := 10000 |};
  {| a_id := 1; a_symbol := "USDT"; a_name := "Tether USD"; a_decimals := 6;
     a_is_collateral := true; a_collateral_weight_bps := 9800 |};
  {| a_id := 2; a_symbol := "DAI"; a_name := "Dai Stablecoin"; a_decimals := 18;
     a_is_collateral := true; a_collateral_weight_bps := 9500 |}].

Definition Node_on (state : StateManager) : Node := {|
  nd_engine := Engine_new state;
  nd_auth := AuthService_new;
  nd_mempool := Mempool_new MempoolConfig_default;
  nd_max_bytes := DEFAULT_MAX_BYTES |}.

(** The [expect] on the state manager panics ([None]) when the database cannot
    be opened. *)
Definition Node_new (opened : result StateError (gmap StorageKey DbValue)) (h : HashState) : option Node :=
  match StateManager_open opened PruningConfig_default h with
  | Ok state => Some (Node_on state)
  | Err _ => None
  end.

Definition initialize_assets : ST Node StateError unit :=
  st_for default_assets (fun asset => on_node_state id (set_asset (a_id asset) asset)).

Definition initialize_bridge_operators (operators : list Address) : ST Node StateError unit :=
  st_for operators (fun op => on_node_state id (set_bridge_operator op true)).

Definition validate_init_chain (chain_id : string) (initial_height : Z) : result Status Z :=
  if bool_decide (chain_id = "") then Err InvalidArgument
  else Ok (if initial_height =? 0 then GENESIS_HEIGHT else initial_height).

(** The [scan] over the encoded transactions: stop before the first that no
    longer fits. *)
Fixpoint scan_fit (max_bytes total : Z) (encoded : list (list Z)) : list (list Z) :=
  match encoded with
  | [] => []
  | e :: rest =>
      let tx_size := Z.of_nat (length e) in
      if max_bytes <? wadd64 total tx_size then []
      else e :: scan_fit max_bytes (wadd64 total tx_size) rest
  end.

Definition fetch_txs_from_mempool (n : Node) : list (list Z) :=
  scan_fit (nd_max_bytes n) 0 (map encode (ready_txs (nd_mempool n) MAX_TXS_PER_BLOCK)).

(** Both block responses carry the state root's bytes and the size limit. *)
Definition block_response (root : B256) (n : Node) : list Z * Z := (b256_slice root, nd_max_bytes n).

Definition nd_begin_block (height : Z) (n : Node) : Node :=
  with_nd_engine (with_en_state (begin_block height (nd_state n)) (nd_engine n)) n.

Definition init_chain (chain_id : string) (initial_height : Z) : ST Node Status (list Z * Z) :=
  let! height := st_lift (validate_init_chain chain_id initial_height) in
  st_modify (nd_begin_block height) ;;
  let! root := on_node_state (fun _ => Internal) commit in
  st_gets (block_response root).

Definition get_txs (n : Node) : list (list Z) := fetch_txs_from_mempool n.

Definition execute_txs (block_height : Z) (block : list (list Z)) : ST Node Status (list Z * Z) :=
  st_modify (nd_begin_block block_height) ;;
  st_modify (fun n => snd (execute_batch block n)) ;;
  let! root := on_node_state (fun _ => Internal) commit in
  st_gets (block_response root).

(** [set_final] only logs. *)
Definition set_final (_block_height : Z) : ST Node Status unit := st_ret tt.

End exec.

(** * Nonces *)

Section nonces.
Context {B : Backend} {Bok : BackendOk B} {V : TxEnv} {G : SigEnv}.
Implicit Types (n : Node) (tx : Transaction).

(** Every key but the nonces. *)
Definition not_nonce (k : StateKey) : Prop := forall a, k <> SK_Nonce a.

Lemma trade_not_nonce k : trade_key k -> not_nonce k.
Proof. intros H a ->. destruct H as [H|[H|H]]; cbn in H; done. Qed.

Lemma frames_svc_balance a i v : frames ss_state not_nonce (svc_state (set_balance a i v)).
Proof.
  apply frames_svc_state. eapply frames_weaken; [|apply frames_set_balance]. by intros k <- b.
Qed.
Lemma frames_svc_read {A} P (f : StateManager -> result StateError A) :
  frames ss_state P (svc_read f).
Proof. by apply frames_id. Qed.
Lemma frames_svc_emit P e : frames ss_state P (emit e).
Proof. by apply frames_id. Qed.

Ltac account_frames :=
  repeat (frames_step || apply frames_svc_balance || apply frames_svc_read || apply frames_svc_emit).

Lemma frames_deposit a d : frames ss_state not_nonce (deposit a d).
Proof. unfold deposit, update_balance. account_frames. Qed.
Lemma frames_withdraw a w : frames ss_state not_nonce (withdraw a w).
Proof. unfold withdraw, update_balance. account_frames. Qed.
Lemma frames_transfer a t : frames ss_state not_nonce (transfer a t).
Proof. unfold transfer. account_frames. Qed.
Lemma frames_bridge_deposit a d : frames ss_state not_nonce (bridge_deposit a d).
Proof. unfold bridge_deposit. account_frames. Qed.
Lemma frames_bridge_withdraw a w : frames ss_state not_nonce (bridge_withdraw a w).
Proof. unfold bridge_withdraw. account_frames. Qed.
Lemma frames_set_agent a s : frames ss_state not_nonce (set_agent a s).
Proof. apply frames_svc_emit. Qed.
Lemma frames_remove_agent a r : frames ss_state not_nonce (remove_agent a r).
Proof. apply frames_svc_emit. Qed.

Lemma frames_call_services {A} P (m : ST SvcState EngineError A) :
  frames ss_state P m -> frames en_state P (engine_call (on_services m)).
Proof. intros H. apply frames_map_err. by eapply (frames_zoom _ ss_state). Qed.

Lemma frames_with_engine {A} P (m : ST Engine TxExecutionError A) :
  frames en_state P m -> frames nd_state P (with_engine m).
Proof. intros H. by eapply (frames_zoom _ en_state). Qed.

Lemma frames_on_services {A} P (m : ST SvcState EngineError A) :
  frames ss_state P m -> frames nd_state P (on_engine (on_services m)).
Proof. intros H. by apply frames_with_engine, frames_call_services. Qed.

Lemma frames_payload_readonly tx : frames en_state not_nonce (execute_tx_payload_readonly tx).
Proof.
  assert (Ht : forall A (m : ST SvcState EngineError A),
    frames ss_state trade_key m -> frames ss_state not_nonce m).
  { intros A m H. eapply frames_weaken; [apply trade_not_nonce|exact H]. }
  unfold execute_tx_payload_readonly. destruct (tx_payload tx);
    try apply frames_call_services;
    auto using frames_deposit, frames_withdraw, frames_transfer, frames_bridge_deposit,
      frames_bridge_withdraw, frames_set_agent, frames_remove_agent,
      frames_cancel_order, frames_close_position.
  - apply frames_bind; [apply frames_call_services, Ht, frames_place_order|by intros; apply frames_id].
  - by apply frames_id.
Qed.

Lemma frames_payload tx : frames nd_state not_nonce (execute_tx_payload tx).
Proof.
  unfold execute_tx_payload. pose proof (frames_with_engine _ _ (frames_payload_readonly tx)) as Hr.
  destruct (tx_payload tx); try exact Hr; clear Hr; unfold verify_tx_owner;
    repeat first [frames_step | apply frames_on_services, frames_svc_emit | by apply frames_id].
Qed.

End nonces.

(** * Executing a transaction *)

Section executing.
Context {B : Backend} {Bok : BackendOk B} {V : TxEnv} {G : SigEnv}.
Implicit Types (n : Node) (tx : Transaction).

(** The pool is [p] and no account but [from] has other agents than in [f]. *)
Definition beside p (from : Address) (f : Address -> Address -> option Z) n : Prop :=
  nd_mempool n = p /\
  forall a g, a <> from -> agent_permissions (nd_auth n) a g = f a g.

Lemma preserves_with_engine {A} p from f (m : ST Engine TxExecutionError A) :
  preserves (beside p from f) (with_engine m).
Proof. intros n H. unfold with_engine, st_zoom. by destruct (m (nd_engine n)). Qed.

Lemma preserves_payload p f tx : preserves (beside p (tx_from tx) f) (execute_tx_payload tx).
Proof.
  unfold execute_tx_payload.
  pose proof (preserves_with_engine p (tx_from tx) f (execute_tx_payload_readonly tx)) as Hr.
  destruct (tx_payload tx); try exact Hr; clear Hr; unfold verify_tx_owner;
    (apply preserves_bind; [apply preserves_bind; [apply preserves_lift|
       intros; apply preserves_guard]|intros _]);
    (apply preserves_bind; [|intros _; apply preserves_with_engine]);
    intros n [Hp Hf]; (split; [exact Hp|]); intros x g Hx; rewrite <- Hf by done;
    unfold agent_permissions; cbn [snd st_modify nd_auth with_nd_auth auth_set_agent
      auth_remove_agent on_agents as_agents];
    rewrite ?get_permissions_set, ?get_permissions_remove, decide_False by congruence; done.
Qed.

Lemma payload_beside tx n :
  nd_mempool (snd (execute_tx_payload tx n)) = nd_mempool n /\
  forall a g, a <> tx_from tx ->
    agent_permissions (nd_auth (snd (execute_tx_payload tx n))) a g =
    agent_permissions (nd_auth n) a g.
Proof. by apply (preserves_payload (nd_mempool n) (agent_permissions (nd_auth n)) tx n). Qed.

Lemma payload_nonces tx n a :
  get_nonce (nd_state (snd (execute_tx_payload tx n))) a = get_nonce (nd_state n) a.
Proof.
  eapply get_nonce_frame; [apply (frames_payload tx n)|]. intros H. by apply (H a).
Qed.

Lemma increment_nonce_run s a k :
  get_nonce s a = Ok k ->
  exists s', increment_nonce a s = (Ok (wadd64 k 1), s') /\ get_nonce s' a = Ok (wadd64 k 1) /\
    forall b, b <> a -> get_nonce s' b = get_nonce s b.
Proof.
  intros Hk. unfold increment_nonce. erewrite st_read_bind by exact Hk. cbv zeta.
  destruct (set_succeeds _ (SK_Nonce a) (wadd64 k 1) s) as [s' E].
  exists s'. split_and!.
  - by erewrite st_bind_eq by exact E.
  - by eapply get_nonce_set_same.
  - intros b Hb. eapply get_nonce_frame; [exact (set_frame _ _ _ _ _ _ E)|]. congruence.
Qed.

(** The node with another state; and what a finished payload is followed by: the
    state with the sender's nonce moved, and the pool without the transaction. *)
Definition with_node_state s n : Node := with_nd_engine (with_en_state s (nd_engine n)) n.
Definition finished tx s n : Node :=
  let n := with_node_state s n in with_nd_mempool (snd (mp_remove (tx_hash tx) (nd_mempool n))) n.

Lemma execute_after_checks tx n :
  verify_transaction tx = Ok tt -> get_nonce (nd_state n) (tx_from tx) = Ok (tx_nonce tx) ->
  match execute_tx_payload tx n with
  | (Err e, n1) => execute tx n = (Err e, n1)
  | (Ok _, n1) => exists s,
      increment_nonce (tx_from tx) (nd_state n1) = (Ok (wadd64 (tx_nonce tx) 1), s) /\
      execute tx n = (Ok tt, finished tx s n1)
  end.
Proof.
  intros Hv Hn. unfold execute.
  assert (Hv' : auth_result (verify_transaction tx) = Ok tt) by (unfold auth_result; by rewrite Hv).
  assert (Hvn : verify_nonce tx n = (Ok tt, n)).
  { unfold verify_nonce. erewrite st_read_bind by (by rewrite Hn). by rewrite Z.compare_refl. }
  erewrite st_bind_eq by (unfold st_lift; rewrite Hv'; reflexivity).
  erewrite st_bind_eq by exact Hvn.
  pose proof (payload_nonces tx n) as Hpn.
  destruct (execute_tx_payload tx n) as [[[]|e] n1] eqn:E; [|by erewrite st_bind_err by exact E].
  erewrite st_bind_eq by exact E. cbn [snd] in Hpn.
  destruct (increment_nonce_run (nd_state n1) (tx_from tx) (tx_nonce tx)) as (s' & R & _).
  { by rewrite Hpn. }
  exists s'. split; [exact R|].
  erewrite st_bind_eq; [reflexivity|]. unfold on_node_state, st_map_err, st_zoom. by rewrite R.
Qed.

(** What comes after the checks. *)
Lemma execute_checked tx n :
  verify_transaction tx = Ok tt -> get_nonce (nd_state n) (tx_from tx) = Ok (tx_nonce tx) ->
  match execute_tx_payload tx n with
  | (Err e, n1) => execute tx n = (Err e, n1)
  | (Ok _, n1) => exists n', execute tx n = (Ok tt, n') /\
      nd_mempool n' = snd (mp_remove (tx_hash tx) (nd_mempool n1)) /\ nd_auth n' = nd_auth n1 /\
      get_nonce (nd_state n') (tx_from tx) = Ok (wadd64 (tx_nonce tx) 1) /\
      forall b, b <> tx_from tx -> get_nonce (nd_state n') b = get_nonce (nd_state n) b
  end.
Proof.
  intros Hv Hn. pose proof (execute_after_checks tx n Hv Hn) as H.
  pose proof (payload_nonces tx n) as Hpn.
  destruct (execute_tx_payload tx n) as [[[]|e] n1]; cbn [snd] in *; [|exact H].
  destruct H as (s & R & Ex).
  destruct (increment_nonce_run (nd_state n1) (tx_from tx) (tx_nonce tx)) as (s' & R' & Hs & Ho).
  { by rewrite Hpn. }
  rewrite R in R'. injection R' as <-. exists (finished tx s n1).
  split_and!; [exact Ex|done|done|exact Hs|]. intros b Hb. cbn. by rewrite Ho, Hpn.
Qed.

(** What the checks refuse. *)
Lemma execute_refused tx n :
  (exists e, verify_transaction tx = Err e /\ execute tx n = (Err (TeAuth e), n)) \/
  (exists e, get_nonce (nd_state n) (tx_from tx) = Err e /\ execute tx n = (Err (TeState e), n)) \/
  (exists k, get_nonce (nd_state n) (tx_from tx) = Ok k /\ tx_nonce tx < k /\
     execute tx n = (Err (TeInvalidNonce k (tx_nonce tx)), n)) \/
  (exists k, get_nonce (nd_state n) (tx_from tx) = Ok k /\ k < tx_nonce tx /\
     execute tx n = (Err (TeNonceGap k (tx_nonce tx)), n)) \/
  (verify_transaction tx = Ok tt /\ get_nonce (nd_state n) (tx_from tx) = Ok (tx_nonce tx)).
Proof.
  destruct (verify_transaction tx) as [[]|e] eqn:Ev.
  2:{ left. exists e. split; [done|]. unfold execute. erewrite st_bind_err; [done|].
      unfold st_lift, auth_result. by rewrite Ev. }
  right. assert (Hb : forall (k : ST Node TxExecutionError unit),
    (st_lift (auth_result (verify_transaction tx)) ;; k) n = k n).
  { intros k. unfold auth_result. rewrite Ev. by erewrite st_bind_eq by reflexivity. }
  unfold execute. rewrite Hb. unfold verify_nonce.
  destruct (get_nonce (nd_state n) (tx_from tx)) as [k|e] eqn:Ek.
  2:{ left. exists e. split; [done|]. erewrite st_bind_err; [done|].
      erewrite st_bind_err; [done|]. unfold st_read. by rewrite Ek. }
  right. assert (Hr : forall C (c : Z -> ST Node TxExecutionError C),
    (let! x := st_read (fun n0 => map_err TeState (get_nonce (nd_state n0) (tx_from tx))) in c x) n
    = c k n).
  { intros C c. by erewrite st_read_bind by (by rewrite Ek). }
  destruct (Z.compare_spec (tx_nonce tx) k) as [->|Hlt|Hgt].
  - right; right. done.
  - left. exists k. split_and!; [done|done|]. erewrite st_bind_err; [done|].
    rewrite Hr. apply Z.compare_lt_iff in Hlt. by rewrite Hlt.
  - right; left. exists k. split_and!; [done|done|]. erewrite st_bind_err; [done|].
    rewrite Hr. apply Z.compare_gt_iff in Hgt. by rewrite Hgt.
Qed.

Lemma verify_transaction_Ok tx : verify_transaction tx = Ok tt <-> recover_signer tx = Ok (tx_from tx).
Proof.
  unfold verify_transaction. destruct (recover_signer tx) as [a|e]; cbn; [|done].
  destruct (Z.eqb_spec a (tx_from tx)); split; intros H; try done; congruence.
Qed.

Lemma engine_call_error {A} (m : ST Engine EngineError A) e x :
  fst (engine_call m e) = Err x -> exists y, x = TeEngine y.
Proof.
  unfold engine_call, st_map_err. destruct (m e) as [[a|y] e']; cbn; [done|].
  intros [= <-]. eauto.
Qed.
Lemma with_engine_result {A} (m : ST Engine TxExecutionError A) n :
  fst (with_engine m n) = fst (m (nd_engine n)).
Proof. unfold with_engine, st_zoom. by destruct (m (nd_engine n)). Qed.

Lemma payload_readonly_error tx e x :
  fst (execute_tx_payload_readonly tx e) = Err x ->
  (exists y, x = TeEngine y) \/ x = TeNotImplemented "ModifyOrder".
Proof.
  unfold execute_tx_payload_readonly.
  destruct (tx_payload tx); intros H; try (left; eapply engine_call_error; exact H).
  - left. apply (engine_call_error (process_place_order (tx_from tx) o) e).
    revert H. unfold st_bind. destruct (engine_call _ e) as [[|y] e1]; cbn; [done|by intros [= <-]].
  - right. unfold st_fail in H. by injection H as <-.
Qed.

(** Past the checks only the engine fails, or the unsupported payload. *)
Lemma payload_error tx n e :
  recover_signer tx = Ok (tx_from tx) -> fst (execute_tx_payload tx n) = Err e ->
  (exists x, e = TeEngine x) \/ e = TeNotImplemented "ModifyOrder".
Proof.
  intros Hr. assert (Ho : forall (k : ST Node TxExecutionError unit),
    (verify_tx_owner tx ;; k) n = k n).
  { intros k. unfold verify_tx_owner, auth_result. rewrite Hr. unfold st_bind, st_lift. cbn.
    by rewrite Z.eqb_refl. }
  unfold execute_tx_payload. pose proof (payload_readonly_error tx (nd_engine n) e) as Hro.
  destruct (tx_payload tx); rewrite ?Ho; intros H; try (rewrite with_engine_result in H; by apply Hro).
  all: left; unfold st_bind, st_modify, on_engine in H; rewrite with_engine_result in H;
    eapply engine_call_error; exact H.
Qed.

(** ** What the executor does to the engine *)

Lemma with_engine_engine {A} (m : ST Engine TxExecutionError A) n :
  nd_engine (snd (with_engine m n)) = snd (m (nd_engine n)).
Proof. unfold with_engine, st_zoom. by destruct (m (nd_engine n)). Qed.

Lemma verify_tx_owner_cases tx (k : ST Node TxExecutionError unit) n :
  (exists e, (verify_tx_owner tx ;; k) n = (Err e, n)) \/ (verify_tx_owner tx ;; k) n = k n.
Proof.
  unfold verify_tx_owner, st_bind, st_lift, st_guard.
  destruct (auth_result (recover_signer tx)) as [a|e]; cbn; [|eauto].
  destruct (a =? tx_from tx); cbn; eauto.
Qed.

(** A payload does on the engine what its read-only version does. *)
Lemma payload_engine tx n :
  (exists e, execute_tx_payload tx n = (Err e, n)) \/
  (fst (execute_tx_payload tx n) = fst (execute_tx_payload_readonly tx (nd_engine n)) /\
   nd_engine (snd (execute_tx_payload tx n)) = snd (execute_tx_payload_readonly tx (nd_engine n))).
Proof.
  unfold execute_tx_payload, execute_tx_payload_readonly.
  destruct (tx_payload tx); try (by right; rewrite with_engine_result, with_engine_engine);
    match goal with |- context [(verify_tx_owner ?tx ;; ?k) ?n] =>
      destruct (verify_tx_owner_cases tx k n) as [H| ->]; [by left|right] end;
    unfold st_bind, st_modify, on_engine; by rewrite with_engine_result, with_engine_engine.
Qed.

(** A transaction leaves the engine alone, or runs its payload and fails with
    it, or runs it and then moves the sender's nonce. *)
Lemma execute_engine tx n :
  (exists x, execute tx n = (Err x, n)) \/
  exists r e, execute_tx_payload_readonly tx (nd_engine n) = (r, e) /\
    fst (execute tx n) = r /\
    match r with
    | Err _ => nd_engine (snd (execute tx n)) = e
    | Ok _ => exists s, frame (eq (SK_Nonce (tx_from tx))) (en_state e) s /\
                nd_engine (snd (execute tx n)) = with_en_state s e
    end.
Proof.
  destruct (execute_refused tx n) as [(x & _ & H)|[(x & _ & H)|[(x & _ & _ & H)|[(x & _ & _ & H)|[Hv Hn]]]]];
    try (left; eauto; fail).
  unfold execute.
  assert (Hvn : verify_nonce tx n = (Ok tt, n)).
  { unfold verify_nonce. erewrite st_read_bind by (by rewrite Hn). by rewrite Z.compare_refl. }
  erewrite st_bind_eq by (unfold st_lift, auth_result; rewrite Hv; reflexivity).
  erewrite st_bind_eq by exact Hvn.
  pose proof (payload_nonces tx n (tx_from tx)) as Hpn.
  destruct (payload_engine tx n) as [(x & E)|[E1 E2]].
  { left. exists x. by erewrite st_bind_err by exact E. }
  right. destruct (execute_tx_payload tx n) as [r n1] eqn:E. cbn [fst snd] in E1, E2, Hpn.
  exists r, (nd_engine n1). split; [rewrite E1, E2; by destruct (execute_tx_payload_readonly tx (nd_engine n))|].
  destruct r as [[]|x]; [|by erewrite st_bind_err by exact E].
  erewrite st_bind_eq by exact E. rewrite Hn in Hpn.
  destruct (increment_nonce_run _ _ _ Hpn) as (s' & R & _).
  assert (F : frame (eq (SK_Nonce (tx_from tx))) (nd_state n1) s')
    by (eapply frames_run_id; [apply frames_increment_nonce|exact R]).
  unfold st_bind, on_node_state, st_map_err, st_zoom. rewrite R. cbn. split; [done|by exists s'].
Qed.

(** C11: a transaction is executed only when its own sender signed it with
    exactly the sender's current nonce; then the nonce goes up by one, no
    other nonce moves and the transaction leaves the pool. A refused or
    failed one moves no nonce and stays in the pool (so it may be tried again),
    a refused one changes nothing at all, and the nonce errors say what was
    expected. Only its sender's agents may change. *)
Theorem execute_exact tx n :
  let '(r, n') := execute tx n in
  let nonce m a := get_nonce (nd_state m) a in
  (forall a g, a <> tx_from tx ->
     agent_permissions (nd_auth n') a g = agent_permissions (nd_auth n) a g) /\
  match r with
  | Ok _ =>
      recover_signer tx = Ok (tx_from tx) /\
      nonce n (tx_from tx) = Ok (tx_nonce tx) /\
      nonce n' (tx_from tx) = Ok (wadd64 (tx_nonce tx) 1) /\
      (forall a, a <> tx_from tx -> nonce n' a = nonce n a) /\
      nd_mempool n' = snd (mp_remove (tx_hash tx) (nd_mempool n))
  | Err e =>
      (forall a, nonce n' a = nonce n a) /\ nd_mempool n' = nd_mempool n /\
      match e with
      | TeAuth _ => recover_signer tx <> Ok (tx_from tx) /\ n' = n
      | TeInvalidNonce k g => nonce n (tx_from tx) = Ok k /\ g = tx_nonce tx /\ g < k /\ n' = n
      | TeNonceGap k g => nonce n (tx_from tx) = Ok k /\ g = tx_nonce tx /\ k < g /\ n' = n
      | TeState x => nonce n (tx_from tx) = Err x /\ n' = n
      | TeEngine _ | TeNotImplemented _ =>
          recover_signer tx = Ok (tx_from tx) /\ nonce n (tx_from tx) = Ok (tx_nonce tx) /\
          n' = snd (execute_tx_payload tx n)
      | TeDecode _ | TeUnauthorized => False
      end
  end.
Proof.
  destruct (execute_refused tx n) as
    [(e & H1 & ->)|[(e & H1 & ->)|[(k & H1 & H2 & ->)|[(k & H1 & H2 & ->)|[Hv Hn]]]]]; try done.
  - split_and!; [done|done|done| |done]. intros Hr.
    apply verify_transaction_Ok in Hr. congruence.
  - pose proof (execute_checked tx n Hv Hn) as H. pose proof (payload_beside tx n) as [Hp Hf].
    pose proof (payload_nonces tx n) as Hpn. apply verify_transaction_Ok in Hv.
    pose proof (payload_error tx n) as Hpe.
    destruct (execute_tx_payload tx n) as [[[]|e] n1]; cbn [fst snd] in *.
    + destruct H as (n' & -> & Hm & Ha & Hk & Ho). split_and!; [|done|done|done|exact Ho|by rewrite Hm, Hp].
      intros a g Hag. by rewrite Ha, Hf.
    + rewrite H. split_and!; [done|done|done|].
      destruct (Hpe e Hv eq_refl) as [[x ->]| ->]; done.
Qed.

(** The transaction of a successful execution leaves the pool. *)
Lemma execute_leaves_pool tx n n' :
  execute tx n = (Ok tt, n') -> nd_mempool n' = snd (mp_remove (tx_hash tx) (nd_mempool n)).
Proof.
  intros E.
  destruct (execute_refused tx n) as
    [(e & _ & R)|[(e & _ & R)|[(k & _ & _ & R)|[(k & _ & _ & R)|[Hv Hn]]]]]; try congruence.
  pose proof (execute_checked tx n Hv Hn) as H. pose proof (payload_beside tx n) as [Hp _].
  destruct (execute_tx_payload tx n) as [[[]|e] n1]; cbn [fst snd] in *; [|congruence].
  destruct H as (n2 & R & Hm & _). rewrite E in R. injection R as ->. by rewrite Hm, Hp.
Qed.

(** * Executing a block *)

Definition decoded (tx_bytes : list Z) : option Transaction :=
  match decode_tx tx_bytes with Ok tx => Some tx | Err _ => None end.
Definition sent_by (a : Address) (txs : list Transaction) : list Transaction :=
  filter (fun tx => tx_from tx = a) txs.

(** One entry of a block, run on a node: what it was taken for, the transaction
    it executed, and the node it leaves.
    - it does not decode: nothing changes;
    - its signature or its nonce is refused: nothing changes;
    - its payload is run once and fails: the node is the one the payload leaves;
    - its payload is run once and succeeds: then its sender's nonce is moved and
      it is taken out of the pool. *)
Inductive entry_run n (entry : list Z) : option Transaction -> Node -> Prop :=
  | entry_garbage e : decode_tx entry = Err e -> entry_run n entry None n
  | entry_refused tx :
      decode_tx entry = Ok tx ->
      verify_transaction tx <> Ok tt \/ get_nonce (nd_state n) (tx_from tx) <> Ok (tx_nonce tx) ->
      entry_run n entry None n
  | entry_failed tx e n' :
      decode_tx entry = Ok tx -> verify_transaction tx = Ok tt ->
      get_nonce (nd_state n) (tx_from tx) = Ok (tx_nonce tx) ->
      execute_tx_payload tx n = (Err e, n') -> entry_run n entry None n'
  | entry_executed tx n1 s :
      decode_tx entry = Ok tx -> verify_transaction tx = Ok tt ->
      get_nonce (nd_state n) (tx_from tx) = Ok (tx_nonce tx) ->
      execute_tx_payload tx n = (Ok tt, n1) ->
      increment_nonce (tx_from tx) (nd_state n1) = (Ok (wadd64 (tx_nonce tx) 1), s) ->
      entry_run n entry (Some tx) (finished tx s n1).

(** The entries of a block one after the other, and what was executed. *)
Inductive block_run : Node -> list (list Z) -> list Transaction -> Node -> Prop :=
  | block_end n : block_run n [] [] n
  | block_entry n entry o n1 block done n' :
      entry_run n entry o n1 -> block_run n1 block done n' ->
      block_run n (entry :: block) (option_list o ++ done) n'.

(** The step of the fold is a run of the entry, counted. *)
Lemma execute_bytes_run stats n b : exists o n',
  execute_bytes (stats, n) b =
    (match o with Some _ => record_success stats | None => record_failure stats end, n') /\
  entry_run n b o n'.
Proof.
  unfold execute_bytes. destruct (decode_tx b) as [tx|e] eqn:Ed.
  2:{ exists None, n. split; [done|]. by eapply entry_garbage. }
  pose proof (execute_after_checks tx n) as Hok.
  destruct (execute_refused tx n)
    as [(e & R & ->)|[(e & R & ->)|[(k & R & ? & ->)|[(k & R & ? & ->)|[Hv Hn]]]]];
    try (exists None, n; split; [done|]; eapply entry_refused; [exact Ed|rewrite R];
         first [by left | right; intros [=]; lia]; fail).
  specialize (Hok Hv Hn). destruct (execute_tx_payload tx n) as [[[]|e] n1] eqn:E.
  - destruct Hok as (s & R & ->). exists (Some tx), (finished tx s n1). split; [done|].
    by eapply entry_executed.
  - rewrite Hok. exists None, n1. split; [done|]. by eapply entry_failed.
Qed.

(** What a run of an entry does to the nonces. *)
Lemma entry_run_nonces n b o n' :
  entry_run n b o n' ->
  match o with
  | Some tx =>
      decoded b = Some tx /\ recover_signer tx = Ok (tx_from tx) /\
      get_nonce (nd_state n) (tx_from tx) = Ok (tx_nonce tx) /\
      get_nonce (nd_state n') (tx_from tx) = Ok (wadd64 (tx_nonce tx) 1) /\
      forall a, a <> tx_from tx -> get_nonce (nd_state n') a = get_nonce (nd_state n) a
  | None => forall a, get_nonce (nd_state n') a = get_nonce (nd_state n) a
  end.
Proof.
  intros [e H|tx H _|tx e n2 H Hv Hn E|tx n1 s H Hv Hn E R]; try done.
  - intros a. pose proof (payload_nonces tx n a) as Hp. by rewrite E in Hp.
  - pose proof (execute_checked tx n Hv Hn) as Hc. pose proof (execute_after_checks tx n Hv Hn) as Ha.
    rewrite E in Hc, Ha. destruct Hc as (m & Em & _ & _ & Hk & Ho).
    destruct Ha as (s' & R' & Ea). rewrite R in R'. injection R' as <-.
    rewrite Ea in Em. injection Em as <-.
    split_and!; [unfold decoded; by rewrite H|by apply verify_transaction_Ok|done|done|done].
Qed.

Lemma block_run_sublist n block done n' :
  block_run n block done n' ->
  done `sublist_of` omap decoded block /\
  Forall (fun tx => recover_signer tx = Ok (tx_from tx)) done.
Proof.
  induction 1 as [n|n b o n1 block done n' He _ [IH1 IH2]]; [by split; constructor|].
  apply entry_run_nonces in He. cbn [omap list_omap]. destruct o as [tx|]; cbn.
  - destruct He as (-> & Hr & _). by split; constructor.
  - split; [|done]. destruct (decoded b); [by constructor|done].
Qed.

Lemma block_run_nonces n block done n' :
  block_run n block done n' -> forall a k,
  get_nonce (nd_state n) a = Ok k -> 0 <= k -> k + Z.of_nat (length block) <= U64_MAX ->
  get_nonce (nd_state n') a = Ok (k + Z.of_nat (length (sent_by a done))) /\
  map tx_nonce (sent_by a done) = seqZ k (Z.of_nat (length (sent_by a done))).
Proof.
  induction 1 as [n|n b o n1 block done n' He _ IH]; intros a k Hk H0 Hmax.
  { cbn. by rewrite Z.add_0_r. }
  apply entry_run_nonces in He. cbn [length] in Hmax. destruct o as [tx|]; simpl (option_list _ ++ _).
  2:{ rewrite <- He in Hk. apply IH; [done|lia|lia]. }
  destruct He as (_ & _ & Hn & Hn1 & Ho). unfold sent_by. rewrite filter_cons.
  destruct (decide (tx_from tx = a)) as [<-|Ha].
  - assert (tx_nonce tx = k) as Et by congruence.
    assert (Ew : wadd64 (tx_nonce tx) 1 = k + 1).
    { rewrite Et. unfold wadd64. apply as_u64_id. unfold is_u64, U64_MAX in *. lia. }
    rewrite Ew in Hn1. destruct (IH _ _ Hn1) as [N1 N2]; [lia|lia|].
    unfold sent_by in *. rewrite N1. cbn [map length]. rewrite N2, Et.
    split; [f_equal; lia|]. rewrite (seqZ_cons k) by lia. f_equal. f_equal; lia.
  - rewrite <- Ho in Hk by congruence. apply IH; [done|lia|lia].
Qed.

Lemma execute_block block : forall stats n,
  exists done stats' n',
    foldl execute_bytes (stats, n) block = (stats', n') /\
    (successful stats' = successful stats + length done)%nat /\
    (successful stats' + failed stats' = successful stats + failed stats + length block)%nat /\
    block_run n block done n'.
Proof.
  induction block as [|b block IH]; intros stats n.
  - exists [], stats, n. split_and!; [done|cbn; lia|cbn; lia|constructor].
  - cbn [foldl]. destruct (execute_bytes_run stats n b) as (o & n1 & -> & He).
    destruct (IH (match o with Some _ => record_success stats | None => record_failure stats end) n1)
      as (done & st' & n' & E & S1 & S2 & Hrun).
    exists (option_list o ++ done), st', n'. rewrite E, length_app.
    split_and!; [done| | |by econstructor];
      destruct o; cbn [successful failed record_success record_failure length] in *; rewrite ?length_app; simpl; lia.
Qed.

(** C10: executing a block runs its entries one after the other, each once:
    one that does not decode, or whose signature or nonce is refused, changes
    nothing; of the others the payload is run exactly once, a failing one leaving
    the node the payload left, a successful one being followed by the step of its
    sender's nonce and its removal from the pool.  Every entry is counted once;
    the executed transactions are a part of the decoded ones, in order, each
    signed by its sender.  And for every sender whose nonce k before the block
    can be read and leaves room for the block (k plus the number of its entries
    fits 64 bits) exactly the transactions numbered k, k+1, ... were executed, so
    nothing is executed twice and no number is skipped, and its nonce ends right
    after the last. *)
Theorem execute_batch_exact block n :
  let '(stats, n') := execute_batch block n in
  exists done,
    block_run n block done n' /\
    length done = successful stats /\ (successful stats + failed stats = length block)%nat /\
    done `sublist_of` omap decoded block /\
    Forall (fun tx => recover_signer tx = Ok (tx_from tx)) done /\
    forall a k, get_nonce (nd_state n) a = Ok k -> 0 <= k -> k + Z.of_nat (length block) <= U64_MAX ->
      get_nonce (nd_state n') a = Ok (k + Z.of_nat (length (sent_by a done))) /\
      map tx_nonce (sent_by a done) = seqZ k (Z.of_nat (length (sent_by a done))).
Proof.
  unfold execute_batch. destruct (execute_block block TxExecutionStats_new n)
    as (done & st' & n' & -> & S1 & S2 & Hrun). exists done. cbn in S1, S2.
  destruct (block_run_sublist _ _ _ _ Hrun) as [Hsub Hall].
  split_and!; [done|by rewrite S1|done|done|done|]. by apply block_run_nonces.
Qed.

End executing.

(** * Building and committing blocks *)

Section blocks.
Context {B : Backend} {Bok : BackendOk B} {V : TxEnv} {G : SigEnv}.
Implicit Types (n : Node) (tx : Transaction).

Definition byte_count (block : list (list Z)) : Z := sumZ (fun e => Z.of_nat (length e)) block.

(** [scan_fit] keeps the longest prefix that fits. *)
Lemma scan_fit_spec max_bytes l : forall total,
  0 <= total <= max_bytes -> max_bytes < 2 ^ 63 ->
  Forall (fun e => Z.of_nat (length e) < 2 ^ 63) l ->
  exists m, scan_fit max_bytes total l = take m l /\ (m <= length l)%nat /\
    total + byte_count (take m l) <= max_bytes /\
    (forall e, l !! m = Some e -> max_bytes < total + byte_count (take m l) + Z.of_nat (length e)).
Proof.
  induction l as [|e l IH]; intros total Ht Hmax Hl.
  - exists 0%nat. unfold byte_count. cbn. split_and!; [done|lia|lia|done].
  - apply Forall_cons in Hl as [He Hl]. cbn [scan_fit].
    assert (Ew : wadd64 total (Z.of_nat (length e)) = total + Z.of_nat (length e)).
    { unfold wadd64. apply as_u64_id. unfold is_u64, U64_MAX. lia. }
    rewrite Ew. destruct (Z.ltb_spec max_bytes (total + Z.of_nat (length e))) as [Hlt|Hle].
    + exists 0%nat. unfold byte_count. cbn. split_and!; [done|lia|lia|]. intros ? [= <-]. lia.
    + destruct (IH (total + Z.of_nat (length e))) as (m & E & Hm & Hfit & Hnext); [lia|lia|done|].
      exists (S m). cbn [take]. unfold byte_count in *. rewrite sumZ_cons, E.
      split_and!; [done|cbn; lia|lia|].
      intros x Hx. specialize (Hnext x Hx). lia.
Qed.

(** A proposed block is the longest prefix of the ready transactions, at
    most 1000 of them, whose encodings fit in the block size. *)
Theorem fetch_txs_fit n :
  0 <= nd_max_bytes n < 2 ^ 63 ->
  Forall (fun tx => Z.of_nat (length (encode tx)) < 2 ^ 63) (ready_txs (nd_mempool n) MAX_TXS_PER_BLOCK) ->
  let ready := ready_txs (nd_mempool n) MAX_TXS_PER_BLOCK in
  let block := get_txs n in
  exists m, block = map encode (take m ready) /\ (length block <= MAX_TXS_PER_BLOCK)%nat /\
    byte_count block <= nd_max_bytes n /\
    (forall tx, ready !! m = Some tx ->
       nd_max_bytes n < byte_count block + Z.of_nat (length (encode tx))).
Proof.
  intros Hmax Hl ready block.
  destruct (scan_fit_spec (nd_max_bytes n) (map encode ready) 0) as (m & E & Hm & Hfit & Hnext);
    [lia|lia|by apply Forall_fmap|].
  assert (Eb : block = map encode (take m ready)).
  { unfold block, get_txs, fetch_txs_from_mempool. fold ready. rewrite E. apply firstn_map. }
  assert (Et : take m (map encode ready) = block) by (rewrite Eb; apply firstn_map).
  rewrite Et in *. exists m. split_and!; [done| |lia|].
  - rewrite Eb, length_map, length_take. unfold ready, ready_txs. rewrite length_take. lia.
  - intros tx Htx. rewrite <- (Z.add_0_l (byte_count block)). apply Hnext.
    change (map encode ready) with (encode <$> ready). by rewrite list_lookup_fmap, Htx.
Qed.

(** ** Committing *)

Lemma execute_same_disk tx n : same_disk (nd_state n) (nd_state (snd (execute tx n))).
Proof.
  assert (H : frames nd_state (fun _ => True) (execute tx)); [|apply H].
  unfold execute, verify_nonce. repeat first [frames_step | by apply frames_id].
  - eapply frames_weaken; [|apply frames_payload]. done.
  - unfold on_node_state. apply frames_map_err. eapply (frames_zoom _ id); [done|done|].
    eapply frames_weaken; [|apply frames_increment_nonce]. done.
Qed.

Lemma same_disk_trans s1 s2 s3 : same_disk s1 s2 -> same_disk s2 s3 -> same_disk s1 s3.
Proof. intros (V1 & D1 & C1 & K1) (V2 & D2 & C2 & K2). repeat split; congruence. Qed.

Lemma block_same_disk block : forall stats n,
  same_disk (nd_state n) (nd_state (snd (foldl execute_bytes (stats, n) block))).
Proof.
  induction block as [|b block IH]; intros stats n; [by repeat split|]. cbn [foldl].
  assert (H : same_disk (nd_state n) (nd_state (snd (execute_bytes (stats, n) b)))).
  { unfold execute_bytes. destruct (decode_tx b) as [tx|e]; [|by repeat split].
    pose proof (execute_same_disk tx n) as H. by destruct (execute tx n). }
  destruct (execute_bytes (stats, n) b) as [st n1]. eapply same_disk_trans; [exact H|apply IH].
Qed.

Lemma storage_wf_same_disk s s' :
  same_disk s s' -> storage_wf (sm_storage s) -> storage_wf (sm_storage s').
Proof.
  intros (_ & D & C & _) [H1 H2 H3].
  assert (El : forall kh, get_latest_version (sm_storage s') kh = get_latest_version (sm_storage s) kh).
  { intros kh. unfold get_latest_version. by rewrite D. }
  assert (Ev : forall kh v, db_value (sm_storage s') kh v = db_value (sm_storage s) kh v).
  { intros kh v. unfold db_value. by rewrite D. }
  split.
  - by rewrite C.
  - intros kh l. rewrite El, Ev, C. apply H2.
  - intros kh v. rewrite Ev. setoid_rewrite El. apply H3.
Qed.

(** What committing a block leaves to read. *)
Lemma execute_txs_reads height block n response n' config h :
  storage_wf (sm_storage (nd_state n)) -> current_version (sm_storage (nd_state n)) <= height ->
  commit_prunes (pruning_config (sm_storage (nd_state n))) height = false ->
  execute_txs height block n = (Ok response, n') ->
  let executed := snd (execute_batch block (nd_begin_block height n)) in
  let restarted := StateManager_new (db (sm_storage (nd_state n'))) config h in
  response = (b256_slice (state_root (nd_state n')), nd_max_bytes n') /\
  (sm_version (nd_state n') = height /\ current_version (sm_storage (nd_state n')) = height /\
   sm_version restarted = height) /\
  storage_wf (sm_storage (nd_state n')) /\
  pruning_config (sm_storage (nd_state n')) = pruning_config (sm_storage (nd_state n)) /\
  en_orderbook (nd_engine n') = en_orderbook (nd_engine executed) /\
  forall key, sv (nd_state n') key = sv (nd_state executed) key /\
    committed (nd_state n') key = sv (nd_state executed) key /\
    sv restarted key = sv (nd_state executed) key.
Proof.
  intros Hwf Hcv Hnp H executed restarted.
  assert (Hd : same_disk (nd_state (nd_begin_block height n)) (nd_state executed))
    by apply block_same_disk.
  assert (Hwf1 : storage_wf (sm_storage (nd_state executed))).
  { eapply storage_wf_same_disk; [exact Hd|]. exact Hwf. }
  destruct Hd as (Ev & Ed & Ec & Ep).
  unfold execute_txs in H. erewrite st_bind_eq in H by reflexivity.
  erewrite st_bind_eq in H by reflexivity. fold executed in H.
  unfold on_node_state, st_map_err, st_zoom, commit, st_bind, st_gets, on_storage in H.
  change (sm_version (nd_state (nd_begin_block height n))) with height in Ev. rewrite Ev in H.
  unfold st_zoom in H.
  destruct (storage_commit height (sm_storage (nd_state executed))) as [[root|e] st'] eqn:Es;
    [|by simplify_eq/=].
  cbn [fst snd] in H.
  assert (En : nd_state n' = with_storage st' (nd_state executed)) by (by injection H as _ <-).
  assert (Er : response = (b256_slice root, nd_max_bytes n')) by (by injection H as <- <-).
  assert (Eo : en_orderbook (nd_engine n') = en_orderbook (nd_engine executed)) by (by injection H as _ <-).
  destruct (commit_reads _ _ _ _ Hwf1 (ltac:(rewrite Ec; exact Hcv)) (ltac:(rewrite Ep; exact Hnp)) Es)
    as (Hwf' & Hcv' & Hp & Hcd & Hr).
  unfold restarted. rewrite Er, En. cbn [sm_storage with_storage sm_version StateManager_new].
  split_and!; [|done|done|cbn; by rewrite Hcd|done| |exact Eo|].
  - unfold state_root. cbn [sm_storage with_storage sm_version].
    by rewrite Ev, (storage_commit_root _ _ _ _ Es).
  - cbn [sm_storage with_storage]. by rewrite (storage_commit_config _ _ _ _ Es), Ep.
  - intros key.
    assert (Hx : sv (nd_state executed) key = get_value_option st' height (key_hash key))
      by (rewrite Hr; unfold sv; by rewrite Ev).
    assert (Ecv : current_version (storage_new (db st') config h) = height) by (cbn; by rewrite Hcd).
    rewrite Hx. unfold sv, view, committed.
    cbn [sm_storage with_storage sm_version StateManager_new storage_new pending_updates].
    rewrite Hp, !lookup_empty, Ev. split_and!; [done|done|].
    rewrite Ecv. by apply get_value_option_ext.
Qed.

(** C12: a block executed at a height no lower than the last is committed under
    that height: the answer carries the root of the committed state, and every
    key reads, afterwards and after a restart on the same database, what the
    block's transactions left there; this includes what failed transactions
    had written before they failed. (For commits that do not prune.) *)
Theorem execute_txs_commits height block n response n' config h :
  storage_wf (sm_storage (nd_state n)) -> current_version (sm_storage (nd_state n)) <= height ->
  commit_prunes (pruning_config (sm_storage (nd_state n))) height = false ->
  execute_txs height block n = (Ok response, n') ->
  let executed := snd (execute_batch block (nd_begin_block height n)) in
  let restarted := StateManager_new (db (sm_storage (nd_state n'))) config h in
  response = (b256_slice (state_root (nd_state n')), nd_max_bytes n') /\
  sm_version (nd_state n') = height /\ sm_version restarted = height /\
  storage_wf (sm_storage (nd_state n')) /\
  forall T (S : Serde Bytes T) key,
    sm_get (nd_state n') key = sm_get (nd_state executed) key /\
    sm_get restarted key = sm_get (nd_state executed) key.
Proof.
  intros Hwf Hcv Hnp H executed restarted.
  destruct (execute_txs_reads height block n response n' config h Hwf Hcv Hnp H)
    as (E1 & (E2 & _ & E3) & E4 & _ & _ & E5).
  split_and!; [done|done|done|done|]. intros T S key. destruct (E5 key) as (H1 & _ & H3).
  split; rewrite !sm_get_sv; f_equal; [exact H1|exact H3].
Qed.

End blocks.

(** * Witnesses *)

Lemma set_balance_wf {B : Backend} {Bok : BackendOk B} a i v (s : StateManager) :
  storage_wf (sm_storage s) -> storage_wf (sm_storage (snd (set_balance a i v s))).
Proof. apply storage_wf_same_disk. exact (proj1 (frames_set_balance a i v s)). Qed.

(** Account 1 holds 60000 of asset 0 and has sent a withdrawal of 1000. *)
Definition demo_withdrawal : Transaction :=
  signed_by 1 0 (Withdraw {| wd_amount := 1000; wd_asset_id := 0; wd_to := 1 |}).
Definition sm_funds : StateManager := snd (set_balance 1 0 60000 sm_demo).
Definition node_demo : Node := {|
  nd_engine := Engine_new sm_funds; nd_auth := AuthService_new;
  nd_mempool := snd (mp_add demo_withdrawal (with_limits 5 2)); nd_max_bytes := 1000 |}.

(** The withdrawal, a replay of it, and bytes that are no transaction. *)
Definition demo_block : list (list Z) := [encode demo_withdrawal; encode demo_withdrawal; []].

Lemma node_demo_wf : storage_wf (sm_storage (nd_state node_demo)).
Proof. exact (set_balance_wf 1 0 60000 sm_demo sm_demo_wf). Qed.

Lemma execute_exact_witness :
  get_nonce (nd_state (snd (execute demo_withdrawal node_demo))) 1 = Ok 1.
Proof.
  assert (E : fst (execute demo_withdrawal node_demo) = Ok tt) by (vm_compute; reflexivity).
  pose proof (execute_exact demo_withdrawal node_demo) as H.
  rewrite (run_result _ _ _ E) in H. exact (proj1 (proj2 (proj2 (proj2 H)))).
Defined.

Lemma execute_batch_exact_witness :
  fst (execute_batch demo_block node_demo) = {| successful := 1; failed := 2 |} /\
  exists done, length done = 1%nat /\
    Forall (fun tx => recover_signer tx = Ok (tx_from tx)) done.
Proof.
  assert (E : fst (execute_batch demo_block node_demo) = {| successful := 1; failed := 2 |})
    by (vm_compute; reflexivity).
  split; [exact E|].
  pose proof (execute_batch_exact demo_block node_demo) as H.
  rewrite (surjective_pairing (execute_batch demo_block node_demo)), E in H.
  destruct H as (done & _ & H1 & _ & _ & H2 & _). exists done. exact (conj H1 H2).
Defined.

Lemma fetch_txs_fit_witness :
  get_txs (B := mem_backend) node_demo = [encode demo_withdrawal] /\
  byte_count (get_txs node_demo) <= 1000.
Proof.
  assert (E : get_txs (B := mem_backend) node_demo = [encode demo_withdrawal])
    by (vm_compute; reflexivity).
  split; [exact E|].
  assert (Er : ready_txs (nd_mempool node_demo) MAX_TXS_PER_BLOCK = [demo_withdrawal])
    by (vm_compute; reflexivity).
  assert (Hl : Forall (fun tx => Z.of_nat (length (encode tx)) < 2 ^ 63)
    (ready_txs (nd_mempool node_demo) MAX_TXS_PER_BLOCK)).
  { rewrite Er. constructor; [vm_compute; reflexivity|constructor]. }
  destruct (fetch_txs_fit node_demo ltac:(split; vm_compute; congruence) Hl) as (m & _ & _ & H & _).
  exact H.
Defined.

Lemma execute_txs_commits_witness :
  exists n', execute_txs 3 demo_block node_demo = (Ok (b256_slice 6, 1000), n') /\
    get_balance (StateManager_new (db (sm_storage (nd_state n'))) demo_config demo_hash) 1 0 = Ok 59000.
Proof.
  pose (run := execute_txs 3 demo_block node_demo).
  assert (E : fst run = Ok (b256_slice 6, 1000)) by (vm_compute; reflexivity).
  exists (snd run). pose proof (run_result (execute_txs 3 demo_block) node_demo _ E) as R.
  split; [exact R|].
  destruct (execute_txs_commits 3 demo_block node_demo _ (snd run) demo_config demo_hash node_demo_wf
    ltac:(vm_compute; congruence) eq_refl R) as (_ & _ & _ & _ & H).
  unfold get_balance, get_or_default.
  rewrite (proj2 (H Z serde_num (SK_Balance 1 0))). vm_compute. reflexivity.
Defined.
