(* ===== verification/History.v ===== *)
(** Whatever happens to a node.  Chain.v follows the blocks whose commits do not
    prune; here are all of them: any height, commits that prune, commits that
    fail.  Pruning and failing lose values, but they never make one up, so what
    holds of every value a store has at any version keeps holding. *)
From stdpp Require Import base gmap sets list strings.
From Stdlib Require Import ZArith Lia.
From S2P Require Import Prelude Types Storage State Tx EngineBase Engine Auth Mempool Exec.

(** * What a store holds *)

Section contents.
Context {B : Backend} {Bok : BackendOk B}.
Context (P : StateKey -> Bytes -> Prop).
Implicit Types (st : RocksDbStorage) (s : StateManager).

(** [P] holds of every value under every key: uncommitted, or at any version. *)
Definition contents st : Prop := forall k b,
  pending_updates st !! key_hash k = Some b \/ (exists v, db_value st (key_hash k) v = Some b) -> P k b.

Lemma scan_stored st kh n b : scan_versions st kh n = Some b -> exists v, db_value st kh v = Some b.
Proof.
  induction n as [|n IH]; cbn; [done|]. destruct (db_value st kh (Z.of_nat n)) eqn:E; [|done].
  intros [= <-]. eauto.
Qed.

Lemma get_value_stored st w kh b : get_value_option st w kh = Some b -> exists v, db_value st kh v = Some b.
Proof.
  unfold get_value_option. destruct (get_latest_version st kh) as [l|]; [|apply scan_stored].
  destruct (l <=? w); [eauto|apply scan_stored].
Qed.

Lemma contents_view st w k b : contents st -> view st w (key_hash k) = Some b -> P k b.
Proof.
  intros Hs. unfold view. destruct (pending_updates st !! key_hash k) eqn:E.
  - intros [= <-]. apply Hs. by left.
  - intros H%get_value_stored. apply Hs. by right.
Qed.

Lemma contents_committed s k b : contents (sm_storage s) -> committed s k = Some b -> P k b.
Proof. intros Hs H%get_value_stored. apply Hs. by right. Qed.

Lemma contents_new st config h : contents st -> contents (storage_new (db st) config h).
Proof. intros Hs k b [Hp|Hv]; [cbn in Hp; by rewrite lookup_empty in Hp|]. apply Hs. by right. Qed.

(** A store that holds nothing new. *)
Lemma contents_shrinks st st' :
  (forall kh b, pending_updates st' !! kh = Some b -> pending_updates st !! kh = Some b) ->
  (forall kh v b, db_value st' kh v = Some b -> db_value st kh v = Some b) -> contents st -> contents st'.
Proof. intros Hp Hd Hs k b [H|[v H]]; apply Hs; [left; auto|right; eauto]. Qed.

(** One key changes, to a value of which [P] holds or to its committed value. *)
Lemma contents_change k s s' :
  frame (eq k) s s' ->
  (forall b, sv s' k = Some b -> committed s k = Some b \/ P k b) ->
  contents (sm_storage s) -> contents (sm_storage s').
Proof.
  intros [(V & D & _) F] Hk Hs j b [Hp|[v Hv]].
  - assert (Hj : sv s' j = Some b) by (unfold sv, view; by rewrite Hp).
    destruct (decide (k = j)) as [<-|Hne].
    + destruct (Hk b Hj) as [Hc|Hc]; [by eapply contents_committed|done].
    + rewrite F in Hj by done. by eapply contents_view.
  - apply Hs. right. exists v. unfold db_value in *. by rewrite <- D.
Qed.

(** ** Committing *)

Lemma write_pending_cases version st :
  fst (write_pending version st) = Ok tt \/ snd (write_pending version st) = rehash (with_pending ∅ st).
Proof.
  unfold write_pending, st_bind, st_gets, st_modify, st_get. case_bool_decide; [by right|].
  destruct (jmt_put_value_set _ _ _ _) as [[root nodes]|]; [by left|by right].
Qed.

Lemma contents_write_pending version st :
  contents st -> contents (snd (write_pending version st)).
Proof.
  intros Hs. destruct (write_pending_cases version st) as [E| ->].
  - destruct (write_pending version st) as [r st'] eqn:H. cbn in *. subst r.
    destruct (write_pending_spec _ _ _ _ H) as (Hp & _ & _ & Hd). intros k b [Hb|[v Hv]].
    + by rewrite Hp, lookup_empty in Hb.
    + unfold db_value in Hv. rewrite Hd in Hv by done. apply Hs.
      destruct (pending_updates st !! key_hash k) as [b'|]; [|right; by exists v].
      destruct (decide (v = version)); [left; congruence|right; by exists v].
  - revert Hs. apply contents_shrinks; [|done]. intros kh b Hb. cbn in Hb. by rewrite lookup_empty in Hb.
Qed.

(** Writing other keys of the database, or deleting. *)
Lemma contents_modify (f : RocksDbStorage -> RocksDbStorage) :
  (forall st, pending_updates (f st) = pending_updates st) ->
  (forall st kh v b, db_value (f st) kh v = Some b -> db_value st kh v = Some b) ->
  preserves contents (st_modify f : ST RocksDbStorage StateError unit).
Proof. intros Hp Hd st Hs. cbn. revert Hs. apply contents_shrinks; [intros kh b; by rewrite Hp|apply Hd]. Qed.

Lemma db_value_insert st k x kh v :
  (forall kh v, k <> JmtValue kh v) -> db_value (with_db (<[k := x]>) st) kh v = db_value st kh v.
Proof. intros Hk. unfold db_value. cbn. by rewrite lookup_insert_ne. Qed.

Lemma contents_commit version : preserves contents (storage_commit version).
Proof.
  unfold storage_commit. apply preserves_bind; [intros st; apply contents_write_pending|intros _].
  apply preserves_bind; [apply preserves_read|intros root].
  do 2 (apply preserves_bind; [by apply contents_modify|intros _]).
  apply preserves_bind; [apply contents_modify; [done|]|intros _].
  { intros st kh v b. by rewrite db_value_insert. }
  apply preserves_bind; [apply preserves_gets|intros config].
  apply preserves_bind; [|intros _; apply preserves_ret].
  apply preserves_if; [|apply preserves_ret]. apply preserves_bind; [|intros _];
    (apply preserves_if; [apply contents_modify|apply preserves_ret]); [done| | |].
  - intros st kh v b. unfold create_snapshot. by rewrite db_value_insert.
  - intros st. apply prune_rest.
  - intros st kh v b. unfold db_value. rewrite prune_lookup. by destruct (should_delete _ _ _).
Qed.

End contents.

(** The version a restart finds. *)
Definition disk_version {B : Backend} (d : gmap StorageKey DbValue) : Z :=
  match d !! CurrentVersion with Some (DbVersion v) => v | _ => 0 end.

Section versions.
Context {B : Backend} {Bok : BackendOk B}.
Implicit Types st : RocksDbStorage.

Definition restarts_at (P : Z -> Prop) st : Prop := P (disk_version (db st)).

Lemma restarts_modify P (f : RocksDbStorage -> RocksDbStorage) :
  (forall st, db (f st) !! CurrentVersion = db st !! CurrentVersion) ->
  preserves (restarts_at P) (st_modify f : ST RocksDbStorage StateError unit).
Proof. intros Hf st Hs. unfold restarts_at, disk_version in *. cbn. by rewrite Hf. Qed.

Lemma restarts_commit (P : Z -> Prop) version : P version -> preserves (restarts_at P) (storage_commit version).
Proof.
  intros HP. unfold storage_commit. apply preserves_bind; [|intros _].
  { unfold write_pending. do 2 (apply preserves_bind; [apply preserves_gets|intros ?]).
    apply preserves_bind; [by apply restarts_modify|intros _].
    apply preserves_if; [apply preserves_ret|]. apply preserves_bind; [by intros st Hs|intros st].
    destruct (jmt_put_value_set _ _ _ _) as [[root nodes]|]; [|apply preserves_fail].
    repeat (apply preserves_bind; [|intros _]); apply restarts_modify; intros st'.
    - by apply write_node_batch_db.
    - by apply store_values_db_other.
    - by apply store_latest_db_other. }
  apply preserves_bind; [apply preserves_read|intros root].
  do 2 (apply preserves_bind; [by apply restarts_modify|intros _]).
  apply preserves_bind; [|intros _].
  { intros st _. unfold restarts_at, disk_version. cbn. by rewrite lookup_insert_eq. }
  apply preserves_bind; [apply preserves_gets|intros config].
  apply preserves_bind; [|intros _; apply preserves_ret].
  apply preserves_if; [|apply preserves_ret]. apply preserves_bind; [|intros _];
    (apply preserves_if; [apply restarts_modify|apply preserves_ret]); intros st.
  - cbn. by rewrite lookup_insert_ne.
  - by rewrite prune_lookup.
Qed.

End versions.

(** * Runs *)

Section runs.
Context {B : Backend} {Bok : BackendOk B} {V : TxEnv} {G : SigEnv}.
Implicit Types n : Node.

(** The blocks a node is given, at any heights and whatever becomes of them;
    between them the parts beside the engine move freely. *)
Inductive executes : Node -> list (list (list Z)) -> Node -> Prop :=
| executes_nil n : executes n [] n
| executes_idle n n1 blocks n' :
    nd_engine n1 = nd_engine n -> executes n1 blocks n' -> executes n blocks n'
| executes_block n height block r n1 blocks n' :
    is_u64 height -> execute_txs height block n = (r, n1) -> executes n1 blocks n' ->
    executes n (block :: blocks) n'.

(** What a block does to the state: its transactions, then the commit, which may
    fail. *)
Lemma execute_txs_state height block n :
  let executed := snd (execute_batch block (nd_begin_block height n)) in
  sm_version (nd_state executed) = height /\
  en_orderbook (nd_engine (snd (execute_txs height block n))) = en_orderbook (nd_engine executed) /\
  nd_state (snd (execute_txs height block n)) =
    with_storage (snd (storage_commit height (sm_storage (nd_state executed)))) (nd_state executed).
Proof.
  intros executed.
  assert (Hd : same_disk (nd_state (nd_begin_block height n)) (nd_state executed)) by apply block_same_disk.
  destruct Hd as (Ev & _). change (sm_version (nd_state (nd_begin_block height n))) with height in Ev.
  split; [exact Ev|]. unfold execute_txs. erewrite st_bind_eq by reflexivity. erewrite st_bind_eq by reflexivity.
  fold executed. unfold on_node_state, st_map_err, st_zoom, commit, st_bind, st_gets, on_storage.
  rewrite Ev. unfold st_zoom. by destruct (storage_commit height (sm_storage (nd_state executed))) as [[root|e] st'].
Qed.

(** Starting a chain is executing an empty block. *)
Lemma init_chain_empty_block chain_id height n :
  init_chain chain_id height n =
  match validate_init_chain chain_id height with
  | Ok h => execute_txs h [] n
  | Err e => (Err e, n)
  end.
Proof.
  unfold init_chain, execute_txs. unfold st_bind at 1, st_lift.
  by destruct (validate_init_chain chain_id height).
Qed.

End runs.
