(* ===== verification/Startup.v ===== *)
(** Start of the daemon: crates/app/src/server.rs and crates/app/src/init.rs,
    over the configuration of Snapshot.v and the block service of Exec.v.  The
    log and the two network servers are in Serve.v. *)
From stdpp Require Import base gmap sets list sorting strings.
From Stdlib Require Import ZArith Lia.
From S2P Require Import Prelude Types Storage State Tx EngineBase Engine Auth Mempool Snapshot Exec.

(** * Default assets and operators (init.rs) *)

Record AssetConfig := {
  ac_id : Z; ac_symbol : string; ac_name : string; ac_decimals : Z; ac_collateral_weight_bps : Z }.
Definition asset_of_config (config : AssetConfig) : Asset := {|
  a_id := ac_id config; a_symbol := ac_symbol config; a_name := ac_name config;
  a_decimals := ac_decimals config; a_is_collateral := true;
  a_collateral_weight_bps := ac_collateral_weight_bps config |}.

Definition DEFAULT_ASSETS : list AssetConfig := [
  {| ac_id := 0; ac_symbol := "USDC"; ac_name := "USD Coin"; ac_decimals := 6; ac_collateral_weight_bps := 10000 |};
  {| ac_id := 1; ac_symbol := "USDT"; ac_name := "Tether USD"; ac_decimals := 6; ac_collateral_weight_bps := 9800 |};
  {| ac_id := 2; ac_symbol := "DAI"; ac_name := "Dai Stablecoin"; ac_decimals := 18; ac_collateral_weight_bps := 9500 |}].

Section init.
Context {B : Backend}.

Definition initialize_default_assets : ST StateManager StateError unit :=
  st_for DEFAULT_ASSETS (fun config => set_asset (ac_id config) (asset_of_config config)).
Definition authorize_operators (operators : list Address) : ST StateManager StateError unit :=
  st_for operators (fun operator => set_bridge_operator operator true).
(** Operator [0x01...01] of the test environment. *)
Definition TEST_OPERATOR : Address := foldl (fun acc _ => acc * 256 + 1) 0 (seq 0 20).
Definition initialize_test_environment : ST StateManager StateError Address :=
  initialize_default_assets ;; authorize_operators [TEST_OPERATOR] ;; st_ret TEST_OPERATOR.

End init.

(** * Starting (server.rs) *)

Inductive StartError := AssetsFailed (e : StateError) | BadOperator | OperatorsFailed (e : StateError).

Section start.
Context {B : Backend} {V : TxEnv} {G : SigEnv}.
Context (parse : string -> option Address).

Definition start_assets : ST Node StartError unit := st_map_err AssetsFailed initialize_assets.

Definition start_operators (config : StartConfig) : ST Node StartError unit :=
  if has_bridge_operators config then
    let! operators := st_lift (ok_or BadOperator (parse_bridge_operators parse config)) in
    st_map_err OperatorsFailed (initialize_bridge_operators operators)
  else st_ret tt.

(** [PranklinExecutorService::new], and the two functions that wrap the service
    into a gRPC server and a handle on the same components.  [None] is a panic. *)
Definition executor_service_new (opened : result StateError (gmap StorageKey DbValue)) (h : HashState)
    (config : option SnapshotExporterConfig) : option (Node * SnapshotService) :=
  n ← Node_new opened h; Some (n, SnapshotService_new config).
Definition new_server_with_components (opened : result StateError (gmap StorageKey DbValue)) (h : HashState)
    : option (Node * SnapshotService) :=
  executor_service_new opened h None.
Definition new_server_with_components_and_snapshots (opened : result StateError (gmap StorageKey DbValue))
    (h : HashState) (config : SnapshotExporterConfig) : option (Node * SnapshotService) :=
  executor_service_new opened h (Some config).
Definition open_service (opened : result StateError (gmap StorageKey DbValue)) (h : HashState)
    (config : StartConfig) : option (Node * SnapshotService) :=
  match snapshot_exporter_config config with
  | Some cfg => new_server_with_components_and_snapshots opened h cfg
  | None => new_server_with_components opened h
  end.

(** From what [DB::open] answers: the service, and what its snapshots are. *)
Definition start_server (config : StartConfig) (opened : result StateError (gmap StorageKey DbValue))
    (h : HashState) : option (result StartError unit * (Node * SnapshotService)) :=
  '(n0, snapshots) ← open_service opened h config;
  let '(r, n) := (start_assets ;; start_operators config) n0 in
  Some (r, (n, snapshots)).

(** The node on a database that was opened. *)
Definition node_on_disk (d : gmap StorageKey DbValue) (h : HashState) : Node :=
  Node_on (StateManager_new d PruningConfig_default h).

(** With or without snapshots, the node starts the same. *)
Lemma open_service_eq opened h config :
  open_service opened h config =
  match opened with
  | Ok d => Some (node_on_disk d h, SnapshotService_new (snapshot_exporter_config config))
  | Err _ => None
  end.
Proof. unfold open_service. by destruct (snapshot_exporter_config config), opened. Qed.

Lemma start_server_eq config opened h :
  start_server config opened h =
  match opened with
  | Ok d =>
      let '(r, n) := (start_assets ;; start_operators config) (node_on_disk d h) in
      Some (r, (n, SnapshotService_new (snapshot_exporter_config config)))
  | Err _ => None
  end.
Proof. unfold start_server. rewrite open_service_eq. by destruct opened. Qed.

(** What the start leaves of the node. *)
Lemma start_server_run config d h r n snapshots :
  start_server config (Ok d) h = Some (r, (n, snapshots)) ->
  (start_assets ;; start_operators config) (node_on_disk d h) = (r, n) /\
  snapshots = SnapshotService_new (snapshot_exporter_config config).
Proof. rewrite start_server_eq. destruct (st_bind _ _ _) as [r' n']. by intros [= -> -> <-]. Qed.

End start.

(** ** Content types

    [to_str] and [header_value] are the header library's [HeaderValue::to_str]
    and [HeaderValue::from_str]. *)
Section content_type.
Context (to_str : string -> option string) (header_value : string -> option string).

Definition contains (s sub : string) : bool :=
  match String.index 0 sub s with Some _ => true | None => false end.

Definition convert_content_type (headers : gmap string string) (from_type to_type : string) : gmap string string :=
  match headers !! "content-type" ≫= to_str with
  | Some ct_str =>
      if contains ct_str from_type then
        match header_value to_type with
        | Some v => <["content-type" := v]> headers
        | None => headers
        end
      else headers
  | None => headers
  end.
Definition convert_connect_to_grpc (headers : gmap string string) : gmap string string :=
  convert_content_type headers "application/proto" "application/grpc".
Definition convert_grpc_to_connect (headers : gmap string string) : gmap string string :=
  convert_content_type headers "application/grpc" "application/proto".

End content_type.

(** * What a start leaves *)

Section facts.
Context {B : Backend} {Bok : BackendOk B} {V : TxEnv} {G : SigEnv}.
Implicit Types (s : StateManager) (n : Node).

Lemma on_node_state_Ok {E A} (f : StateError -> E) (m : ST StateManager StateError A) n a s :
  m (nd_state n) = (Ok a, s) -> on_node_state f m n = (Ok a, with_node_state s n).
Proof. intros H. unfold on_node_state, st_map_err, st_zoom. by rewrite H. Qed.

Definition asset_key (id : Z) (k : StateKey) : Prop := k = SK_AssetInfo id \/ k = SK_AssetList.

Lemma set_asset_run id a s l :
  list_all_assets s = Ok l ->
  exists s' l', set_asset id a s = (Ok tt, s') /\ get_asset s' id = Ok (Some a) /\
    list_all_assets s' = Ok l' /\ frame (asset_key id) s s'.
Proof.
  intros Hl. unfold set_asset, add_to_list.
  destruct (set_succeeds serde_asset (SK_AssetInfo id) a s) as [s1 H1].
  erewrite st_bind_eq by exact H1. pose proof (set_frame _ _ _ _ _ _ H1) as F1.
  assert (Hg : get_asset s1 id = Ok (Some a)) by (exact (set_read_back _ _ _ _ _ _ H1)).
  assert (Hl1 : get_or_default [] s1 SK_AssetList = Ok l).
  { rewrite <- Hl. eapply get_or_default_frame; [exact F1|discriminate]. }
  erewrite st_read_bind by exact Hl1. case_bool_decide.
  - exists s1, l. split_and!; [done|done|exact Hl1|]. eapply frame_weaken; [|exact F1]. intros k <-. by left.
  - destruct (set_succeeds serde_nums SK_AssetList (l ++ [id]) s1) as [s2 H2].
    pose proof (set_frame _ _ _ _ _ _ H2) as F2.
    exists s2, (l ++ [id]). split_and!; [exact H2| | |].
    + unfold get_asset. erewrite sm_get_frame; [exact Hg|exact F2|discriminate].
    + unfold list_all_assets, get_or_default. by rewrite (set_read_back _ _ _ _ _ _ H2).
    + eapply frame_trans; (eapply frame_weaken; [|eassumption]); intros k <-; [by left|by right].
Qed.

Definition assets_keys (assets : list Asset) (k : StateKey) : Prop :=
  k = SK_AssetList \/ exists a, a ∈ assets /\ k = SK_AssetInfo (a_id a).

(** Registering assets one by one; [s0] is the state before the first. *)
Lemma set_assets_run assets : forall n l,
  NoDup (map a_id assets) -> list_all_assets (nd_state n) = Ok l ->
  exists s' l', st_for assets (fun a => on_node_state id (set_asset (a_id a) a)) n
      = (Ok tt, with_node_state s' n) /\
    (forall a, a ∈ assets -> get_asset s' (a_id a) = Ok (Some a)) /\
    list_all_assets s' = Ok l' /\ frame (assets_keys assets) (nd_state n) s'.
Proof.
  induction assets as [|a assets IH]; intros n l Hnd Hl.
  - exists (nd_state n), l. split_and!; [|by intros a Ha%elem_of_nil|done|apply frame_refl].
    unfold with_node_state. by destruct n as [[] ? ? ?].
  - cbn [map] in Hnd. apply NoDup_cons in Hnd as [Ha Hnd].
    destruct (set_asset_run (a_id a) a (nd_state n) l Hl) as (s1 & l1 & R & Hg & Hl1 & F1).
    destruct (IH (with_node_state s1 n) l1 Hnd Hl1) as (s2 & l2 & R2 & Hg2 & Hl2 & F2).
    exists s2, l2. cbn [st_for]. erewrite st_bind_eq by exact (on_node_state_Ok _ _ _ _ _ R).
    split_and!; [exact R2| |exact Hl2|].
    + intros b [->|Hb]%elem_of_cons; [|by apply Hg2]. rewrite <- Hg.
      unfold get_asset. eapply sm_get_frame; [exact F2|]. intros [?|(c & Hc & [= E])]; [done|].
      apply Ha. rewrite E. by apply list_elem_of_fmap_2.
    + eapply frame_trans; (eapply frame_weaken; [|eassumption]).
      * intros k [->| ->]; [right; exists a; split; [left|done]|by left].
      * intros k [->|(c & Hc & ->)]; [by left|right; exists c; split; [by right|done]].
Qed.

Definition operator_keys (operators : list Address) (k : StateKey) : Prop :=
  exists op, op ∈ operators /\ k = SK_BridgeOperator op.

Lemma set_operators_run operators : forall n,
  exists s', initialize_bridge_operators operators n = (Ok tt, with_node_state s' n) /\
    (forall op, op ∈ operators -> is_bridge_operator s' op = Ok true) /\
    frame (operator_keys operators) (nd_state n) s'.
Proof.
  unfold initialize_bridge_operators. induction operators as [|op operators IH]; intros n.
  - exists (nd_state n). split_and!; [|by intros a Ha%elem_of_nil|apply frame_refl].
    unfold with_node_state. by destruct n as [[] ? ? ?].
  - destruct (set_succeeds serde_bool (SK_BridgeOperator op) true (nd_state n)) as [s1 H1].
    destruct (IH (with_node_state s1 n)) as (s2 & R2 & Hg2 & F2).
    exists s2. cbn [st_for]. erewrite st_bind_eq by exact (on_node_state_Ok id _ n tt s1 H1).
    split_and!; [exact R2| |].
    + intros b [->|Hb]%elem_of_cons; [|by apply Hg2].
      destruct (decide (op ∈ operators)) as [Hin|Hin]; [by apply Hg2|].
      assert (E : is_bridge_operator s1 op = Ok true).
      { unfold is_bridge_operator, get_or_default. by rewrite (set_read_back _ _ _ _ _ _ H1). }
      rewrite <- E. unfold is_bridge_operator. eapply get_or_default_frame; [exact F2|].
      intros (c & Hc & [= Ec]). by rewrite Ec in Hin.
    + eapply frame_trans; [eapply frame_weaken; [|exact (set_frame _ _ _ _ _ _ H1)]|
        eapply frame_weaken; [|exact F2]].
      * intros k <-. exists op. split; [left|done].
      * intros k (c & Hc & ->). exists c. split; [by right|done].
Qed.

Lemma start_operators_run parse config n :
  exists s', start_operators parse config n =
      (match parse_bridge_operators parse config with Some _ => Ok tt | None => Err BadOperator end,
       with_node_state s' n) /\
    (forall op, op ∈ default [] (parse_bridge_operators parse config) -> is_bridge_operator s' op = Ok true) /\
    frame (operator_keys (default [] (parse_bridge_operators parse config))) (nd_state n) s'.
Proof.
  assert (Hn : with_node_state (nd_state n) n = n)
    by (unfold with_node_state; by destruct n as [[] ? ? ?]).
  unfold start_operators, has_bridge_operators.
  case_bool_decide as E; cbn [negb].
  - exists (nd_state n). unfold parse_bridge_operators. rewrite E, Hn. cbn.
    split_and!; [done|by intros op Hop%elem_of_nil|apply frame_refl].
  - destruct (parse_bridge_operators parse config) as [operators|]; cbn [default].
    + destruct (set_operators_run operators n) as (s' & R & Hg & F). exists s'.
      split_and!; [|exact Hg|exact F]. unfold st_bind, st_lift, st_map_err. cbn. by rewrite R.
    + exists (nd_state n). rewrite Hn. split_and!; [done|by intros op Hop%elem_of_nil|apply frame_refl].
Qed.

End facts.

(** The start writes assets, their list and operators only. *)
Definition start_keys (operators : list Address) (k : StateKey) : Prop :=
  assets_keys default_assets k \/ operator_keys operators k.

Lemma default_assets_distinct : NoDup (map a_id default_assets).
Proof. repeat constructor; set_solver. Qed.

Lemma start_assets_run {B : Backend} {Bok : BackendOk B} {V : TxEnv} {G : SigEnv} (n : Node) (l : list Z) :
  list_all_assets (nd_state n) = Ok l ->
  exists s, start_assets n = (Ok tt, with_node_state s n) /\
    (forall a, a ∈ default_assets -> get_asset s (a_id a) = Ok (Some a)) /\
    frame (assets_keys default_assets) (nd_state n) s.
Proof.
  intros Hl. destruct (set_assets_run default_assets n l default_assets_distinct Hl) as (s & l1 & R & Hg & _ & F).
  exists s. split; [|done]. unfold start_assets, initialize_assets, st_map_err. by rewrite R.
Qed.

Lemma start_server_frame {B : Backend} {Bok : BackendOk B} {V : TxEnv} {G : SigEnv}
    (parse : string -> option Address) (config : StartConfig) (d : gmap StorageKey DbValue) (h : HashState)
    (l : list Z) (r : result StartError unit) (n : Node) (snapshots : SnapshotService) :
  list_all_assets (nd_state (node_on_disk d h)) = Ok l ->
  start_server parse config (Ok d) h = Some (r, (n, snapshots)) ->
  frame (start_keys (default [] (parse_bridge_operators parse config))) (nd_state (node_on_disk d h)) (nd_state n).
Proof.
  intros Hl [Hr _]%start_server_run. destruct (start_assets_run _ l Hl) as (s1 & Ha & _ & F1).
  erewrite st_bind_eq in Hr by exact Ha.
  destruct (start_operators_run parse config (with_node_state s1 (node_on_disk d h))) as (s2 & R2 & _ & F2).
  rewrite R2 in Hr. injection Hr as _ <-.
  eapply frame_trans; (eapply frame_weaken; [|eassumption]); intros k Hk; [by left|by right].
Qed.

(** Starting the daemon.  Without a database it panics.  On one with a readable
    asset list the three default
    assets are registered, whatever was stored for them; if every configured
    operator parses they are all authorised, else the start fails with the assets
    registered and no operator touched; nothing else changes, so an operator of
    an earlier run stays authorised when it is dropped from the configuration.
    Nothing is written to the database before the first block, and snapshots are
    exported exactly when they are enabled. *)
Theorem start_server_exact {B : Backend} {Bok : BackendOk B} {V : TxEnv} {G : SigEnv}
    (parse : string -> option Address) (config : StartConfig) (d : gmap StorageKey DbValue) (h : HashState)
    (l : list Z) :
  list_all_assets (nd_state (node_on_disk d h)) = Ok l ->
  (forall e, start_server parse config (Err e) h = None) /\
  exists r n snapshots, start_server parse config (Ok d) h = Some (r, (n, snapshots)) /\
  let operators := default [] (parse_bridge_operators parse config) in
  r = match parse_bridge_operators parse config with Some _ => Ok tt | None => Err BadOperator end /\
  (forall a, a ∈ default_assets -> get_asset (nd_state n) (a_id a) = Ok (Some a)) /\
  (forall op, op ∈ operators -> is_bridge_operator (nd_state n) op = Ok true) /\
  (forall op, op ∉ operators ->
     is_bridge_operator (nd_state n) op = is_bridge_operator (nd_state (node_on_disk d h)) op) /\
  frame (start_keys operators) (nd_state (node_on_disk d h)) (nd_state n) /\
  (is_Some (snapshot_exporter snapshots) <-> snapshot_enable config = true).
Proof.
  intros Hl. split; [intros e; by rewrite start_server_eq|].
  destruct (start_assets_run _ l Hl) as (s1 & Ha & Hg1 & F1).
  set (n1 := with_node_state s1 (node_on_disk d h)) in *.
  destruct (start_operators_run parse config n1) as (s2 & R2 & Hg2 & F2).
  assert (F : frame (start_keys (default [] (parse_bridge_operators parse config))) (nd_state (node_on_disk d h)) s2).
  { eapply frame_trans; (eapply frame_weaken; [|eassumption]); intros k Hk; [by left|by right]. }
  eexists _, (with_node_state s2 n1), (SnapshotService_new (snapshot_exporter_config config)). split.
  { rewrite start_server_eq. erewrite st_bind_eq by exact Ha. by rewrite R2. }
  split_and!; [done| |exact Hg2| |exact F|].
  - intros a Hin. rewrite <- (Hg1 a Hin). unfold get_asset. eapply sm_get_frame; [exact F2|].
    by intros (op & _ & [=]).
  - intros op Hout. unfold is_bridge_operator. eapply get_or_default_frame; [exact F|].
    intros [[[=]|(a & _ & [=])]|(b & Hb & [= E])]. by rewrite E in Hout.
  - unfold SnapshotService_new, snapshot_exporter_config. cbn.
    destruct (snapshot_enable config); cbn; split; [done|by eexists|by intros [? ?]|done].
Qed.

(** The functions of init.rs register the same assets. *)
Lemma init_same_assets : map asset_of_config DEFAULT_ASSETS = default_assets.
Proof. reflexivity. Qed.

(** ** Content types *)

(** The response of a native gRPC call is relabelled: the request passes
    unchanged, as gRPC, and the answer comes back as [application/proto]. *)
Theorem grpc_answer_relabelled to_str header_value (headers answer : gmap string string) :
  (forall s, to_str s = Some s) -> (forall s, header_value s = Some s) ->
  headers !! "content-type" = Some "application/grpc" ->
  answer !! "content-type" = Some "application/grpc" ->
  convert_connect_to_grpc to_str header_value headers = headers /\
  convert_grpc_to_connect to_str header_value answer = <["content-type" := "application/proto"]> answer.
Proof.
  intros Hto Hfrom Hh Ha.
  unfold convert_connect_to_grpc, convert_grpc_to_connect, convert_content_type.
  rewrite Hh, Ha. cbn. rewrite !Hto. cbn. by rewrite Hfrom.
Qed.

(** * Witness *)

(** Operator names of one character, "7" for account 7. *)
Definition demo_parse (s : string) : option Address :=
  if bool_decide (s = "7") then Some 7 else None.
Definition demo_start (operators : list string) : StartConfig := {|
  grpc_addr := "0.0.0.0:50051"; rpc_addr := "0.0.0.0:3000"; db_path := "./data"; debug := false;
  chain_id := "pranklin"; bridge_operators := operators; snapshot_enable := false; snapshot_interval := 100;
  snapshot := {| opt_s3_bucket := None; opt_s3_region := ""; opt_s3_prefix := "";
                 opt_gcs_bucket := None; opt_gcs_prefix := ""; opt_local_path := "/backup" |} |}.

Lemma start_server_exact_witness :
  option_map fst (start_server demo_parse (demo_start ["7"]) (Ok ∅) demo_hash) = Some (Ok tt) /\
  option_map fst (start_server demo_parse (demo_start ["7"; "x"]) (Ok ∅) demo_hash) = Some (Err BadOperator) /\
  start_server demo_parse (demo_start ["7"]) (Err StorageError) demo_hash = None.
Proof.
  assert (Hl : list_all_assets (nd_state (node_on_disk ∅ demo_hash)) = Ok []) by (vm_compute; reflexivity).
  destruct (start_server_exact demo_parse (demo_start ["7"]) ∅ demo_hash [] Hl)
    as (H0 & r1 & n1 & s1 & E1 & H1 & _).
  destruct (start_server_exact demo_parse (demo_start ["7"; "x"]) ∅ demo_hash [] Hl)
    as (_ & r2 & n2 & s2 & E2 & H2 & _).
  rewrite E1, E2, H1, H2. split; [reflexivity|]. split; [reflexivity|]. apply H0.
Defined.
