(* ===== verification/Supply.v ===== *)
(** The supply of an asset: what the transactions of a block do, together, to
    the sum of the balances.  This is a property of the services
    (Services.v), the engine (Engine.v) and the executor (Exec.v) composed. *)
From stdpp Require Import base gmap sets list sorting strings.
From Stdlib Require Import ZArith Lia.
From S2P Require Import Prelude Types Storage State Tx EngineBase Orderbook Matching Position Risk Services Trading Engine Auth Mempool Exec.

(** * The ledger of a transaction *)

(** What a payload adds to the supply of asset [i] when it succeeds. *)
Definition supply_change (i : Z) (p : TxPayload) : Z :=
  match p with
  | Deposit d => if dep_asset_id d =? i then dep_amount d else 0
  | Withdraw w => if wd_asset_id w =? i then - wd_amount w else 0
  | BridgeDeposit d => if bd_asset_id d =? i then bd_amount d else 0
  | BridgeWithdraw w => if bw_asset_id w =? i then - bw_amount w else 0
  | _ => 0
  end.

(** The accounts whose balances a transaction may touch. *)
Definition parties (tx : Transaction) : list Address :=
  tx_from tx ::
  match tx_payload tx with
  | Transfer t => [tr_to t]
  | BridgeDeposit d => [bd_user d]
  | BridgeWithdraw w => [bw_user w]
  | _ => []
  end.

(** Amounts are unsigned. *)
Definition amounts_ok (p : TxPayload) : Prop :=
  match p with
  | Deposit d => is_u128 (dep_amount d)
  | Withdraw w => is_u128 (wd_amount w)
  | Transfer t => is_u128 (tr_amount t)
  | BridgeDeposit d => is_u128 (bd_amount d)
  | BridgeWithdraw w => is_u128 (bw_amount w)
  | _ => True
  end.

Section supply.
Context {B : Backend} {Bok : BackendOk B}.
Implicit Types (s : StateManager) (t : SvcState).

Definition balance_of s (i : Z) (a : Address) : Z :=
  match get_balance s a i with Ok v => v | Err _ => 0 end.

Context (accounts : list Address) (Hnodup : NoDup accounts) (i : Z).

(** The accounts' balances of asset [i] are readable, not negative, and sum to
    [T]. *)
Record supply (T : Z) s : Prop := {
  su_balances : forall a, a ∈ accounts -> exists v, get_balance s a i = Ok v /\ 0 <= v;
  su_total : sumZ (balance_of s i) accounts = T;
}.

Lemma supply_frame P T s s' :
  frame P s s' -> (forall a, a ∈ accounts -> ~ P (SK_Balance a i)) -> supply T s -> supply T s'.
Proof.
  intros F H [Hb Ht]. assert (He : forall a, a ∈ accounts -> get_balance s' a i = get_balance s a i).
  { intros a Ha. by eapply get_balance_frame; [exact F|apply H]. }
  split.
  - intros a Ha. rewrite He by done. by apply Hb.
  - rewrite <- Ht. apply sumZ_ext. intros a Ha. unfold balance_of. by rewrite He.
Qed.

Lemma supply_set T a old v s s' :
  supply T s -> a ∈ accounts -> get_balance s a i = Ok old -> 0 <= v ->
  frame (eq (SK_Balance a i)) s s' -> get_balance s' a i = Ok v -> supply (T - old + v) s'.
Proof using Bok Hnodup.
  intros [Hb Ht] Ha Ho Hv F Hn.
  assert (He : forall b, b <> a -> get_balance s' b i = get_balance s b i).
  { intros b Hba. eapply get_balance_frame; [exact F|]. congruence. }
  split.
  - intros b Hin. destruct (decide (b = a)) as [->|Hba]; [eauto|]. rewrite He by done. by apply Hb.
  - rewrite (sumZ_update (balance_of s i) _ _ a) by (done || intros; unfold balance_of; by rewrite He).
    rewrite Ht. unfold balance_of. by rewrite Ho, Hn.
Qed.

Lemma supply_balance T a s :
  supply T s -> a ∈ accounts -> exists v, get_balance s a i = Ok v /\ 0 <= v <= T.
Proof.
  intros [Hb <-] Ha. destruct (Hb a Ha) as (v & Hv & H0). exists v. split_and!; [done|done|].
  pose proof (sumZ_elem (balance_of s i) accounts a) as H. unfold balance_of at 2 in H.
  rewrite Hv in H. apply H; [|done]. intros b Hin. destruct (Hb b Hin) as (w & Hw & ?).
  unfold balance_of. by rewrite Hw.
Qed.

(** ** Steps of the services *)

Lemma triple_svc_read {A C} P (f : StateManager -> result StateError A) (k : A -> ST SvcState EngineError C) Q (R : SvcState -> Prop) :
  (forall t, P t -> R t) ->
  (forall v, triple (fun t => P t /\ f (ss_state t) = Ok v) (k v) Q R) ->
  triple P (let! x := svc_read f in k x) Q R.
Proof.
  intros HR Hk t Ht. unfold st_bind, svc_read, st_read, state_result, map_err.
  destruct (f (ss_state t)) as [v|e] eqn:E; [by apply Hk|by apply HR].
Qed.

Lemma triple_lift_bind {A C} P (r : result EngineError A) (k : A -> ST SvcState EngineError C) Q (R : SvcState -> Prop) :
  (forall e t, r = Err e -> P t -> R t) -> (forall v, r = Ok v -> triple P (k v) Q R) ->
  triple P (let! x := st_lift r in k x) Q R.
Proof.
  intros HR Hk t Ht. unfold st_bind, st_lift. destruct r as [v|e]; [by apply Hk|by eapply HR].
Qed.

Lemma triple_guard_bind {C} P b e (k : ST SvcState EngineError C) Q (R : SvcState -> Prop) :
  (forall t, P t -> R t) -> (b = true -> triple P k Q R) -> triple P (st_guard b e ;; k) Q R.
Proof. intros HR Hk t Ht. unfold st_bind, st_guard. destruct b; [by apply Hk|by apply HR]. Qed.

(** Setting the balance of one of the accounts, read before as [old]. *)
Lemma triple_set_balance {C} T a old v (k : ST SvcState EngineError C) Q R :
  a ∈ accounts -> 0 <= v ->
  triple (fun t => supply (T - old + v) (ss_state t)) k Q R ->
  triple (fun t => supply T (ss_state t) /\ get_balance (ss_state t) a i = Ok old)
    (svc_state (set_balance a i v) ;; k) Q R.
Proof using Bok Hnodup.
  intros Ha Hv Hk t [Ht Ho]. destruct (set_balance_run a i v t) as (s' & E & G & F).
  erewrite st_bind_eq by exact E. apply Hk. by eapply supply_set.
Qed.

Lemma triple_emit_supply T e (R : SvcState -> Prop) :
  triple (fun t => supply T (ss_state t)) (emit e) (fun _ t => supply T (ss_state t)) R.
Proof. by intros t Ht. Qed.

Notation holds T := (fun t => supply T (ss_state t)).
(** [m] adds [d] to the supply when it succeeds, and nothing when it fails. *)
Definition adds {A} (T d : Z) (m : ST SvcState EngineError A) : Prop :=
  triple (holds T) m (fun _ => holds (T + d)) (holds T).

Lemma adds_frames {A} P T (m : ST SvcState EngineError A) :
  frames ss_state P m -> (forall a, a ∈ accounts -> ~ P (SK_Balance a i)) -> adds T 0 m.
Proof.
  intros F H t Ht. rewrite Z.add_0_r. specialize (F t).
  destruct (m t) as [[a|e] t']; by eapply supply_frame.
Qed.

(** Using a consequence of the precondition. *)
Lemma triple_pre {A} (P : SvcState -> Prop) (phi : Prop) (m : ST SvcState EngineError A) Q R :
  (forall t, P t -> phi) -> (phi -> triple P m Q R) -> triple P m Q R.
Proof. intros H Hm t Ht. apply Hm; [by eapply H|done]. Qed.

Lemma supply_read_nonneg T a old t :
  a ∈ accounts -> holds T t /\ get_balance (ss_state t) a i = Ok old -> 0 <= old <= T.
Proof. intros Ha [Ht Ho]. destruct (supply_balance T a _ Ht Ha) as (v & Hv & ?). congruence. Qed.

(** ** Accounts *)

Lemma adds_update_balance T a amount (is_credit : bool) reason :
  a ∈ accounts -> 0 <= amount ->
  adds T (if is_credit then amount else - amount) (update_balance a i amount is_credit reason).
Proof using Bok Hnodup.
  intros Ha Hamt. unfold adds, update_balance.
  apply triple_svc_read; [done|intros old].
  apply (triple_pre _ _ _ _ _ (fun t => supply_read_nonneg T a old t Ha)); intros Hold.
  apply triple_lift_bind; [by intros ? ? _ []|]. intros v Hv.
  assert (v = T + (if is_credit then amount else - amount) - (T - old) /\ 0 <= v) as [Ev Hv0].
  { destruct is_credit.
    - apply add_or_overflow_Ok in Hv as [-> _]. lia.
    - destruct (Z.ltb_spec old amount); [done|]. injection Hv as <-. lia. }
  apply triple_set_balance; [done|done|].
  replace (T - old + v) with (T + (if is_credit then amount else - amount)) by lia.
  apply triple_emit_supply.
Qed.

Lemma adds_transfer_same T from tr :
  from ∈ accounts -> tr_to tr ∈ accounts -> tr_asset_id tr = i -> 0 <= tr_amount tr -> T <= U128_MAX ->
  adds T 0 (transfer from tr).
Proof using Bok Hnodup.
  intros Hf Ht Hi Hamt HT. unfold adds, transfer. rewrite Z.add_0_r, Hi.
  apply triple_guard_bind; [done|intros Hne]. apply negb_true_iff, Z.eqb_neq in Hne.
  apply triple_svc_read; [done|intros found].
  apply triple_lift_bind; [by intros ? ? _ []|intros asset _].
  apply triple_guard_bind; [by intros ? []|intros _].
  apply triple_svc_read; [by intros ? []|intros bf].
  apply triple_guard_bind; [by intros ? [[] _]|intros Hle]. apply negb_true_iff, Z.ltb_ge in Hle.
  apply triple_weaken with (P' := fun t => holds T t /\ get_balance (ss_state t) from i = Ok bf)
    (Q' := fun _ => holds T) (R' := holds T); [|by intros ? [[] ?]|done|done].
  apply (triple_pre _ _ _ _ _ (fun t => supply_read_nonneg T from bf t Hf)); intros Hbf.
  apply triple_set_balance; [done|lia|].
  apply triple_weaken with (P' := holds (T - tr_amount tr))
    (Q' := fun _ => holds T) (R' := holds T); [|intros t; by replace (T - bf + (bf - tr_amount tr)) with (T - tr_amount tr) by lia|done|done].
  intros t Hs. destruct (supply_balance _ _ _ Hs Ht) as (bt & Hbt & Hr).
  rewrite (svc_read_bind _ _ _ _ Hbt), add_fits by lia.
  erewrite st_bind_eq by reflexivity.
  apply (triple_set_balance (T - tr_amount tr) (tr_to tr) bt (bt + tr_amount tr)); [done|lia| |done].
  replace (T - tr_amount tr - bt + (bt + tr_amount tr)) with T by lia.
  apply triple_emit_supply.
Qed.

Lemma adds_bridge_deposit_same T op d :
  bd_user d ∈ accounts -> bd_asset_id d = i -> 0 <= bd_amount d -> adds T (bd_amount d) (bridge_deposit op d).
Proof using Bok Hnodup.
  intros Ha Hi Hamt. unfold adds, bridge_deposit. rewrite Hi.
  apply triple_svc_read; [done|intros is_operator].
  apply triple_guard_bind; [by intros ? []|intros _].
  apply triple_svc_read; [by intros ? []|intros found].
  apply triple_lift_bind; [by intros ? ? _ [[]]|intros _ _].
  apply triple_svc_read; [by intros ? [[] _]|intros old].
  apply triple_lift_bind; [by intros ? ? _ [[[]]]|intros v [-> _]%add_or_overflow_Ok].
  apply triple_weaken with (P' := fun t => holds T t /\ get_balance (ss_state t) (bd_user d) i = Ok old)
    (Q' := fun _ => holds (T + bd_amount d)) (R' := holds T); [|by intros ? [[[] ?] ?]|done|done].
  apply (triple_pre _ _ _ _ _ (fun t => supply_read_nonneg T _ old t Ha)); intros Hold.
  apply triple_set_balance; [done|lia|].
  replace (T - old + (old + bd_amount d)) with (T + bd_amount d) by lia. apply triple_emit_supply.
Qed.

Lemma adds_bridge_withdraw_same T op w :
  bw_user w ∈ accounts -> bw_asset_id w = i -> 0 <= bw_amount w -> adds T (- bw_amount w) (bridge_withdraw op w).
Proof using Bok Hnodup.
  intros Ha Hi Hamt. unfold adds, bridge_withdraw. rewrite Hi.
  apply triple_svc_read; [done|intros is_operator].
  apply triple_guard_bind; [by intros ? []|intros _].
  apply triple_svc_read; [by intros ? []|intros found].
  apply triple_lift_bind; [by intros ? ? _ [[]]|intros _ _].
  apply triple_svc_read; [by intros ? [[] _]|intros old].
  apply triple_guard_bind; [by intros ? [[[] _] _]|intros Hle]. apply negb_true_iff, Z.ltb_ge in Hle.
  apply triple_weaken with (P' := fun t => holds T t /\ get_balance (ss_state t) (bw_user w) i = Ok old)
    (Q' := fun _ => holds (T + - bw_amount w)) (R' := holds T); [|by intros ? [[[] ?] ?]|done|done].
  apply (triple_pre _ _ _ _ _ (fun t => supply_read_nonneg T _ old t Ha)); intros Hold.
  apply triple_set_balance; [done|lia|].
  replace (T - old + (old - bw_amount w)) with (T + - bw_amount w) by lia. apply triple_emit_supply.
Qed.

End supply.

(** * Transactions *)

Section transactions.
Context {B : Backend} {Bok : BackendOk B} {V : TxEnv} {G : SigEnv}.
Implicit Types (n : Node) (tx : Transaction).

(** The balances of an asset. *)
Definition at_asset (j : Z) (k : StateKey) : Prop := exists a, k = SK_Balance a j.

Lemma frames_balance_at a j v : frames ss_state (at_asset j) (svc_state (set_balance a j v)).
Proof.
  apply frames_svc_state. eapply frames_weaken; [|apply frames_set_balance]. intros k <-. by exists a.
Qed.

Ltac account_frames :=
  repeat (frames_step || apply frames_balance_at || apply frames_svc_read || apply frames_svc_emit).

Lemma frames_update_balance_at a j v c r : frames ss_state (at_asset j) (update_balance a j v c r).
Proof. unfold update_balance. account_frames. Qed.
Lemma frames_transfer_at a t : frames ss_state (at_asset (tr_asset_id t)) (transfer a t).
Proof. unfold transfer. account_frames. Qed.
Lemma frames_bridge_deposit_at a d : frames ss_state (at_asset (bd_asset_id d)) (bridge_deposit a d).
Proof. unfold bridge_deposit. account_frames. Qed.
Lemma frames_bridge_withdraw_at a w : frames ss_state (at_asset (bw_asset_id w)) (bridge_withdraw a w).
Proof. unfold bridge_withdraw. account_frames. Qed.

Context (accounts : list Address) (Hnodup : NoDup accounts) (i : Z).
Notation adds := (adds accounts i).
Notation supply := (supply accounts i).

Lemma adds_other {A} T j (m : ST SvcState EngineError A) :
  frames ss_state (at_asset j) m -> j <> i -> adds T 0 m.
Proof. intros F Hj. eapply adds_frames; [exact F|]. intros a _ [b [= _ E]]. by apply Hj. Qed.

Lemma adds_trade {A} T (m : ST SvcState EngineError A) : frames ss_state trade_key m -> adds T 0 m.
Proof.
  intros F. eapply adds_frames; [exact F|].
  intros a _ [H|[H|H]]; cbn in H; done.
Qed.

Lemma adds_engine {A} T d (m : ST SvcState EngineError A) :
  adds T d m ->
  triple (fun e => supply T (en_state e)) (engine_call (on_services m))
    (fun _ e => supply (T + d) (en_state e)) (fun e => supply T (en_state e)).
Proof.
  intros H e He. unfold engine_call, st_map_err, on_services, st_zoom.
  pose proof (H {| ss_state := en_state e; ss_context := en_context e; ss_orderbook := en_orderbook e |} He) as Hm.
  destruct (m _) as [[a|x] t]; exact Hm.
Qed.

(** A payload adds its supply change when it succeeds and nothing when it fails. *)
Lemma payload_adds T tx :
  amounts_ok (tx_payload tx) -> (forall a, a ∈ parties tx -> a ∈ accounts) -> T <= U128_MAX ->
  triple (fun e => supply T (en_state e)) (execute_tx_payload_readonly tx)
    (fun _ e => supply (T + supply_change i (tx_payload tx)) (en_state e))
    (fun e => supply T (en_state e)).
Proof using Bok Hnodup.
  intros Ha Hp HT. unfold parties in Hp. unfold execute_tx_payload_readonly, supply_change.
  assert (Hfrom : tx_from tx ∈ accounts) by (apply Hp; left).
  destruct (tx_payload tx) as [d|w|o|c|o|c|a|a|t|d|w]; cbn [amounts_ok] in Ha;
    try apply adds_engine.
  - destruct (Z.eqb_spec (dep_asset_id d) i); [subst|eapply adds_other; [apply frames_update_balance_at|done]].
    apply (adds_update_balance _ Hnodup _ _ _ _ true); [done|apply Ha].
  - destruct (Z.eqb_spec (wd_asset_id w) i); [subst|eapply adds_other; [apply frames_update_balance_at|done]].
    apply (adds_update_balance _ Hnodup _ _ _ _ false); [done|apply Ha].
  - eapply triple_bind; [apply adds_engine, adds_trade, frames_place_order|]. by intros id e He.
  - apply adds_trade, frames_cancel_order.
  - intros e He. exact He.
  - apply adds_trade, frames_close_position.
  - apply adds_trade, frames_svc_emit.
  - apply adds_trade, frames_svc_emit.
  - destruct (Z.eqb_spec (tr_asset_id t) i); [|eapply adds_other; [apply frames_transfer_at|done]].
    apply (adds_transfer_same _ Hnodup); [done|apply Hp; set_solver|done|apply Ha|done].
  - destruct (Z.eqb_spec (bd_asset_id d) i); [|eapply adds_other; [apply frames_bridge_deposit_at|done]].
    apply (adds_bridge_deposit_same _ Hnodup); [apply Hp; set_solver|done|apply Ha].
  - destruct (Z.eqb_spec (bw_asset_id w) i); [|eapply adds_other; [apply frames_bridge_withdraw_at|done]].
    apply (adds_bridge_withdraw_same _ Hnodup); [apply Hp; set_solver|done|apply Ha].
Qed.

Lemma execute_supply T tx n :
  amounts_ok (tx_payload tx) -> (forall a, a ∈ parties tx -> a ∈ accounts) -> T <= U128_MAX ->
  supply T (nd_state n) ->
  supply (T + if is_ok (fst (execute tx n)) then supply_change i (tx_payload tx) else 0)
    (nd_state (snd (execute tx n))).
Proof using Bok Hnodup.
  intros Ha Hp HT Hs. pose proof (payload_adds T tx Ha Hp HT (nd_engine n) Hs) as H.
  destruct (execute_engine tx n) as [(x & E)|(r & e & Er & E1 & E2)].
  { rewrite E. cbn. by rewrite Z.add_0_r. }
  rewrite Er in H. rewrite E1. destruct r as [[]|x].
  - destruct E2 as (s & F & E2). cbn [is_ok].
    eapply (supply_frame _ _ (eq (SK_Nonce (tx_from tx)))); [|by intros a _|exact H].
    replace (nd_state (snd (execute tx n))) with s; [exact F|]. unfold nd_state. by rewrite E2.
  - cbn [is_ok]. rewrite Z.add_0_r. unfold nd_state. by rewrite E2.
Qed.

(** The transactions of a block that succeed, in order. *)
Fixpoint executed (block : list (list Z)) n : list Transaction :=
  match block with
  | [] => []
  | b :: block =>
      match decode_tx b with
      | Err _ => executed block n
      | Ok tx => (if is_ok (fst (execute tx n)) then [tx] else []) ++ executed block (snd (execute tx n))
      end
  end.

(** A transaction among the known accounts, and how far it may raise the supply. *)
Definition known tx : Prop :=
  amounts_ok (tx_payload tx) /\ forall a, a ∈ parties tx -> a ∈ accounts.
Definition may_add tx : Z := Z.max 0 (supply_change i (tx_payload tx)).

Lemma fold_supply block : forall stats n T,
  Forall known (omap decoded block) -> supply T (nd_state n) ->
  T + sumZ may_add (omap decoded block) <= U128_MAX ->
  let '(stats', n') := foldl execute_bytes (stats, n) block in
  (successful stats' = successful stats + length (executed block n))%nat /\
  supply (T + sumZ (fun tx => supply_change i (tx_payload tx)) (executed block n)) (nd_state n').
Proof using Bok Hnodup.
  induction block as [|b block IH]; intros stats n T Hk Hs Hfit.
  { cbn. rewrite Z.add_0_r, Nat.add_0_r. done. }
  cbn [foldl execute_bytes executed]. cbn [omap list_omap] in Hk, Hfit. unfold decoded at 1 in Hk; unfold decoded at 1 in Hfit.
  destruct (decode_tx b) as [tx|e]; [|exact (IH (record_failure stats) n T Hk Hs Hfit)].
  apply Forall_cons in Hk as [[Ha Hp] Hk]. rewrite sumZ_cons in Hfit.
  assert (H0 : 0 <= sumZ may_add (omap decoded block))
    by (apply sumZ_nonneg; unfold may_add; lia).
  pose proof (execute_supply T tx n Ha Hp ltac:(unfold may_add in *; lia) Hs) as H1.
  destruct (execute tx n) as [r n1]. cbn [fst snd] in *.
  specialize (IH (if is_ok r then record_success stats else record_failure stats) n1 _ Hk H1).
  destruct (foldl _ _ _) as [stats' n'].
  destruct IH as [IH1 IH2]; [unfold may_add in *; destruct r; cbn [is_ok]; lia|].
  rewrite sumZ_app, length_app. destruct r as [u|x]; cbn [is_ok] in *; cbn.
  - split; [cbn in IH1; lia|]. rewrite Z.add_0_r, Z.add_assoc. exact IH2.
  - split; [cbn in IH1; lia|]. by rewrite Z.add_0_r in IH2.
Qed.

End transactions.

(** Executing a block conserves money.  For any set of accounts that
    holds every party of the block, and as long as the supply fits a [u128], the
    sum of their balances of an asset changes by exactly what the successful
    transactions deposit and withdraw: trading and transfers move nothing in or
    out, and neither does a transaction that fails, however much it had already
    written.  No balance becomes negative. *)
Theorem block_supply {B : Backend} {Bok : BackendOk B} {V : TxEnv} {G : SigEnv}
    (accounts : list Address) (i T : Z) (block : list (list Z)) (n : Node) :
  NoDup accounts -> Forall (known accounts) (omap decoded block) ->
  supply accounts i T (nd_state n) -> T + sumZ (may_add i) (omap decoded block) <= U128_MAX ->
  let '(stats, n') := execute_batch block n in
  successful stats = length (executed block n) /\
  supply accounts i (T + sumZ (fun tx => supply_change i (tx_payload tx)) (executed block n)) (nd_state n').
Proof.
  intros Hd Hk Hs Hfit. exact (fold_supply accounts Hd i block TxExecutionStats_new n T Hk Hs Hfit).
Qed.

(** * Witness *)

Lemma known_dec accounts tx :
  amounts_ok (tx_payload tx) -> bool_decide (Forall (fun a => a ∈ accounts) (parties tx)) = true ->
  known accounts tx.
Proof. intros Ha Hp%bool_decide_eq_true_1. split; [done|]. intros a Hin. by eapply Forall_forall in Hp. Qed.

Definition supply_block : list (list Z) := [
  encode (signed_by 1 0 (Deposit {| dep_amount := 500; dep_asset_id := 0 |}));
  encode (signed_by 1 1 (Withdraw {| wd_amount := 1000; wd_asset_id := 0; wd_to := 1 |}));
  encode (signed_by 2 0 (Withdraw {| wd_amount := 1; wd_asset_id := 0; wd_to := 2 |}))].

Lemma supply_block_decoded : omap decoded supply_block = [
  signed_by 1 0 (Deposit {| dep_amount := 500; dep_asset_id := 0 |});
  signed_by 1 1 (Withdraw {| wd_amount := 1000; wd_asset_id := 0; wd_to := 1 |});
  signed_by 2 0 (Withdraw {| wd_amount := 1; wd_asset_id := 0; wd_to := 2 |})].
Proof. vm_compute. reflexivity. Qed.

Lemma supply_block_known : Forall (known [1; 2]) (omap decoded supply_block).
Proof.
  rewrite supply_block_decoded.
  do 3 (apply Forall_cons; split; [apply known_dec; [vm_compute; split; congruence|vm_compute; reflexivity]|]).
  by apply Forall_nil.
Qed.

Lemma supply_demo_start : supply (B := mem_backend) [1; 2] 0 60000 (nd_state node_demo).
Proof.
  split; [|vm_compute; reflexivity]. intros a Ha.
  apply elem_of_cons in Ha as [->|Ha]; [|apply list_elem_of_singleton in Ha as ->];
    [exists 60000|exists 0]; (split; [vm_compute; reflexivity|lia]).
Qed.

Lemma parties_nodup : NoDup [1; 2].
Proof. repeat constructor; set_solver. Qed.

Lemma block_supply_witness :
  supply (B := mem_backend) [1; 2] 0 59500 (nd_state (snd (execute_batch supply_block node_demo))).
Proof.
  assert (Hfit : 60000 + sumZ (may_add 0) (omap decoded supply_block) <= U128_MAX)
    by (vm_compute; discriminate).
  assert (Ee : sumZ (fun tx => supply_change 0 (tx_payload tx)) (executed supply_block node_demo) = -500)
    by (vm_compute; reflexivity).
  pose proof (block_supply [1; 2] 0 60000 supply_block node_demo
    parties_nodup supply_block_known supply_demo_start Hfit) as H.
  rewrite Ee in H.
  rewrite (surjective_pairing (execute_batch supply_block node_demo)) in H. exact (proj2 H).
Defined.
