(* ===== verification/Chain.v ===== *)
(** Runs of blocks whose commits do not prune.  The invariant of the order book and of the positions is
    carried through every transaction, failed ones included, through commits and
    through a restart: this composes the services (Services.v, Trading.v), the
    engine with its recovery (Engine.v), the executor (Exec.v) and the storage
    (Storage.v). *)
From stdpp Require Import base gmap sets list sorting strings.
From Stdlib Require Import ZArith Lia.
From S2P Require Import Prelude Types Storage State Tx EngineBase Orderbook Matching Position Risk Services Trading Engine Auth Mempool Exec Supply.

(** * Position sizes *)

Section sizes.
Context {B : Backend} {Bok : BackendOk B}.
Implicit Types (s : StateManager) (t : SvcState).

(** A stored position, if there is one, has a size that fits a [u64].  Deleting
    a position uncovers its committed value, so that one is included. *)
Definition sized (o : option Bytes) : Prop :=
  forall p : Position, decode o = Ok (Some p) -> is_u64 (pos_size p).
Definition sizes_ok s : Prop :=
  forall a m, sized (sv s (SK_Position a m)) /\ sized (committed s (SK_Position a m)).

Lemma sizes_frame P s s' :
  frame P s s' -> (forall a m, ~ P (SK_Position a m)) -> sizes_ok s -> sizes_ok s'.
Proof.
  intros F H Hs a m. destruct (Hs a m) as [H1 H2].
  rewrite (committed_frame _ _ _ _ F). destruct F as [_ F]. by rewrite (F _ (H a m)).
Qed.

(** Writing one position. *)
Lemma sizes_write a m s s' :
  frame (position_keys a m) s s' -> sized (sv s' (SK_Position a m)) -> sizes_ok s -> sizes_ok s'.
Proof.
  intros F H Hs b k. destruct (Hs b k) as [H1 H2]. rewrite (committed_frame _ _ _ _ F).
  split; [|done]. destruct (decide ((b, k) = (a, m))) as [[= -> ->]|Hne]; [done|].
  destruct F as [_ F]. rewrite F; [done|]. intros [?|?]; congruence.
Qed.

Lemma sizes_set_position a m p s :
  is_u64 (pos_size p) -> sizes_ok s -> sizes_ok (snd (set_position a m p s)).
Proof.
  intros Hp Hs. destruct (set_position a m p s) as [r s'] eqn:E.
  eapply sizes_write; [eapply frames_run_id; [apply frames_set_position|exact E]| |exact Hs].
  destruct (set_position_spec a m p s) as (s1 & R & G & _). rewrite E in R. simplify_eq.
  intros q Hq. cbn [snd] in Hq. unfold get_position in G. rewrite sm_get_sv, Hq in G. by injection G as ->.
Qed.

Lemma sizes_delete_position a m s : sizes_ok s -> sizes_ok (snd (delete_position a m s)).
Proof.
  intros Hs. destruct (delete_position a m s) as [r s'] eqn:E.
  eapply sizes_write; [eapply frames_run_id; [apply frames_delete_position|exact E]| |exact Hs].
  destruct (delete_position_spec a m s) as (s1 & R & G & _). rewrite E in R. simplify_eq.
  cbn [snd]. rewrite G. apply Hs.
Qed.

Lemma trade_existing_size pos size price is_buy bps p :
  is_u64 (pos_size pos) -> is_u64 size ->
  trade_existing pos size price is_buy bps = Ok (Some p) -> is_u64 (pos_size p).
Proof.
  intros Hp Hs H. unfold trade_existing in H.
  destruct (Bool.eqb _ _).
  - destruct (increase_position _ _ _ _) as [q|] eqn:E; [|done]. injection H as <-.
    unfold increase_position in E. inv_checked.
    destruct (0 <? _); inv_checked; [apply as_u64_range|done].
  - unfold is_u64 in *. destruct (Z.leb_spec (pos_size pos) size).
    + destruct (Z.ltb_spec 0 (size - pos_size pos)); [|done].
      destruct (calculate_initial_margin _ _ _); [|done]. injection H as <-. cbn [pos_size]. lia.
    + destruct (pos_size pos =? 0); [done|]. inv_checked. cbn [pos_size with_size_margin]. lia.
Qed.

Lemma sizes_update_position a m size price is_buy bps s :
  is_u64 size -> sizes_ok s -> sizes_ok (snd (update_position a m size price is_buy bps s)).
Proof.
  intros Hsz Hs. unfold update_position, st_bind, st_read, state_result, map_err.
  destruct (get_position s a m) as [[pos|]|e] eqn:Ep; [| |done].
  - assert (Hp : is_u64 (pos_size pos)).
    { destruct (Hs a m) as [H _]. apply H. unfold get_position in Ep. by rewrite sm_get_sv in Ep. }
    unfold st_lift. destruct (trade_existing pos size price is_buy bps) as [[p|]|e] eqn:Et; [| |done];
      unfold lift_state, st_map_err.
    + pose proof (sizes_set_position a m p s (trade_existing_size _ _ _ _ _ _ Hp Hsz Et) Hs) as H.
      by destruct (set_position a m p s).
    + pose proof (sizes_delete_position a m s Hs) as H. by destruct (delete_position a m s).
  - unfold st_lift. destruct (calculate_initial_margin size price bps) as [mg|]; [|done].
    unfold lift_state, st_map_err.
    match goal with |- context [set_position a m ?p s] => pose proof (sizes_set_position a m p s Hsz Hs) as H;
      by destruct (set_position a m p s) end.
Qed.

Lemma sizes_process_fill fill market t :
  is_u64 (f_size fill) -> sizes_ok (ss_state t) -> sizes_ok (ss_state (snd (process_fill fill market t))).
Proof.
  intros Hsz Hs. unfold process_fill, st_bind, svc_engine, st_zoom.
  pose proof (sizes_update_position (f_taker fill) (f_market_id fill) (f_size fill) (f_price fill)
    (f_taker_is_buy fill) (m_initial_margin_bps market) (ss_state t) Hsz Hs) as H1.
  destruct (update_position (f_taker fill) _ _ _ _ _ _) as [[[]|e] s1]; [|exact H1].
  pose proof (sizes_update_position (f_maker fill) (f_market_id fill) (f_size fill) (f_price fill)
    (negb (f_taker_is_buy fill)) (m_initial_margin_bps market) s1 Hsz H1) as H2.
  cbn [ss_state with_ss_state].
  destruct (update_position (f_maker fill) _ _ _ _ _ _) as [[[]|e] s2]; exact H2.
Qed.

End sizes.

(** * The invariant of a node *)

Section invariant.
Context {B : Backend} {Bok : BackendOk B}.
Implicit Types (s : StateManager) (t : SvcState) (e : Engine) (ob : OrderbookManager).

(** In each market of [ms] a level may hold [vol]; there are no other markets. *)
Definition allow (vol : Z) (ms : list Z) : Z -> bool -> Z -> Z := fun m _ _ =>
  if decide (m ∈ ms) then vol else 0.

Definition markets_ok (ms : list Z) s : Prop :=
  list_all_markets s = Ok ms /\ forall m market, get_market s m = Ok (Some market) -> m ∈ ms.
Definition rest_ok (ms : list Z) s : Prop := sizes_ok s /\ markets_ok ms s.

(** The book is in step with the state, levels are within the allowance, stored
    positions and the market list are sound. *)
Definition desk_inv (vol : Z) (ms : list Z) ob s : Prop :=
  trading_inv ob s /\ within (allow vol ms) s /\ rest_ok ms s.

Lemma inv_in_desk vol ms t :
  inv_in (allow vol ms) (rest_ok ms) t = desk_inv vol ms (ss_orderbook t) (ss_state t).
Proof. reflexivity. Qed.

(** ** Changes that do not matter *)

Definition account_key (k : StateKey) : Prop :=
  match k with SK_Balance _ _ | SK_Nonce _ => True | _ => False end.

Lemma rest_frame ms P s s' :
  frame P s s' -> (forall k, P k -> order_key k \/ account_key k) -> rest_ok ms s -> rest_ok ms s'.
Proof.
  intros F H (Hs & Hl & Hm). split; [|split].
  - eapply sizes_frame; [exact F| |exact Hs]. intros a m Hp. by destruct (H _ Hp) as [[]|[]].
  - rewrite <- Hl. eapply get_or_default_frame; [exact F|]. intros Hp. by destruct (H _ Hp) as [[]|[]].
  - intros m market Hg. apply (Hm m market). rewrite <- Hg. symmetry.
    unfold get_market. eapply sm_get_frame; [exact F|]. intros Hp. by destruct (H _ Hp) as [[]|[]].
Qed.

Lemma rest_fill ms fill market t :
  is_u64 (f_size fill) -> rest_ok ms (ss_state t) ->
  rest_ok ms (ss_state (snd (process_fill fill market t))).
Proof.
  intros Hsz (Hs & Hl & Hm). pose proof (frames_process_fill fill market t) as F.
  split; [|split].
  - by apply sizes_process_fill.
  - rewrite <- Hl. eapply get_or_default_frame; [exact F|]. by intros [].
  - intros m mk Hg. apply (Hm m mk). rewrite <- Hg. symmetry.
    unfold get_market. eapply sm_get_frame; [exact F|]. by intros [].
Qed.

(** The invariant only reads through the keys. *)
Lemma desk_inv_ext vol ms ob s s' :
  (forall k, ~ account_key k -> sv s' k = sv s k) ->
  (forall k, committed s' k = committed s k \/ committed s' k = sv s k) ->
  desk_inv vol ms ob s -> desk_inv vol ms ob s'.
Proof.
  intros Hsv Hc ((Hb & Hl & n & Hn & Hlt) & Hw & Hs & Hms & Hmk).
  assert (Hg : forall T (S : Serde Bytes T) k, ~ account_key k -> sm_get s' k = sm_get s k).
  { intros T S k Hk. by rewrite !sm_get_sv, Hsv. }
  assert (Hso : same_orders s s').
  { split; intros; [by apply Hg; intros []|].
    unfold get_active_orders_by_market, get_or_default. by rewrite Hg by (by intros []). }
  assert (Ha : forall m, active s' m = active s m) by (intros m; apply active_of, Hso).
  split; [split; [|split]|split; [|split; [|split]]].
  - by eapply same_orders_synced.
  - by eapply same_orders_listed.
  - exists n. split; [|intros m i; rewrite Ha; apply Hlt].
    rewrite <- Hn. unfold order_counter, get_or_default. by rewrite Hg by (by intros []).
  - eapply same_orders_within; [apply Hb|exact Hso|exact Hw].
  - intros a m. destruct (Hs a m) as [H1 H2]. rewrite Hsv by (by intros []). split; [done|].
    destruct (Hc (SK_Position a m)) as [-> | ->]; done.
  - rewrite <- Hms. unfold list_all_markets, get_or_default. by rewrite Hg by (by intros []).
  - intros m mk Hget. apply (Hmk m mk). rewrite <- Hget. symmetry. by apply Hg; intros [].
Qed.

Lemma desk_inv_account vol ms ob P s s' :
  frame P s s' -> (forall k, P k -> account_key k) -> desk_inv vol ms ob s -> desk_inv vol ms ob s'.
Proof.
  intros F H. apply desk_inv_ext.
  - intros k Hk. apply F. intros Hp. by apply Hk, H.
  - intros k. left. by eapply committed_frame.
Qed.

Lemma allow_mono vol vol' ms ob s :
  vol <= vol' -> desk_inv vol ms ob s -> desk_inv vol' ms ob s.
Proof.
  intros Hle (H1 & H2 & H3). split_and!; [done| |done]. intros m side p.
  specialize (H2 m side p). unfold allow in *. destruct (decide _); lia.
Qed.

End invariant.

(** * Transactions and blocks *)

Section blocks.
Context {B : Backend} {Bok : BackendOk B} {V : TxEnv} {G : SigEnv}.
Implicit Types (n : Node) (tx : Transaction) (e : Engine).

(** The volume a payload may leave resting; sizes and prices are [u64]s. *)
Definition volume (p : TxPayload) : Z :=
  match p with PlaceOrder o => resting_size o | _ => 0 end.
Definition sizes_typed (p : TxPayload) : Prop :=
  match p with PlaceOrder o => PlaceOrder_ok o | ClosePosition c => is_u64 (cp_size c) | _ => True end.

Lemma volume_nonneg p : sizes_typed p -> 0 <= volume p.
Proof.
  destruct p; cbn; try lia. intros [[H _] _]. unfold resting_size. destruct (po_time_in_force o); lia.
Qed.

Definition engine_inv (vol : Z) (ms : list Z) e : Prop := desk_inv vol ms (en_orderbook e) (en_state e).

(** [m] keeps the invariant, going from volume [vol] to [vol']. *)
Definition keeps {A} (vol vol' : Z) (ms : list Z) (m : ST SvcState EngineError A) : Prop :=
  forall t, desk_inv vol ms (ss_orderbook t) (ss_state t) ->
    desk_inv vol' ms (ss_orderbook (snd (m t))) (ss_state (snd (m t))).

Lemma keeps_engine {A} vol vol' ms (m : ST SvcState EngineError A) e :
  keeps vol vol' ms m -> engine_inv vol ms e -> engine_inv vol' ms (snd (engine_call (on_services m) e)).
Proof.
  intros H He. unfold engine_call, st_map_err, on_services, st_zoom.
  pose proof (H {| ss_state := en_state e; ss_context := en_context e; ss_orderbook := en_orderbook e |} He) as Hm.
  destruct (m _) as [[a|x] t]; exact Hm.
Qed.

(** Accounts and agents: only balances are written, the book is not touched. *)
Lemma keeps_account {A} vol ms (m : ST SvcState EngineError A) j :
  frames ss_state (at_asset j) m -> (forall ob, preserves (fun t => ss_orderbook t = ob) m) ->
  keeps vol vol ms m.
Proof.
  intros F Hb t Ht. rewrite (Hb (ss_orderbook t) t eq_refl).
  eapply desk_inv_account; [apply F| |exact Ht]. by intros k [a ->].
Qed.

Lemma svc_state_preserves_book {A} ob (m : ST StateManager StateError A) :
  preserves (fun t => ss_orderbook t = ob) (svc_state m).
Proof. intros t Ht. unfold svc_state, st_zoom. by destruct (lift_state m (ss_state t)). Qed.

Ltac book_untouched :=
  intros ob; repeat first
    [ apply preserves_bind; [|intros ?]
    | apply svc_state_preserves_book | apply preserves_guard | apply preserves_lift
    | by intros ? ? ].

Lemma keeps_update_balance vol ms a j v c r : keeps vol vol ms (update_balance a j v c r).
Proof. eapply keeps_account; [apply frames_update_balance_at|]. unfold update_balance. book_untouched. Qed.
Lemma keeps_transfer vol ms a t : keeps vol vol ms (transfer a t).
Proof. eapply keeps_account; [apply frames_transfer_at|]. unfold transfer. book_untouched. Qed.
Lemma keeps_bridge_deposit vol ms a d : keeps vol vol ms (bridge_deposit a d).
Proof. eapply keeps_account; [apply frames_bridge_deposit_at|]. unfold bridge_deposit. book_untouched. Qed.
Lemma keeps_bridge_withdraw vol ms a w : keeps vol vol ms (bridge_withdraw a w).
Proof. eapply keeps_account; [apply frames_bridge_withdraw_at|]. unfold bridge_withdraw. book_untouched. Qed.

Lemma rest_order ms P s s' : frame P s s' -> (forall k, P k -> order_key k) -> rest_ok ms s -> rest_ok ms s'.
Proof. intros F H. eapply rest_frame; [exact F|]. intros k Hk. left. by apply H. Qed.

(** Orders: an order in an unlisted market is refused, one in a listed market may
    rest within the larger allowance. *)
Lemma keeps_place_order vol ms trader o :
  PlaceOrder_ok o -> vol + resting_size o <= U64_MAX ->
  keeps vol (vol + resting_size o) ms (place_order trader o).
Proof.
  intros Ho Hfit t Ht. pose proof (volume_nonneg (PlaceOrder o) Ho) as H0. cbn in H0.
  destruct (decide (po_market_id o ∈ ms)) as [Hin|Hout].
  - pose proof (place_order_spec (allow vol ms) (rest_ok ms) (rest_order ms) (rest_fill ms) trader o t Ho Ht) as H.
    unfold allow at 1 in H. rewrite decide_True in H by done. specialize (H Hfit).
    destruct (place_order trader o t) as [[id|x] t']; cbn [snd].
    + destruct H as [(H1 & H2 & H3) _]. split; [exact H1|split; [|exact H3]].
      intros m side p. etrans; [apply H2|]. unfold bump, allow.
      destruct (decide (m ∈ ms)) as [Hm|Hm]; [destruct (decide _); lia|].
      rewrite decide_False by (unfold own_level; congruence). lia.
    + eapply allow_mono; [|exact H]. lia.
  - assert (E : snd (place_order trader o t) = t).
    { unfold place_order, svc_read, st_bind, st_read, state_result, map_err.
      destruct (get_market (ss_state t) (po_market_id o)) as [[market|]|x] eqn:Em; [|done|done].
      exfalso. apply Hout. destruct Ht as (_ & _ & _ & _ & Hmk). by eapply Hmk. }
    rewrite E. eapply allow_mono; [|exact Ht]. lia.
Qed.

Lemma keeps_cancel_order vol ms trader c : keeps vol vol ms (cancel_order trader c).
Proof. intros t Ht. exact (cancel_order_inv (allow vol ms) (rest_ok ms) trader c t (rest_order ms) Ht). Qed.

Lemma keeps_close_position vol ms trader c :
  is_u64 (cp_size c) -> 0 <= vol <= U64_MAX -> keeps vol vol ms (close_position trader c).
Proof.
  intros Hc Hvol t Ht.
  apply (close_position_inv (allow vol ms) (rest_ok ms) trader c t (rest_order ms) (rest_fill ms)); try done.
  - intros p Hp. destruct Ht as (_ & _ & Hs & _). destruct (Hs trader (cp_market_id c)) as [H _].
    apply H. unfold get_position in Hp. by rewrite sm_get_sv in Hp.
  - unfold allow. destruct (decide _); unfold U64_MAX in *; lia.
  - unfold allow. destruct (decide _); unfold U64_MAX in *; lia.
Qed.

Lemma payload_keeps vol ms tx e :
  sizes_typed (tx_payload tx) -> 0 <= vol -> vol + volume (tx_payload tx) <= U64_MAX ->
  engine_inv vol ms e ->
  engine_inv (vol + volume (tx_payload tx)) ms (snd (execute_tx_payload_readonly tx e)).
Proof.
  intros Hv H0 Hfit He. unfold execute_tx_payload_readonly, volume in *.
  destruct (tx_payload tx) as [d|w|o|c|o|c|a|a|t|d|w]; cbn [sizes_typed] in Hv; rewrite ?Z.add_0_r in *;
    try (eapply keeps_engine; [|exact He]).
  - apply keeps_update_balance.
  - apply keeps_update_balance.
  - pose proof (keeps_engine _ _ ms (place_order (tx_from tx) o) e (keeps_place_order vol ms _ o Hv Hfit) He) as H.
    unfold st_bind. unfold process_place_order.
    destruct (engine_call _ e) as [[id|x] e']; exact H.
  - apply keeps_cancel_order.
  - exact He.
  - apply keeps_close_position; [done|lia].
  - intros t Ht. exact Ht.
  - intros t Ht. exact Ht.
  - apply keeps_transfer.
  - apply keeps_bridge_deposit.
  - apply keeps_bridge_withdraw.
Qed.

Lemma execute_keeps vol ms tx n :
  sizes_typed (tx_payload tx) -> 0 <= vol -> vol + volume (tx_payload tx) <= U64_MAX ->
  engine_inv vol ms (nd_engine n) ->
  engine_inv (vol + volume (tx_payload tx)) ms (nd_engine (snd (execute tx n))).
Proof.
  intros Hv H0 Hfit He. pose proof (payload_keeps vol ms tx (nd_engine n) Hv H0 Hfit He) as H.
  destruct (execute_engine tx n) as [(x & E)|(r & e & Er & _ & E2)].
  { rewrite E. cbn [snd]. eapply allow_mono; [|exact He]. pose proof (volume_nonneg _ Hv). lia. }
  rewrite Er in H. cbn [snd] in H. destruct r as [[]|x]; [|by rewrite E2].
  destruct E2 as (s & F & ->). unfold engine_inv. cbn [en_state en_orderbook with_en_state].
  eapply desk_inv_account; [exact F| |exact H]. by intros k <-.
Qed.

Definition block_volume (block : list (list Z)) : Z :=
  sumZ (fun tx => volume (tx_payload tx)) (omap decoded block).
Definition block_typed (block : list (list Z)) : Prop :=
  Forall (fun tx => sizes_typed (tx_payload tx)) (omap decoded block).

Lemma block_volume_nonneg block : block_typed block -> 0 <= block_volume block.
Proof.
  intros H. apply sumZ_nonneg. intros tx Hin. apply volume_nonneg.
  unfold block_typed in H. rewrite Forall_forall in H. by apply H.
Qed.

Lemma fold_keeps block : forall ms stats n vol,
  block_typed block -> 0 <= vol -> vol + block_volume block <= U64_MAX ->
  engine_inv vol ms (nd_engine n) ->
  engine_inv (vol + block_volume block) ms (nd_engine (snd (foldl execute_bytes (stats, n) block))).
Proof.
  induction block as [|b block IH]; intros ms stats n vol Ht H0 Hfit He.
  { unfold block_volume. cbn. by rewrite Z.add_0_r. }
  cbn [foldl execute_bytes]. unfold block_typed, block_volume in *. cbn [omap list_omap] in *.
  unfold decoded at 1 in Ht; unfold decoded at 1 in Hfit; unfold decoded at 1.
  destruct (decode_tx b) as [tx|x]; [|by apply IH].
  apply Forall_cons in Ht as [Hv Ht]. rewrite sumZ_cons in Hfit |- *.
  pose proof (block_volume_nonneg block Ht) as Hb. unfold block_volume in Hb.
  pose proof (volume_nonneg _ Hv) as Hv0.
  pose proof (execute_keeps vol ms tx n Hv H0 ltac:(lia) He) as H1.
  destruct (execute tx n) as [r n1]. cbn [snd] in H1. rewrite Z.add_assoc.
  apply IH; [done|lia|lia|exact H1].
Qed.

End blocks.

(** * Chains of blocks *)

Section chain.
Context {B : Backend} {Bok : BackendOk B} {V : TxEnv} {G : SigEnv}.
Implicit Types (n : Node) (tx : Transaction) (e : Engine).

(** The blocks executed from [n], at heights that do not go down and do not
    prune; between them anything may happen that leaves the engine alone, such
    as transactions entering the pool. *)
Inductive chain : Node -> list (list (list Z)) -> Node -> Prop :=
| chain_nil n : chain n [] n
| chain_idle n n1 blocks n' :
    nd_engine n1 = nd_engine n -> chain n1 blocks n' -> chain n blocks n'
| chain_block n height block response n1 blocks n' :
    is_u64 height -> current_version (sm_storage (nd_state n)) <= height ->
    commit_prunes (pruning_config (sm_storage (nd_state n))) height = false ->
    execute_txs height block n = (Ok response, n1) -> chain n1 blocks n' ->
    chain n (block :: blocks) n'.

(** The storage is sound and its version not ahead of the state manager's. *)
Definition grounded n : Prop :=
  storage_wf (sm_storage (nd_state n)) /\
  current_version (sm_storage (nd_state n)) <= sm_version (nd_state n).

(** Between blocks: the storage is sound and the book invariant holds. *)
Definition node_inv (vol : Z) (ms : list Z) n : Prop :=
  storage_wf (sm_storage (nd_state n)) /\
  current_version (sm_storage (nd_state n)) <= sm_version (nd_state n) /\
  engine_inv vol ms (nd_engine n).

(** Everything the node would read is in its database. *)
Definition durable n : Prop := forall config h key,
  sv (StateManager_new (db (sm_storage (nd_state n))) config h) key = sv (nd_state n) key.

(** Moving to the height of the next block changes no reading. *)
Lemma begin_block_reads n height :
  storage_wf (sm_storage (nd_state n)) ->
  current_version (sm_storage (nd_state n)) <= sm_version (nd_state n) ->
  current_version (sm_storage (nd_state n)) <= height ->
  forall k, sv (nd_state (nd_begin_block height n)) k = sv (nd_state n) k /\
    committed (nd_state (nd_begin_block height n)) k = committed (nd_state n) k.
Proof.
  intros Hwf H1 H2 k. unfold committed.
  assert (E : get_value_option (sm_storage (nd_state n)) height (key_hash k) =
              get_value_option (sm_storage (nd_state n)) (sm_version (nd_state n)) (key_hash k))
    by (rewrite !get_value_current by done; done).
  split; [|exact E]. unfold sv, view. cbn [nd_state nd_begin_block with_nd_engine nd_engine with_en_state
    en_state begin_block sm_storage with_version sm_version]. by rewrite E.
Qed.

Lemma block_step vol ms n height block response n' :
  node_inv vol ms n -> block_typed block -> 0 <= vol -> vol + block_volume block <= U64_MAX ->
  current_version (sm_storage (nd_state n)) <= height ->
  commit_prunes (pruning_config (sm_storage (nd_state n))) height = false ->
  execute_txs height block n = (Ok response, n') ->
  node_inv (vol + block_volume block) ms n' /\ durable n'.
Proof.
  intros (Hwf & Hcv & He) Ht H0 Hfit Hh Hnp H.
  destruct (execute_txs_reads height block n response n' PruningConfig_default (sm_hash_state (nd_state n)) Hwf Hh Hnp H)
    as (_ & (Hv & Hc & _) & Hwf' & _ & Hob & Hr).
  assert (Hbegin : engine_inv vol ms (nd_engine (nd_begin_block height n))).
  { pose proof (begin_block_reads n height Hwf Hcv Hh) as Hb.
    eapply desk_inv_ext; [| |exact He]; intros k; [intros _|left]; apply Hb. }
  pose proof (fold_keeps block ms TxExecutionStats_new _ vol Ht H0 Hfit Hbegin) as Hx.
  split; [split_and!; [done|by rewrite Hv, Hc|]|].
  - unfold engine_inv. rewrite Hob.
    eapply desk_inv_ext; [| |exact Hx]; intros k; [intros _|right]; apply Hr.
  - intros config h key.
    destruct (execute_txs_reads height block n response n' config h Hwf Hh Hnp H)
      as (_ & _ & _ & _ & _ & Hr'). destruct (Hr' key) as (-> & _ & ->). done.
Qed.

Lemma chain_keeps n blocks n' : chain n blocks n' -> forall vol ms,
  node_inv vol ms n -> durable n -> Forall block_typed blocks ->
  0 <= vol -> vol + sumZ block_volume blocks <= U64_MAX ->
  node_inv (vol + sumZ block_volume blocks) ms n' /\ durable n'.
Proof.
  induction 1 as [n|n n1 blocks n' He _ IH|n h block resp n1 blocks n' _ Hh Hnp Hx _ IH];
    intros vol ms Hi Hd Ht H0 Hfit.
  - cbn. by rewrite Z.add_0_r.
  - apply IH; try done; unfold node_inv, durable, nd_state in *; by rewrite He.
  - apply Forall_cons in Ht as [Hb Ht]. rewrite sumZ_cons in Hfit |- *.
    pose proof (block_volume_nonneg block Hb).
    assert (0 <= sumZ block_volume blocks).
    { apply sumZ_nonneg. intros x Hin. apply block_volume_nonneg. rewrite Forall_forall in Ht. by apply Ht. }
    destruct (block_step vol ms n h block resp n1 Hi Hb H0 ltac:(lia) Hh Hnp Hx) as [Hi1 Hd1].
    rewrite Z.add_assoc. apply IH; [done|done|done|lia|lia].
Qed.

(** Only listed markets have active orders. *)
Lemma active_listed vol ms ob s m : desk_inv vol ms ob s -> active s m <> [] -> m ∈ ms.
Proof.
  intros ((Hb & _) & Hw & _) Ha. destruct (decide (m ∈ ms)) as [|Hout]; [done|]. exfalso.
  destruct (active s m) as [|id l] eqn:E; [done|].
  pose proof (proj1 Hb m) as Hm.
  assert (Hin : id ∈ active s m) by (rewrite E; left).
  destruct (mok_live _ _ Hm id Hin) as (o & Ho & _ & _ & Hr).
  specialize (Hw m (o_is_buy o) (o_price o)). unfold allow in Hw. rewrite decide_False in Hw by done.
  assert (Hq : id ∈ queue s m (o_is_buy o) (o_price o)).
  { apply elem_of_queue. split; [|done]. unfold at_price. rewrite (order_of_Ok _ _ _ Ho).
    by rewrite eqb_reflx, Z.eqb_refl. }
  destruct (queue_remaining s m _ _ id Hm Hq) as [[H1 H2] _]. lia.
Qed.

(** C1: an exchange that runs can be restarted, as long as no block prunes.  From
    a sound node between blocks (its book in step with its state, its market list
    complete and without duplicates, all it holds in its database), whatever blocks are executed at
    heights that do not go down and whose commits do not prune (with the daemon's
    configuration: heights up to 100000), with whatever failing or nonsensical
    transactions of typed fields in them, and however the other parts of the node
    move in between: as long as the volume placed fits a [u64], the book stays in
    step with the state, every active order stays listed, and positions keep
    sizes that fit; and a node restarted on the database of the running one and
    told to rebuild gets exactly its order book, level by level. *)
Theorem chain_recovers n blocks n' vol ms config h :
  chain n blocks n' -> node_inv vol ms n -> durable n -> NoDup ms -> Forall block_typed blocks ->
  0 <= vol -> vol + sumZ block_volume blocks <= U64_MAX ->
  node_inv (vol + sumZ block_volume blocks) ms n' /\ durable n' /\
  let restarted := Engine_new (StateManager_new (db (sm_storage (nd_state n'))) config h) in
  exists e, rebuild_orderbook_from_state restarted = (Ok tt, e) /\
    book_synced (en_orderbook e) (en_state e) /\
    forall m side p, level_at (en_orderbook e) m side p = level_at (en_orderbook (nd_engine n')) m side p.
Proof.
  intros Hc Hi Hd Hnd Ht H0 Hfit.
  destruct (chain_keeps n blocks n' Hc vol ms Hi Hd Ht H0 Hfit) as [Hi' Hd'].
  split; [exact Hi'|split; [exact Hd'|]]. cbv zeta.
  set (e0 := Engine_new (StateManager_new (db (sm_storage (nd_state n'))) config h)).
  destruct Hi' as (_ & _ & He). set (vol' := vol + sumZ block_volume blocks) in *.
  assert (Hsv : forall k, sv (en_state e0) k = sv (nd_state n') k) by (intros k; apply Hd').
  assert (Hso : same_orders (nd_state n') (en_state e0)).
  { split; intros; [|unfold get_active_orders_by_market, get_or_default]; unfold get_order;
      by rewrite !sm_get_sv, Hsv. }
  assert (Ha : forall m, active (en_state e0) m = active (nd_state n') m)
    by (intros m; apply active_of, Hso).
  pose proof He as ((Hb & _) & _ & _ & Hms & _).
  pose proof (same_orders_synced _ _ _ Hso Hb) as Hb0.
  destruct (rebuild_restores e0 ms) as (e & R & E1 & E2 & E3).
  - apply Hb0.
  - rewrite <- Hms. unfold list_all_markets, get_or_default. by rewrite !sm_get_sv, Hsv.
  - done.
  - intros m. rewrite Ha. by eapply active_listed.
  - exists e. split; [exact R|]. split; [exact E2|]. intros m side p. by apply E3.
Qed.

End chain.

(** * Witness *)

(** The node of Trading.v's desk: market 0, trader 1 with 60000, no orders. *)
Definition chain_demo0 : Node := {|
  nd_engine := Engine_new sm_market; nd_auth := AuthService_new;
  nd_mempool := Mempool_new MempoolConfig_default; nd_max_bytes := 1000 |}.

Lemma sm_market_reads {k} :
  (k <> SK_Market 0 /\ k <> SK_MarketList /\ k <> SK_Balance 1 0) ->
  sv sm_market k = None /\ committed sm_market k = None.
Proof.
  intros (H1 & H2 & H3).
  pose proof (frames_set_market 0 btc_perp sm_demo) as F1.
  pose proof (frames_set_balance 1 0 60000 (snd (set_market 0 btc_perp sm_demo))) as F2.
  assert (E : sv sm_market k = sv sm_demo k).
  { transitivity (sv (snd (set_market 0 btc_perp sm_demo)) k); [apply F2|apply F1]; [congruence|].
    by intros [?|?]. }
  assert (C : committed sm_market k = committed sm_demo k).
  { transitivity (committed (snd (set_market 0 btc_perp sm_demo)) k);
      [exact (committed_frame _ _ _ k F2)|exact (committed_frame _ _ _ k F1)]. }
  rewrite E, C. split; reflexivity.
Qed.

Lemma sm_market_wf : storage_wf (sm_storage sm_market).
Proof.
  apply (set_balance_wf 1 0 60000).
  eapply storage_wf_same_disk; [apply (frames_set_market 0 btc_perp sm_demo)|exact sm_demo_wf].
Qed.

Lemma chain_demo0_inv : node_inv 0 [0] chain_demo0.
Proof.
  split; [exact sm_market_wf|]. split; [vm_compute; discriminate|].
  split; [exact desk0_inv|]. split; [|split; [|split]].
  - intros m side p. unfold level_of, queue, active.
    pose proof (desk0_active m) as E. change (ss_state desk0) with sm_market in E.
    change (en_state (nd_engine chain_demo0)) with sm_market. rewrite E. cbn.
    unfold allow. by destruct (decide _).
  - intros a m. destruct (@sm_market_reads (SK_Position a m)) as [E1 E2]; [by split_and!|].
    change (en_state (nd_engine chain_demo0)) with sm_market. rewrite E1, E2. by split.
  - vm_compute. reflexivity.
  - intros m market Hm. destruct (decide (m = 0)) as [->|Hne]; [left|].
    unfold get_market in Hm. rewrite sm_get_sv in Hm.
    change (en_state (nd_engine chain_demo0)) with sm_market in Hm.
    destruct (@sm_market_reads (SK_Market m)) as [E _]; [split_and!; congruence|].
    by rewrite E in Hm.
Qed.

(** Block 1 is empty, block 2 holds a bid for 10 that rests, bytes that are no
    transaction, and a sale of 4 against the bid. *)
Definition chain_demo1 : Node := snd (execute_txs 1 [] chain_demo0).
Definition order_from (a : Address) (o : PlaceOrderTx) : Transaction :=
  with_signature (new_raw 0 a (PlaceOrder o)) (a :: replicate 63 0 ++ [1]).
Definition chain_demo_block : list (list Z) :=
  [encode (order_from 1 demo_order); [1; 2; 3]; encode (order_from 2 demo_sell)].
Definition chain_demo2 : Node := snd (execute_txs 2 chain_demo_block chain_demo1).

Lemma chain_demo_decoded : omap decoded chain_demo_block = [order_from 1 demo_order; order_from 2 demo_sell].
Proof. vm_compute. reflexivity. Qed.

Lemma chain_demo_typed : block_typed chain_demo_block /\ block_volume chain_demo_block = 10.
Proof.
  unfold block_typed, block_volume. rewrite chain_demo_decoded. split; [|reflexivity].
  apply Forall_cons; split; [exact (proj1 demo_order_ok)|].
  apply Forall_cons; split; [exact (proj2 demo_order_ok)|by apply Forall_nil].
Qed.

(** Committing the empty block makes the starting node durable. *)
Lemma chain_demo1_inv : node_inv 0 [0] chain_demo1 /\ durable chain_demo1.
Proof.
  assert (E : fst (execute_txs 1 [] chain_demo0) = Ok (b256_slice 5, 1000)) by (vm_compute; reflexivity).
  apply (block_step 0 [0] chain_demo0 1 [] (b256_slice 5, 1000) chain_demo1 chain_demo0_inv);
    [by apply Forall_nil|lia|vm_compute; discriminate|vm_compute; discriminate|reflexivity|].
  exact (run_result (execute_txs 1 []) chain_demo0 _ E).
Qed.

Lemma chain_demo_runs : chain chain_demo1 [chain_demo_block] chain_demo2.
Proof.
  assert (E : fst (execute_txs 2 chain_demo_block chain_demo1) = Ok (b256_slice 13, 1000))
    by (vm_compute; reflexivity).
  eapply (chain_block chain_demo1 2 chain_demo_block);
    [vm_compute; split; discriminate|vm_compute; discriminate|reflexivity| |constructor].
  exact (run_result (execute_txs 2 chain_demo_block) chain_demo1 _ E).
Qed.

(** The running node holds the remaining 6 of the bid, and so does the node that
    is restarted and rebuilt. *)
Lemma chain_recovers_witness :
  level_at (en_orderbook (nd_engine chain_demo2)) 0 true 50000 = Some {| pl_orders := [0]; pl_total_size := 6 |} /\
  exists e, rebuild_orderbook_from_state (Engine_new (StateManager_new (db (sm_storage (nd_state chain_demo2))) demo_config demo_hash)) = (Ok tt, e) /\
    level_at (en_orderbook e) 0 true 50000 = Some {| pl_orders := [0]; pl_total_size := 6 |}.
Proof.
  assert (E : level_at (en_orderbook (nd_engine chain_demo2)) 0 true 50000 =
    Some {| pl_orders := [0]; pl_total_size := 6 |}) by (vm_compute; reflexivity).
  split; [exact E|].
  assert (Hfit : 0 + sumZ block_volume [chain_demo_block] <= U64_MAX).
  { rewrite sumZ_cons, (proj2 chain_demo_typed). vm_compute. discriminate. }
  assert (Ht : Forall block_typed [chain_demo_block]).
  { apply Forall_cons; split; [exact (proj1 chain_demo_typed)|by apply Forall_nil]. }
  destruct (chain_recovers chain_demo1 [chain_demo_block] chain_demo2 0 [0] demo_config demo_hash chain_demo_runs
    (proj1 chain_demo1_inv) (proj2 chain_demo1_inv) (NoDup_singleton 0) Ht (Z.le_refl 0) Hfit) as (_ & _ & e & R & _ & L).
  exists e. split; [exact R|]. rewrite L. exact E.
Defined.
