(* ===== verification/Ledger.v ===== *)
(** The ledger of a chain of blocks that do not prune: Supply.v carried through commits, idle
    steps and restarts. *)
From stdpp Require Import base gmap sets list sorting strings.
From Stdlib Require Import ZArith Lia.
From S2P Require Import Prelude Types Storage State Tx EngineBase Orderbook Matching Position Risk Services Trading Engine Auth Mempool Exec Supply Chain.

Section ledger.
Context {B : Backend} {Bok : BackendOk B} {V : TxEnv} {G : SigEnv}.
Implicit Types (s : StateManager) (n : Node) (tx : Transaction).

(** A chain of blocks with the transactions that succeed in it. *)
Inductive ledger : Node -> list (list (list Z)) -> Node -> list Transaction -> Prop :=
| ledger_nil n : ledger n [] n []
| ledger_idle n n1 blocks n' txs :
    nd_engine n1 = nd_engine n -> ledger n1 blocks n' txs -> ledger n blocks n' txs
| ledger_block n height block response n1 blocks n' txs :
    is_u64 height -> current_version (sm_storage (nd_state n)) <= height ->
    commit_prunes (pruning_config (sm_storage (nd_state n))) height = false ->
    execute_txs height block n = (Ok response, n1) -> ledger n1 blocks n' txs ->
    ledger n (block :: blocks) n' (executed block (nd_begin_block height n) ++ txs).

(** Every chain has a ledger, and a ledger is one of a chain. *)
Lemma chain_ledger n blocks n' : chain n blocks n' <-> exists txs, ledger n blocks n' txs.
Proof.
  split.
  - induction 1 as [n|n n1 blocks n' He _ [txs IH]|n h block resp n1 blocks n' Hu Hh Hnp Hx _ [txs IH]].
    + eexists. apply ledger_nil.
    + eexists. by eapply ledger_idle.
    + eexists. by eapply ledger_block.
  - intros [txs H]. induction H; econstructor; eassumption.
Qed.

Context (accounts : list Address) (Hnodup : NoDup accounts) (i : Z).

(** The supply only reads balances. *)
Lemma supply_reads T s s' :
  (forall a, get_balance s' a i = get_balance s a i) -> supply accounts i T s -> supply accounts i T s'.
Proof.
  intros H [Hb Ht]. split.
  - intros a Ha. rewrite H. by apply Hb.
  - rewrite <- Ht. apply sumZ_ext. intros a _. unfold balance_of. by rewrite H.
Qed.

Lemma get_balance_sv s s' a : (forall k, sv s' k = sv s k) -> get_balance s' a i = get_balance s a i.
Proof. intros H. unfold get_balance, get_or_default. by rewrite !sm_get_sv, H. Qed.

Definition block_known (block : list (list Z)) : Prop := Forall (known accounts) (omap decoded block).
Definition block_may_add (block : list (list Z)) : Z := sumZ (may_add i) (omap decoded block).

Lemma block_may_add_nonneg block : 0 <= block_may_add block.
Proof. apply sumZ_nonneg. intros tx _. unfold may_add. lia. Qed.

(** What succeeds in a block adds no more than the block may. *)
Lemma executed_may_add block : forall n,
  sumZ (fun tx => supply_change i (tx_payload tx)) (executed block n) <= block_may_add block.
Proof.
  unfold block_may_add. induction block as [|b block IH]; intros n; [done|]. cbn [executed omap list_omap].
  unfold decoded at 1. destruct (decode_tx b) as [tx|x]; [|apply IH].
  rewrite sumZ_app, sumZ_cons. specialize (IH (snd (execute tx n))).
  assert (supply_change i (tx_payload tx) <= may_add i tx /\ 0 <= may_add i tx) by (unfold may_add; lia).
  destruct (is_ok _); unfold sumZ in *; cbn [foldr]; lia.
Qed.

Lemma block_ledger n height block response n' T :
  grounded n -> supply accounts i T (nd_state n) -> block_known block ->
  T + block_may_add block <= U128_MAX ->
  current_version (sm_storage (nd_state n)) <= height ->
  commit_prunes (pruning_config (sm_storage (nd_state n))) height = false ->
  execute_txs height block n = (Ok response, n') ->
  let T' := T + sumZ (fun tx => supply_change i (tx_payload tx)) (executed block (nd_begin_block height n)) in
  grounded n' /\ supply accounts i T' (nd_state n') /\
  forall config h, supply accounts i T' (StateManager_new (db (sm_storage (nd_state n'))) config h).
Proof using Bok Hnodup.
  intros [Hwf Hcv] Hs Hk Hfit Hh Hnp H T'.
  assert (Hbegin : supply accounts i T (nd_state (nd_begin_block height n))).
  { eapply supply_reads; [|exact Hs]. intros a. apply get_balance_sv.
    intros k. by destruct (begin_block_reads n height Hwf Hcv Hh k). }
  pose proof (fold_supply accounts Hnodup i block TxExecutionStats_new _ T Hk Hbegin Hfit) as Hx.
  pose proof (fun config h => execute_txs_reads height block n response n' config h Hwf Hh Hnp H) as Hr.
  unfold execute_batch in Hr. destruct (foldl execute_bytes _ block) as [stats m]. destruct Hx as [_ Hx].
  destruct (Hr PruningConfig_default (sm_hash_state (nd_state n))) as (_ & (Hv & Hc & _) & Hwf' & _ & _ & Hk1).
  split; [split; [exact Hwf'|by rewrite Hv, Hc]|]. split.
  - eapply supply_reads; [|exact Hx]. intros a. apply get_balance_sv. intros k. apply Hk1.
  - intros config h. destruct (Hr config h) as (_ & _ & _ & _ & _ & Hk2).
    eapply supply_reads; [|exact Hx]. intros a. apply get_balance_sv. intros k. apply Hk2.
Qed.

End ledger.

(** C2: money is conserved over a chain of blocks at heights that do not go down
    and whose commits do not prune (with the daemon's configuration: heights up to
    100000; a pruning commit can delete a balance).  From a sound store whose
    supply is in the database, for any set of accounts that holds every party of the blocks, and as long as the supply, plus everything
    the decoded transactions of the blocks might add to it, the failing ones
    included, fits a [u128]: the sum of their balances of an asset changes by
    exactly what the successful transactions deposit and withdraw, block after
    block, and a node restarted
    on the database of the running one holds the same supply: trading and
    transfers move nothing in or out, and neither does a transaction that fails,
    however much it had already written.  No balance becomes negative. *)
Theorem chain_supply {B : Backend} {Bok : BackendOk B} {V : TxEnv} {G : SigEnv}
    (accounts : list Address) (i T : Z) (n : Node) (blocks : list (list (list Z))) (n' : Node)
    (txs : list Transaction) :
  ledger n blocks n' txs -> NoDup accounts -> Forall (block_known accounts) blocks -> grounded n ->
  supply accounts i T (nd_state n) ->
  (forall config h, supply accounts i T (StateManager_new (db (sm_storage (nd_state n))) config h)) ->
  T + sumZ (block_may_add i) blocks <= U128_MAX ->
  let T' := T + sumZ (fun tx => supply_change i (tx_payload tx)) txs in
  supply accounts i T' (nd_state n') /\
  forall config h, supply accounts i T' (StateManager_new (db (sm_storage (nd_state n'))) config h).
Proof.
  intros Hl Hd. revert T. induction Hl as [n|n n1 blocks n' txs He _ IH
    |n h block resp n1 blocks n' txs _ Hh Hnp Hx _ IH]; intros T Hk Hg Hs Hr Hfit; cbv zeta.
  - cbn. rewrite Z.add_0_r. by split.
  - apply IH; [exact Hk| | | |exact Hfit]; unfold grounded, nd_state in *; by rewrite He.
  - apply Forall_cons in Hk as [Hb Hk]. rewrite sumZ_cons in Hfit.
    assert (0 <= sumZ (block_may_add i) blocks)
      by (apply sumZ_nonneg; intros; apply block_may_add_nonneg).
    destruct (block_ledger accounts Hd i n h block resp n1 T Hg Hs Hb ltac:(lia) Hh Hnp Hx) as (Hg1 & Hs1 & Hr1).
    pose proof (executed_may_add i block (nd_begin_block h n)). rewrite sumZ_app, Z.add_assoc.
    apply IH; [exact Hk|exact Hg1|exact Hs1|exact Hr1|lia].
Qed.

(** * Witness *)

(** An empty block, then the block of Supply.v twice: the second time its
    numbers are used up and nothing succeeds. *)
Definition ledger_demo0 : Node := snd (execute_txs 1 [] node_demo).
Definition ledger_demo1 : Node := snd (execute_txs 2 supply_block ledger_demo0).
Definition ledger_demo2 : Node := snd (execute_txs 3 supply_block ledger_demo1).

Lemma execute_txs_run height block n r :
  fst (execute_txs (B := mem_backend) height block n) = Ok r ->
  execute_txs height block n = (Ok r, snd (execute_txs height block n)).
Proof. apply run_result. Qed.

Lemma ledger_demo_start :
  grounded ledger_demo0 /\ supply (B := mem_backend) [1; 2] 0 60000 (nd_state ledger_demo0) /\
  forall config h, supply (B := mem_backend) [1; 2] 0 60000
    (StateManager_new (db (sm_storage (nd_state ledger_demo0))) config h).
Proof.
  assert (E : exists r, fst (execute_txs 1 [] node_demo) = Ok r) by (eexists; vm_compute; reflexivity).
  destruct E as [r E]. apply (block_ledger [1; 2] parties_nodup 0 node_demo 1 [] r ledger_demo0 60000).
  - split; [exact node_demo_wf|vm_compute; discriminate].
  - exact supply_demo_start.
  - by apply Forall_nil.
  - vm_compute. discriminate.
  - vm_compute. discriminate.
  - reflexivity.
  - exact (execute_txs_run 1 [] node_demo r E).
Qed.

Lemma ledger_demo_runs : exists txs,
  ledger ledger_demo0 [supply_block; supply_block] ledger_demo2 txs /\
  sumZ (fun tx => supply_change 0 (tx_payload tx)) txs = -500.
Proof.
  assert (E1 : exists r, fst (execute_txs 2 supply_block ledger_demo0) = Ok r) by (eexists; vm_compute; reflexivity).
  assert (E2 : exists r, fst (execute_txs 3 supply_block ledger_demo1) = Ok r) by (eexists; vm_compute; reflexivity).
  destruct E1 as [r1 E1], E2 as [r2 E2]. eexists. split.
  - eapply (ledger_block ledger_demo0 2); [vm_compute; split; discriminate|vm_compute; discriminate|reflexivity
      |exact (execute_txs_run 2 _ _ r1 E1)|].
    eapply (ledger_block ledger_demo1 3); [vm_compute; split; discriminate|vm_compute; discriminate|reflexivity
      |exact (execute_txs_run 3 _ _ r2 E2)|]. apply ledger_nil.
  - vm_compute. reflexivity.
Qed.

Lemma supply_blocks_known : Forall (block_known [1; 2]) [supply_block; supply_block].
Proof.
  apply Forall_cons. split; [exact supply_block_known|].
  apply Forall_cons. split; [exact supply_block_known|apply Forall_nil; exact I].
Qed.

Lemma chain_supply_witness :
  supply (B := mem_backend) [1; 2] 0 59500 (nd_state ledger_demo2) /\
  supply (B := mem_backend) [1; 2] 0 59500
    (StateManager_new (db (sm_storage (nd_state ledger_demo2))) PruningConfig_default demo_hash).
Proof.
  destruct ledger_demo_runs as (txs & Hl & Hsum), ledger_demo_start as (Hg & Hs & Hr).
  assert (Hfit : 60000 + sumZ (block_may_add 0) [supply_block; supply_block] <= U128_MAX)
    by (vm_compute; discriminate).
  destruct (chain_supply [1; 2] 0 60000 ledger_demo0 [supply_block; supply_block] ledger_demo2 txs
    Hl parties_nodup supply_blocks_known Hg Hs Hr Hfit) as [H1 H2].
  rewrite Hsum in H1, H2. exact (conj H1 (H2 PruningConfig_default demo_hash)).
Defined.
