(* ===== verification/Typing.v ===== *)
(** Types.  The model writes every machine integer as a [Z]; here the width of
    each field is stated once, and shown to be kept: whatever blocks a node
    executes, failing transactions included, every value it holds stays one the
    Rust types can hold.  The theorems that ask for such values as a hypothesis
    thus apply to every state a node reaches. *)
From stdpp Require Import base gmap sets list sorting strings.
From Stdlib Require Import ZArith Lia.
From S2P Require Import Prelude Types Storage State Tx EngineBase Orderbook Matching Position Risk Services Trading Engine Auth Mempool Exec History Supply Chain.

(** * The widths of the fields *)

Definition is_u8 (z : Z) : Prop := 0 <= z <= U8_MAX.
Definition is_i64 (z : Z) : Prop := - 2 ^ 63 <= z <= I64_MAX.

Definition Position_typed (p : Position) : Prop := Position_ok p /\ is_u128 (pos_funding_index p).
Definition Order_typed (o : Order) : Prop :=
  Order_ok o /\ is_u64 (o_id o) /\ is_u32 (o_market_id o) /\ is_u64 (o_created_at o).
Definition Market_typed (m : Market) : Prop :=
  Market_ok m /\ is_u32 (m_id m) /\ is_u32 (m_base_asset_id m) /\ is_u32 (m_quote_asset_id m) /\
  is_u8 (m_price_decimals m) /\ is_u8 (m_size_decimals m) /\ is_u32 (m_max_funding_rate_bps m).
Definition FundingRate_typed (f : FundingRate) : Prop :=
  is_i64 (fr_rate f) /\ is_u64 (fr_last_update f) /\ is_i128 (fr_index f) /\
  is_u64 (fr_mark_price f) /\ is_u64 (fr_oracle_price f).
Definition Asset_typed (a : Asset) : Prop :=
  is_u32 (a_id a) /\ is_u8 (a_decimals a) /\ is_u32 (a_collateral_weight_bps a).

Definition Fill_typed (f : Fill) : Prop := is_u64 (f_price f) /\ is_u64 (f_size f).

Definition payload_typed (p : TxPayload) : Prop :=
  match p with
  | Deposit d => is_u128 (dep_amount d)
  | Withdraw w => is_u128 (wd_amount w)
  | PlaceOrder o => PlaceOrder_ok o /\ is_u32 (po_market_id o)
  | CancelOrder c => is_u64 (co_order_id c)
  | ModifyOrder m => is_u64 (mo_order_id m) /\ is_u64 (mo_new_price m) /\ is_u64 (mo_new_size m)
  | ClosePosition c => is_u32 (cp_market_id c) /\ is_u64 (cp_size c)
  | SetAgent a => is_u64 (sa_permissions a)
  | RemoveAgent _ => True
  | Transfer t => is_u128 (tr_amount t)
  | BridgeDeposit d => is_u128 (bd_amount d)
  | BridgeWithdraw w => is_u128 (bw_amount w)
  end.

(** What is written under a key is of the type the key is for. *)
Definition value_typed {B : Backend} (k : StateKey) (b : Bytes) : Prop :=
  match k with
  | SK_Balance _ _ => forall v : Z, from_slice b = Some v -> is_u128 v
  | SK_Nonce _ | SK_NextOrderId => forall v : Z, from_slice b = Some v -> is_u64 v
  | SK_Position _ _ => forall p : Position, from_slice b = Some p -> Position_typed p
  | SK_Order _ => forall o : Order, from_slice b = Some o -> Order_typed o
  | SK_Market _ => forall m : Market, from_slice b = Some m -> Market_typed m
  | SK_FundingRate _ => forall f : FundingRate, from_slice b = Some f -> FundingRate_typed f
  | SK_AssetInfo _ => forall a : Asset, from_slice b = Some a -> Asset_typed a
  | SK_ActiveOrderList _ => forall l : list Z, from_slice b = Some l -> Forall is_u64 l
  | SK_MarketList | SK_AssetList => forall l : list Z, from_slice b = Some l -> Forall is_u32 l
  | SK_ActiveOrder _ _ | SK_BridgeOperator _ | SK_PositionIndex _ | SK_LatestVersion _ => True
  end.

Section typing.
Context {B : Backend} {Bok : BackendOk B}.
Implicit Types (s : StateManager) (t : SvcState) (e : Engine).

(** The values of every version are included: deleting a key, pruning or
    going back to a snapshot may uncover an older one. *)
Definition state_typed s : Prop := is_u64 (sm_version s) /\ contents value_typed (sm_storage s).

Definition level_typed (l : PriceLevel) : Prop := Forall is_u64 (pl_orders l) /\ is_u64 (pl_total_size l).
Definition side_typed (book : gmap Z PriceLevel) : Prop :=
  map_Forall (fun price l => is_u64 price /\ level_typed l) book.
Definition book_typed (ob : OrderbookManager) : Prop :=
  map_Forall (fun _ o => Order_typed o) (ob_orders ob) /\
  forall side, map_Forall (fun _ book => side_typed book) (ob_side side ob).

Definition svc_typed t : Prop := state_typed (ss_state t) /\ book_typed (ss_orderbook t).

(** ** Reading and writing the state *)

Lemma sm_get_typed {T} (S : Serde Bytes T) s k (v : T) (P : T -> Prop) :
  state_typed s -> sm_get s k = Ok (Some v) ->
  (forall b, value_typed k b -> forall w : T, from_slice b = Some w -> P w) -> P v.
Proof.
  intros [_ Hs] Hg HP. rewrite sm_get_sv in Hg. unfold decode in Hg.
  destruct (sv s k) as [b|] eqn:Eb; [|done]. destruct (from_slice b) as [w|] eqn:Ew; [|done].
  injection Hg as ->. eapply HP; [|exact Ew]. by eapply contents_view.
Qed.

Lemma get_or_default_typed {T} (S : Serde Bytes T) s k (d v : T) (P : T -> Prop) :
  state_typed s -> get_or_default d s k = Ok v -> P d ->
  (forall b, value_typed k b -> forall w : T, from_slice b = Some w -> P w) -> P v.
Proof.
  intros Hs Hg Hd HP. unfold get_or_default, result_map in Hg.
  destruct (sm_get s k) as [[w|]|x] eqn:E; [| |done]; injection Hg as <-; [|exact Hd].
  by eapply sm_get_typed.
Qed.

(** A computation that changes one key to a typed value, or uncovers the committed one. *)
Lemma state_typed_change k s s' :
  frame (eq k) s s' ->
  (forall b, sv s' k = Some b -> committed s k = Some b \/ value_typed k b) ->
  state_typed s -> state_typed s'.
Proof.
  intros F Hk [Hv Hs]. split; [destruct F as [(V & _) _]; by rewrite V|].
  by apply (contents_change value_typed k s s' F).
Qed.

Lemma yields_set {T} (S : Serde Bytes T) {Sok : SerdeOk S} k (v : T) :
  (forall b, from_slice b = Some v -> value_typed k b) ->
  yields state_typed (on_storage (storage_set k v)) (fun _ => True).
Proof.
  intros Hv s Hs. pose proof (frames_set S k v s) as F.
  destruct (set_succeeds S k v s) as [s' E]. pose proof (set_read_back S k v s tt s' E) as R.
  rewrite E in F |- *. split; [|done]. apply (state_typed_change k s s' F); [|exact Hs].
  intros b Hb. right. rewrite sm_get_sv, Hb in R. cbn in R.
  destruct (from_slice b) as [w|] eqn:Ew; [|done]. apply Hv. rewrite Ew. congruence.
Qed.

Lemma yields_set_hashed m set :
  yields state_typed (on_storage (storage_set_hashed (SK_PositionIndex m) set)) (fun _ => True).
Proof.
  intros s Hs. pose proof (frames_set_hashed (SK_PositionIndex m) set s) as F.
  assert (H : state_typed (snd (on_storage (storage_set_hashed (SK_PositionIndex m) set) s)))
    by (apply (state_typed_change _ s _ F); [by right|exact Hs]).
  by destruct (on_storage _ s) as [[]].
Qed.

Lemma yields_delete k :
  yields state_typed (on_storage (storage_delete k)) (fun _ => True).
Proof.
  intros s Hs. pose proof (frames_delete k s) as F. unfold on_storage, st_zoom in *.
  destruct (storage_delete k (sm_storage s)) as [r st'] eqn:E.
  assert (r = Ok tt) as -> by (unfold storage_delete, st_modify in E; by simplify_eq).
  split; [|done]. apply (state_typed_change k s _ F); [|exact Hs].
  intros b Hb. left. rewrite <- Hb. symmetry. by apply (storage_delete_same k _ (Ok tt)).
Qed.

(** ** The operations of the state manager *)

(** What reads back from the bytes of a value is that value. *)
Ltac same_value := intros ? Hb ? Hw; rewrite Hb in Hw; injection Hw as <-.

Lemma yields_set_balance a i v :
  is_u128 v -> yields state_typed (set_balance a i v) (fun _ => True).
Proof. intros Hv. apply yields_set; [apply _|]. by same_value. Qed.

Lemma yields_set_nonce a v : is_u64 v -> yields state_typed (set_nonce a v) (fun _ => True).
Proof. intros Hv. apply yields_set; [apply _|]. by same_value. Qed.

Lemma yields_set_order id o : Order_typed o -> yields state_typed (set_order id o) (fun _ => True).
Proof. intros Ho. apply yields_set; [apply _|]. by same_value. Qed.

Lemma yields_update_position_index m : yields state_typed (update_position_index m) (fun _ => True).
Proof.
  unfold update_position_index. eapply (yields_bind _ _ (fun _ => True)); [by apply yields_gets|].
  intros index _. destruct (index !! m); [apply yields_set_hashed|apply yields_delete].
Qed.

Lemma state_typed_index i s : state_typed s -> state_typed (with_position_index i s).
Proof. intros Hs. exact Hs. Qed.

Lemma yields_set_position a m p :
  Position_typed p -> yields state_typed (set_position a m p) (fun _ => True).
Proof.
  intros Hp. unfold set_position.
  eapply yields_bind; [apply yields_set; [apply _|by same_value]|intros _ _].
  eapply yields_bind; [by apply yields_modify|intros _ _]. apply yields_update_position_index.
Qed.

Lemma yields_delete_position a m : yields state_typed (delete_position a m) (fun _ => True).
Proof.
  unfold delete_position. eapply yields_bind; [apply yields_delete|intros _ _].
  eapply yields_bind; [|intros _ _; apply yields_update_position_index].
  apply yields_modify. intros s Hs. unfold remove_from_position_index.
  destruct (_ !! m); [|done]. by case_bool_decide.
Qed.

Lemma yields_next_order_id : yields state_typed next_order_id is_u64.
Proof.
  unfold next_order_id. eapply (yields_bind _ _ is_u64).
  { apply yields_read. intros s v Hs Hv.
    eapply (get_or_default_typed _ _ _ _ _ _ Hs Hv); [vm_compute; split; congruence|].
    intros b Hb. exact Hb. }
  intros current Hc. eapply (yields_bind _ _ is_u64).
  { apply yields_lift. intros next Hn. apply ok_or_Ok in Hn. unfold checked_add_u64 in Hn.
    destruct (Z.leb_spec (current + 1) U64_MAX); [|done]. injection Hn as <-. unfold is_u64 in *. lia. }
  intros next Hn. eapply yields_bind; [apply yields_set; [apply _|by same_value]|].
  intros _ _. by apply yields_ret.
Qed.

Lemma active_orders_typed s m l :
  state_typed s -> get_or_default [] s (SK_ActiveOrderList m) = Ok l -> Forall is_u64 l.
Proof.
  intros Hs Hl. eapply (get_or_default_typed _ _ _ _ _ _ Hs Hl); [by apply Forall_nil|].
  intros b Hb. exact Hb.
Qed.

Lemma yields_add_active_order m id :
  is_u64 id -> yields state_typed (add_active_order m id) (fun _ => True).
Proof.
  intros Hid. unfold add_active_order. eapply yields_bind; [by apply yields_set; [apply _|]|intros _ _].
  eapply (yields_bind _ _ (Forall is_u64));
    [apply yields_read; intros s l; apply active_orders_typed|intros l Hl].
  case_bool_decide; [by apply yields_ret|]. apply yields_set; [apply _|]. same_value.
  apply Forall_app. split; [done|]. by apply Forall_singleton.
Qed.

Lemma yields_remove_active_order m id : yields state_typed (remove_active_order m id) (fun _ => True).
Proof.
  unfold remove_active_order. eapply yields_bind; [apply yields_delete|intros _ _].
  eapply (yields_bind _ _ (Forall is_u64));
    [apply yields_read; intros s l; apply active_orders_typed|intros l Hl].
  apply yields_set; [apply _|]. same_value. apply Forall_forall.
  intros x [_ Hx]%list_elem_of_filter. rewrite Forall_forall in Hl. by apply Hl.
Qed.

Lemma yields_increment_nonce a : yields state_typed (increment_nonce a) (fun _ => True).
Proof.
  unfold increment_nonce. eapply (yields_bind _ _ (fun _ => True)); [by apply yields_read; intros|intros v _].
  eapply yields_bind; [apply yields_set_nonce, as_u64_range|intros _ _]. by apply yields_ret.
Qed.

(** ** Positions *)

Lemma get_position_typed s a m p :
  state_typed s -> get_position s a m = Ok (Some p) -> Position_typed p.
Proof. intros Hs Hp. eapply (sm_get_typed _ _ _ _ _ Hs Hp). intros b Hb. exact Hb. Qed.
Lemma get_order_typed s id o : state_typed s -> get_order s id = Ok (Some o) -> Order_typed o.
Proof. intros Hs Ho. eapply (sm_get_typed _ _ _ _ _ Hs Ho). intros b Hb. exact Hb. Qed.
Lemma get_market_typed s m mk : state_typed s -> get_market s m = Ok (Some mk) -> Market_typed mk.
Proof. intros Hs Hm. eapply (sm_get_typed _ _ _ _ _ Hs Hm). intros b Hb. exact Hb. Qed.
Lemma get_balance_typed s a i v : state_typed s -> get_balance s a i = Ok v -> is_u128 v.
Proof.
  intros Hs Hv. eapply (get_or_default_typed _ _ _ _ _ _ Hs Hv); [vm_compute; split; congruence|].
  intros b Hb. exact Hb.
Qed.

Lemma calculate_initial_margin_typed size price bps mg :
  is_u64 size -> is_u64 price -> 0 <= bps -> calculate_initial_margin size price bps = Ok mg ->
  is_u128 mg.
Proof.
  intros [Hs _] [Hp _] Hb H. unfold calculate_initial_margin in H. inv_checked.
  unfold is_u128, BASIS_POINTS. pose proof (Z.div_le_upper_bound (size * price * bps) 10000 U128_MAX).
  split; [apply Z.div_pos; nia|]. apply H; [lia|]. unfold U128_MAX in *. nia.
Qed.

Lemma trade_existing_typed pos size price is_buy bps p :
  Position_typed pos -> is_u64 size -> is_u64 price -> 0 <= bps ->
  trade_existing pos size price is_buy bps = Ok (Some p) -> Position_typed p.
Proof.
  intros [[Hz [He Hm]] Hf] Hs Hp Hb H. unfold trade_existing in H.
  destruct (Bool.eqb _ _).
  - destruct (increase_position _ _ _ _) as [q|] eqn:E; [|done]. injection H as <-.
    unfold increase_position in E. inv_checked.
    destruct (0 <? _); inv_checked; [|done].
    split; [split_and!; cbn|exact Hf]; try apply as_u64_range.
    unfold is_u128, is_u64, BASIS_POINTS in *. split; [|done].
    assert (0 <= size * price * bps / 10000) by (apply Z.div_pos; nia). lia.
  - unfold is_u64 in *. destruct (Z.leb_spec (pos_size pos) size).
    + destruct (Z.ltb_spec 0 (size - pos_size pos)); [|done].
      destruct (calculate_initial_margin _ _ _) as [mg|] eqn:E; [|done]. injection H as <-.
      apply calculate_initial_margin_typed in E; [|unfold is_u64; lia|done|done].
      split; [split_and!; cbn; unfold is_u64; lia || apply E|exact Hf].
    + destruct (pos_size pos =? 0); [done|]. inv_checked.
      split; [split_and!; cbn; unfold is_u64, is_u128, saturating_sub in *; try lia|exact Hf].
      assert (0 <= size * 10000 / pos_size pos) by (apply Z.div_pos; lia).
      pose proof (Z.div_pos (pos_margin pos * (size * 10000 / pos_size pos)) 10000 ltac:(nia) ltac:(lia)). lia.
Qed.

Lemma yields_lift_state {A} (m : ST StateManager StateError A) Q :
  yields state_typed m Q -> yields state_typed (lift_state m) Q.
Proof. apply yields_map_err. Qed.

Lemma state_result_Ok {A} (r : result StateError A) a : state_result r = Ok a -> r = Ok a.
Proof. by intros ?%map_err_Ok. Qed.

Lemma yields_update_position a m size price is_buy bps :
  is_u64 size -> is_u64 price -> 0 <= bps ->
  yields state_typed (update_position a m size price is_buy bps) (fun _ => True).
Proof.
  intros Hs Hp Hb. unfold update_position.
  eapply (yields_bind _ _ (fun o => forall p, o = Some p -> Position_typed p)).
  { apply yields_read. intros s o Ht Ho%state_result_Ok p ->. by eapply get_position_typed. }
  intros [pos|] Hpos.
  - eapply (yields_bind _ _ (fun o => forall p, o = Some p -> Position_typed p)).
    { apply yields_lift. intros o Ho p ->. by eapply trade_existing_typed; [apply Hpos| | | |exact Ho]. }
    intros [p|] Hp'; apply yields_lift_state; [by apply yields_set_position, Hp'|apply yields_delete_position].
  - eapply (yields_bind _ _ is_u128).
    { apply yields_lift. intros mg. by apply calculate_initial_margin_typed. }
    intros mg Hmg. apply yields_lift_state, yields_set_position.
    split; [done|]. vm_compute. split; congruence.
Qed.

(** ** Matching *)

Notation level_state := (fun t : PriceLevel * StateManager => level_typed (fst t) /\ state_typed (snd t)).
Notation book_state := (fun t : gmap Z PriceLevel * StateManager => side_typed (fst t) /\ state_typed (snd t)).
Notation books_state := (fun t : OrderbookManager * StateManager => book_typed (fst t) /\ state_typed (snd t)).

Lemma yields_on_sm {A} (m : ST StateManager StateError A) Q :
  yields state_typed m Q -> yields level_state (on_sm m) Q.
Proof.
  intros Hm. eapply yields_zoom; [by intros t [_ H]|by intros t s [H _] Hs|by apply yields_lift_state].
Qed.

Lemma level_remove_typed id size l :
  0 <= size -> level_typed l -> level_typed (snd (level_remove_order id size l)).
Proof.
  intros Hsz [Ho Ht]. unfold level_remove_order. destruct (position id (pl_orders l)) as [pos|]; [|done].
  split; cbn.
  - apply Forall_delete, Ho.
  - unfold is_u64, saturating_sub in *. lia.
Qed.

Lemma Order_typed_remaining r o : is_u64 r -> Order_typed o -> Order_typed (set_remaining_size r o).
Proof. intros Hr ((Hp & Hos & _) & H). by split. Qed.

Lemma yields_update_maker id maker size :
  Order_typed maker -> is_u64 size -> yields level_state (update_maker id maker size) (fun _ => True).
Proof.
  intros Hm Hs. unfold update_maker.
  pose proof (Order_typed_remaining (wsub64 (o_remaining_size maker) size) maker (as_u64_range _) Hm) as Hu.
  cbv zeta. case_match.
  - eapply yields_bind; [by apply yields_on_sm, yields_set_order|intros _ _].
    eapply yields_bind; [apply yields_on_sm, yields_remove_active_order|intros _ _].
    apply yields_modify. intros [l s] [Hl Hst]. split; [|exact Hst]. apply level_remove_typed; [apply Hs|done].
  - eapply yields_bind; [by apply yields_on_sm, yields_set_order|intros _ _].
    apply yields_modify. intros [l s] [[Hl _] Hst]. split; [|exact Hst]. split; [exact Hl|apply as_u64_range].
Qed.

Notation acc_typed := (fun acc : Z * list Fill => is_u64 (fst acc) /\ Forall Fill_typed (snd acc)).

Lemma yields_match_maker order price acc id :
  is_u64 price -> acc_typed acc -> yields level_state (match_maker order price acc id) acc_typed.
Proof.
  intros Hp Ha. unfold match_maker. destruct acc as [remaining fills]. destruct Ha as [Hr Hf]. cbn in Hr, Hf.
  eapply (yields_bind _ _ (fun o => forall mk, o = Some mk -> Order_typed mk)).
  { apply yields_read. intros [l s] o [_ Ht] Ho%state_result_Ok mk ->. by eapply get_order_typed. }
  intros [mk|] Hmk; [|by apply yields_ret]. specialize (Hmk mk eq_refl).
  case_match; [by apply yields_ret|].
  assert (Hfs : is_u64 (Z.min remaining (o_remaining_size mk))).
  { destruct Hmk as ((_ & _ & Hrm) & _). unfold is_u64 in *. lia. }
  eapply yields_bind; [by apply yields_update_maker|intros _ _].
  apply yields_ret. split; [apply as_u64_range|]. cbn. apply Forall_app. split; [exact Hf|].
  apply Forall_singleton. by split.
Qed.

Lemma yields_match_level order price ids : forall acc,
  is_u64 price -> acc_typed acc -> yields level_state (match_level order price ids acc) acc_typed.
Proof.
  induction ids as [|id ids IH]; intros acc Hp Ha; cbn [match_level]; [by apply yields_ret|].
  case_match; [by apply yields_ret|].
  eapply yields_bind; [by apply yields_match_maker|]. intros acc' Ha'. by apply IH.
Qed.

Lemma level_new_typed : level_typed PriceLevel_new.
Proof. split; [by apply Forall_nil|]. vm_compute. split; congruence. Qed.

Lemma level_default_typed book price :
  side_typed book -> level_typed (default PriceLevel_new (book !! price)).
Proof.
  intros Hb. destruct (book !! price) as [l|] eqn:E; [|apply level_new_typed]. by apply (Hb price l).
Qed.

Lemma yields_match_price order price acc :
  acc_typed acc -> yields book_state (match_price order price acc) acc_typed.
Proof.
  intros Ha. unfold match_price.
  eapply (yields_bind _ _ (fun o => is_Some o -> is_u64 price)).
  { apply yields_gets. intros [book s] [Hb _] [l Hl]. by apply (Hb price l). }
  intros [l|] Hp; [|by apply yields_ret]. specialize (Hp (mk_is_Some _ _ eq_refl)).
  eapply (yields_bind _ _ acc_typed).
  { unfold on_level. eapply yields_zoom; [| |by apply yields_match_level].
    - intros [book s] [Hb Hs]. split; [by apply level_default_typed|exact Hs].
    - intros [book s] [l' s'] [Hb _] [Hl Hs']. split; [|exact Hs'].
      apply map_Forall_insert_2; [by split|exact Hb]. }
  intros acc' Ha'. eapply yields_bind; [|intros _ _; by apply yields_ret].
  apply yields_modify. intros [book s] [Hb Hs]. case_match; [|done].
  split; [|exact Hs]. by apply map_Forall_delete.
Qed.

Lemma yields_match_prices order prices : forall acc,
  acc_typed acc -> yields book_state (match_prices order prices acc) acc_typed.
Proof.
  induction prices as [|price prices IH]; intros acc Ha; cbn [match_prices]; [by apply yields_ret|].
  case_match; [by apply yields_ret|].
  eapply yields_bind; [by apply yields_match_price|]. intros acc' Ha'.
  case_match; [by apply yields_ret|by apply IH].
Qed.

Lemma yields_match_order order market :
  is_u64 (o_remaining_size order) -> yields books_state (match_order order market) (Forall Fill_typed).
Proof.
  intros Hr. unfold match_order. eapply (yields_bind _ _ (fun _ => True)).
  { destruct (o_post_only order); [by apply yields_read|by apply yields_ret]. }
  intros violation _. eapply yields_bind; [apply yields_guard|intros _ _].
  eapply (yields_bind _ _ (fun _ => True)); [by apply yields_gets|].
  intros [book|] _; [|by apply yields_ret]. eapply (yields_bind _ _ acc_typed).
  - unfold on_book. eapply yields_zoom; [| |by apply yields_match_prices].
    + intros [ob s] [Hb Hs]. split; [|exact Hs]. cbn.
      destruct (ob_side _ ob !! _) as [bk|] eqn:E; [|apply map_Forall_empty]. by apply (proj2 Hb _ _ _ E).
    + intros [ob s] [bk s'] [[Ho Hb] _] [Hbk Hs']. split; [|exact Hs']. split.
      * cbn [fst]. by destruct (negb _).
      * cbn [fst]. intros side. specialize (Hb side) as Hside.
        destruct (negb (o_is_buy order)), side; cbn; try exact Hside; by apply map_Forall_insert_2.
  - intros [r fills] [_ Hf]. by apply yields_ret.
Qed.

(** ** The services *)

Lemma yields_svc_state {A} (m : ST StateManager StateError A) Q :
  yields state_typed m Q -> yields svc_typed (svc_state m) Q.
Proof.
  intros Hm. eapply yields_zoom; [by intros t [H _]|by intros t s [_ H] Hs|by apply yields_lift_state].
Qed.
Lemma yields_svc_engine {A} (m : ST StateManager EngineError A) Q :
  yields state_typed m Q -> yields svc_typed (svc_engine m) Q.
Proof. intros Hm. eapply yields_zoom; [by intros t [H _]|by intros t s [_ H] Hs|exact Hm]. Qed.
Lemma yields_svc_read {A} (f : StateManager -> result StateError A) (Q : A -> Prop) :
  (forall s a, state_typed s -> f s = Ok a -> Q a) -> yields svc_typed (svc_read f) Q.
Proof. intros Hf. apply yields_read. intros t a [Ht _] Ha%state_result_Ok. by eapply Hf. Qed.
Lemma yields_svc_book {A} (m : ST (OrderbookManager * StateManager) EngineError A) Q :
  yields books_state m Q -> yields svc_typed (svc_book m) Q.
Proof.
  intros Hm. eapply yields_zoom; [| |exact Hm].
  - intros t [H1 H2]. exact (conj H2 H1).
  - intros t [ob s] _ H. exact (conj (proj2 H) (proj1 H)).
Qed.
Lemma yields_emit ev : yields svc_typed (emit ev) (fun _ => True).
Proof. apply yields_modify. by intros t Ht. Qed.

Lemma yields_update_balance a i amount c r :
  is_u128 amount -> yields svc_typed (update_balance a i amount c r) (fun _ => True).
Proof.
  intros Ha. unfold update_balance.
  eapply (yields_bind _ _ is_u128); [apply yields_svc_read; intros s v; apply get_balance_typed|intros old Ho].
  eapply (yields_bind _ _ is_u128).
  { apply yields_lift. intros v Hv. unfold is_u128 in *. destruct c.
    - apply add_or_overflow_Ok in Hv as [-> ?]. lia.
    - destruct (Z.ltb_spec old amount); [done|]. injection Hv as <-. lia. }
  intros v Hv. eapply yields_bind; [by apply yields_svc_state, yields_set_balance|]. intros _ _. apply yields_emit.
Qed.

Lemma yields_credit a i v : is_u128 v -> yields svc_typed (svc_state (set_balance a i v)) (fun _ => True).
Proof. intros Hv. by apply yields_svc_state, yields_set_balance. Qed.

Lemma yields_read_balance a i : yields svc_typed (svc_read (fun s => get_balance s a i)) is_u128.
Proof. apply yields_svc_read. intros s v. apply get_balance_typed. Qed.

Lemma yields_any_read {A} (f : StateManager -> result StateError A) : yields svc_typed (svc_read f) (fun _ => True).
Proof. by apply yields_svc_read. Qed.
Lemma yields_any_lift {A} (r : result EngineError A) : yields svc_typed (st_lift r) (fun _ => True).
Proof. by apply yields_lift. Qed.

Lemma yields_transfer a tr : is_u128 (tr_amount tr) -> yields svc_typed (transfer a tr) (fun _ => True).
Proof.
  intros Ha. unfold transfer. eapply yields_bind; [apply yields_guard|intros _ _].
  eapply yields_bind; [apply yields_any_read|intros found _].
  eapply yields_bind; [apply yields_any_lift|intros asset _].
  eapply yields_bind; [apply yields_guard|intros _ _].
  eapply yields_bind; [apply yields_read_balance|intros bf Hbf].
  eapply yields_bind; [apply yields_guard|]. intros _ Hle%negb_true_iff%Z.ltb_ge.
  eapply yields_bind; [apply yields_credit; unfold is_u128 in *; lia|intros _ _].
  eapply yields_bind; [apply yields_read_balance|intros bt Hbt].
  eapply (yields_bind _ _ is_u128).
  { apply yields_lift. intros v [-> ?]%add_or_overflow_Ok. unfold is_u128 in *. lia. }
  intros v Hv. eapply yields_bind; [by apply yields_credit|]. intros _ _. apply yields_emit.
Qed.

Lemma yields_bridge_deposit a d :
  is_u128 (bd_amount d) -> yields svc_typed (bridge_deposit a d) (fun _ => True).
Proof.
  intros Ha. unfold bridge_deposit. eapply yields_bind; [apply yields_any_read|intros op _].
  eapply yields_bind; [apply yields_guard|intros _ _].
  eapply yields_bind; [apply yields_any_read|intros found _].
  eapply yields_bind; [apply yields_any_lift|intros asset _].
  eapply yields_bind; [apply yields_read_balance|intros b Hb].
  eapply (yields_bind _ _ is_u128).
  { apply yields_lift. intros v [-> ?]%add_or_overflow_Ok. unfold is_u128 in *. lia. }
  intros v Hv. eapply yields_bind; [by apply yields_credit|]. intros _ _. apply yields_emit.
Qed.

Lemma yields_bridge_withdraw a w :
  is_u128 (bw_amount w) -> yields svc_typed (bridge_withdraw a w) (fun _ => True).
Proof.
  intros Ha. unfold bridge_withdraw. eapply yields_bind; [apply yields_any_read|intros op _].
  eapply yields_bind; [apply yields_guard|intros _ _].
  eapply yields_bind; [apply yields_any_read|intros found _].
  eapply yields_bind; [apply yields_any_lift|intros asset _].
  eapply yields_bind; [apply yields_read_balance|intros b Hb].
  eapply yields_bind; [apply yields_guard|]. intros _ Hle%negb_true_iff%Z.ltb_ge.
  eapply yields_bind; [apply yields_credit; unfold is_u128 in *; lia|]. intros _ _. apply yields_emit.
Qed.

Lemma yields_process_fill fill market :
  Fill_typed fill -> Market_typed market -> yields svc_typed (process_fill fill market) (fun _ => True).
Proof.
  intros [Hp Hs] [(_ & _ & _ & _ & _ & Hb & _) _]. unfold process_fill.
  do 2 (eapply yields_bind; [apply yields_svc_engine, yields_update_position; [done|done|apply Hb]|intros _ _]).
  apply yields_emit.
Qed.

Lemma add_order_typed id o ob :
  is_u64 id -> Order_typed o -> book_typed ob -> book_typed (add_order id o ob).
Proof.
  intros Hid Ho [Hi Hb]. unfold add_order. split.
  - assert (map_Forall (fun _ o => Order_typed o) (<[id := o]> (ob_orders ob))) by (by apply map_Forall_insert_2).
    by destruct (o_is_buy o).
  - assert (Hbook : side_typed (default ∅ (ob_side (o_is_buy o) ob !! o_market_id o))).
    { destruct (_ !! _) as [bk|] eqn:E; [by apply (Hb _ _ _ E)|apply map_Forall_empty]. }
    assert (Hlvl : level_typed (level_add_order id (o_remaining_size o)
      (default PriceLevel_new (default ∅ (ob_side (o_is_buy o) ob !! o_market_id o) !! o_price o)))).
    { destruct (level_default_typed _ (o_price o) Hbook) as [Hl _]. split; [|apply as_u64_range].
      cbn. apply Forall_app. split; [exact Hl|]. by apply Forall_singleton. }
    assert (Hnew : side_typed (<[o_price o := level_add_order id (o_remaining_size o)
      (default PriceLevel_new (default ∅ (ob_side (o_is_buy o) ob !! o_market_id o) !! o_price o))]>
      (default ∅ (ob_side (o_is_buy o) ob !! o_market_id o)))).
    { apply map_Forall_insert_2; [|exact Hbook]. split; [apply Ho|exact Hlvl]. }
    intros side. specialize (Hb side) as Hside.
    destruct (o_is_buy o), side; cbn in *; try exact Hside; by apply map_Forall_insert_2.
Qed.

Lemma remove_order_typed id o ob : Order_typed o -> book_typed ob -> book_typed (remove_order id o ob).
Proof.
  intros Ho [Hi Hb]. unfold remove_order.
  set (ob1 := with_ob_index _ _ ob).
  assert (H1 : book_typed ob1) by (split; [by apply map_Forall_delete|exact Hb]).
  change (ob_side (o_is_buy o) ob1) with (ob_side (o_is_buy o) ob). clearbody ob1. clear Hi.
  destruct (ob_side (o_is_buy o) ob !! o_market_id o) as [bk|] eqn:E; [|exact H1].
  pose proof (Hb _ _ _ E) as Hbk.
  destruct (bk !! o_price o) as [l|] eqn:El; [|exact H1].
  destruct (Hbk _ _ El) as [Hp Hl].
  pose proof (level_remove_typed id (o_remaining_size o) l ltac:(apply Ho) Hl) as Hl'.
  destruct (level_remove_order _ _ l) as [found l']. cbn [snd] in Hl'.
  set (bk' := if level_is_empty l' then _ else _).
  assert (Hbk' : side_typed bk').
  { unfold bk'. destruct (level_is_empty l'); [by apply map_Forall_delete|by apply map_Forall_insert_2]. }
  destruct H1 as [H1 H2]. split; [by destruct (o_is_buy o)|]. intros side.
  specialize (Hb side). specialize (H2 side).
  destruct (o_is_buy o), side; cbn in *; try exact H2; by apply map_Forall_insert_2.
Qed.

(** ** Orders *)

Lemma new_order_typed id trader version o :
  is_u64 id -> is_u64 version -> PlaceOrder_ok o -> is_u32 (po_market_id o) ->
  Order_typed (new_order id trader version o).
Proof. intros Hid Hv [Hs Hp] Hm. by repeat split; cbn; try apply Hs; try apply Hp; try apply Hid; try apply Hm; try apply Hv. Qed.

Lemma yields_settle_order id u o :
  is_u64 id -> Order_typed u -> yields svc_typed (settle_order id u o) (fun _ => True).
Proof.
  intros Hid Hu. unfold settle_order.
  assert (Hset : forall st, yields svc_typed (svc_state (set_order id (set_status st u))) (fun _ => True)).
  { intros st. apply yields_svc_state, yields_set_order. exact Hu. }
  assert (Hadd : yields svc_typed (svc_state (set_order id (set_status Active u)) ;;
      svc_state (add_active_order (po_market_id o) id) ;;
      st_modify (fun t => with_ss_orderbook (add_order id (set_status Active u) (ss_orderbook t)) t))
      (fun _ => True)).
  { eapply yields_bind; [apply Hset|intros _ _].
    eapply yields_bind; [by apply yields_svc_state, yields_add_active_order|intros _ _].
    apply yields_modify. intros t [Hs Hb]. split; [exact Hs|]. by apply add_order_typed. }
  case_match; [apply Hset|]. destruct (po_time_in_force o); [exact Hadd|apply Hset| |exact Hadd].
  case_match; [by apply yields_fail|by apply yields_ret].
Qed.

Lemma yields_place_order trader o :
  PlaceOrder_ok o -> is_u32 (po_market_id o) -> yields svc_typed (place_order trader o) is_u64.
Proof.
  intros Ho Hm. unfold place_order.
  eapply (yields_bind _ _ (fun found => forall mk, found = Some mk -> Market_typed mk)).
  { apply yields_svc_read. intros s found Hs Hf mk ->. by eapply get_market_typed. }
  intros found Hfound. eapply (yields_bind _ _ Market_typed).
  { apply yields_lift. intros mk Hmk%ok_or_Ok. by apply Hfound. }
  intros market Hmk. eapply yields_bind; [apply yields_any_lift|intros _ _].
  eapply (yields_bind _ _ (fun _ => True)); [by apply yields_read|intros _ _].
  eapply yields_bind; [apply yields_svc_state, yields_next_order_id|intros id Hid].
  eapply (yields_bind _ _ is_u64); [apply yields_gets; intros t [[Hv _] _]; exact Hv|intros version Hv].
  pose proof (new_order_typed id trader version o Hid Hv Ho Hm) as Hnew. cbv zeta.
  eapply yields_bind; [apply yields_svc_book, yields_match_order, Ho|intros fills Hfills].
  eapply yields_bind.
  { apply yields_for. intros fill Hin. rewrite Forall_forall in Hfills. apply yields_process_fill; [by apply Hfills|done]. }
  intros _ _. eapply yields_bind; [apply yields_emit|intros _ _].
  eapply yields_bind; [|intros _ _; by apply yields_ret].
  apply yields_settle_order; [done|]. apply Order_typed_remaining; [|exact Hnew].
  pose proof (as_u64_range (sumZ f_size fills)). destruct Ho as [Hs _].
  unfold is_u64, saturating_sub in *. cbn. lia.
Qed.

Lemma yields_cancel_order trader c : yields svc_typed (cancel_order trader c) (fun _ => True).
Proof.
  unfold cancel_order. eapply (yields_bind _ _ (fun found => forall o, found = Some o -> Order_typed o)).
  { apply yields_svc_read. intros s found Hs Hf o ->. by eapply get_order_typed. }
  intros found Hfound. eapply (yields_bind _ _ Order_typed).
  { apply yields_lift. intros o Ho%ok_or_Ok. by apply Hfound. }
  intros order Ho. do 2 (eapply yields_bind; [apply yields_guard|intros _ _]).
  eapply yields_bind.
  { apply yields_modify. intros t [Hs Hb]. split; [exact Hs|]. by apply remove_order_typed. }
  intros _ _. cbv zeta. eapply yields_bind; [apply yields_svc_state, yields_set_order; exact Ho|intros _ _].
  eapply yields_bind; [apply yields_svc_state, yields_remove_active_order|intros _ _]. apply yields_emit.
Qed.

Lemma yields_close_position trader c :
  is_u32 (cp_market_id c) -> is_u64 (cp_size c) ->
  yields svc_typed (close_position trader c) (fun _ => True).
Proof.
  intros Hm Hz. unfold close_position.
  eapply (yields_bind _ _ (fun found => forall p, found = Some p -> Position_typed p)).
  { apply yields_svc_read. intros s found Hs Hf p ->. by eapply get_position_typed. }
  intros found Hfound. eapply (yields_bind _ _ Position_typed).
  { apply yields_lift. intros p Hp%ok_or_Ok. by apply Hfound. }
  intros p [[Hp _] _]. eapply yields_bind; [|intros _ _; by apply yields_ret].
  apply yields_place_order; [|exact Hm]. split; cbn; [|vm_compute; split; congruence].
  unfold is_u64 in *. case_match; lia.
Qed.

(** ** Transactions *)

Definition engine_typed e : Prop := state_typed (en_state e) /\ book_typed (en_orderbook e).

Lemma yields_engine {A} (m : ST SvcState EngineError A) Q :
  yields svc_typed m Q -> yields engine_typed (engine_call (on_services m)) Q.
Proof.
  intros Hm. apply yields_map_err. eapply yields_zoom; [| |exact Hm].
  - intros e He. exact He.
  - intros e t _ Ht. exact Ht.
Qed.

Lemma yields_payload tx :
  payload_typed (tx_payload tx) -> yields engine_typed (execute_tx_payload_readonly tx) (fun _ => True).
Proof.
  intros Hp. unfold execute_tx_payload_readonly.
  destruct (tx_payload tx) as [d|w|o|c|o|c|a|a|t|d|w]; cbn [payload_typed] in Hp.
  - by apply yields_engine, yields_update_balance.
  - by apply yields_engine, yields_update_balance.
  - eapply yields_bind; [apply yields_engine, yields_place_order; apply Hp|]. intros id _.
    by apply yields_ret.
  - apply yields_engine, yields_cancel_order.
  - by apply yields_fail.
  - by apply yields_engine, yields_close_position; apply Hp.
  - apply yields_engine, yields_emit.
  - apply yields_engine, yields_emit.
  - by apply yields_engine, yields_transfer.
  - by apply yields_engine, yields_bridge_deposit.
  - by apply yields_engine, yields_bridge_withdraw.
Qed.

End typing.

(** * Blocks *)

Section blocks.
Context {B : Backend} {Bok : BackendOk B} {V : TxEnv} {G : SigEnv}.
Implicit Types (n : Node) (tx : Transaction).

Lemma nonce_typed a s s' w :
  frame (eq (SK_Nonce a)) s s' -> get_nonce s' a = Ok w -> is_u64 w -> state_typed s -> state_typed s'.
Proof.
  intros F Hg Hw. apply (state_typed_change (SK_Nonce a) s s' F). intros b Hb. right. intros v Hv.
  unfold get_nonce, get_or_default in Hg. rewrite sm_get_sv, Hb in Hg. cbn in Hg. rewrite Hv in Hg.
  cbn in Hg. congruence.
Qed.

Lemma execute_typed tx n :
  payload_typed (tx_payload tx) -> engine_typed (nd_engine n) ->
  engine_typed (nd_engine (snd (execute tx n))).
Proof.
  intros Hp He. pose proof (yields_payload tx Hp (nd_engine n) He) as Hy.
  pose proof (execute_exact tx n) as Hx. pose proof (execute_engine tx n) as [(x & E)|(r & e & Er & E1 & E2)].
  { by rewrite E. }
  rewrite Er in Hy. destruct (execute tx n) as [r' n'] eqn:Ex. cbn [fst snd] in *. subst r'.
  destruct r as [u|x]; [|by rewrite E2]. destruct E2 as (s & F & E2), Hy as [[Hs Hb] _].
  destruct Hx as (_ & _ & _ & Hn & _). unfold nd_state in Hn. rewrite E2 in Hn |- *.
  split; [|exact Hb]. by eapply nonce_typed; [exact F|exact Hn|apply as_u64_range|].
Qed.

Definition block_payloads_typed (block : list (list Z)) : Prop :=
  Forall (fun tx => payload_typed (tx_payload tx)) (omap decoded block).

Lemma fold_typed block : forall stats n,
  block_payloads_typed block -> engine_typed (nd_engine n) ->
  engine_typed (nd_engine (snd (foldl execute_bytes (stats, n) block))).
Proof.
  induction block as [|b block IH]; intros stats n Ht He; [exact He|].
  cbn [foldl execute_bytes]. unfold block_payloads_typed in Ht. cbn [omap list_omap] in Ht.
  unfold decoded at 1 in Ht. destruct (decode_tx b) as [tx|x]; [|by apply IH].
  apply Forall_cons in Ht as [Hp Ht]. pose proof (execute_typed tx n Hp He) as H1.
  destruct (execute tx n) as [r n1]. by apply IH.
Qed.

(** What the node holds is typed, and so is what it would hold after a restart. *)
Definition node_typed n : Prop :=
  engine_typed (nd_engine n) /\ restarts_at is_u64 (sm_storage (nd_state n)).

Lemma restarted_typed n config h :
  node_typed n -> state_typed (StateManager_new (db (sm_storage (nd_state n))) config h).
Proof. intros [[[_ Hs] _] Hr]. split; [exact Hr|by apply contents_new]. Qed.

Lemma begin_block_typed height n :
  is_u64 height -> engine_typed (nd_engine n) -> engine_typed (nd_engine (nd_begin_block height n)).
Proof. intros Hh [[_ Hs] Hb]. by split. Qed.

(** Executing does not touch the database, committing only where it may. *)
Lemma execute_txs_typed height block n :
  is_u64 height -> block_payloads_typed block -> node_typed n -> node_typed (snd (execute_txs height block n)).
Proof.
  intros Hh Ht [He Hr].
  pose proof (fold_typed block TxExecutionStats_new _ Ht (begin_block_typed height n Hh He)) as [Hx Hbx].
  destruct (block_same_disk block TxExecutionStats_new (nd_begin_block height n)) as (_ & Hd & _ & _).
  destruct (execute_txs_state height block n) as (Hv & Ho & Es). unfold execute_batch in Hv, Ho, Es.
  set (m := snd (foldl execute_bytes _ block)) in *. split; [split|].
  - change (en_state (nd_engine ?x)) with (nd_state x) in *. rewrite Es. destruct Hx as [Hu Hc]. split; [exact Hu|].
    by apply contents_commit.
  - rewrite Ho. exact Hbx.
  - rewrite Es. apply restarts_commit; [exact Hh|]. unfold restarts_at. by rewrite Hd.
Qed.

(** C3: types are kept.  From a node whose stored values, at every version, and
    order book fit the Rust types (balances and margins [u128], sizes, prices,
    nonces and order ids [u64], market ids [u32], and so on), whatever blocks of
    typed transactions are executed, at any heights, with commits that prune or
    fail, every value the node holds, in its state and in its order book,
    and every value a restarted node would read, still fits: no transaction,
    failed or not, leaves a value outside its field.  In particular what is read
    back of a position, an order, a market or a balance has the widths the other
    theorems ask for. *)
Theorem chain_typed n blocks n' :
  executes n blocks n' -> node_typed n -> Forall block_payloads_typed blocks ->
  node_typed n' /\
  (forall config h, state_typed (StateManager_new (db (sm_storage (nd_state n'))) config h)) /\
  (forall a m p, get_position (nd_state n') a m = Ok (Some p) -> Position_ok p) /\
  (forall id o, get_order (nd_state n') id = Ok (Some o) -> Order_ok o) /\
  (forall m mk, get_market (nd_state n') m = Ok (Some mk) -> Market_ok mk) /\
  (forall a i v, get_balance (nd_state n') a i = Ok v -> is_u128 v).
Proof.
  intros Hc Hn Ht. assert (Hn' : node_typed n').
  { revert Hn Ht. induction Hc as [n|n n1 blocks n' He _ IH|n h block r n1 blocks n' Hu Hx _ IH]; intros Hn Ht.
    - done.
    - apply IH; [|exact Ht]. unfold node_typed, nd_state in *. by rewrite He.
    - apply Forall_cons in Ht as [Hb Ht]. apply IH; [|exact Ht].
      replace n1 with (snd (execute_txs h block n)) by (by rewrite Hx). by apply execute_txs_typed. }
  pose proof Hn' as [[Hs _] _]. split_and!; [exact Hn'|intros config h; by apply restarted_typed| | | |].
  - intros a m p Hp. by apply (get_position_typed _ _ _ _ Hs Hp).
  - intros id o Ho. by apply (get_order_typed _ _ _ Hs Ho).
  - intros m mk Hm. by apply (get_market_typed _ _ _ Hs Hm).
  - intros a i v Hv. by apply (get_balance_typed _ _ _ _ Hs Hv).
Qed.

End blocks.

(** * Witness *)

Ltac in_range := vm_compute; intuition congruence.

Lemma sm_market_typed : state_typed (B := mem_backend) sm_market.
Proof.
  split; [vm_compute; split; discriminate|]. intros k b [Hb|[v Hv]].
  2:{ unfold db_value in Hv. assert (D : db (sm_storage sm_market) = ∅) by reflexivity.
      by rewrite D, lookup_empty in Hv. }
  destruct (decide (k = SK_Market 0)) as [->|H1]; [|destruct (decide (k = SK_MarketList)) as [->|H2];
    [|destruct (decide (k = SK_Balance 1 0)) as [->|H3]]].
  - assert (E : pending_updates (sm_storage sm_market) !! SK_Market 0 = Some (BlobMarket btc_perp))
      by (vm_compute; reflexivity).
    pose proof (eq_trans (eq_sym E) Hb) as Eb. injection Eb as <-. intros m [= <-]. in_range.
  - assert (E : pending_updates (sm_storage sm_market) !! SK_MarketList = Some (BlobNums [0]))
      by (vm_compute; reflexivity).
    pose proof (eq_trans (eq_sym E) Hb) as Eb. injection Eb as <-. intros l [= <-]. apply Forall_singleton. in_range.
  - assert (E : pending_updates (sm_storage sm_market) !! SK_Balance 1 0 = Some (BlobNum 60000))
      by (vm_compute; reflexivity).
    pose proof (eq_trans (eq_sym E) Hb) as Eb. injection Eb as <-. intros v [= <-]. in_range.
  - destruct (@sm_market_reads k) as [E C]; [done|]. unfold sv, view in E.
    change (key_hash k) with k in *. by rewrite Hb in E.
Qed.

Lemma chain_demo0_typed : node_typed chain_demo0.
Proof.
  split; [split; [exact sm_market_typed|]|vm_compute; split; discriminate].
  split; [apply map_Forall_empty|]. intros []; apply map_Forall_empty.
Qed.

(** Block 1 is empty, block 2 trades, a third is executed at height 2 again, and
    the commit of height 8 drops all that was written at height 2. *)
Definition typed_demo3 : Node := snd (execute_txs 2 [] chain_demo2).
Definition typed_demo4 : Node := snd (execute_txs 8 [] typed_demo3).

Lemma typed_demo_executes : executes chain_demo0 [[]; chain_demo_block; []; []] typed_demo4.
Proof.
  eapply (executes_block chain_demo0 1); [vm_compute; split; discriminate|apply surjective_pairing|].
  eapply (executes_block chain_demo1 2); [vm_compute; split; discriminate|apply surjective_pairing|].
  eapply (executes_block chain_demo2 2); [vm_compute; split; discriminate|apply surjective_pairing|].
  eapply (executes_block typed_demo3 8); [vm_compute; split; discriminate|apply surjective_pairing|].
  apply executes_nil.
Qed.

Lemma typed_demo_payloads : Forall block_payloads_typed [[]; chain_demo_block; []; []].
Proof.
  assert (H0 : block_payloads_typed []) by (by apply Forall_nil).
  assert (H1 : block_payloads_typed chain_demo_block).
  { unfold block_payloads_typed. rewrite chain_demo_decoded.
    apply Forall_cons; split; [split; [exact (proj1 demo_order_ok)|in_range]|].
    apply Forall_cons; split; [split; [exact (proj2 demo_order_ok)|in_range]|by apply Forall_nil]. }
  do 4 (apply Forall_cons; split; [assumption|]). by apply Forall_nil.
Qed.

(** Trader 2 was short 4; after the pruning commit its position is gone, and what
    is left is typed, before and after a restart. *)
Lemma chain_typed_witness :
  option_map pos_size (ok_flatten (get_position (nd_state typed_demo3) 2 0)) = Some 4 /\
  get_position (nd_state typed_demo4) 2 0 = Ok None /\
  state_typed (StateManager_new (db (sm_storage (nd_state typed_demo4))) demo_config demo_hash).
Proof.
  split; [vm_compute; reflexivity|]. split; [vm_compute; reflexivity|].
  destruct (chain_typed chain_demo0 [[]; chain_demo_block; []; []] typed_demo4 typed_demo_executes
    chain_demo0_typed typed_demo_payloads) as (_ & H & _).
  apply H.
Defined.
