(* ===== verification/Daemon.v ===== *)
(** The daemon from its first start: Startup.v and History.v composed.  The start
    registers assets and operators but no market, and no transaction creates one,
    so what the daemon can do from an empty database is settled here. *)
From stdpp Require Import base gmap sets list sorting strings.
From Stdlib Require Import ZArith Lia.
From S2P Require Import Prelude Types Storage State Tx EngineBase Orderbook Matching Position Risk Services Trading Engine Auth Mempool Snapshot Exec History Startup Supply Chain.

Section daemon.
Context {B : Backend} {Bok : BackendOk B} {V : TxEnv} {G : SigEnv}.
Implicit Types (s : StateManager) (t : SvcState) (n : Node) (tx : Transaction) (e : Engine).

(** The keys of trading. *)
Definition trading_key (k : StateKey) : Prop :=
  match k with SK_Market _ | SK_Order _ | SK_Position _ _ => True | _ => False end.

#[export] Instance trading_key_dec k : Decision (trading_key k).
Proof. destruct k; first [left; exact I|right; exact (fun H => H)]. Defined.

(** Nothing is traded, nor was at any version. *)
Definition untraded (k : StateKey) (_ : Bytes) : Prop := ~ trading_key k.
Definition dormant s : Prop := contents untraded (sm_storage s).

Lemma dormant_get {T} (S : Serde Bytes T) s k : dormant s -> trading_key k -> sm_get s k = Ok None.
Proof.
  intros Hs Hk. rewrite sm_get_sv. destruct (sv s k) as [b|] eqn:E; [|done].
  exfalso. by eapply (contents_view untraded).
Qed.

Lemma dormant_frame P s s' :
  frame P s s' -> (forall k, P k -> ~ trading_key k) -> dormant s -> dormant s'.
Proof.
  intros [(_ & D & _) F] HP Hs k b [Hb|[v Hv]] Hk.
  - assert (E : sv s' k = Some b) by (unfold sv, view; by rewrite Hb).
    rewrite F in E by (intros Hp; by eapply HP). by eapply (contents_view untraded).
  - revert Hk. apply (Hs k b). right. exists v. unfold db_value in *. by rewrite <- D.
Qed.

(** ** Trading is refused *)

(** What a trading payload is answered. *)
Definition refusal (p : TxPayload) : option EngineError :=
  match p with
  | PlaceOrder _ => Some MarketNotFound
  | CancelOrder _ => Some OrderNotFound
  | ClosePosition _ => Some PositionNotFound
  | _ => None
  end.

Lemma place_order_refused trader o t :
  dormant (ss_state t) -> place_order trader o t = (Err MarketNotFound, t).
Proof.
  intros Ht. unfold place_order. erewrite svc_read_bind by (apply dormant_get; [exact Ht|exact I]). reflexivity.
Qed.
Lemma cancel_order_refused trader c t :
  dormant (ss_state t) -> cancel_order trader c t = (Err OrderNotFound, t).
Proof.
  intros Ht. unfold cancel_order. erewrite svc_read_bind by (apply dormant_get; [exact Ht|exact I]). reflexivity.
Qed.
Lemma close_position_refused trader c t :
  dormant (ss_state t) -> close_position trader c t = (Err PositionNotFound, t).
Proof.
  intros Ht. unfold close_position. erewrite svc_read_bind by (apply dormant_get; [exact Ht|exact I]). reflexivity.
Qed.

Lemma engine_refused {A} (m : ST SvcState EngineError A) x e :
  (forall t, dormant (ss_state t) -> m t = (Err x, t)) -> dormant (en_state e) ->
  engine_call (on_services m) e = (Err (TeEngine x), e).
Proof.
  intros Hm He. unfold engine_call, on_services, st_map_err, st_zoom. rewrite Hm by exact He. by destruct e.
Qed.

Lemma payload_refused tx x e :
  refusal (tx_payload tx) = Some x -> dormant (en_state e) ->
  execute_tx_payload_readonly tx e = (Err (TeEngine x), e).
Proof.
  intros Hx He. unfold execute_tx_payload_readonly, refusal in *. destruct (tx_payload tx); try done.
  - injection Hx as <-. erewrite st_bind_err; [reflexivity|].
    apply (engine_refused (place_order (tx_from tx) o)); [apply place_order_refused|exact He].
  - injection Hx as <-. apply engine_refused; [apply cancel_order_refused|exact He].
  - injection Hx as <-. apply engine_refused; [apply close_position_refused|exact He].
Qed.

Lemma execute_refusal tx x n :
  refusal (tx_payload tx) = Some x -> dormant (nd_state n) ->
  recover_signer tx = Ok (tx_from tx) -> get_nonce (nd_state n) (tx_from tx) = Ok (tx_nonce tx) ->
  execute tx n = (Err (TeEngine x), n).
Proof.
  intros Hx Hn Hr Hnonce. apply verify_transaction_Ok in Hr.
  pose proof (execute_checked tx n Hr Hnonce) as H.
  assert (E : execute_tx_payload tx n = (Err (TeEngine x), n)).
  { pose proof (payload_refused tx x (nd_engine n) Hx Hn) as Hp. unfold execute_tx_payload, with_engine, st_zoom.
    destruct (tx_payload tx); try discriminate Hx; rewrite Hp; by destruct n. }
  by rewrite E in H.
Qed.

(** ** Nothing wakes the market up *)

Lemma dormant_account {A} j (m : ST SvcState EngineError A) e :
  frames ss_state (at_asset j) m -> dormant (en_state e) ->
  dormant (en_state (snd (engine_call (on_services m) e))).
Proof.
  intros F He. unfold engine_call, on_services, st_map_err, st_zoom.
  specialize (F {| ss_state := en_state e; ss_context := en_context e; ss_orderbook := en_orderbook e |}).
  destruct (m _) as [r t]. eapply dormant_frame; [exact F| |exact He]. intros k [a ->] [].
Qed.

Lemma payload_dormant tx e :
  dormant (en_state e) -> dormant (en_state (snd (execute_tx_payload_readonly tx e))).
Proof.
  intros He. destruct (refusal (tx_payload tx)) as [x|] eqn:Ex.
  { by rewrite (payload_refused tx x e Ex He). }
  unfold execute_tx_payload_readonly, refusal in *. destruct (tx_payload tx); try done.
  - eapply dormant_account; [apply frames_update_balance_at|exact He].
  - eapply dormant_account; [apply frames_update_balance_at|exact He].
  - eapply dormant_account; [apply frames_transfer_at|exact He].
  - eapply dormant_account; [apply frames_bridge_deposit_at|exact He].
  - eapply dormant_account; [apply frames_bridge_withdraw_at|exact He].
Qed.

Lemma execute_dormant tx n : dormant (nd_state n) -> dormant (nd_state (snd (execute tx n))).
Proof.
  intros Hn. pose proof (payload_dormant tx (nd_engine n) Hn) as H.
  destruct (execute_engine tx n) as [(x & E)|(r & e & Er & _ & E2)]; [by rewrite E|].
  rewrite Er in H. cbn [snd] in H. unfold nd_state. destruct r as [u|x]; [|by rewrite E2].
  destruct E2 as (s & F & ->). eapply dormant_frame; [exact F| |exact H]. intros k <- [].
Qed.

Lemma fold_dormant block : forall stats n,
  dormant (nd_state n) -> dormant (nd_state (snd (foldl execute_bytes (stats, n) block))).
Proof.
  induction block as [|b block IH]; intros stats n Hn; [exact Hn|]. cbn [foldl execute_bytes].
  destruct (decode_tx b) as [tx|x]; [|by apply IH].
  pose proof (execute_dormant tx n Hn) as H1. destruct (execute tx n) as [r n1]. by apply IH.
Qed.

Lemma begin_dormant height n : dormant (nd_state n) -> dormant (nd_state (nd_begin_block height n)).
Proof. done. Qed.

Lemma block_dormant height block n :
  dormant (nd_state n) -> dormant (nd_state (snd (execute_txs height block n))).
Proof.
  intros Hn. destruct (execute_txs_state height block n) as (_ & _ & ->).
  apply contents_commit. exact (fold_dormant block TxExecutionStats_new _ (begin_dormant height n Hn)).
Qed.

Lemma executes_dormant n blocks n' : executes n blocks n' -> dormant (nd_state n) -> dormant (nd_state n').
Proof.
  induction 1 as [n|n n1 blocks n' He _ IH|n h block r n1 blocks n' _ Hx _ IH]; intros Hn; [done| |].
  - apply IH. unfold nd_state in *. by rewrite He.
  - apply IH. replace n1 with (snd (execute_txs h block n)) by (by rewrite Hx). by apply block_dormant.
Qed.

(** ** From the first start *)

Lemma node_new_dormant h : dormant (nd_state (node_on_disk ∅ h)).
Proof.
  intros k b [Hb|[v Hv]]; [cbn in Hb; by rewrite lookup_empty in Hb|].
  unfold db_value in Hv. cbn in Hv. by rewrite lookup_empty in Hv.
Qed.

Lemma started_dormant parse config h r n snapshots :
  start_server parse config (Ok ∅) h = Some (r, (n, snapshots)) -> dormant (nd_state n).
Proof.
  intros H. assert (Hl : list_all_assets (nd_state (node_on_disk ∅ h)) = Ok []) by reflexivity.
  eapply dormant_frame; [by eapply start_server_frame| |exact (node_new_dormant h)].
  intros k [[->|(a & _ & ->)]|(op & _ & ->)]; cbn; tauto.
Qed.

(** C5: the daemon never trades.  Once started on an empty database, whatever blocks
    it executes, at any heights, with commits that prune or fail, and in whatever
    state its pool is, there is no market, no order and no position: every
    correctly signed and numbered order, cancellation or close is refused with
    the error of a missing market, order or position and leaves the node exactly
    as it was.  (Only tests call [set_market].) *)
Theorem daemon_never_trades parse config h n snapshots blocks n' :
  start_server parse config (Ok ∅) h = Some (Ok tt, (n, snapshots)) -> executes n blocks n' ->
  (forall m, get_market (nd_state n') m = Ok None) /\
  (forall id, get_order (nd_state n') id = Ok None) /\
  (forall a m, get_position (nd_state n') a m = Ok None) /\
  (forall tx x, refusal (tx_payload tx) = Some x -> recover_signer tx = Ok (tx_from tx) ->
     get_nonce (nd_state n') (tx_from tx) = Ok (tx_nonce tx) ->
     execute tx n' = (Err (TeEngine x), n')).
Proof.
  intros Hs Hc. pose proof (executes_dormant n blocks n' Hc (started_dormant _ _ _ _ _ _ Hs)) as Hd'.
  split_and!; [intros m|intros id|intros a m|]; try (by apply dormant_get).
  intros tx x Hx Hr Hn. by apply execute_refusal.
Qed.

End daemon.

(** * Witness *)

(** A daemon with operator 7; block 3 bridges 500 to account 1, an empty block
    is executed at height 2, where the deposit is not seen, and account 1 places an
    order. *)
Definition daemon_demo : Node :=
  snd ((start_assets ;; start_operators demo_parse (demo_start ["7"%string])) (node_on_disk ∅ demo_hash)).
Definition daemon_block : list (list Z) :=
  [encode (with_signature (new_raw 0 7 (BridgeDeposit {| bd_user := 1; bd_amount := 500; bd_asset_id := 0;
     bd_external_tx_hash := 9 |})) (7 :: replicate 63 0 ++ [1]))].
Definition daemon_demo1 : Node := snd (execute_txs 3 daemon_block daemon_demo).
Definition daemon_demo2 : Node := snd (execute_txs 2 [] daemon_demo1).

Lemma daemon_demo_started :
  start_server demo_parse (demo_start ["7"%string]) (Ok ∅) demo_hash =
  Some (Ok tt, (daemon_demo, SnapshotService_new None)).
Proof.
  assert (E : fst ((start_assets ;; start_operators demo_parse (demo_start ["7"%string]))
    (node_on_disk ∅ demo_hash)) = Ok tt) by (vm_compute; reflexivity).
  rewrite start_server_eq, (run_result _ _ _ E). reflexivity.
Qed.

Lemma daemon_demo_executes : executes daemon_demo [daemon_block; []] daemon_demo2.
Proof.
  eapply (executes_block daemon_demo 3); [vm_compute; split; discriminate|apply surjective_pairing|].
  eapply (executes_block daemon_demo1 2); [vm_compute; split; discriminate|apply surjective_pairing|].
  apply executes_nil.
Qed.

Lemma daemon_never_trades_witness :
  get_balance (nd_state daemon_demo1) 1 0 = Ok 500 /\ get_balance (nd_state daemon_demo2) 1 0 = Ok 0 /\
  execute (order_from 1 demo_order) daemon_demo2 = (Err (TeEngine MarketNotFound), daemon_demo2).
Proof.
  split; [vm_compute; reflexivity|]. split; [vm_compute; reflexivity|].
  destruct (daemon_never_trades demo_parse (demo_start ["7"%string]) demo_hash daemon_demo _ _ daemon_demo2
    daemon_demo_started daemon_demo_executes) as (_ & _ & _ & H).
  apply H; vm_compute; reflexivity.
Defined.
