(* ===== verification/Readonly.v ===== *)
(** Query nodes (crates/exec/src/readonly_executor.rs) and the execution
    statistics of crates/exec/src/executor_trait.rs.

    The leader is another machine: what its HTTP interface answers is the
    argument [Leader] of the definitions that ask it. *)
From stdpp Require Import base gmap sets list sorting strings.
From Stdlib Require Import ZArith Lia.
From Stdlib Require SpecFloat.
From S2P Require Import Prelude Float64 Types Storage State Tx EngineBase Orderbook Matching Position Risk Funding Liquidation Services Trading Engine EventKeys EventStore RocksEvents Auth Mempool Exec.

(** * Execution statistics (executor_trait.rs) *)

Record ExecutionStats := {
  total_txs : Z;
  successful_txs : Z;
  failed_txs : Z;
  total_time_us : Z;
  avg_time_us : Z;
}.
Definition ExecutionStats_default : ExecutionStats :=
  {| total_txs := 0; successful_txs := 0; failed_txs := 0; total_time_us := 0; avg_time_us := 0 |}.

(** A count that wraps to 0 makes the division panic. *)
Definition record (success : bool) (time_us : Z) (s : ExecutionStats) : option ExecutionStats :=
  let total := wadd64 (total_txs s) 1 in
  let time := wadd64 (total_time_us s) time_us in
  if total =? 0 then None
  else Some {|
    total_txs := total;
    successful_txs := if success then wadd64 (successful_txs s) 1 else successful_txs s;
    failed_txs := if success then failed_txs s else wadd64 (failed_txs s) 1;
    total_time_us := time;
    avg_time_us := time / total |}.

Definition es_success_rate (s : ExecutionStats) : f64 :=
  if total_txs s =? 0 then f64_of_int 0
  else f64_div (f64_of_int (successful_txs s)) (f64_of_int (total_txs s)).
Definition es_tps (s : ExecutionStats) (elapsed_secs : f64) : f64 :=
  if SpecFloat.SFltb (f64_of_int 0) elapsed_secs then f64_div (f64_of_int (total_txs s)) elapsed_secs
  else f64_of_int 0.

Inductive ExecutionMode := Sequential | ValidationOnly.
#[export] Instance ExecutionMode_eq_dec : EqDecision ExecutionMode.
Proof. solve_decision. Defined.
Definition ExecutionMode_default : ExecutionMode := Sequential.

(** * The read-only executor *)

(** [execute_batch] as the trait [TxExecutor] gives it to every executor: each
    transaction in turn, an error no obstacle to the next.  Nothing implements
    the trait. *)
Section executor.
Context {S R : Type} (execute_tx : Transaction -> ST S EngineError R).

Fixpoint execute_in_turn (txs : list Transaction) (s : S) : list (result EngineError R) * S :=
  match txs with
  | [] => ([], s)
  | tx :: txs =>
      let '(r, s) := execute_tx tx s in
      let '(rs, s) := execute_in_turn txs s in (r :: rs, s)
  end.

(** One result per transaction, in their order: the batch is its parts. *)
Lemma execute_in_turn_app txs txs' s :
  execute_in_turn (txs ++ txs') s =
  let '(rs, s1) := execute_in_turn txs s in
  let '(rs', s2) := execute_in_turn txs' s1 in (rs ++ rs', s2).
Proof.
  revert s. induction txs as [|tx txs IH]; intros s; cbn; [by destruct (execute_in_turn txs' s)|].
  destruct (execute_tx tx s) as [r s1]. rewrite IH.
  destruct (execute_in_turn txs s1) as [rs s2]. by destruct (execute_in_turn txs' s2).
Qed.

Lemma execute_in_turn_length txs s : length (execute_in_turn txs s).1 = length txs.
Proof.
  revert s. induction txs as [|tx txs IH]; intros s; cbn; [done|].
  destruct (execute_tx tx s) as [r s1]. specialize (IH s1).
  destruct (execute_in_turn txs s1). cbn in *. by rewrite IH.
Qed.
End executor.

Inductive ReadOnlyError := InitError | NetworkError | ExecutionError | QueryError.

(** One entry of the leader's answer to a request for blocks. *)
Record BlockData := { bd_height : Z; bd_transactions : list Transaction }.

(** What the leader answers; [None] is any failure of the request. *)
Record Leader := {
  lead_status : option Z;
  lead_blocks : Z -> Z -> option (list BlockData);
}.

Record SyncResult := { synced_blocks : Z; new_height : Z; is_synced : bool }.

Record ReadOnlyConfig := {
  leader_url : string;
  sync_interval_secs : Z;
  sync_batch_size : Z;
  verify_state_root : bool;
}.
Definition ReadOnlyConfig_default : ReadOnlyConfig :=
  {| leader_url := "http://localhost:3000"; sync_interval_secs := 5; sync_batch_size := 100;
     verify_state_root := true |}.

Section readonly.
Context {B : Backend} {V : TxEnv} {K : KeyCodec} {C : EventCodec}.

Record ReadOnlyExecutor := {
  ro_engine : Engine;
  ro_event_store : RocksDbEventStore;
  ro_block_height : Z;
}.
Definition ReadOnlyExecutor_new (state : StateManager) (events : gmap (list Z) (list Z)) : ReadOnlyExecutor :=
  {| ro_engine := Engine_new state; ro_event_store := Rocks.new events 1000; ro_block_height := 0 |}.

Definition ro_height (ro : ReadOnlyExecutor) : Z := ro_block_height ro.

Definition fetch_leader_height (leader : Leader) : result ReadOnlyError Z :=
  ok_or NetworkError (lead_status leader).

Definition fetch_transactions (leader : Leader) (from_height to_height : Z)
    : result ReadOnlyError (list (Z * Transaction)) :=
  let* blocks := ok_or NetworkError (lead_blocks leader from_height to_height) in
  Ok (blocks ≫= (fun block => (fun tx => (bd_height block, tx)) <$> bd_transactions block)).

Definition execute_transaction (tx : Transaction) : ST Engine ReadOnlyError unit :=
  st_map_err (fun _ => ExecutionError) (execute_tx_payload_readonly tx).

(** The body of the replay loop; the events are dropped. *)
Definition replay (htx : Z * Transaction) : ST Engine ReadOnlyError unit :=
  let '(height, tx) := htx in
  st_modify (begin_tx (tx_hash tx) height 0) ;;
  execute_transaction tx ;;
  st_modify (fun e => snd (take_events e)).

(** One iteration of the [while] loop. *)
Definition sync_batch (leader : Leader) (current end_ : Z) : ST Engine ReadOnlyError unit :=
  let! txs := st_lift (fetch_transactions leader current end_) in
  st_for txs replay.

(** The loop, in at most [fuel] iterations; [None] when it is still running. *)
Fixpoint sync_loop (fuel : nat) (leader : Leader) (batch_size leader_height current synced : Z) (e : Engine)
    : option (result ReadOnlyError Z * Engine) :=
  match fuel with
  | O => None
  | S fuel =>
      if current <=? leader_height then
        let end_ := Z.min (wsub64 (wadd64 current (as_u64 batch_size)) 1) leader_height in
        match sync_batch leader current end_ e with
        | (Err x, e') => Some (Err x, e')
        | (Ok _, e') =>
            sync_loop fuel leader batch_size leader_height (wadd64 end_ 1)
              (wadd64 synced (wadd64 (wsub64 end_ current) 1)) e'
        end
      else Some (Ok synced, e)
  end.

Definition with_ro_engine (e : Engine) (h : Z) (ro : ReadOnlyExecutor) : ReadOnlyExecutor :=
  {| ro_engine := e; ro_event_store := ro_event_store ro; ro_block_height := h |}.

Definition sync_from_leader (fuel : nat) (leader : Leader) (batch_size : Z) (ro : ReadOnlyExecutor)
    : option (result ReadOnlyError SyncResult * ReadOnlyExecutor) :=
  let current_height := ro_block_height ro in
  match fetch_leader_height leader with
  | Err x => Some (Err x, ro)
  | Ok leader_height =>
      if leader_height <=? current_height then
        Some (Ok {| synced_blocks := 0; new_height := current_height; is_synced := true |}, ro)
      else
        match sync_loop fuel leader batch_size leader_height (wadd64 current_height 1) 0 (ro_engine ro) with
        | None => None
        | Some (Err x, e) => Some (Err x, with_ro_engine e current_height ro)
        | Some (Ok synced, e) =>
            Some (Ok {| synced_blocks := synced; new_height := leader_height; is_synced := true |},
                  with_ro_engine e leader_height ro)
        end
  end.

(** ** Queries *)
Definition ro_get_balance (ro : ReadOnlyExecutor) (address : Address) (asset_id : Z) : result ReadOnlyError Z :=
  map_err (fun _ => QueryError) (get_balance (en_state (ro_engine ro)) address asset_id).
Definition ro_get_position (ro : ReadOnlyExecutor) (address : Address) (market_id : Z)
    : result ReadOnlyError (option Position) :=
  map_err (fun _ => QueryError) (get_position (en_state (ro_engine ro)) address market_id).
Definition ro_get_order (ro : ReadOnlyExecutor) (order_id : Z) : result ReadOnlyError (option Order) :=
  map_err (fun _ => QueryError) (get_order (en_state (ro_engine ro)) order_id).
Definition ro_get_orderbook (ro : ReadOnlyExecutor) (_market_id : Z) : result ReadOnlyError (list Order) :=
  Ok [].
Definition get_events_by_block (ro : ReadOnlyExecutor) (from to : Z) : result ReadOnlyError (list DomainEvent) :=
  map_err (fun _ => QueryError) (Rocks.get_by_block_range (ro_event_store ro) from to).
Definition get_events_by_tx (ro : ReadOnlyExecutor) (tx_hash : B256) : result ReadOnlyError (list DomainEvent) :=
  map_err (fun _ => QueryError) (Rocks.get_by_tx (ro_event_store ro) tx_hash).
Definition get_events_by_address (ro : ReadOnlyExecutor) (address : Address) (limit : nat)
    : result ReadOnlyError (list DomainEvent) :=
  map_err (fun _ => QueryError) (Rocks.get_by_address (ro_event_store ro) address limit).
Definition ro_state_root (ro : ReadOnlyExecutor) : B256 := state_root (en_state (ro_engine ro)).

(** ** The background service *)
Record SyncService := { sv_executor : ReadOnlyExecutor; sv_config : ReadOnlyConfig; sv_running : bool }.
Definition SyncService_new (executor : ReadOnlyExecutor) (config : ReadOnlyConfig) : SyncService :=
  {| sv_executor := executor; sv_config := config; sv_running := false |}.
Definition with_running (r : bool) (s : SyncService) : SyncService :=
  {| sv_executor := sv_executor s; sv_config := sv_config s; sv_running := r |}.
Definition stop (s : SyncService) : SyncService := with_running false s.

(** One turn of the loop of [start], between two sleeps: errors are logged. *)
Definition service_turn (fuel : nat) (leader : Leader) (s : SyncService) : option SyncService :=
  if sv_running s then
    match sync_from_leader fuel leader (sync_batch_size (sv_config s)) (sv_executor s) with
    | None => None
    | Some (_, ro) => Some {| sv_executor := ro; sv_config := sv_config s; sv_running := sv_running s |}
    end
  else Some s.
(** [start], for as many turns as there are answers from the leader. *)
Definition start (fuel : nat) (answers : list Leader) (s : SyncService) : option SyncService :=
  foldl (fun s leader => s ≫= service_turn fuel leader) (Some (with_running true s)) answers.

End readonly.

(** * The batches of a synchronisation *)

(** The heights [from..=to] cut into runs of [b]. *)
Definition batches (b from to : Z) : list (Z * Z) :=
  (fun k => (from + k * b, Z.min (from + (k + 1) * b - 1) to)) <$> seqZ 0 ((to - from + b) / b).

Lemma batches_nil b from to : 1 <= b -> to < from -> batches b from to = [].
Proof.
  intros Hb H. unfold batches. rewrite seqZ_nil; [done|].
  destruct (Z.lt_ge_cases (to - from + b) 0).
  - assert ((to - from + b) / b < 0) by (apply Z.div_lt_upper_bound; lia). lia.
  - rewrite Z.div_small by lia. lia.
Qed.

Lemma batches_cons b from to :
  1 <= b -> from <= to ->
  batches b from to = (from, Z.min (from + b - 1) to) :: batches b (from + b) to.
Proof.
  intros Hb H. unfold batches.
  assert (E : (to - from + b) / b = (to - (from + b) + b) / b + 1).
  { rewrite <- Z.div_add by lia. f_equal. lia. }
  assert (0 <= (to - (from + b) + b) / b) by (apply Z.div_pos; lia).
  rewrite seqZ_cons by lia. cbn [fmap list_fmap]. f_equal; [f_equal; lia|].
  rewrite E. set (q := (to - (from + b) + b) / b) in *.
  replace (Z.pred (q + 1)) with q by lia. change (Z.succ 0) with (1 + 0). rewrite <- (fmap_add_seqZ 1 0).
  rewrite <- list_fmap_compose. apply list_fmap_ext. intros i k _. cbn. f_equal; [lia|f_equal; lia].
Qed.

(** Each height is in exactly one batch, batches come in order and have at
    most [b] heights. *)
Lemma batches_cover b from to :
  1 <= b -> batches b from to ≫= (fun r => range_inclusive r.1 r.2) = range_inclusive from to.
Proof.
  intros Hb. remember (Z.to_nat (to + 1 - from)) as n eqn:En. revert from En.
  induction n as [n IH] using lt_wf_ind. intros from En. destruct (Z.le_gt_cases from to).
  - rewrite batches_cons by lia. cbn [mbind list_bind fst snd].
    rewrite (IH (Z.to_nat (to + 1 - (from + b)))) by lia. unfold range_inclusive.
    destruct (Z.le_gt_cases (from + b) (to + 1)).
    + replace (to - from + 1) with ((Z.min (from + b - 1) to - from + 1) + (to - (from + b) + 1)) by lia.
      rewrite (seqZ_app from (_ - from + 1)) by lia. do 2 f_equal. lia.
    + rewrite (seqZ_nil (from + b)) by lia. rewrite app_nil_r. f_equal. lia.
  - rewrite batches_nil by lia. unfold range_inclusive. by rewrite seqZ_nil by lia.
Qed.

Lemma batches_size b from to a z :
  1 <= b -> (a, z) ∈ batches b from to -> from <= a /\ a <= z <= to /\ z - a < b.
Proof.
  intros Hb (k & [= -> ->] & Hk)%list_elem_of_fmap. apply elem_of_seqZ in Hk.
  assert (k * b <= to - from); [|nia].
  assert (k + 1 <= (to - from + b) / b) as Hk2 by lia.
  apply (Z.mul_le_mono_nonneg_l _ _ b) in Hk2; [|lia].
  pose proof (Z.mul_div_le (to - from + b) b). lia.
Qed.

Section syncing.
Context {B : Backend} {Bok : BackendOk B} {V : TxEnv} {K : KeyCodec} {C : EventCodec}.
Implicit Types (ro : ReadOnlyExecutor) (e : Engine).

Definition sync_batches (leader : Leader) (requests : list (Z * Z)) : ST Engine ReadOnlyError unit :=
  st_for requests (fun r => sync_batch leader r.1 r.2).

Lemma sync_loop_batches leader b lh : 1 <= b -> lh + b <= U64_MAX ->
  forall from fuel synced e,
  0 <= from <= lh + 1 -> 0 <= synced -> synced + (lh + 1 - from) <= U64_MAX ->
  (length (batches b from lh) < fuel)%nat ->
  sync_loop fuel leader b lh from synced e =
    Some (match sync_batches leader (batches b from lh) e with
          | (Ok _, e') => (Ok (synced + (lh + 1 - from)), e')
          | (Err x, e') => (Err x, e')
          end).
Proof.
  intros Hb Hmax from. remember (Z.to_nat (lh + 1 - from)) as n eqn:En. revert from En.
  induction n as [n IH] using lt_wf_ind. intros from En fuel synced e Hfrom Hs Hmax2 Hfuel.
  destruct fuel as [|fuel]; [lia|]. cbn [sync_loop]. destruct (Z.leb_spec from lh) as [Hle|Hgt].
  - rewrite batches_cons in Hfuel |- * by lia. cbn [length] in Hfuel.
    unfold wsub64, wadd64. rewrite (as_u64_id b), (as_u64_id (from + b)), (as_u64_id (from + b - 1))
      by (unfold is_u64; lia).
    set (z := Z.min (from + b - 1) lh).
    assert (Hz : from <= z <= lh) by lia.
    rewrite (as_u64_id (z + 1)), (as_u64_id (z - from)), (as_u64_id (z - from + 1)),
      (as_u64_id (synced + _)) by (unfold is_u64; lia).
    unfold sync_batches at 1. cbn [st_for fst snd]. unfold st_bind.
    destruct (sync_batch leader from z e) as [[u|x] e1]; [|done].
    assert (Eb : batches b (from + b) lh = batches b (z + 1) lh).
    { destruct (Z.le_gt_cases (from + b) (lh + 1)); [f_equal; lia|].
      rewrite !batches_nil by lia. done. }
    rewrite Eb in *.
    rewrite (IH (Z.to_nat (lh + 1 - (z + 1)))); [|lia|done|lia|lia|lia|lia].
    fold (sync_batches leader (batches b (z + 1) lh)).
    destruct (sync_batches leader (batches b (z + 1) lh) e1) as [[u2|x] e2]; [|done].
    do 3 f_equal. lia.
  - rewrite batches_nil by lia. cbn. do 3 f_equal. lia.
Qed.

Lemma length_batches b from to : 1 <= b -> (length (batches b from to) <= Z.to_nat (to + 1 - from))%nat.
Proof.
  intros Hb. destruct (Z.le_gt_cases from to); [|by rewrite batches_nil by lia; cbn; lia].
  unfold batches. rewrite length_fmap, length_seqZ. apply Z2Nat.inj_le; [apply Z.div_pos; lia|lia|].
  apply Z.div_le_upper_bound; [lia|]. nia.
Qed.

(** C21: with a batch size of at least one that the leader's height can be
    raised by without leaving 64 bits (beyond that the end of a batch wraps:
    [batch_end_wraps]), a synchronisation with a leader that tells its height ends, within as
    many turns of its loop as blocks are missing: it asks the leader for every
    missing height exactly once, in order, in batches no larger than the limit,
    and replays what it gets.  When all of that succeeds the node is at the
    leader's height; at the first failed request or transaction it stops, keeps
    what was replayed so far, and its height stays where it was. The event
    store is never written. *)
Theorem sync_from_leader_exact leader b lh ro fuel :
  1 <= b -> lh + b <= U64_MAX -> 0 <= ro_block_height ro -> lead_status leader = Some lh ->
  (Z.to_nat (lh - ro_block_height ro) < fuel)%nat ->
  let h := ro_block_height ro in
  let requests := batches b (h + 1) lh in
  requests ≫= (fun r => range_inclusive r.1 r.2) = range_inclusive (h + 1) lh /\
  Forall (fun r => r.2 - r.1 < b) requests /\
  exists r ro',
    sync_from_leader fuel leader b ro = Some (r, ro') /\
    ro_event_store ro' = ro_event_store ro /\
    (ro_engine ro', ro_block_height ro', r) =
      match sync_batches leader requests (ro_engine ro) with
      | (Ok _, e) =>
          (e, Z.max h lh,
           Ok {| synced_blocks := Z.max 0 (lh - h); new_height := Z.max h lh; is_synced := true |})
      | (Err x, e) => (e, h, Err x)
      end.
Proof.
  intros Hb Hmax Hh Hst Hfuel h requests. split; [by apply batches_cover|]. split.
  { apply Forall_forall. intros [a z] Haz. by apply batches_size in Haz as (_ & _ & ?). }
  unfold sync_from_leader, fetch_leader_height. rewrite Hst. cbn [ok_or].
  fold h. fold h in Hfuel, Hh. destruct (Z.leb_spec lh h) as [Hle|Hgt].
  - unfold requests. rewrite batches_nil by lia. eexists _, _. split; [done|]. split; [done|]. cbn.
    fold h. rewrite Z.max_l by lia. do 3 f_equal; lia.
  - unfold wadd64. rewrite as_u64_id by (unfold is_u64; lia).
    rewrite (sync_loop_batches leader b lh); [|lia..|].
    + fold requests. destruct (sync_batches leader requests (ro_engine ro)) as [[u|x] e];
        eexists _, _; (split; [done|]); (split; [done|]); cbn; [|done].
      do 2 f_equal; [lia|]. f_equal; f_equal; lia.
    + pose proof (length_batches b (h + 1) lh Hb). lia.
Qed.

(** Without an answer to the first request nothing happens. *)
Lemma sync_unreachable leader b ro fuel :
  lead_status leader = None -> sync_from_leader fuel leader b ro = Some (Err NetworkError, ro).
Proof. intros H. unfold sync_from_leader, fetch_leader_height. by rewrite H. Qed.

(** With a batch size of zero a synchronisation with a leader that is
    ahead, and answers requests for an empty range with no blocks, never ends:
    whatever the number of turns, the loop is still running. *)
Theorem sync_batch_zero_diverges leader lh ro :
  is_u64 (ro_block_height ro) -> is_u64 lh -> ro_block_height ro < lh ->
  lead_status leader = Some lh ->
  lead_blocks leader (ro_block_height ro + 1) (ro_block_height ro) = Some [] ->
  forall fuel, sync_from_leader fuel leader 0 ro = None.
Proof.
  intros Hh Hlh Hlt Hst Hbl fuel. unfold sync_from_leader, fetch_leader_height. rewrite Hst. cbn [ok_or].
  destruct (Z.leb_spec lh (ro_block_height ro)); [lia|].
  assert (Hloop : forall synced e,
    sync_loop fuel leader 0 lh (wadd64 (ro_block_height ro) 1) synced e = None); [|by rewrite Hloop].
  unfold wadd64. rewrite as_u64_id by (unfold is_u64 in *; lia).
  induction fuel as [|fuel IH]; intros synced e; [done|]. cbn [sync_loop].
  destruct (Z.leb_spec (ro_block_height ro + 1) lh); [|lia].
  unfold wsub64, wadd64. rewrite (as_u64_id 0) by (unfold is_u64, U64_MAX; lia).
  rewrite Z.add_0_r, (as_u64_id (_ + 1)), Z.add_simpl_r, as_u64_id by (unfold is_u64 in *; lia).
  rewrite Z.min_l by lia. rewrite (as_u64_id (_ + 1)) by (unfold is_u64 in *; lia).
  unfold sync_batch, fetch_transactions. rewrite Hbl. cbn. apply IH.
Qed.

(** The largest batch size wraps (in a release build) for a node at height 1:
    the first batch asks for the blocks from 2 to 0 and the second goes back to
    block 1. *)
Lemma batch_end_wraps leader lh synced e fuel :
  2 <= lh <= U64_MAX ->
  sync_loop (S (S fuel)) leader U64_MAX lh 2 synced e =
  match sync_batch leader 2 0 e with
  | (Err x, e1) => Some (Err x, e1)
  | (Ok _, e1) =>
      match sync_batch leader 1 lh e1 with
      | (Err x, e2) => Some (Err x, e2)
      | (Ok _, e2) =>
          sync_loop fuel leader U64_MAX lh (wadd64 lh 1)
            (wadd64 (wadd64 synced U64_MAX) (wadd64 (wsub64 lh 1) 1)) e2
      end
  end.
Proof.
  intros H. cbn [sync_loop]. destruct (Z.leb_spec 2 lh); [|lia].
  change (wsub64 (wadd64 2 (as_u64 U64_MAX)) 1) with 0. rewrite Z.min_l by lia.
  change (wadd64 0 1) with 1. change (wadd64 (wsub64 0 2) 1) with U64_MAX.
  destruct (sync_batch leader 2 0 e) as [[u|x] e1]; [|done].
  destruct (Z.leb_spec 1 lh); [|lia].
  change (wsub64 (wadd64 1 (as_u64 U64_MAX)) 1) with U64_MAX. by rewrite Z.min_r by lia.
Qed.

(** ** What a query node's state is *)

Lemma frames_replay htx : frames en_state not_nonce (replay htx).
Proof.
  destruct htx as [h tx]. unfold replay, execute_transaction.
  apply frames_bind; [by apply frames_id|intros _].
  apply frames_bind; [apply frames_map_err, frames_payload_readonly|intros _]. apply frames_id.
  intros e. unfold st_modify, take_events. by destruct (ctx_take_events (en_context e)).
Qed.

Lemma frames_sync_batches leader requests : frames en_state not_nonce (sync_batches leader requests).
Proof.
  apply frames_for. intros r. unfold sync_batch. apply frames_bind; [by apply frames_id|].
  intros txs. apply frames_for. intros htx. apply frames_replay.
Qed.


Lemma sync_loop_frame leader b lh fuel : forall from synced e r e',
  sync_loop fuel leader b lh from synced e = Some (r, e') -> frame not_nonce (en_state e) (en_state e').
Proof.
  induction fuel as [|fuel IH]; intros from synced e r e' H; [done|]. cbn [sync_loop] in H.
  destruct (from <=? lh); [|injection H as _ <-; apply frame_refl].
  match type of H with context [sync_batch leader from ?z e] =>
    pose proof (frames_sync_batches leader [(from, z)] e) as Hf end.
  unfold sync_batches in Hf. cbn [st_for fst snd] in Hf. unfold st_bind, st_ret in Hf.
  destruct (sync_batch leader from _ e) as [[u|x] e1]; cbn [snd] in Hf.
  - eapply frame_trans; [exact Hf|]. by eapply IH.
  - injection H as _ <-. exact Hf.
Qed.

(** Whatever a synchronisation replays, and however it ends, it never
    moves a nonce and commits nothing: the node's nonces stay those it started
    with, and its version and its database are as before, so everything replayed
    is gone after a restart. *)
Theorem sync_commits_nothing fuel leader b ro r ro' :
  sync_from_leader fuel leader b ro = Some (r, ro') ->
  let s := en_state (ro_engine ro) in
  let s' := en_state (ro_engine ro') in
  (forall a, get_nonce s' a = get_nonce s a) /\
  sm_version s' = sm_version s /\
  db (sm_storage s') = db (sm_storage s) /\
  ro_event_store ro' = ro_event_store ro.
Proof.
  intros H s s'.
  assert (Hf : frame not_nonce s s' /\ ro_event_store ro' = ro_event_store ro).
  { unfold sync_from_leader in H. destruct (fetch_leader_height leader) as [lh|x];
      [|injection H as _ <-; split; [apply frame_refl|done]].
    destruct (lh <=? ro_block_height ro); [injection H as _ <-; split; [apply frame_refl|done]|].
    destruct (sync_loop _ _ _ _ _ _ _) as [[[n|x] e]|] eqn:E; [| |done];
      apply sync_loop_frame in E; by injection H as _ <-. }
  destruct Hf as [Hf He]. split_and!; [|apply Hf|apply Hf|done].
  intros a. eapply get_nonce_frame; [exact Hf|]. intros Hn. by apply (Hn a).
Qed.

End syncing.

(** * Statistics over a run *)

Definition stats_run (runs : list (bool * Z)) : option ExecutionStats :=
  foldl (fun s r => s ≫= record r.1 r.2) (Some ExecutionStats_default) runs.

(** The counters are sums and the average is that of the recorded times, as
    long as the sums fit. *)
Lemma stats_exact (runs : list (bool * Z)) :
  Forall (fun r => 0 <= r.2) runs -> Z.of_nat (length runs) <= U64_MAX -> sumZ snd runs <= U64_MAX ->
  let good := Z.of_nat (length (filter (fun r => r.1 = true) runs)) in
  let total := Z.of_nat (length runs) in
  stats_run runs = Some {|
    total_txs := total; successful_txs := good; failed_txs := total - good;
    total_time_us := sumZ snd runs; avg_time_us := sumZ snd runs / total |}.
Proof.
  induction runs as [|[b t] runs IH] using rev_ind; intros Hpos Hlen Hsum; [done|].
  apply Forall_app in Hpos as [Hpos Ht]. apply Forall_cons in Ht as [Ht _]. cbn in Ht.
  rewrite length_app in Hlen. cbn [length] in Hlen.
  rewrite sumZ_app in Hsum. cbn in Hsum.
  assert (0 <= sumZ snd runs).
  { apply sumZ_nonneg. intros x Hx. by apply (proj1 (Forall_forall _ _) Hpos). }
  cbv zeta in IH |- *. unfold stats_run. rewrite foldl_app. cbn [foldl].
  fold (stats_run runs). rewrite IH by (done || lia). cbn [mbind option_bind fst snd].
  unfold record. cbn [total_txs total_time_us successful_txs failed_txs].
  pose proof (length_filter (fun r : bool * Z => r.1 = true) runs).
  unfold wadd64. rewrite !as_u64_id by (unfold is_u64; lia).
  destruct (Z.eqb_spec (Z.of_nat (length runs) + 1) 0); [lia|].
  rewrite filter_app, !length_app, sumZ_app, filter_cons, filter_nil. cbn [length].
  replace (Z.of_nat (length runs + 1)) with (Z.of_nat (length runs) + 1) by lia.
  cbn [sumZ foldr snd fst]. rewrite Z.add_0_r.
  destruct b; [rewrite decide_True by done|rewrite decide_False by done]; cbn [length]; do 2 f_equal; lia.
Qed.

(** * Witnesses *)

#[local] Existing Instances toy_key_codec toy_event_codec.

Definition demo_deposit : Transaction := signed_by 1 0 (Deposit {| dep_amount := 100; dep_asset_id := 0 |}).
Definition demo_node : ReadOnlyExecutor := ReadOnlyExecutor_new sm_funds ∅.
(** A leader at height 2 with one transaction in each block, and the same with
    a connection that breaks after the first block. *)
Definition demo_blocks (from to : Z) : list BlockData :=
  (fun h => {| bd_height := h; bd_transactions := [demo_deposit] |}) <$> range_inclusive from to.
Definition demo_leader : Leader :=
  {| lead_status := Some 2; lead_blocks := fun from to => Some (demo_blocks from to) |}.
Definition flaky_leader : Leader :=
  {| lead_status := Some 2;
     lead_blocks := fun from to => if to <=? 1 then Some (demo_blocks from to) else None |}.

(** What a run leaves, so that witnesses compute only the answers. *)
Definition node_after (d : ReadOnlyExecutor) (run : option (result ReadOnlyError SyncResult * ReadOnlyExecutor))
    : ReadOnlyExecutor := match run with Some (_, ro) => ro | None => d end.
Lemma run_after d run r : option_map fst run = Some r -> run = Some (r, node_after d run).
Proof. destruct run as [[r' ro]|]; cbn; congruence. Qed.

Lemma sync_from_leader_exact_witness :
  exists r ro', sync_from_leader 3 demo_leader 1 demo_node = Some (r, ro') /\ ro_block_height ro' = 2.
Proof.
  destruct (sync_from_leader_exact demo_leader 1 2 demo_node 3 ltac:(lia) ltac:(vm_compute; congruence)
    ltac:(vm_compute; congruence) eq_refl ltac:(vm_compute; lia)) as (_ & _ & r & ro' & E & _ & H).
  exists r, ro'. split; [exact E|]. apply (f_equal (fun x => snd (fst x))) in H. cbn [fst snd] in H.
  rewrite H. vm_compute. reflexivity.
Defined.

Lemma sync_batch_zero_diverges_witness : sync_from_leader 1000 demo_leader 0 demo_node = None.
Proof.
  apply (sync_batch_zero_diverges demo_leader 2 demo_node); try (vm_compute; intuition congruence); reflexivity.
Defined.

Lemma sync_commits_nothing_witness :
  get_nonce (en_state (ro_engine (node_after demo_node (sync_from_leader 3 demo_leader 1 demo_node)))) 1 = Ok 0.
Proof.
  assert (E : option_map fst (sync_from_leader 3 demo_leader 1 demo_node) =
    Some (Ok {| synced_blocks := 2; new_height := 2; is_synced := true |})) by (vm_compute; reflexivity).
  destruct (sync_commits_nothing 3 demo_leader 1 demo_node _ _ (run_after demo_node _ _ E)) as (H & _).
  rewrite H. vm_compute. reflexivity.
Defined.

(** A synchronisation that fails half-way is repeated from the start:
    the node applies the blocks it already had a second time. Two blocks of a
    deposit of 100 each should leave 60200; the node reports height 2 and 60300. *)
Theorem retry_replays_blocks :
  exists ro1 ro2,
    sync_from_leader 3 flaky_leader 1 demo_node = Some (Err NetworkError, ro1) /\
    ro_block_height ro1 = 0 /\ ro_get_balance ro1 1 0 = Ok 60100 /\
    sync_from_leader 3 demo_leader 1 ro1 =
      Some (Ok {| synced_blocks := 2; new_height := 2; is_synced := true |}, ro2) /\
    ro_get_balance ro2 1 0 = Ok 60300.
Proof.
  set (ro1 := node_after demo_node (sync_from_leader 3 flaky_leader 1 demo_node)).
  exists ro1, (node_after ro1 (sync_from_leader 3 demo_leader 1 ro1)).
  split; [apply run_after; vm_compute; reflexivity|].
  split; [vm_compute; reflexivity|]. split; [vm_compute; reflexivity|].
  split; [apply run_after; vm_compute; reflexivity|]. vm_compute. reflexivity.
Qed.
