(* ===== verification/Circuit.v ===== *)
(** The middleware of the RPC server (crates/rpc/src/middleware.rs), the
    circuit breaker above all: a state machine shared by all requests.  Its
    lock is held for one method at a time, so requests that run concurrently
    interleave as sequences of the methods' steps, each at the time its clock
    reads. *)
From stdpp Require Import base list.
From Stdlib Require Import ZArith Lia.
From S2P Require Import Prelude Float64.

Inductive CircuitState := Closed | Open | HalfOpen.
#[export] Instance CircuitState_eq_dec : EqDecision CircuitState.
Proof. solve_decision. Defined.

Record CircuitBreaker := {
  cb_state : CircuitState;
  failure_count : Z;
  success_count : Z;
  last_failure_time : option Z;
  failure_threshold : Z;
  success_threshold : Z;
  timeout : Z;
}.

Definition CircuitBreaker_new (failure_threshold success_threshold timeout : Z) : CircuitBreaker := {|
  cb_state := Closed; failure_count := 0; success_count := 0; last_failure_time := None;
  failure_threshold := failure_threshold; success_threshold := success_threshold; timeout := timeout |}.

Definition update (state : CircuitState) (failures successes : Z) (last : option Z) (b : CircuitBreaker)
    : CircuitBreaker := {|
  cb_state := state; failure_count := failures; success_count := successes; last_failure_time := last;
  failure_threshold := failure_threshold b; success_threshold := success_threshold b;
  timeout := timeout b |}.

(** [last.elapsed()] at time [now]; it saturates at zero. *)
Definition elapsed (now last : Z) : Z := saturating_sub now last.

Definition allow_request (now : Z) (b : CircuitBreaker) : bool * CircuitBreaker :=
  match cb_state b with
  | Closed | HalfOpen => (true, b)
  | Open =>
      match last_failure_time b with
      | Some last =>
          if timeout b <=? elapsed now last
          then (true, update HalfOpen (failure_count b) 0 (last_failure_time b) b)
          else (false, b)
      | None => (false, b)
      end
  end.

Definition record_success (b : CircuitBreaker) : CircuitBreaker :=
  match cb_state b with
  | Closed => update Closed 0 (success_count b) (last_failure_time b) b
  | HalfOpen =>
      let n := wadd32 (success_count b) 1 in
      if success_threshold b <=? n then update Closed 0 0 (last_failure_time b) b
      else update HalfOpen (failure_count b) n (last_failure_time b) b
  | Open => b
  end.

Definition record_failure (now : Z) (b : CircuitBreaker) : CircuitBreaker :=
  match cb_state b with
  | Closed =>
      let n := wadd32 (failure_count b) 1 in
      if failure_threshold b <=? n then update Open n (success_count b) (Some now) b
      else update Closed n (success_count b) (last_failure_time b) b
  | HalfOpen => update Open 0 0 (Some now) b
  | Open => b
  end.

(** The middleware: a refused request is answered with 503; otherwise the
    status of the response decides what is recorded. *)
Definition SERVICE_UNAVAILABLE : Z := 503.
Definition is_success (status : Z) : bool := (200 <=? status) && (status <? 300).
Definition is_server_error (status : Z) : bool := (500 <=? status) && (status <? 600).
Definition record_response (now status : Z) (b : CircuitBreaker) : CircuitBreaker :=
  if is_success status then record_success b
  else if is_server_error status then record_failure now b
  else b.
Definition circuit_breaker_middleware (arrival finish : Z) (next : Z) (b : CircuitBreaker)
    : Z * CircuitBreaker :=
  let '(allowed, b) := allow_request arrival b in
  if allowed then (next, record_response finish next b) else (SERVICE_UNAVAILABLE, b).

(** * The other middleware *)

(** Rate limiters are the governor crate's, timeouts tokio's. *)
Class GovernorEnv := {
  Limiter : Type;
  limiter_per_second : Z -> Limiter;
  limiter_with_period : Z -> Z -> option Limiter;
  limiter_check : Z -> Limiter -> bool * Limiter;
}.

(** [NonZeroU32::new(n).unwrap()] and [Quota::with_period(d).unwrap()] panic. *)
Definition RateLimitLayer_new `{GovernorEnv} (requests_per_second : Z) : option Limiter :=
  if requests_per_second =? 0 then None else Some (limiter_per_second requests_per_second).
Definition RateLimitLayer_new_with_duration `{GovernorEnv} (requests duration : Z) : option Limiter :=
  match limiter_with_period duration requests with
  | Some l => if requests =? 0 then None else Some l
  | None => None
  end.

Definition TOO_MANY_REQUESTS : Z := 429.
Definition rate_limit_middleware `{GovernorEnv} (arrival next : Z) (limiter : Limiter) : Z * Limiter :=
  let '(allowed, limiter) := limiter_check arrival limiter in
  ((if allowed then next else TOO_MANY_REQUESTS), limiter).

(** The response of the handler comes after [d] nanoseconds, if at all. *)
Definition REQUEST_TIMEOUT : Z := 408.
Definition timeout_middleware (response : option (Z * Z)) : result Z Z :=
  match response with
  | Some (d, status) => if d <=? from_secs 30 then Ok status else Err REQUEST_TIMEOUT
  | None => Err REQUEST_TIMEOUT
  end.

(** * Steps *)

Inductive BreakerEvent :=
| Request (now : Z)
| Response (now status : Z).

Definition step (b : CircuitBreaker) (e : BreakerEvent) : CircuitBreaker :=
  match e with
  | Request now => snd (allow_request now b)
  | Response now status => record_response now status b
  end.

(** The breakers that sequences of steps lead to. *)
Inductive reachable : CircuitBreaker -> Prop :=
| reach_new f s t : is_u32 f -> is_u32 s -> 0 <= t -> reachable (CircuitBreaker_new f s t)
| reach_step b e : reachable b -> reachable (step b e).

(** The invariant: while closed fewer failures than the threshold have been
    counted, while half open fewer successes, and while open the time of the
    last failure is known. *)
Definition breaker_ok (b : CircuitBreaker) : Prop :=
  is_u32 (failure_threshold b) /\ is_u32 (success_threshold b) /\ 0 <= timeout b /\
  match cb_state b with
  | Closed => 0 <= failure_count b < Z.max 1 (failure_threshold b)
  | HalfOpen => 0 <= success_count b < Z.max 1 (success_threshold b)
  | Open => is_Some (last_failure_time b)
  end.

Lemma as_u32_id z : is_u32 z -> as_u32 z = z.
Proof. unfold is_u32, U32_MAX, as_u32. intros H. apply Z.mod_small. lia. Qed.
Lemma count_up n limit : is_u32 limit -> 0 <= n < Z.max 1 limit -> wadd32 n 1 = n + 1.
Proof. unfold is_u32, U32_MAX. intros H1 H2. apply as_u32_id. unfold is_u32, U32_MAX. lia. Qed.

Lemma record_success_ok b : breaker_ok b -> breaker_ok (record_success b).
Proof.
  intros (Hf & Hs & Ht & H). unfold record_success, breaker_ok. destruct (cb_state b) eqn:E.
  - cbn. split_and!; try done; lia.
  - rewrite E. by split_and!.
  - rewrite (count_up _ (success_threshold b)) by done.
    destruct (Z.leb_spec (success_threshold b) (success_count b + 1)); cbn; split_and!; try done; lia.
Qed.

Lemma record_failure_ok now b : breaker_ok b -> breaker_ok (record_failure now b).
Proof.
  intros (Hf & Hs & Ht & H). unfold record_failure, breaker_ok. destruct (cb_state b) eqn:E.
  - rewrite (count_up _ (failure_threshold b)) by done.
    destruct (Z.leb_spec (failure_threshold b) (failure_count b + 1)); cbn; split_and!; try done; lia.
  - rewrite E. by split_and!.
  - cbn. by split_and!.
Qed.

Lemma allow_request_ok now b : breaker_ok b -> breaker_ok (snd (allow_request now b)).
Proof.
  intros Hb. pose proof Hb as (Hf & Hs & Ht & H). unfold allow_request.
  destruct (cb_state b); [done| |done]. destruct (last_failure_time b); [|done].
  destruct (_ <=? _); [|done]. unfold breaker_ok. cbn. split_and!; try done; lia.
Qed.

Lemma step_ok b e : breaker_ok b -> breaker_ok (step b e).
Proof.
  intros Hb. destruct e as [now|now status]; cbn [step]; [by apply allow_request_ok|].
  unfold record_response. destruct (is_success status); [by apply record_success_ok|].
  destruct (is_server_error status); [by apply record_failure_ok|done].
Qed.

Lemma reachable_ok b : reachable b -> breaker_ok b.
Proof.
  induction 1 as [f s t Hf Hs Ht|b e _ IH]; [|by apply step_ok].
  unfold breaker_ok. cbn. unfold is_u32 in *. lia.
Qed.

(** ** Runs of responses *)

Definition run (b : CircuitBreaker) (es : list BreakerEvent) : CircuitBreaker := foldl step b es.

(** While open, whatever responses come in, and whatever requests come before
    the timeout, nothing changes. *)
Definition too_early (b : CircuitBreaker) (last : Z) (e : BreakerEvent) : Prop :=
  match e with Request now => elapsed now last < timeout b | Response _ _ => True end.

Lemma open_step b last e :
  cb_state b = Open -> last_failure_time b = Some last -> too_early b last e -> step b e = b.
Proof.
  intros Ho Hl He. destruct e as [now|now status]; cbn [step].
  - unfold allow_request. rewrite Ho, Hl. cbn in He. by destruct (Z.leb_spec (timeout b) (elapsed now last)); [lia|].
  - unfold record_response, record_success, record_failure. rewrite Ho.
    by destruct (is_success status), (is_server_error status).
Qed.

Lemma open_run b last es :
  cb_state b = Open -> last_failure_time b = Some last -> Forall (too_early b last) es -> run b es = b.
Proof.
  intros Ho Hl. unfold run. induction 1 as [|e es He Hes IH]; [done|]. cbn [foldl].
  by rewrite (open_step b last e).
Qed.

Lemma failures_run b statuses :
  cb_state b = Closed -> breaker_ok b ->
  Forall (fun r => is_success r.2 = false /\ is_server_error r.2 = true) statuses ->
  Z.of_nat (length statuses) < Z.max 1 (failure_threshold b) - failure_count b ->
  let b' := run b ((fun r => Response r.1 r.2) <$> statuses) in
  cb_state b' = Closed /\ failure_count b' = failure_count b + Z.of_nat (length statuses) /\
  failure_threshold b' = failure_threshold b.
Proof.
  intros Hc Hb Hst. revert b Hc Hb. induction Hst as [|[now status] sts [H1 H2] Hst IH]; intros b Hc Hb Hn.
  { cbn. split_and!; [done|lia|done]. }
  cbn [fmap list_fmap run foldl step fst snd length] in *. unfold record_response. rewrite H1, H2.
  unfold record_failure. rewrite Hc. pose proof Hb as (Hf & Hs & Ht & Hk). rewrite Hc in Hk.
  rewrite (count_up _ (failure_threshold b)) by done.
  destruct (Z.leb_spec (failure_threshold b) (failure_count b + 1)); [lia|].
  destruct (IH (update Closed (failure_count b + 1) (success_count b) (last_failure_time b) b))
    as (I1 & I2 & I3); [done|unfold breaker_ok; cbn; split_and!; try done; lia|cbn; lia|].
  split_and!; [done| |done]. etransitivity; [exact I2|]. cbn. lia.
Qed.

Lemma successes_run b times :
  cb_state b = HalfOpen -> breaker_ok b ->
  Z.of_nat (length times) < Z.max 1 (success_threshold b) - success_count b ->
  let b' := run b ((fun now => Response now 200) <$> times) in
  cb_state b' = HalfOpen /\ success_count b' = success_count b + Z.of_nat (length times) /\
  success_threshold b' = success_threshold b.
Proof.
  revert b. induction times as [|now times IH]; intros b Hc Hb Hn.
  { cbn. split_and!; [done|lia|done]. }
  cbn [fmap list_fmap run foldl step length] in *.
  change (record_response now 200 b) with (record_success b).
  unfold record_success. rewrite Hc. pose proof Hb as (Hf & Hs & Ht & Hk). rewrite Hc in Hk.
  rewrite (count_up _ (success_threshold b)) by done.
  destruct (Z.leb_spec (success_threshold b) (success_count b + 1)); [lia|].
  destruct (IH (update HalfOpen (failure_count b) (success_count b + 1) (last_failure_time b) b))
    as (I1 & I2 & I3); [done|unfold breaker_ok; cbn; split_and!; try done; lia|cbn; lia|].
  split_and!; [done| |done]. etransitivity; [exact I2|]. cbn. lia.
Qed.

(** The breaker's contract in every state it can reach, whatever the
    interleaving of requests. Closed: server errors are counted without
    overflow, and exactly the one that brings the count to the threshold opens
    it, at the time it is recorded; a success resets the count. Open: responses
    to requests still in flight and requests before the timeout change nothing
    and the latter are refused; the first request after it is let through and
    half-opens the breaker. Half open: the last of the required successes
    closes it with both counts reset, any server error opens it again. *)
Theorem breaker_contract b :
  reachable b ->
  let trips n := Z.max 1 (failure_threshold b) - failure_count b <= n in
  let closes n := Z.max 1 (success_threshold b) - success_count b <= n in
  match cb_state b with
  | Closed =>
      (forall now, fst (allow_request now b) = true) /\
      failure_count (record_success b) = 0 /\ cb_state (record_success b) = Closed /\
      forall statuses now status,
        Forall (fun r => is_success r.2 = false /\ is_server_error r.2 = true) (statuses ++ [(now, status)]) ->
        let n := Z.of_nat (length statuses) in
        let b' := run b ((fun r => Response r.1 r.2) <$> (statuses ++ [(now, status)])) in
        ~ trips n ->
        (~ trips (n + 1) -> cb_state b' = Closed) /\
        (trips (n + 1) -> cb_state b' = Open /\ last_failure_time b' = Some now)
  | Open =>
      exists last, last_failure_time b = Some last /\
        (forall es, Forall (too_early b last) es -> run b es = b) /\
        (forall now, elapsed now last < timeout b -> fst (allow_request now b) = false) /\
        (forall now, timeout b <= elapsed now last -> exists b',
           allow_request now b = (true, b') /\ cb_state b' = HalfOpen /\ success_count b' = 0)
  | HalfOpen =>
      (forall now, fst (allow_request now b) = true) /\
      (forall now status, is_success status = false -> is_server_error status = true ->
         cb_state (record_response now status b) = Open /\
         last_failure_time (record_response now status b) = Some now) /\
      forall times now,
        let n := Z.of_nat (length times) in
        let b' := run b ((fun t => Response t 200) <$> (times ++ [now])) in
        ~ closes n ->
        (~ closes (n + 1) -> cb_state b' = HalfOpen) /\
        (closes (n + 1) -> cb_state b' = Closed /\ failure_count b' = 0 /\ success_count b' = 0)
  end.
Proof.
  intros Hr trips closes. apply reachable_ok in Hr as Hb. destruct (cb_state b) eqn:Hs.
  - split; [intros now; unfold allow_request; by rewrite Hs|].
    split; [unfold record_success; by rewrite Hs|]. split; [unfold record_success; by rewrite Hs|].
    intros sts now status HF n b' Hn. apply Forall_app in HF as [HF Hl].
    apply Forall_cons in Hl as [[H1 H2] _]. cbn [snd] in H1, H2.
    destruct (failures_run b sts Hs Hb HF) as (I1 & I2 & I3); [unfold trips, n in *; lia|].
    subst b'. rewrite fmap_app. unfold run. rewrite foldl_app. fold (run b ((fun r => Response r.1 r.2) <$> sts)).
    set (b1 := run b _) in *. cbn [fmap list_fmap foldl step fst snd].
    unfold record_response, record_failure. rewrite H1, H2, I1, I2, I3.
    destruct Hb as (Hf & _ & _ & Hk). rewrite Hs in Hk.
    rewrite (count_up _ (failure_threshold b)) by (done || (unfold trips, n in *; lia)).
    unfold trips, n in *. destruct (Z.leb_spec (failure_threshold b) (failure_count b + Z.of_nat (length sts) + 1));
      cbn; split; intros; try done; lia.
  - destruct Hb as (_ & _ & _ & Hk). rewrite Hs in Hk. destruct Hk as [last Hl].
    exists last. split; [done|]. split; [intros es; by apply open_run|]. split.
    + intros now Hnow. unfold allow_request. rewrite Hs, Hl.
      by destruct (Z.leb_spec (timeout b) (elapsed now last)); [lia|].
    + intros now Hnow. unfold allow_request. rewrite Hs, Hl.
      destruct (Z.leb_spec (timeout b) (elapsed now last)); [|lia]. by eexists.
  - split; [intros now; unfold allow_request; by rewrite Hs|]. split.
    + intros now status H1 H2. unfold record_response, record_failure. by rewrite H1, H2, Hs.
    + intros times now n b' Hn.
      destruct (successes_run b times Hs Hb) as (I1 & I2 & I3); [unfold closes, n in *; lia|].
      subst b'. rewrite fmap_app. unfold run. rewrite foldl_app. fold (run b ((fun t => Response t 200) <$> times)).
      set (b1 := run b _) in *. cbn [fmap list_fmap foldl step].
      change (record_response now 200 b1) with (record_success b1).
      unfold record_success. rewrite I1, I2, I3.
      destruct Hb as (_ & Hf & _ & Hk). rewrite Hs in Hk.
      rewrite (count_up _ (success_threshold b)) by (done || (unfold closes, n in *; lia)).
      unfold closes, n in *. destruct (Z.leb_spec (success_threshold b) (success_count b + Z.of_nat (length times) + 1));
        cbn; split; intros; try done; lia.
Qed.

(** Three failures at times 10, 20, 30 open a breaker with threshold 3. *)
Definition demo_breaker : CircuitBreaker :=
  run (CircuitBreaker_new 3 2 100) [Response 10 500; Response 20 503; Response 30 500].

Lemma breaker_contract_witness :
  cb_state demo_breaker = Open /\ fst (allow_request 120 demo_breaker) = false /\
  fst (allow_request 130 demo_breaker) = true.
Proof.
  assert (Hr : reachable demo_breaker).
  { unfold demo_breaker, run. cbn [foldl]. do 3 apply reach_step.
    apply reach_new; unfold is_u32; vm_compute; intuition congruence. }
  destruct (breaker_contract demo_breaker Hr) as (last & Hl & _ & H1 & H2).
  assert (last = 30) as -> by (vm_compute in Hl; congruence).
  split; [reflexivity|]. split; [apply H1; reflexivity|].
  destruct (H2 130) as (b' & -> & _); [vm_compute; congruence|reflexivity].
Defined.

(** A request on its own is two steps, the second only when it is let through. *)
Lemma middleware_steps arrival finish next b :
  circuit_breaker_middleware arrival finish next b =
    if fst (allow_request arrival b)
    then (next, run b [Request arrival; Response finish next])
    else (SERVICE_UNAVAILABLE, step b (Request arrival)).
Proof.
  unfold circuit_breaker_middleware, run. cbn [foldl step].
  by destruct (allow_request arrival b) as [[|] b'].
Qed.
