(* ===== verification/Rpc.v ===== *)
(** The RPC server (crates/rpc/src): the handlers of handlers.rs over the
    components it shares with the executor, the conversions of types.rs and the
    status codes of error.rs.  JSON is left out, routing and sockets are in
    Transport.v; [hex] decoding is a parameter. *)
From stdpp Require Import base gmap sets list sorting strings.
From Stdlib Require Import ZArith Lia Ascii.
From S2P Require Import Prelude Types Storage State Tx EngineBase Orderbook Matching Position Risk Funding Liquidation Services Trading Engine Auth Mempool Exec.

(** * Errors (error.rs) *)

Inductive RpcError :=
| RpcInvalidRequest | RpcAuthError | RpcMempoolError (e : MempoolError) | RpcStateError
| RpcEngineError | RpcServerError | RpcNotFound | RpcInternal.

Definition into_response (e : RpcError) : Z :=
  match e with
  | RpcInvalidRequest | RpcMempoolError _ => 400
  | RpcAuthError => 401
  | RpcNotFound => 404
  | RpcStateError | RpcEngineError | RpcServerError | RpcInternal => 500
  end.

(** * Answers (types.rs) *)

Record TxStatus := {
  ts_tx_hash : B256; ts_status : string; ts_block_height : option Z; ts_error : option string }.
Definition TxStatus_pending (h : B256) : TxStatus :=
  {| ts_tx_hash := h; ts_status := "pending"; ts_block_height := None; ts_error := None |}.
Definition TxStatus_not_found (h : B256) : TxStatus :=
  {| ts_tx_hash := h; ts_status := "not_found"; ts_block_height := None;
     ts_error := Some "Transaction not found"%string |}.
Definition TxStatus_confirmed (h : B256) (block_height : Z) : TxStatus :=
  {| ts_tx_hash := h; ts_status := "confirmed"; ts_block_height := Some block_height; ts_error := None |}.
Definition TxStatus_failed (h : B256) (error : string) : TxStatus :=
  {| ts_tx_hash := h; ts_status := "failed"; ts_block_height := None; ts_error := Some error |}.

Record PositionInfo := {
  pi_market_id : Z; pi_size : Z; pi_entry_price : Z; pi_is_long : bool; pi_margin : Z;
  pi_unrealized_pnl : Z; pi_is_profit : bool;
}.
Definition from_position (position : Position) (market_id : Z) : PositionInfo := {|
  pi_market_id := market_id; pi_size := pos_size position; pi_entry_price := pos_entry_price position;
  pi_is_long := pos_is_long position; pi_margin := pos_margin position;
  pi_unrealized_pnl := 0; pi_is_profit := true |}.

Record OrderInfo := {
  oi_id : Z; oi_market_id : Z; oi_owner : Address; oi_is_buy : bool; oi_price : Z;
  oi_original_size : Z; oi_remaining_size : Z; oi_created_at : Z;
}.
Definition order_info (order : Order) : OrderInfo := {|
  oi_id := o_id order; oi_market_id := o_market_id order; oi_owner := o_owner order;
  oi_is_buy := o_is_buy order; oi_price := o_price order; oi_original_size := o_original_size order;
  oi_remaining_size := o_remaining_size order; oi_created_at := o_created_at order |}.

Record MarketInfo := {
  mi_id : Z; mi_symbol : string; mi_base_asset_id : Z; mi_quote_asset_id : Z; mi_price_decimals : Z;
  mi_size_decimals : Z; mi_min_order_size : Z; mi_max_leverage : Z;
}.
Definition market_info (market : Market) : MarketInfo := {|
  mi_id := m_id market; mi_symbol := m_symbol market; mi_base_asset_id := m_base_asset_id market;
  mi_quote_asset_id := m_quote_asset_id market; mi_price_decimals := m_price_decimals market;
  mi_size_decimals := m_size_decimals market; mi_min_order_size := m_min_order_size market;
  mi_max_leverage := m_max_leverage market |}.

Record FundingRateInfo := {
  fi_rate : Z; fi_last_update : Z; fi_index : Z; fi_mark_price : Z; fi_oracle_price : Z;
}.
Definition funding_rate_info (funding : FundingRate) : FundingRateInfo := {|
  fi_rate := fr_rate funding; fi_last_update := fr_last_update funding; fi_index := fr_index funding;
  fi_mark_price := fr_mark_price funding; fi_oracle_price := fr_oracle_price funding |}.

Record AssetInfo := {
  ai_id : Z; ai_symbol : string; ai_name : string; ai_decimals : Z; ai_is_collateral : bool;
  ai_collateral_weight_bps : Z;
}.
Definition asset_info (asset : Asset) : AssetInfo := {|
  ai_id := a_id asset; ai_symbol := a_symbol asset; ai_name := a_name asset;
  ai_decimals := a_decimals asset; ai_is_collateral := a_is_collateral asset;
  ai_collateral_weight_bps := a_collateral_weight_bps asset |}.

(** * Handlers (handlers.rs) *)

(** [hex::decode], [None] when it fails. *)
Class HexEnv := hex_decode : string -> option (list Z).

(** [s.trim_start_matches("0x")] removes every leading "0x". *)
Fixpoint trim_start_0x (s : string) : string :=
  match s with
  | String "0"%char (String "x"%char s') => trim_start_0x s'
  | _ => s
  end.

Section handlers.
Context {B : Backend} {V : TxEnv} {G : SigEnv} {X : HexEnv}.
(** [RpcState] holds the locks of the executor's components: a [Node]. Each
    handler takes the locks it needs for the rest of its run. *)
Notation RpcM A := (ST Node RpcError A).

Definition decode_hex_tx (hex : string) : result RpcError (list Z) :=
  ok_or RpcInvalidRequest (hex_decode (trim_start_0x hex)).

Definition decode_and_verify_tx (hex : string) : result RpcError Transaction :=
  let* tx_bytes := decode_hex_tx hex in
  let* tx := map_err (fun _ => RpcInvalidRequest) (decode_tx tx_bytes) in
  let* _ := map_err (fun _ => RpcAuthError) (verify_transaction tx) in
  Ok tx.

Definition into_rpc_error {A} (r : result StateError A) : result RpcError A :=
  map_err (fun _ => RpcStateError) r.

Definition submit_transaction (req_tx : string) : RpcM B256 :=
  let! tx := st_lift (decode_and_verify_tx req_tx) in
  let tx_hash := tx_hash tx in
  let! _ := st_map_err RpcMempoolError (st_zoom nd_mempool with_nd_mempool (mp_add tx)) in
  st_ret tx_hash.

Definition health : string := "OK".

Definition get_transaction_status (req_hash : B256) (n : Node) : TxStatus :=
  match mp_get (nd_mempool n) req_hash with
  | Some _ => TxStatus_pending req_hash
  | None => TxStatus_not_found req_hash
  end.

Definition rpc_get_balance (address : Address) (asset_id : Z) (n : Node) : result RpcError Z :=
  into_rpc_error (get_balance (nd_state n) address asset_id).
Definition rpc_get_nonce (address : Address) (n : Node) : result RpcError Z :=
  into_rpc_error (get_nonce (nd_state n) address).
Definition rpc_get_position (address : Address) (market_id : Z) (n : Node)
    : result RpcError (option PositionInfo) :=
  let* position := into_rpc_error (get_position (nd_state n) address market_id) in
  Ok ((fun p => from_position p market_id) <$> position).
Definition rpc_get_positions (_address : Address) (n : Node) : result RpcError (list PositionInfo) := Ok [].
Definition rpc_get_order (order_id : Z) (n : Node) : result RpcError (option OrderInfo) :=
  let* order := into_rpc_error (get_order (nd_state n) order_id) in Ok (order_info <$> order).
Definition rpc_list_orders (_address : Address) (_market_id : option Z) (n : Node)
    : result RpcError (list OrderInfo) := Ok [].
Definition rpc_get_market_info (market_id : Z) (n : Node) : result RpcError (option MarketInfo) :=
  let* market := into_rpc_error (get_market (nd_state n) market_id) in Ok (market_info <$> market).
Definition rpc_get_funding_rate (market_id : Z) (n : Node) : result RpcError FundingRateInfo :=
  let* funding := into_rpc_error (get_funding_rate (nd_state n) market_id) in
  Ok (funding_rate_info funding).

Definition on_node_auth (f : AuthService -> AuthService) (n : Node) : Node := with_nd_auth (f (nd_auth n)) n.

Definition rpc_set_agent (req_tx : string) : RpcM unit :=
  let! tx := st_lift (decode_and_verify_tx req_tx) in
  match tx_payload tx with
  | SetAgent a => st_modify (on_node_auth (auth_set_agent (tx_from tx) (sa_agent a) (sa_permissions a)))
  | _ => st_fail RpcInvalidRequest
  end.

Definition rpc_remove_agent (req_tx : string) : RpcM unit :=
  let! tx := st_lift (decode_and_verify_tx req_tx) in
  match tx_payload tx with
  | RemoveAgent a => st_modify (on_node_auth (auth_remove_agent (tx_from tx) (ra_agent a)))
  | _ => st_fail RpcInvalidRequest
  end.

Definition rpc_get_asset_info (asset_id : Z) (n : Node) : result RpcError (option AssetInfo) :=
  let* asset := into_rpc_error (get_asset (nd_state n) asset_id) in Ok (asset_info <$> asset).

Definition rpc_list_assets (n : Node) : result RpcError (list AssetInfo) :=
  let* asset_ids := into_rpc_error (list_all_assets (nd_state n)) in
  Ok (omap (fun id => asset_info <$> ok_flatten (get_asset (nd_state n) id)) asset_ids).

Definition rpc_check_bridge_operator (address : Address) (n : Node) : result RpcError bool :=
  into_rpc_error (is_bridge_operator (nd_state n) address).

(** The registry is not asked. *)
Definition list_agents (_address : Address) (_n : Node) : result RpcError (list (Address * Z)) := Ok [].

End handlers.

(** * What the handlers accept *)

Section properties.
Context {B : Backend} {Bok : BackendOk B} {V : TxEnv} {G : SigEnv} {X : HexEnv}.
Implicit Types (n m : Node) (tx : Transaction).

(** A request carries a transaction that its sender signed. *)
Definition request_carries (hex : string) tx : Prop :=
  exists bytes, hex_decode (trim_start_0x hex) = Some bytes /\ decode_tx bytes = Ok tx /\
    recover_signer tx = Ok (tx_from tx).

Lemma decode_and_verify_Ok hex tx : decode_and_verify_tx hex = Ok tx <-> request_carries hex tx.
Proof.
  unfold decode_and_verify_tx, request_carries, decode_hex_tx. split.
  - intros H. destruct (hex_decode _) as [bytes|]; [|done]. cbn in H.
    destruct (decode_tx bytes) as [tx'|e] eqn:Ed; [|done]. cbn in H.
    destruct (verify_transaction tx') as [[]|e] eqn:E; [|done]. cbn in H. injection H as ->.
    exists bytes. apply verify_transaction_Ok in E. by split_and!.
  - intros (bytes & E1 & E2 & Hr). rewrite E1. cbn. rewrite E2. cbn.
    apply verify_transaction_Ok in Hr. by rewrite Hr.
Qed.

Lemma decode_and_verify_Err hex e :
  decode_and_verify_tx hex = Err e ->
  (e = RpcInvalidRequest /\
     (hex_decode (trim_start_0x hex) = None \/
      exists bytes x, hex_decode (trim_start_0x hex) = Some bytes /\ decode_tx bytes = Err x)) \/
  (e = RpcAuthError /\ exists bytes tx, hex_decode (trim_start_0x hex) = Some bytes /\
     decode_tx bytes = Ok tx /\ recover_signer tx <> Ok (tx_from tx)).
Proof.
  unfold decode_and_verify_tx, decode_hex_tx. intros H. destruct (hex_decode _) as [bytes|]; cbn in H.
  - destruct (decode_tx bytes) as [tx|x] eqn:Ed; cbn in H.
    + destruct (verify_transaction tx) as [[]|x] eqn:Ev; [done|]. cbn in H. injection H as <-.
      right. split; [done|]. exists bytes, tx. split_and!; [done|done|].
      intros Hr%verify_transaction_Ok. congruence.
    + injection H as <-. left. split; [done|]. right. eauto.
  - injection H as <-. left. split; [done|]. by left.
Qed.

Lemma mp_add_result tx p :
  match mp_add tx p with
  | (Ok h, p') => h = tx_hash tx /\ mp_get p' h = Some tx
  | (Err _, p') => p' = p
  end.
Proof.
  destruct (mp_add_cases tx p) as [(_ & ->)|[(_ & _ & ->)|[(_ & _ & _ & ->)|(_ & _ & _ & ->)]]]; try done.
  split; [done|]. unfold mp_get, idx_get. cbn. by rewrite lookup_insert_eq.
Qed.

(** C32: submitting a transaction touches nothing but the pool. It is accepted
    exactly when the request decodes to a transaction that its sender signed and
    the pool takes it; the answer is its hash and from then on its status is
    pending. Malformed requests and pool refusals are answered with 400, bad
    signatures with 401, and the first and last of these leave the node as it
    was. *)
Theorem submit_transaction_exact hex n :
  let '(r, n') := submit_transaction hex n in
  nd_engine n' = nd_engine n /\ nd_auth n' = nd_auth n /\ nd_max_bytes n' = nd_max_bytes n /\
  match r with
  | Ok h => exists tx,
      request_carries hex tx /\ h = tx_hash tx /\ mp_add tx (nd_mempool n) = (Ok h, nd_mempool n') /\
      get_transaction_status h n' = TxStatus_pending h
  | Err (RpcMempoolError e) => exists tx,
      request_carries hex tx /\ fst (mp_add tx (nd_mempool n)) = Err e /\ n' = n /\
      into_response (RpcMempoolError e) = 400
  | Err e =>
      (forall tx, ~ request_carries hex tx) /\ n' = n /\
      (e = RpcInvalidRequest /\ into_response e = 400 \/ e = RpcAuthError /\ into_response e = 401)
  end.
Proof.
  unfold submit_transaction, st_bind, st_lift. destruct (decode_and_verify_tx hex) as [tx|e] eqn:E.
  - apply decode_and_verify_Ok in E. unfold st_map_err, st_zoom.
    pose proof (mp_add_result tx (nd_mempool n)) as Hadd.
    destruct (mp_add tx (nd_mempool n)) as [[h|e] p] eqn:Ea; cbn -[mp_add].
    + destruct Hadd as [-> Hget]. split_and!; [done..|]. exists tx. split_and!; [done|done|done|].
      unfold get_transaction_status. cbn. by rewrite Hget.
    + subst p. split_and!; [done..|]. exists tx. split_and!; [done|by rewrite Ea|by destruct n|done].
  - assert (Hno : forall tx, ~ request_carries hex tx).
    { intros tx Hc%decode_and_verify_Ok. congruence. }
    apply decode_and_verify_Err in E as [[-> _]|[-> _]]; split_and!; auto.
Qed.

(** The payload of an agent request and what it does to the registry. *)
Definition agent_change (set : bool) tx : option (AuthService -> AuthService) :=
  match set, tx_payload tx with
  | true, SetAgent a => Some (auth_set_agent (tx_from tx) (sa_agent a) (sa_permissions a))
  | false, RemoveAgent a => Some (auth_remove_agent (tx_from tx) (ra_agent a))
  | _, _ => None
  end.
Definition agent_request (set : bool) (hex : string) : ST Node RpcError unit :=
  if set then rpc_set_agent hex else rpc_remove_agent hex.

(** An executed transaction is unknown: execution takes it out of the pool and
    nothing else remembers it, so a client that waits for [confirmed] is told
    [not_found]. *)
Lemma executed_not_found tx n n' :
  execute tx n = (Ok tt, n') ->
  get_transaction_status (tx_hash tx) n' = TxStatus_not_found (tx_hash tx).
Proof.
  intros E%execute_leaves_pool. unfold get_transaction_status, mp_get, idx_get. rewrite E.
  unfold mp_remove, idx_remove. destruct (txs (mp_index (nd_mempool n)) !! tx_hash tx) eqn:Et; cbn.
  - by rewrite lookup_delete_eq.
  - by rewrite Et.
Qed.

(** C33: the agent endpoints apply a signed SetAgent or RemoveAgent to the
    node's registry at once, outside any block: the engine and the pool do not
    move, so no nonce is checked or used up. What they do depends on the request
    alone, so a request that was accepted once is accepted by any node in any
    state, any number of times, and restores the agent's permissions after they
    were revoked. *)
Theorem agent_request_replayable set hex n n' :
  agent_request set hex n = (Ok tt, n') ->
  exists tx change,
    request_carries hex tx /\ agent_change set tx = Some change /\
    forall m, agent_request set hex m = (Ok tt, on_node_auth change m) /\
      let m' := on_node_auth change m in
      nd_engine m' = nd_engine m /\ nd_mempool m' = nd_mempool m /\
      match tx_payload tx with
      | SetAgent a => agent_permissions (nd_auth m') (tx_from tx) (sa_agent a) = Some (sa_permissions a)
      | RemoveAgent a => agent_permissions (nd_auth m') (tx_from tx) (ra_agent a) = None
      | _ => False
      end.
Proof.
  unfold agent_request. intros H.
  assert (Hd : exists tx, decode_and_verify_tx hex = Ok tx).
  { destruct set; unfold rpc_set_agent, rpc_remove_agent, st_bind, st_lift in H;
      (destruct (decode_and_verify_tx hex) as [tx|e]; [by exists tx|done]). }
  destruct Hd as [tx Hd]. pose proof (proj1 (decode_and_verify_Ok hex tx) Hd) as Hc.
  unfold rpc_set_agent, rpc_remove_agent, st_bind, st_lift in *. rewrite Hd in *.
  destruct set, (tx_payload tx) as [| | | | | | |a|a| |] eqn:Ep; try done.
  all: exists tx; eexists; split; [exact Hc|]; split; [unfold agent_change; by rewrite Ep|];
    intros m; split; [done|]; cbv zeta; split; [done|]; split; [done|];
    rewrite Ep; unfold agent_permissions; cbn [on_node_auth nd_auth with_nd_auth as_agents auth_set_agent auth_remove_agent on_agents];
    by rewrite ?get_permissions_set, ?get_permissions_remove, decide_True.
Qed.

End properties.

(** * Witnesses *)

(** A decoder that knows three requests. *)
Definition demo_set_agent : Transaction :=
  signed_by 1 0 (SetAgent {| sa_agent := 9; sa_permissions := 3 |}).
Definition demo_remove_agent : Transaction := signed_by 1 1 (RemoveAgent {| ra_agent := 9 |}).
#[local] Instance demo_hex : HexEnv := fun s =>
  if bool_decide (s = "aa") then Some (encode demo_set_agent)
  else if bool_decide (s = "bb") then Some (encode demo_remove_agent)
  else if bool_decide (s = "cc") then Some (encode demo_withdrawal)
  else None.

Definition node_revoked : Node :=
  snd (agent_request false "0xbb" (snd (agent_request true "0xaa" node_demo))).

Lemma agent_request_replayable_witness :
  agent_permissions (nd_auth node_revoked) 1 9 = None /\
  exists n', agent_request true "0xaa" node_revoked = (Ok tt, n') /\
    agent_permissions (nd_auth n') 1 9 = Some 3.
Proof.
  split; [vm_compute; reflexivity|].
  destruct (agent_request_replayable true "0xaa" node_demo (snd (agent_request true "0xaa" node_demo)))
    as (tx & change & (bytes & Hb & Ht & _) & _ & H).
  { apply run_result. vm_compute. reflexivity. }
  destruct (H node_revoked) as (E & _ & _ & Hp). exists (on_node_auth change node_revoked).
  split; [exact E|]. change (trim_start_0x "0xaa") with "aa"%string in Hb. cbn in Hb.
  injection Hb as <-. vm_compute in Ht. injection Ht as <-. exact Hp.
Defined.
