(* ===== verification/Pipeline.v ===== *)
(** From the request to the block: what becomes of a transaction that the RPC
    server accepted, through the pool (Mempool.v), the proposed block and its
    execution (Exec.v). *)
From stdpp Require Import base gmap sets list sorting strings.
From Stdlib Require Import ZArith Lia.
From S2P Require Import Prelude Types Storage State Tx EngineBase Orderbook Services Trading Engine Auth Mempool Exec Supply Chain Rpc.

Section pipeline.
Context {B : Backend} {Bok : BackendOk B} {V : TxEnv} {Vok : TxEnvOk V} {G : SigEnv} {X : HexEnv}.
Implicit Types (n m : Node) (tx t : Transaction).

Notation nonce n a := (get_nonce (nd_state n) a).

(** * One transaction *)

(** What executing a transaction does to nonces and pool. *)
Lemma execute_effects t n :
  let '(r, n') := execute t n in
  match r with
  | Ok _ =>
      nonce n (tx_from t) = Ok (tx_nonce t) /\
      nonce n' (tx_from t) = Ok (wadd64 (tx_nonce t) 1) /\
      (forall a, a <> tx_from t -> nonce n' a = nonce n a) /\
      nd_mempool n' = snd (mp_remove (tx_hash t) (nd_mempool n))
  | Err _ => (forall a, nonce n' a = nonce n a) /\ nd_mempool n' = nd_mempool n
  end.
Proof.
  destruct (execute_refused t n) as
    [(e & _ & ->)|[(e & _ & ->)|[(k & _ & _ & ->)|[(k & _ & _ & ->)|[Hv Hn]]]]]; try done.
  pose proof (execute_checked t n Hv Hn) as H. pose proof (payload_beside t n) as [Hp _].
  pose proof (payload_nonces t n) as Hpn.
  destruct (execute_tx_payload t n) as [[[]|e] n1]; cbn [snd] in *.
  - destruct H as (n' & -> & Hm & _ & Hk & Ho). split_and!; [done|done|done|by rewrite Hm, Hp].
  - rewrite H. split; [exact Hpn|exact Hp].
Qed.

(** An entry of a proposed block decodes to the transaction it encodes, unless
    the encoding is too long. *)
Lemma execute_encoded stats t n :
  (Z.of_nat (length (encode t)) <= MAX_TX_SIZE /\
     execute_bytes (stats, n) (encode t) =
       ((if is_ok (execute t n).1 then record_success stats else record_failure stats), (execute t n).2)) \/
  (MAX_TX_SIZE < Z.of_nat (length (encode t)) /\
     execute_bytes (stats, n) (encode t) = (record_failure stats, n)).
Proof.
  unfold execute_bytes, decode_tx, tx_try_from, encode.
  destruct (Z.ltb_spec MAX_TX_SIZE (Z.of_nat (length (borsh_tx t)))); [right; by split|left].
  rewrite borsh_tx_roundtrip. split; [done|]. by destruct (execute t n).
Qed.

Lemma get_removed h h' (p : Mempool) :
  mp_get (snd (mp_remove h p)) h' = if decide (h' = h) then None else mp_get p h'.
Proof.
  rewrite remove_index. unfold mp_get, idx_get. cbn [mp_index with_index]. rewrite txs_remove.
  case_decide; [subst; apply lookup_delete_eq|by rewrite lookup_delete_ne by congruence].
Qed.

(** * Running other transactions *)

(** Transactions other than [tx] and not at its turn move neither its sender's
    nonce nor its place in the pool. *)
Lemma others_pass tx : forall others stats n,
  nonce n (tx_from tx) = Ok (tx_nonce tx) -> mp_get (nd_mempool n) (tx_hash tx) = Some tx ->
  (forall t, t ∈ others -> tx_hash t <> tx_hash tx /\ (tx_from t = tx_from tx -> tx_nonce t <> tx_nonce tx)) ->
  let n' := snd (foldl execute_bytes (stats, n) (map encode others)) in
  nonce n' (tx_from tx) = Ok (tx_nonce tx) /\ mp_get (nd_mempool n') (tx_hash tx) = Some tx.
Proof.
  induction others as [|t others IH]; intros stats n Hn Hp Ho; [done|]. cbn [map foldl].
  destruct (Ho t ltac:(by left)) as [Hh Hk]. assert (Ho' := fun u Hu => Ho u (list_elem_of_further _ _ _ Hu)).
  destruct (execute_encoded stats t n) as [[_ ->]|[_ ->]]; [|by apply IH].
  pose proof (execute_effects t n) as He. destruct (execute t n) as [[[]|e] n1]; cbn [fst snd].
  - destruct He as (H1 & H2 & H3 & H4). apply IH; [| |exact Ho'].
    + destruct (decide (tx_from t = tx_from tx)) as [E|E]; [|by rewrite H3 by congruence].
      exfalso. apply (Hk E). congruence.
    + by rewrite H4, get_removed, decide_False by congruence.
  - destruct He as [H1 H2]. apply IH; [by rewrite H1|by rewrite H2|exact Ho'].
Qed.

(** Executing never puts anything into the pool. *)
Lemma pool_only_shrinks h : forall block stats n,
  mp_get (nd_mempool n) h = None ->
  mp_get (nd_mempool (snd (foldl execute_bytes (stats, n) block))) h = None.
Proof.
  induction block as [|b block IH]; intros stats n Hp; [done|]. cbn [foldl].
  assert (H : mp_get (nd_mempool (snd (execute_bytes (stats, n) b))) h = None).
  { unfold execute_bytes. destruct (decode_tx b) as [t|e]; [|done].
    pose proof (execute_effects t n) as He. destruct (execute t n) as [[[]|e] n1]; cbn [snd].
    - destruct He as (_ & _ & _ & ->). rewrite get_removed. by case_decide.
    - by destruct He as [_ ->]. }
  destruct (execute_bytes (stats, n) b) as [st n1]. by apply IH.
Qed.

(** * The proposed block *)

(** The pool fits into one block. *)
Definition roomy n : Prop :=
  (mp_len (nd_mempool n) <= MAX_TXS_PER_BLOCK)%nat /\
  byte_count (map encode (ready_txs (nd_mempool n) MAX_TXS_PER_BLOCK)) <= nd_max_bytes n < 2 ^ 63.

Lemma byte_count_cons e l : byte_count (e :: l) = Z.of_nat (length e) + byte_count l.
Proof. unfold byte_count. by rewrite sumZ_cons. Qed.
Lemma byte_count_nonneg l : 0 <= byte_count l.
Proof. induction l as [|e l IH]; [done|]. rewrite byte_count_cons. lia. Qed.

Lemma scan_fit_all max_bytes l : forall total, 0 <= total ->
  total + byte_count l <= max_bytes -> max_bytes < 2 ^ 63 -> scan_fit max_bytes total l = l.
Proof.
  induction l as [|e l IH]; intros total H0 Hfit Hmax; [done|]. rewrite byte_count_cons in Hfit.
  pose proof (byte_count_nonneg l). cbn [scan_fit].
  assert (Ew : wadd64 total (Z.of_nat (length e)) = total + Z.of_nat (length e)).
  { unfold wadd64. apply as_u64_id. unfold is_u64, U64_MAX. lia. }
  rewrite Ew. destruct (Z.ltb_spec max_bytes (total + Z.of_nat (length e))); [lia|].
  f_equal. apply IH; lia.
Qed.

(** A transaction the index points to is in the block, the others of its sender
    before and after it by nonce. *)
Lemma proposed n tx :
  index_ok (mp_index (nd_mempool n)) -> roomy n ->
  entry (mp_index (nd_mempool n)) (tx_from tx) (tx_nonce tx) = Some (tx_hash tx) ->
  mp_get (nd_mempool n) (tx_hash tx) = Some tx ->
  exists pre post,
    get_txs n = map encode (pre ++ tx :: post) /\
    forall t, t ∈ pre ++ post ->
      tx_hash t <> tx_hash tx /\ (tx_from t = tx_from tx -> tx_nonce t <> tx_nonce tx).
Proof.
  intros Hi [Hlen [Hfit Hmax]] He Hg.
  pose proof (ready_all (nd_mempool n) MAX_TXS_PER_BLOCK hash_order_ok Hi Hlen) as Hr.
  pose proof (ready_sorted (nd_mempool n) hash_order_ok Hi) as Hs.
  pose proof (fun t => ready_listed (nd_mempool n) t hash_order_ok Hi) as Hl.
  assert (Hin : tx ∈ flat_map (get_by_sender (mp_index (nd_mempool n))) (get_all_senders (mp_index (nd_mempool n))))
    by (apply ready_elem; [done|apply hash_order_ok|eauto]).
  rewrite <- Hr in *. set (ready := ready_txs (nd_mempool n) MAX_TXS_PER_BLOCK) in *.
  assert (Hblock : get_txs n = map encode ready).
  { unfold get_txs, fetch_txs_from_mempool. apply scan_fit_all; [lia|exact Hfit|exact Hmax]. }
  pose proof (sorted_irreflexive_NoDup _ _ nonce_order_irreflexive Hs) as Hnd.
  destruct (list_elem_of_split _ _ Hin) as (pre & post & E). exists pre, post.
  split; [by rewrite Hblock, E|]. intros t Ht.
  assert (Htr : t ∈ ready) by (rewrite E; set_solver). split.
  - intros Eh. destruct (Hl t Htr) as [_ Hg']. rewrite Eh, Hg in Hg'. injection Hg' as <-.
    rewrite E in Hnd. apply NoDup_app in Hnd as (_ & Hd & Hnd). apply NoDup_cons in Hnd as [Hnp _].
    apply elem_of_app in Ht as [Ht|Ht]; [|done]. apply (Hd tx Ht). by left.
  - intros Ef. rewrite E in Hs. apply StronglySorted_app in Hs as (Hc & _ & Hs).
    apply elem_of_app in Ht as [Ht|Ht].
    + specialize (Hc t tx Ht ltac:(by left) Ef). lia.
    + apply StronglySorted_inv in Hs as [_ Hs]. rewrite Forall_forall in Hs.
      specialize (Hs t Ht (eq_sym Ef)). lia.
Qed.

Lemma execute_txs_pool height block n response n' :
  execute_txs height block n = (Ok response, n') ->
  nd_mempool n' = nd_mempool (snd (execute_batch block (nd_begin_block height n))).
Proof.
  unfold execute_txs. intros H. erewrite st_bind_eq in H by reflexivity.
  erewrite st_bind_eq in H by reflexivity.
  unfold on_node_state, st_map_err, st_zoom, st_bind, st_gets in H.
  destruct (commit _) as [[root|e] s]; by simplify_eq/=.
Qed.

(** The block of [proposed], from a state in which it is the transaction's turn. *)
Lemma block_turn tx pre post n :
  Z.of_nat (length (encode tx)) <= MAX_TX_SIZE -> recover_signer tx = Ok (tx_from tx) ->
  (forall t, t ∈ pre ++ post ->
     tx_hash t <> tx_hash tx /\ (tx_from t = tx_from tx -> tx_nonce t <> tx_nonce tx)) ->
  nonce n (tx_from tx) = Ok (tx_nonce tx) -> mp_get (nd_mempool n) (tx_hash tx) = Some tx ->
  0 <= tx_nonce tx -> tx_nonce tx + 1 + Z.of_nat (length post) <= U64_MAX ->
  let m := snd (execute_batch (map encode pre) n) in
  let n' := snd (execute_batch (map encode (pre ++ tx :: post)) n) in
  nonce m (tx_from tx) = Ok (tx_nonce tx) /\
  match fst (execute_tx_payload tx m) with
  | Ok _ =>
      fst (execute tx m) = Ok tt /\ mp_get (nd_mempool n') (tx_hash tx) = None /\
      exists q, nonce n' (tx_from tx) = Ok q /\ tx_nonce tx < q
  | Err e =>
      fst (execute tx m) = Err e /\ mp_get (nd_mempool n') (tx_hash tx) = Some tx /\
      nonce n' (tx_from tx) = Ok (tx_nonce tx)
  end.
Proof.
  intros Hsize Hrec Ho Hn Hp H0 Hmax m n'.
  pose proof (others_pass tx pre TxExecutionStats_new n Hn Hp
    (fun t Ht => Ho t (proj2 (elem_of_app _ _ _) (or_introl Ht)))) as [Hm Hpm].
  change (snd (foldl execute_bytes (TxExecutionStats_new, n) (map encode pre))) with m in Hm, Hpm.
  split; [exact Hm|]. apply verify_transaction_Ok in Hrec.
  pose proof (execute_checked tx m Hrec Hm) as Hc. pose proof (execute_effects tx m) as He.
  assert (En' : exists stats1, n' =
    snd (foldl execute_bytes (stats1, snd (execute tx m)) (map encode post))).
  { unfold n', execute_batch. rewrite map_app, foldl_app. cbn [map foldl].
    unfold m, execute_batch. destruct (foldl execute_bytes _ (map encode pre)) as [st m0]. cbn [snd].
    destruct (execute_encoded st tx m0) as [[_ ->]|[? _]]; [by eexists|lia]. }
  destruct En' as (stats1 & En').
  destruct (execute_tx_payload tx m) as [[[]|e] m1]; cbn [fst].
  - destruct Hc as (m2 & Em & _). rewrite Em in *. destruct He as (_ & H2 & _ & H4). cbn [fst snd] in *.
    split_and!; [done| |].
    + rewrite En'. apply pool_only_shrinks. by rewrite H4, get_removed, decide_True.
    + destruct (execute_block (map encode post) stats1 m2) as (dn & st' & n3 & E3 & _ & _ & Hk).
      rewrite E3 in En'. cbn in En'. subst n3.
      assert (Ew : wadd64 (tx_nonce tx) 1 = tx_nonce tx + 1).
      { unfold wadd64. apply as_u64_id. unfold is_u64, U64_MAX in *. lia. }
      rewrite Ew in H2. destruct (block_run_nonces _ _ _ _ Hk _ _ H2) as [Hq _]; [lia|rewrite length_map; lia|].
      eexists. split; [exact Hq|lia].
  - rewrite Hc in *. destruct He as [H1 H2]. cbn [fst snd] in *. split; [done|]. rewrite En'.
    destruct (others_pass tx post stats1 m1) as [A1 A2];
      [by rewrite H1|by rewrite H2|intros t Ht; apply Ho, elem_of_app; by right|].
    by split.
Qed.

(** What an accepted submission does to the node: its pool, and nothing else. *)
Lemma submitted hex tx n h n1 :
  request_carries hex tx -> submit_transaction hex n = (Ok h, n1) ->
  h = tx_hash tx /\ n1 = with_nd_mempool (nd_mempool n1) n /\
  txs (mp_index (nd_mempool n)) !! tx_hash tx = None /\
  nd_mempool n1 = with_index (snd (idx_insert tx (mp_index (nd_mempool n)))) (nd_mempool n).
Proof.
  intros Hc%decode_and_verify_Ok Hs. unfold submit_transaction, st_bind, st_lift, st_map_err, st_zoom in Hs.
  rewrite Hc in Hs.
  destruct (mp_add_cases tx (nd_mempool n)) as [(_ & E)|[(_ & _ & E)|[(_ & _ & _ & E)|(_ & Hf & _ & E)]]];
    rewrite E in Hs; try discriminate Hs.
  injection Hs as <- <-. done.
Qed.

(** C6: an accepted submission takes its turn. When the RPC server of a node with a
    sound store and pool accepts a transaction of at most the maximal size with its sender's current nonce, which
    leaves room for a block (the nonce plus 1001 fits a [u64]), and the pool fits
    into a block, and the next block is committed at a height not below the last
    and does not prune (with the daemon's configuration: a height up to 100000; a
    pruning commit can delete the sender's nonce), then the next proposed block holds it, and nothing that comes before it in the
    block can take its turn away: it is executed with its own nonce as the
    sender's. If its payload succeeds then, the committed block leaves the
    sender with a higher nonce and the pool without it (its status is
    [not_found]). If the payload fails, the block is committed all the same, the
    nonce is where it was and the transaction still pending, to be tried again
    in the next block. *)
Theorem submitted_takes_its_turn hex tx n h n1 height response n2 :
  grounded n -> index_ok (mp_index (nd_mempool n)) ->
  request_carries hex tx -> Z.of_nat (length (encode tx)) <= MAX_TX_SIZE ->
  submit_transaction hex n = (Ok h, n1) -> roomy n1 ->
  nonce n (tx_from tx) = Ok (tx_nonce tx) ->
  0 <= tx_nonce tx -> tx_nonce tx + 1 + Z.of_nat MAX_TXS_PER_BLOCK <= U64_MAX ->
  current_version (sm_storage (nd_state n)) <= height ->
  commit_prunes (pruning_config (sm_storage (nd_state n))) height = false ->
  execute_txs height (get_txs n1) n1 = (Ok response, n2) ->
  exists pre post,
    get_txs n1 = map encode (pre ++ tx :: post) /\
    let m := snd (execute_batch (map encode pre) (nd_begin_block height n1)) in
    nonce m (tx_from tx) = Ok (tx_nonce tx) /\
    match fst (execute_tx_payload tx m) with
    | Ok _ =>
        fst (execute tx m) = Ok tt /\ get_transaction_status h n2 = TxStatus_not_found h /\
        exists q, nonce n2 (tx_from tx) = Ok q /\ tx_nonce tx < q
    | Err e =>
        fst (execute tx m) = Err e /\ get_transaction_status h n2 = TxStatus_pending h /\
        nonce n2 (tx_from tx) = Ok (tx_nonce tx)
    end.
Proof.
  intros [Hwf Hcv] Hi Hc Hsize Hs Hroom Hn H0 Hmax Hh Hnp Hx.
  destruct (submitted hex tx n h n1 Hc Hs) as (-> & En1 & Hf & Ep).
  assert (Est : nd_state n1 = nd_state n) by (by rewrite En1).
  assert (Hi1 : index_ok (mp_index (nd_mempool n1))) by (rewrite Ep; exact (index_ok_insert tx _ Hi Hf)).
  assert (Hg1 : mp_get (nd_mempool n1) (tx_hash tx) = Some tx)
    by (rewrite Ep; exact (lookup_insert_eq _ _ _)).
  destruct (proposed n1 tx Hi1 Hroom) as (pre & post & Eb & Ho); [|exact Hg1|].
  { rewrite Ep. cbn [mp_index with_index]. by rewrite entry_insert, decide_True. }
  assert (Hpost : (length post <= MAX_TXS_PER_BLOCK)%nat).
  { apply (f_equal length) in Eb. rewrite length_map, length_app in Eb. cbn [length] in Eb.
    pose proof (scan_fit_all (nd_max_bytes n1) _ 0 ltac:(lia) (proj1 (proj2 Hroom)) (proj2 (proj2 Hroom))) as Ef.
    unfold get_txs, fetch_txs_from_mempool in Eb. rewrite Ef, length_map in Eb.
    unfold ready_txs in Eb. rewrite length_take in Eb. lia. }
  exists pre, post. split; [exact Eb|].
  rewrite Eb in Hx. rewrite <- Est in Hwf, Hcv, Hh, Hnp, Hn.
  destruct (execute_txs_reads _ _ _ _ _ PruningConfig_default (sm_hash_state (nd_state n1)) Hwf Hh Hnp Hx) as (_ & _ & _ & _ & _ & Hr).
  pose proof (execute_txs_pool _ _ _ _ _ Hx) as Hp2.
  assert (Hn2 : forall a, nonce n2 a =
    nonce (snd (execute_batch (map encode (pre ++ tx :: post)) (nd_begin_block height n1))) a).
  { intros a. unfold get_nonce, get_or_default. rewrite !sm_get_sv. by destruct (Hr (SK_Nonce a)) as [-> _]. }
  assert (Hb : nonce (nd_begin_block height n1) (tx_from tx) = Ok (tx_nonce tx)).
  { rewrite <- Hn. unfold get_nonce, get_or_default. rewrite !sm_get_sv.
    by destruct (begin_block_reads n1 height Hwf Hcv Hh (SK_Nonce (tx_from tx))) as [-> _]. }
  assert (Hrec : recover_signer tx = Ok (tx_from tx)) by (by destruct Hc as (? & _ & _ & ?)).
  destruct (block_turn tx pre post (nd_begin_block height n1) Hsize Hrec Ho Hb Hg1 H0 ltac:(lia)) as [Hm Hcase].
  split; [exact Hm|]. rewrite Hn2. unfold get_transaction_status. rewrite Hp2.
  destruct (fst (execute_tx_payload tx _)) as [[]|e]; destruct Hcase as (-> & Hpool & Hq);
    rewrite Hpool; exact (conj eq_refl (conj eq_refl Hq)).
Qed.

End pipeline.

(** * Witness *)

(** Account 1 has its transaction 1 in the pool and now submits its 0. *)
#[local] Instance demo_pipeline_hex : HexEnv := fun s =>
  if bool_decide (s = "aa")%string then Some (encode demo_withdrawal) else None.
Definition waiting_pool : Mempool := snd (mp_add (signed_by 1 1 (demo_transfer 7)) (with_limits 5 2)).
Definition waiting_node : Node :=
  {| nd_engine := Engine_new sm_funds; nd_auth := AuthService_new; nd_mempool := waiting_pool;
     nd_max_bytes := 1000 |}.
Definition submitted_node : Node := snd (submit_transaction "0xaa" waiting_node).

Lemma waiting_pool_ok : index_ok (mp_index waiting_pool).
Proof.
  refine (proj1 (proj1 (pool_reach (config_of_pair (5, 2)%nat) _ _))).
  eapply rtc_l; [apply step_add|apply rtc_refl].
Qed.

Lemma submitted_takes_its_turn_witness :
  get_txs submitted_node = [encode demo_withdrawal; encode (signed_by 1 1 (demo_transfer 7))] /\
  exists pre post, get_txs submitted_node = map encode (pre ++ demo_withdrawal :: post) /\
    get_nonce (nd_state (snd (execute_batch (map encode pre) (nd_begin_block 3 submitted_node)))) 1 = Ok 0.
Proof.
  split; [vm_compute; reflexivity|].
  pose (run := execute_txs 3 (get_txs submitted_node) submitted_node).
  assert (E : is_ok (fst run) = true) by (vm_compute; reflexivity).
  destruct (fst run) as [response|e] eqn:Er; [|discriminate E].
  assert (Hc : request_carries "0xaa" demo_withdrawal).
  { exists (encode demo_withdrawal). split_and!; vm_compute; reflexivity. }
  assert (Hs : fst (submit_transaction "0xaa" waiting_node) = Ok (tx_hash demo_withdrawal))
    by (vm_compute; reflexivity).
  destruct (submitted_takes_its_turn "0xaa" demo_withdrawal waiting_node (tx_hash demo_withdrawal) submitted_node
    3 response (snd run)) as (pre & post & H1 & H2 & _).
  - split; [exact node_demo_wf|vm_compute; congruence].
  - exact waiting_pool_ok.
  - exact Hc.
  - vm_compute. congruence.
  - exact (run_result _ _ _ Hs).
  - split; [apply Nat.leb_le; vm_compute; reflexivity|].
    split; [apply Z.leb_le; vm_compute; reflexivity|reflexivity].
  - vm_compute. reflexivity.
  - vm_compute. congruence.
  - vm_compute. congruence.
  - vm_compute. congruence.
  - vm_compute. reflexivity.
  - exact (run_result (execute_txs 3 (get_txs submitted_node)) submitted_node _ Er).
  - exists pre, post. exact (conj H1 H2).
Defined.
