(* ===== verification/Transport.v ===== *)
(** The transport of the RPC server (crates/rpc/src/lib.rs, types.rs,
    websocket.rs): requests and answers, the router, the socket loop, and what
    requests cannot do: they never reach the state that blocks are executed on.
    JSON, the Prometheus registry and tokio's broadcast channel are libraries. *)
From stdpp Require Import base gmap sets list sorting strings.
From Stdlib Require Import ZArith Lia.
From S2P Require Import Prelude Types Storage State Tx EngineBase Services Engine Auth Mempool Exec Rpc.

(** * Requests and answers (types.rs) *)

Record SubmitTxRequest := { str_tx : string }.
Record GetTxStatusRequest := { gts_tx_hash : B256 }.
Record GetBalanceRequest := { gbr_address : Address; gbr_asset_id : Z }.
Record GetNonceRequest := { gnr_address : Address }.
Record GetPositionRequest := { gpr_address : Address; gpr_market_id : Z }.
Record GetOrderRequest := { gor_order_id : Z }.
Record ListOrdersRequest := { lor_address : Address; lor_market_id : option Z }.
Record GetMarketInfoRequest := { gmr_market_id : Z }.
Record GetFundingRateRequest := { gfr_market_id : Z }.
Record SetAgentRequest := { sar_tx : string }.
Record RemoveAgentRequest := { rar_tx : string }.
Record ListAgentsRequest := { lar_address : Address }.
Record GetAssetInfoRequest := { gar_asset_id : Z }.
Record CheckBridgeOperatorRequest := { cbr_address : Address }.

Record SuccessResponse := { success : bool }.
Definition SuccessResponse_ok : SuccessResponse := {| success := true |}.
Record SubmitTxResponse := { sts_tx_hash : B256 }.
Record GetBalanceResponse := { gbs_balance : Z }.
Record GetNonceResponse := { gns_nonce : Z }.
Record GetPositionsResponse := { gps_positions : list PositionInfo }.
Record ListOrdersResponse := { los_orders : list OrderInfo }.
Record AgentInfo := { agi_agent : Address; agi_permissions : Z }.
Record ListAgentsResponse := { las_agents : list AgentInfo }.
Record ListAssetsResponse := { lss_assets : list AssetInfo }.
Record CheckBridgeOperatorResponse := { cbs_is_operator : bool }.
(** No route takes this request. *)
Record SetBridgeOperatorRequest := { sbr_operator : Address; sbr_is_operator : bool }.

(** The [From] conversions. *)
Definition submit_response_of (tx_hash : B256) : SubmitTxResponse := {| sts_tx_hash := tx_hash |}.
Definition balance_response_of (balance : Z) : GetBalanceResponse := {| gbs_balance := balance |}.
Definition nonce_response_of (nonce : Z) : GetNonceResponse := {| gns_nonce := nonce |}.
Definition operator_response_of (is_operator : bool) : CheckBridgeOperatorResponse :=
  {| cbs_is_operator := is_operator |}.

Inductive RpcRequest :=
| ReqHealth | ReqMetrics
| ReqSubmitTx (r : SubmitTxRequest) | ReqTxStatus (r : GetTxStatusRequest)
| ReqBalance (r : GetBalanceRequest) | ReqNonce (r : GetNonceRequest)
| ReqPosition (r : GetPositionRequest) | ReqPositions (r : GetNonceRequest)
| ReqOrder (r : GetOrderRequest) | ReqListOrders (r : ListOrdersRequest)
| ReqMarketInfo (r : GetMarketInfoRequest) | ReqFundingRate (r : GetFundingRateRequest)
| ReqSetAgent (r : SetAgentRequest) | ReqRemoveAgent (r : RemoveAgentRequest)
| ReqListAgents (r : ListAgentsRequest)
| ReqAssetInfo (r : GetAssetInfoRequest) | ReqListAssets
| ReqCheckOperator (r : CheckBridgeOperatorRequest).

Inductive RpcResponse :=
| ResText (text : string)
| ResSubmitTx (r : SubmitTxResponse) | ResTxStatus (r : TxStatus)
| ResBalance (r : GetBalanceResponse) | ResNonce (r : GetNonceResponse)
| ResPosition (r : option PositionInfo) | ResPositions (r : GetPositionsResponse)
| ResOrder (r : option OrderInfo) | ResListOrders (r : ListOrdersResponse)
| ResMarketInfo (r : option MarketInfo) | ResFundingRate (r : FundingRateInfo)
| ResSuccess (r : SuccessResponse) | ResListAgents (r : ListAgentsResponse)
| ResAssetInfo (r : option AssetInfo) | ResListAssets (r : ListAssetsResponse)
| ResCheckOperator (r : CheckBridgeOperatorResponse).

Inductive Method := GET | POST.
#[export] Instance Method_eq_dec : EqDecision Method.
Proof. solve_decision. Defined.

(** Where the router listens for a request. *)
Definition route (r : RpcRequest) : Method * string :=
  match r with
  | ReqHealth => (GET, "/health")
  | ReqMetrics => (GET, "/metrics")
  | ReqSubmitTx _ => (POST, "/tx/submit")
  | ReqTxStatus _ => (POST, "/tx/status")
  | ReqBalance _ => (POST, "/account/balance")
  | ReqNonce _ => (POST, "/account/nonce")
  | ReqPosition _ => (POST, "/account/position")
  | ReqPositions _ => (POST, "/account/positions")
  | ReqOrder _ => (POST, "/order/get")
  | ReqListOrders _ => (POST, "/order/list")
  | ReqMarketInfo _ => (POST, "/market/info")
  | ReqFundingRate _ => (POST, "/market/funding")
  | ReqSetAgent _ => (POST, "/agent/set")
  | ReqRemoveAgent _ => (POST, "/agent/remove")
  | ReqListAgents _ => (POST, "/agent/list")
  | ReqAssetInfo _ => (POST, "/asset/info")
  | ReqListAssets => (GET, "/asset/list")
  | ReqCheckOperator _ => (POST, "/bridge/check_operator")
  end%string.

(** * Web sockets (websocket.rs) *)

Inductive WsMessage :=
| Subscribe (channel : string)
| Unsubscribe (channel : string)
| OrderBookUpdate (market_id : Z) (bids asks : list (Z * Z))
| TradeUpdate (market_id price size : Z) (is_buy : bool) (timestamp : Z)
| PositionUpdate (market_id : Z) (trader : string) (size entry_price : Z) (is_long : bool)
| FundingUpdate (market_id rate : Z)
| WsLiquidationEvent (market_id : Z) (trader : string) (size price : Z)
| Ping
| Pong
| WsError (message : string).

(** Frames of the WebSocket protocol, text already parsed ([None] when it does
    not), and the two ends of the outgoing queue. *)
Inductive Frame := FText (parsed : option WsMessage) | FClose | FOther.

(** The text frame's arms of [handle_socket]. *)
Definition socket_message (parsed : option WsMessage) (subscriptions : list string) : list string :=
  match parsed with
  | Some (Subscribe channel) => subscriptions ++ [channel]
  | Some (Unsubscribe channel) => filter (fun c => c <> channel) subscriptions
  | Some Ping => subscriptions
  | _ => subscriptions
  end.

(** [handle_socket]'s loop over the frames received, [None] for a broken one. *)
Fixpoint handle_socket (frames : list (option Frame)) (subscriptions : list string) : list string :=
  match frames with
  | [] | None :: _ => subscriptions
  | Some FClose :: _ => subscriptions
  | Some (FText parsed) :: frames => handle_socket frames (socket_message parsed subscriptions)
  | Some FOther :: frames => handle_socket frames subscriptions
  end.

(** The task for outgoing messages: its receiver is that of a queue whose sender
    was dropped when the queue was made, so [recv] answers [None] at once. *)
Definition outgoing_rx : list WsMessage := [].
Fixpoint outgoing_task (recv : list WsMessage) : list WsMessage :=
  match recv with [] => [] | msg :: recv => msg :: outgoing_task recv end.
Definition socket_sends : list WsMessage := outgoing_task outgoing_rx.

(** A channel stays subscribed exactly when it was last subscribed to. *)
Definition subscribed_last (c : string) (messages : list (option WsMessage)) (before : bool) : bool :=
  fold_left (fun b m =>
    match m with
    | Some (Subscribe d) => b || bool_decide (d = c)
    | Some (Unsubscribe d) => b && negb (bool_decide (d = c))
    | _ => b
    end) messages before.

Lemma socket_subscribed c messages : forall subscriptions,
  c ∈ handle_socket (map (fun m => Some (FText m)) messages) subscriptions <->
  subscribed_last c messages (bool_decide (c ∈ subscriptions)) = true.
Proof.
  induction messages as [|m l IH]; intros subs; cbn; [by rewrite bool_decide_eq_true|].
  rewrite IH. f_equiv. f_equal. destruct m as [[d|d| | | | | | | |]|]; cbn; try done.
  - rewrite <- bool_decide_or. apply bool_decide_ext. rewrite elem_of_app, list_elem_of_singleton.
    split; intros [?|?]; auto.
  - rewrite <- bool_decide_not, <- bool_decide_and. apply bool_decide_ext.
    rewrite list_elem_of_filter. split; intros [? ?]; split; auto.
Qed.

(** ** The broadcaster *)

(** tokio's [broadcast]: the channel its senders share, and a receiver.  [new]
    panics on some capacities. *)
Class BroadcastEnv := {
  Channel : Type;
  Receiver : Type;
  channel_new : Z -> option (Channel * Receiver);
  channel_drop : Receiver -> Channel -> Channel;
  channel_send : WsMessage -> Channel -> option nat * Channel;
  channel_subscribe : Channel -> Receiver * Channel;
  channel_recv : Receiver -> Channel -> option WsMessage * Receiver;
}.

Section broadcaster.
Context {T : BroadcastEnv}.

(** Clones of a broadcaster share the channel. *)
Record WsBroadcaster := { bc_tx : Channel }.
Definition WsBroadcaster_new (capacity : Z) : option WsBroadcaster :=
  (fun '(tx, rx) => {| bc_tx := channel_drop rx tx |}) <$> channel_new capacity.
(** Whether anybody listens is ignored. *)
Definition broadcast (msg : WsMessage) (b : WsBroadcaster) : WsBroadcaster :=
  let '(_, tx) := channel_send msg (bc_tx b) in {| bc_tx := tx |}.
Definition bc_subscribe (b : WsBroadcaster) : Receiver * WsBroadcaster :=
  let '(rx, tx) := channel_subscribe (bc_tx b) in (rx, {| bc_tx := tx |}).

Definition broadcast_orderbook_update (market_id : Z) (bids asks : list (Z * Z)) :=
  broadcast (OrderBookUpdate market_id bids asks).
Definition broadcast_trade_update (market_id price size : Z) (is_buy : bool) (timestamp : Z) :=
  broadcast (TradeUpdate market_id price size is_buy timestamp).
Definition broadcast_liquidation (market_id : Z) (trader : string) (size price : Z) :=
  broadcast (WsLiquidationEvent market_id trader size price).
End broadcaster.

(** * Handling a request (lib.rs) *)

(** The Prometheus registry of metrics.rs and its text export. *)
Class PrometheusEnv := { PromMetrics : Type; prom_export : PromMetrics -> option string }.

Section transport.
Context {B : Backend} {V : TxEnv} {G : SigEnv} {X : HexEnv} {P : PrometheusEnv} {T : BroadcastEnv}.

(** [RpcState]: the shared components are the node's. *)
Record RpcState := {
  rs_node : Node;
  rs_metrics : option PromMetrics;
  rs_ws_broadcaster : option WsBroadcaster;
}.
Definition RpcState_new_from_shared (n : Node) : RpcState :=
  {| rs_node := n; rs_metrics := None; rs_ws_broadcaster := None |}.
(** From components of its own; the block size is not among them. *)
Definition RpcState_new (auth : AuthService) (mempool : Mempool) (engine : Engine) : RpcState :=
  RpcState_new_from_shared {| nd_engine := engine; nd_auth := auth; nd_mempool := mempool;
                              nd_max_bytes := DEFAULT_MAX_BYTES |}.
Definition rs_with_metrics (m : PromMetrics) (s : RpcState) : RpcState :=
  {| rs_node := rs_node s; rs_metrics := Some m; rs_ws_broadcaster := rs_ws_broadcaster s |}.
Definition with_ws_broadcaster (b : WsBroadcaster) (s : RpcState) : RpcState :=
  {| rs_node := rs_node s; rs_metrics := rs_metrics s; rs_ws_broadcaster := Some b |}.
Definition with_rs_node (n : Node) (s : RpcState) : RpcState :=
  {| rs_node := n; rs_metrics := rs_metrics s; rs_ws_broadcaster := rs_ws_broadcaster s |}.

Definition metrics_handler (s : RpcState) : string :=
  match (m ← rs_metrics s; prom_export m) with
  | Some text => text
  | None => "# Metrics not enabled" +:+ String (Ascii.ascii_of_nat 10) EmptyString
  end.

Definition on_rpc_node (m : ST Node RpcError RpcResponse) : ST RpcState RpcError RpcResponse :=
  st_zoom rs_node with_rs_node m.
Definition query {A} (f : A -> RpcResponse) (r : Node -> result RpcError A) :
    ST RpcState RpcError RpcResponse :=
  on_rpc_node (let! a := st_read r in st_ret (f a)).

(** [create_router]: each request to its handler. *)
Definition handle_request (r : RpcRequest) : ST RpcState RpcError RpcResponse :=
  match r with
  | ReqHealth => st_ret (ResText health)
  | ReqMetrics => st_gets (fun s => ResText (metrics_handler s))
  | ReqSubmitTx req => on_rpc_node (
      let! h := submit_transaction (str_tx req) in st_ret (ResSubmitTx (submit_response_of h)))
  | ReqTxStatus req => query ResTxStatus (fun n => Ok (get_transaction_status (gts_tx_hash req) n))
  | ReqBalance req => query (fun b => ResBalance (balance_response_of b))
      (rpc_get_balance (gbr_address req) (gbr_asset_id req))
  | ReqNonce req => query (fun k => ResNonce (nonce_response_of k)) (rpc_get_nonce (gnr_address req))
  | ReqPosition req => query ResPosition (rpc_get_position (gpr_address req) (gpr_market_id req))
  | ReqPositions req => query (fun l => ResPositions {| gps_positions := l |})
      (rpc_get_positions (gnr_address req))
  | ReqOrder req => query ResOrder (rpc_get_order (gor_order_id req))
  | ReqListOrders req => query (fun l => ResListOrders {| los_orders := l |})
      (rpc_list_orders (lor_address req) (lor_market_id req))
  | ReqMarketInfo req => query ResMarketInfo (rpc_get_market_info (gmr_market_id req))
  | ReqFundingRate req => query ResFundingRate (rpc_get_funding_rate (gfr_market_id req))
  | ReqSetAgent req => on_rpc_node (
      rpc_set_agent (sar_tx req) ;; st_ret (ResSuccess SuccessResponse_ok))
  | ReqRemoveAgent req => on_rpc_node (
      rpc_remove_agent (rar_tx req) ;; st_ret (ResSuccess SuccessResponse_ok))
  | ReqListAgents req => query (fun l => ResListAgents {| las_agents := map (fun '(a, p) =>
      {| agi_agent := a; agi_permissions := p |}) l |}) (list_agents (lar_address req))
  | ReqAssetInfo req => query ResAssetInfo (rpc_get_asset_info (gar_asset_id req))
  | ReqListAssets => query (fun l => ResListAssets {| lss_assets := l |}) rpc_list_assets
  | ReqCheckOperator req => query (fun b => ResCheckOperator (operator_response_of b))
      (rpc_check_bridge_operator (cbr_address req))
  end.

End transport.

(** * Requests and blocks *)

Section determinism.
Context {B : Backend} {V : TxEnv} {G : SigEnv} {X : HexEnv} {P : PrometheusEnv} {T : BroadcastEnv}.
Implicit Types (n : Node) (s : RpcState).

(** What blocks are executed on: the engine, and the size blocks may have. *)
Definition same_engine n1 n2 : Prop :=
  nd_engine n1 = nd_engine n2 /\ nd_max_bytes n1 = nd_max_bytes n2.

Lemma lockstep_with_engine {A} (m : ST Engine TxExecutionError A) : lockstep same_engine (with_engine m).
Proof. apply lockstep_zoom; [by intros n1 n2 []|]. by intros e n1 n2 []. Qed.
Lemma lockstep_on_engine {A} (m : ST Engine EngineError A) : lockstep same_engine (on_engine m).
Proof. apply lockstep_with_engine. Qed.
Lemma lockstep_node_state {E A} (f : StateError -> E) (m : ST StateManager StateError A) :
  lockstep same_engine (on_node_state f m).
Proof.
  apply lockstep_map_err, lockstep_zoom.
  - intros n1 n2 [He _]. unfold nd_state. by rewrite He.
  - intros t n1 n2 [He Hm]. split; [cbn; by rewrite He|done].
Qed.
Lemma lockstep_other (f : Node -> Node) E :
  (forall n, nd_engine (f n) = nd_engine n /\ nd_max_bytes (f n) = nd_max_bytes n) ->
  lockstep (E := E) same_engine (st_modify f).
Proof.
  intros Hf. apply lockstep_modify. intros n1 n2 [He Hm]. destruct (Hf n1) as [E1 E2], (Hf n2) as [E3 E4].
  split; congruence.
Qed.

Lemma lockstep_verify_owner tx : lockstep same_engine (verify_tx_owner tx).
Proof. apply lockstep_bind; [apply lockstep_lift|intros signer; apply lockstep_guard]. Qed.

Lemma lockstep_execute tx : lockstep same_engine (execute tx).
Proof.
  unfold execute. apply lockstep_bind; [apply lockstep_lift|intros _].
  apply lockstep_bind; [|intros _; apply lockstep_bind; [|intros _; apply lockstep_bind; [|intros _]]].
  - unfold verify_nonce. apply lockstep_bind.
    + apply lockstep_read. intros n1 n2 [He _]. unfold nd_state. by rewrite He.
    + intros k. destruct (_ ?= _); first [apply lockstep_ret|apply lockstep_fail].
  - unfold execute_tx_payload. destruct (tx_payload tx); try apply lockstep_with_engine.
    all: apply lockstep_bind; [apply lockstep_verify_owner|intros _].
    all: apply lockstep_bind; [by apply lockstep_other|intros _; apply lockstep_on_engine].
  - apply lockstep_node_state.
  - by apply lockstep_other.
Qed.

Lemma same_engine_bytes stats n1 n2 b :
  same_engine n1 n2 ->
  fst (execute_bytes (stats, n1) b) = fst (execute_bytes (stats, n2) b) /\
  same_engine (snd (execute_bytes (stats, n1) b)) (snd (execute_bytes (stats, n2) b)).
Proof.
  intros Hs. unfold execute_bytes. destruct (decode_tx b) as [tx|e]; [|done].
  destruct (lockstep_execute tx n1 n2 Hs) as [E1 E2]. destruct (execute tx n1) as [r1 m1], (execute tx n2) as [r2 m2].
  cbn in E1, E2. subst r2. by destruct r1.
Qed.

Lemma same_engine_batch block n1 n2 :
  same_engine n1 n2 -> same_engine (snd (execute_batch block n1)) (snd (execute_batch block n2)).
Proof.
  unfold execute_batch. intros Hs.
  assert (H : forall stats n1 n2, same_engine n1 n2 ->
    same_engine (snd (foldl execute_bytes (stats, n1) block)) (snd (foldl execute_bytes (stats, n2) block)));
    [|by apply H].
  clear n1 n2 Hs. induction block as [|b block IH]; intros stats n1 n2 Hs; [done|]. cbn [foldl].
  destruct (same_engine_bytes stats n1 n2 b Hs) as [E1 E2].
  destruct (execute_bytes (stats, n1) b), (execute_bytes (stats, n2) b). cbn in E1, E2. subst. by apply IH.
Qed.

Lemma lockstep_execute_txs height block : lockstep same_engine (execute_txs height block).
Proof.
  unfold execute_txs. apply lockstep_bind.
  { apply lockstep_modify. intros n1 n2 [He Hm]. split; [|done]. cbn. unfold nd_state. by rewrite He. }
  intros _. apply lockstep_bind; [apply lockstep_modify; intros n1 n2; apply same_engine_batch|intros _].
  apply lockstep_bind; [apply lockstep_node_state|intros root].
  apply lockstep_gets. intros n1 n2 [_ Hm]. unfold block_response. by rewrite Hm.
Qed.

(** ** A request leaves all of that alone *)

Lemma request_same_engine r s : same_engine (rs_node (snd (handle_request r s))) (rs_node s).
Proof.
  assert (Hq : forall A (f : A -> RpcResponse) g, same_engine (rs_node (snd (query f g s))) (rs_node s)).
  { intros A f g. unfold query, on_rpc_node, st_zoom, st_bind, st_read. by destruct (g (rs_node s)). }
  destruct r; try apply Hq; try done; unfold handle_request, on_rpc_node, st_zoom, st_bind.
  - unfold submit_transaction, st_bind, st_lift. destruct (decode_and_verify_tx _); [|done].
    unfold st_map_err, st_zoom. by destruct (mp_add _ _) as [[]].
  - unfold rpc_set_agent, st_bind, st_lift. destruct (decode_and_verify_tx _); [|done]. by destruct (tx_payload _).
  - unfold rpc_remove_agent, st_bind, st_lift. destruct (decode_and_verify_tx _); [|done]. by destruct (tx_payload _).
Qed.

(** ** A node's life: blocks and requests *)

Inductive NodeOp := Block (height : Z) (txs : list (list Z)) | Call (r : RpcRequest).
Definition blocks_of (ops : list NodeOp) : list (Z * list (list Z)) :=
  omap (fun o => match o with Block h b => Some (h, b) | Call _ => None end) ops.

(** The answers to the blocks, and the final state. *)
Fixpoint run_node (ops : list NodeOp) s : list (result Status (list Z * Z)) * RpcState :=
  match ops with
  | [] => ([], s)
  | Block height txs :: ops =>
      let '(answer, n) := execute_txs height txs (rs_node s) in
      let '(answers, s) := run_node ops (with_rs_node n s) in (answer :: answers, s)
  | Call r :: ops => run_node ops (snd (handle_request r s))
  end.

(** A life does to the engine what its blocks alone do. *)
Definition only_block (b : Z * list (list Z)) : NodeOp := Block b.1 b.2.

Lemma run_node_blocks ops : forall s1 s2, same_engine (rs_node s1) (rs_node s2) ->
  fst (run_node ops s1) = fst (run_node (map only_block (blocks_of ops)) s2) /\
  same_engine (rs_node (snd (run_node ops s1))) (rs_node (snd (run_node (map only_block (blocks_of ops)) s2))).
Proof.
  induction ops as [|[height txs|r] ops IH]; intros s1 s2 Hs; [done| |].
  - cbn [blocks_of omap list_omap map run_node only_block fst snd].
    destruct (lockstep_execute_txs height txs _ _ Hs) as [E1 E2].
    destruct (execute_txs height txs (rs_node s1)) as [a1 n1], (execute_txs height txs (rs_node s2)) as [a2 n2].
    cbn [fst snd] in E1, E2. subst a2.
    destruct (IH (with_rs_node n1 s1) (with_rs_node n2 s2) E2) as [E3 E4].
    unfold blocks_of in *. destruct (run_node ops _), (run_node (map only_block _) _).
    cbn [fst snd] in *. by subst.
  - apply IH. destruct (request_same_engine r s1) as [E1 E2], Hs as [E3 E4]. split; [by rewrite E1|by rewrite E2].
Qed.

(** Requests cannot make nodes disagree. Two nodes that start on the same
    engine, hash tables of the process included, and are given the same blocks answer every block with the same state
    root and end on the same engine, whatever requests each of them gets before,
    between and after the blocks, in any number and order: transactions submitted
    to only one of them, agents set on one and removed on the other. *)
Theorem requests_never_fork ops1 ops2 s1 s2 :
  same_engine (rs_node s1) (rs_node s2) -> blocks_of ops1 = blocks_of ops2 ->
  fst (run_node ops1 s1) = fst (run_node ops2 s2) /\
  same_engine (rs_node (snd (run_node ops1 s1))) (rs_node (snd (run_node ops2 s2))).
Proof.
  intros Hs Hb. destruct (run_node_blocks ops1 s1 s2 Hs) as [E1 [E2 E3]].
  destruct (run_node_blocks ops2 s2 s2 (conj eq_refl eq_refl)) as [E4 [E5 E6]].
  rewrite Hb in E1, E2, E3. split; [congruence|]. split; congruence.
Qed.

End determinism.

(** * Witness *)

#[local] Instance demo_prometheus : PrometheusEnv := {| PromMetrics := unit; prom_export _ := None |}.
(** An unbounded channel: what was sent, and how many receivers live. *)
#[export] Instance toy_channel : BroadcastEnv := {|
  Channel := list WsMessage * nat;
  Receiver := nat;
  channel_new capacity := if capacity =? 0 then None else Some (([], 1%nat), 0%nat);
  channel_drop _ c := (c.1, pred c.2);
  channel_send msg c :=
    if decide (c.2 = 0%nat) then (None, c) else (Some c.2, (c.1 ++ [msg], c.2));
  channel_subscribe c := (length c.1, (c.1, S c.2));
  channel_recv rx c := (c.1 !! rx, S rx);
|}.
#[local] Instance demo_transport_hex : HexEnv := fun s =>
  if bool_decide (s = "aa") then Some (encode (signed_by 1 0 (SetAgent {| sa_agent := 9; sa_permissions := 3 |})))
  else None.
Definition demo_rpc : RpcState := RpcState_new_from_shared node_demo.
Definition quiet_life : list NodeOp := [Block 1 demo_block].
Definition busy_life : list NodeOp :=
  [Call (ReqSetAgent {| sar_tx := "0xaa" |}); Block 1 demo_block; Call (ReqNonce {| gnr_address := 1 |})].

Lemma requests_never_fork_witness :
  agent_permissions (nd_auth (rs_node (snd (run_node busy_life demo_rpc)))) 1 9 = Some 3 /\
  agent_permissions (nd_auth (rs_node (snd (run_node quiet_life demo_rpc)))) 1 9 = None /\
  fst (run_node busy_life demo_rpc) = fst (run_node quiet_life demo_rpc).
Proof.
  split; [vm_compute; reflexivity|]. split; [vm_compute; reflexivity|].
  exact (proj1 (requests_never_fork busy_life quiet_life demo_rpc demo_rpc (conj eq_refl eq_refl) eq_refl)).
Defined.
