(* ===== verification/Forks.v ===== *)
(** Nodes side by side.  The tables of two processes are hashed with different
    random keys, so they are iterated in different orders; what reaches the state
    root of that order, and what does not.  Transport.v compares nodes that share
    the tables; here they do not. *)
From stdpp Require Import base gmap sets list sorting strings.
From Stdlib Require Import ZArith Lia.
From S2P Require Import Prelude Types Storage State Tx EngineBase Orderbook Position Services Engine Auth Mempool Snapshot Exec History Startup Supply Chain Daemon Rpc Transport.

(** * Stores that differ in their tables *)

Section stores.
Context {B : Backend} {Bok : BackendOk B}.
Implicit Types (st : RocksDbStorage) (s : StateManager).

Definition twin_store st1 st2 : Prop := exists h, st2 = with_hash_state h st1.

Lemma twin_get st1 st2 v kh : twin_store st1 st2 -> get_value_option st2 v kh = get_value_option st1 v kh.
Proof. intros [h ->]. by apply get_value_option_ext. Qed.

(** Writing the values of a commit: in whatever order, the same database. *)
Lemma store_values_hash l v st h :
  store_values l v (with_hash_state h st) = with_hash_state h (store_values l v st).
Proof. revert st. induction l as [|[kh b] l IH]; intros st; [done|exact (IH (with_db (<[JmtValue kh v := DbBytes b]>) st))]. Qed.
Lemma store_latest_hash l v st h :
  store_latest_versions l v (with_hash_state h st) = with_hash_state h (store_latest_versions l v st).
Proof. revert st. induction l as [|kh l IH]; intros st; [done|exact (IH (store_latest_version kh v st))]. Qed.
Lemma write_nodes_hash l st h :
  write_node_batch l (with_hash_state h st) = with_hash_state h (write_node_batch l st).
Proof. revert st. induction l as [|[k n] l IH]; intros st; [done|exact (IH (with_db (<[JmtNode k := DbNode n]>) st))]. Qed.

Lemma store_values_perm l l' v st : NoDup l.*1 -> l ≡ₚ l' -> store_values l v st = store_values l' v st.
Proof.
  intros Hnd Hl. revert st Hnd. induction Hl as [|[k b] l l' _ IH|[k1 b1] [k2 b2] l|l1 l2 l3 H1 IH1 _ IH2];
    intros st Hnd; [done| | |].
  - cbn in Hnd. apply NoDup_cons in Hnd as [_ Hnd]. exact (IH (with_db (<[JmtValue k v := DbBytes b]>) st) Hnd).
  - cbn in Hnd. apply NoDup_cons in Hnd as [Hne _]. unfold store_values. cbn [foldl]. f_equal.
    unfold with_db. cbn. f_equal. apply insert_insert_ne. intros [= ->]. set_solver.
  - rewrite IH1 by done. apply IH2. by rewrite <- H1.
Qed.
Lemma store_latest_perm l l' v st : NoDup l -> l ≡ₚ l' -> store_latest_versions l v st = store_latest_versions l' v st.
Proof.
  intros Hnd Hl. revert st Hnd. induction Hl as [|k l l' _ IH|k1 k2 l|l1 l2 l3 H1 IH1 _ IH2];
    intros st Hnd; [done| | |].
  - apply NoDup_cons in Hnd as [_ Hnd]. exact (IH (store_latest_version k v st) Hnd).
  - apply NoDup_cons in Hnd as [Hne _]. unfold store_latest_versions. cbn [foldl]. f_equal.
    unfold store_latest_version, with_db. cbn. f_equal. apply insert_insert_ne. intros [= ->]. set_solver.
  - rewrite IH1 by done. apply IH2. by rewrite <- H1.
Qed.

Lemma twin_write_pending version : lockstep twin_store (write_pending version).
Proof.
  intros st st2 [h ->]. unfold write_pending, st_bind, st_gets, st_modify, st_get.
  cbn [pending_updates with_hash_state hash_state]. case_bool_decide; [split; [done|by eexists]|].
  set (l1 := hash_order (HashOrder := hash_order_in (hash_state st)) _).
  set (l2 := hash_order (HashOrder := hash_order_in h) _).
  assert (H1 : l1 ≡ₚ map_to_list (pending_updates st)) by apply (hash_order_perm (HashOrderOk := hash_order_in_ok _)).
  assert (H2 : l1 ≡ₚ l2) by (rewrite H1; symmetry; apply (hash_order_perm (HashOrderOk := hash_order_in_ok _))).
  assert (Hnd : NoDup l1.*1) by (rewrite H1; apply NoDup_fst_map_to_list).
  set (u := (λ '(kh, b), (kh, Some b)) : KeyHash * Bytes -> KeyHash * option Bytes).
  assert (Hu : forall l, (u <$> l).*1 = l.*1).
  { intros l. rewrite <- list_fmap_compose. apply list_fmap_ext. by intros i [k b] _. }
  rewrite (jmt_put_perm _ _ (u <$> l1) (u <$> l2)); [|by rewrite Hu|by rewrite H2].
  change (get_node_option (rehash (with_pending ∅ (with_hash_state h st))))
    with (get_node_option (rehash (with_pending ∅ st))).
  change (get_rightmost_leaf (rehash (with_pending ∅ (with_hash_state h st))))
    with (get_rightmost_leaf (rehash (with_pending ∅ st))).
  destruct (jmt_put_value_set _ _ (u <$> l2) version) as [[root nodes]|]; [|split; [done|by eexists]].
  split; [done|]. exists (next_hash h). cbn [snd].
  change (rehash (with_pending ∅ (with_hash_state h st)))
    with (with_hash_state (next_hash h) (rehash (with_pending ∅ st))).
  rewrite write_nodes_hash, store_values_hash, store_latest_hash. f_equal.
  rewrite (store_values_perm l1 l2) by done. apply store_latest_perm; [|by rewrite H2].
  by rewrite <- H2.
Qed.

Lemma twin_modify (f : RocksDbStorage -> RocksDbStorage) :
  (forall st h, f (with_hash_state h st) = with_hash_state h (f st)) ->
  lockstep (E := StateError) twin_store (st_modify f).
Proof. intros Hf. apply lockstep_modify. intros st st2 [h ->]. by exists h. Qed.

Lemma twin_commit version : lockstep twin_store (storage_commit version).
Proof.
  unfold storage_commit. apply lockstep_bind; [apply twin_write_pending|intros _].
  apply lockstep_bind; [apply lockstep_read; by intros st st2 [h ->]|intros root].
  do 3 (apply lockstep_bind; [by apply twin_modify|intros _]).
  apply lockstep_bind; [apply lockstep_gets; by intros st st2 [h ->]|intros config].
  apply lockstep_bind; [|intros _; apply lockstep_ret].
  destruct (pruning_enabled config); [|apply lockstep_ret].
  apply lockstep_bind; [|intros _]; (match goal with |- lockstep _ (if ?b then _ else _) => destruct b end);
    try apply lockstep_ret; apply twin_modify; [done|].
  intros st h. unfold prune_before_version, collect_and_delete_old_versions.
  cbn [db with_hash_state pruning_config]. by destruct (foldl _ _ _) as [[keys n] d].
Qed.

Lemma twin_set {T} (S : Serde Bytes T) k (v : T) : lockstep twin_store (storage_set k v).
Proof. intros st st2 [h ->]. unfold storage_set. destruct (to_vec v); (split; [done|by exists h]). Qed.

(** * States, engines, nodes *)

Definition in_process (h : HashState) s : StateManager := with_storage (with_hash_state h (sm_storage s)) s.
Definition twin_state s1 s2 : Prop := exists h, s2 = in_process h s1.
Definition twin_svc (t1 t2 : SvcState) : Prop := exists h, t2 = with_ss_state (in_process h (ss_state t1)) t1.
Definition twin_engine (e1 e2 : Engine) : Prop := exists h, e2 = with_en_state (in_process h (en_state e1)) e1.

Lemma twin_sm_get {T} (S : Serde Bytes T) s1 s2 k : twin_state s1 s2 -> sm_get s1 k = sm_get s2 k.
Proof.
  intros [h ->]. rewrite !sm_get_sv. f_equal. unfold sv, view. cbn.
  by rewrite (twin_get (sm_storage s1) (with_hash_state h (sm_storage s1)) _ _ ltac:(by exists h)).
Qed.
Lemma twin_get_or_default {T} (S : Serde Bytes T) (d : T) s1 s2 k :
  twin_state s1 s2 -> get_or_default d s1 k = get_or_default d s2 k.
Proof. intros H. unfold get_or_default. by rewrite (twin_sm_get _ _ _ _ H). Qed.

Lemma twin_on_storage {A} (m : ST RocksDbStorage StateError A) :
  lockstep twin_store m -> lockstep twin_state (on_storage m).
Proof.
  intros Hm. apply (lockstep_zoom_to _ twin_store); [| |exact Hm].
  - intros s s2 [h ->]. by exists h.
  - intros t t2 s s2 [h ->] [h' ->]. by exists h'.
Qed.

Lemma twin_svc_state {A} (m : ST StateManager StateError A) : lockstep twin_state m -> lockstep twin_svc (svc_state m).
Proof.
  intros Hm. apply (lockstep_zoom_to _ twin_state); [| |by apply lockstep_map_err].
  - intros t t2 [h ->]. by exists h.
  - intros s s2 t t2 [h ->] [h' ->]. by exists h'.
Qed.
Lemma twin_svc_read {A} (f : StateManager -> result StateError A) :
  (forall s1 s2, twin_state s1 s2 -> f s1 = f s2) -> lockstep twin_svc (svc_read f).
Proof. intros Hf. apply lockstep_read. intros t t2 [h ->]. cbn. f_equal. apply Hf. by exists h. Qed.
Lemma twin_emit e : lockstep twin_svc (emit e).
Proof. apply lockstep_modify. intros t t2 [h ->]. by exists h. Qed.

Ltac twins := repeat first
  [ apply twin_emit | apply lockstep_ret | apply lockstep_lift | apply lockstep_guard
  | apply twin_svc_state, twin_on_storage, twin_set
  | apply twin_svc_read; intros; first [by apply twin_get_or_default | by apply twin_sm_get]
  | apply lockstep_bind; [|intros ?] ].

Lemma twin_update_balance a j v c r : lockstep twin_svc (update_balance a j v c r).
Proof. unfold update_balance. twins. Qed.
Lemma twin_transfer a t : lockstep twin_svc (transfer a t).
Proof. unfold transfer. twins. Qed.
Lemma twin_bridge_deposit a d : lockstep twin_svc (bridge_deposit a d).
Proof. unfold bridge_deposit. twins. Qed.
Lemma twin_bridge_withdraw a w : lockstep twin_svc (bridge_withdraw a w).
Proof. unfold bridge_withdraw. twins. Qed.

Lemma twin_call {A} (m : ST SvcState EngineError A) :
  lockstep twin_svc m -> lockstep twin_engine (engine_call (on_services m)).
Proof.
  intros Hm. apply lockstep_map_err. apply (lockstep_zoom_to _ twin_svc); [| |exact Hm].
  - intros e e2 [h ->]. by exists h.
  - intros t t2 e e2 [h ->] [h' ->]. by exists h'.
Qed.

End stores.

(** * Blocks on nodes that trade nothing

    The only set the state stores is the index of the positions, so without
    positions the order never gets out. *)

Section nodes.
Context {B : Backend} {Bok : BackendOk B} {V : TxEnv} {G : SigEnv}.
Implicit Types (n : Node) (s : StateManager) (e : Engine).

Definition quiet_states s1 s2 : Prop := twin_state s1 s2 /\ dormant s1.
Definition quiet_engines e1 e2 : Prop := twin_engine e1 e2 /\ dormant (en_state e1).
Definition quiet_twins n1 n2 : Prop :=
  quiet_engines (nd_engine n1) (nd_engine n2) /\ nd_max_bytes n1 = nd_max_bytes n2.

Lemma quiet_payload tx : lockstep quiet_engines (execute_tx_payload_readonly tx).
Proof.
  intros e1 e2 [Ht Hd]. pose proof (payload_dormant tx e1 Hd) as Hd1.
  assert (H : fst (execute_tx_payload_readonly tx e1) = fst (execute_tx_payload_readonly tx e2) /\
    twin_engine (snd (execute_tx_payload_readonly tx e1)) (snd (execute_tx_payload_readonly tx e2)));
    [|by destruct H].
  destruct (refusal (tx_payload tx)) as [x|] eqn:Ex.
  { assert (Hd2 : dormant (en_state e2)) by (destruct Ht as [h ->]; exact Hd).
    by rewrite (payload_refused tx x e1 Ex Hd), (payload_refused tx x e2 Ex Hd2). }
  clear Hd Hd1. revert e1 e2 Ht. change (lockstep twin_engine (execute_tx_payload_readonly tx)).
  unfold execute_tx_payload_readonly. destruct (tx_payload tx); try discriminate Ex; try apply lockstep_fail;
    apply twin_call; first [apply twin_update_balance|apply twin_emit|apply twin_transfer
      |apply twin_bridge_deposit|apply twin_bridge_withdraw].
Qed.

Lemma quiet_with_engine {A} (m : ST Engine TxExecutionError A) :
  lockstep quiet_engines m -> lockstep quiet_twins (with_engine m).
Proof. intros Hm. apply (lockstep_zoom_to _ quiet_engines); [by intros n1 n2 []| |exact Hm]. by intros e1 e2 n1 n2 [_ ?]. Qed.

Lemma quiet_node_state {E A} (f : StateError -> E) (m : ST StateManager StateError A) :
  lockstep twin_state m -> preserves dormant m -> lockstep quiet_twins (on_node_state f m).
Proof.
  intros Hm Hd. apply lockstep_map_err, (lockstep_zoom_to _ quiet_states).
  - intros n1 n2 [[[h He] Hd1] _]. split; [|exact Hd1]. unfold nd_state. rewrite He. by exists h.
  - intros s1 s2 n1 n2 [[[h He] _] Hb] [[h' ->] Hd']. split; [|exact Hb]. split; [|exact Hd'].
    cbn. rewrite He. by exists h'.
  - intros s1 s2 [Ht Hd1]. destruct (Hm s1 s2 Ht) as [E1 E2]. split; [done|]. split; [done|by apply Hd].
Qed.

Lemma quiet_other {E} (f : Node -> Node) :
  (forall n, nd_engine (f n) = nd_engine n /\ nd_max_bytes (f n) = nd_max_bytes n) ->
  lockstep (E := E) quiet_twins (st_modify f).
Proof.
  intros Hf. apply lockstep_modify. intros n1 n2 [He Hm]. destruct (Hf n1) as [E1 E2], (Hf n2) as [E3 E4].
  unfold quiet_twins. by rewrite E1, E2, E3, E4.
Qed.

Lemma quiet_nonce n1 n2 a : quiet_twins n1 n2 -> get_nonce (nd_state n1) a = get_nonce (nd_state n2) a.
Proof. intros [[[h He] _] _]. apply twin_get_or_default. exists h. unfold nd_state. by rewrite He. Qed.

Lemma quiet_increment a : lockstep quiet_twins (on_node_state TeState (increment_nonce a)).
Proof.
  apply quiet_node_state.
  - unfold increment_nonce. apply lockstep_bind.
    + apply lockstep_read. intros s1 s2. apply twin_get_or_default.
    + intros k. apply lockstep_bind; [apply twin_on_storage, twin_set|intros _; apply lockstep_ret].
  - intros s Hs. eapply dormant_frame; [apply (frames_increment_nonce a s)| |exact Hs]. by intros k <- [].
Qed.

Lemma quiet_execute tx : lockstep quiet_twins (execute tx).
Proof.
  unfold execute. apply lockstep_bind; [apply lockstep_lift|intros _].
  apply lockstep_bind; [|intros _; apply lockstep_bind; [|intros _; apply lockstep_bind; [|intros _]]].
  - unfold verify_nonce. apply lockstep_bind.
    + apply lockstep_read. intros n1 n2 Hn. f_equal. by apply quiet_nonce.
    + intros k. destruct (_ ?= _); first [apply lockstep_ret|apply lockstep_fail].
  - pose proof (quiet_with_engine _ (quiet_payload tx)) as Hp. unfold execute_tx_payload, execute_tx_payload_readonly in *.
    destruct (tx_payload tx); try exact Hp.
    all: apply lockstep_bind; [apply lockstep_bind; [apply lockstep_lift|intros signer; apply lockstep_guard]|intros _].
    all: apply lockstep_bind; [by apply quiet_other|intros _; exact Hp].
  - apply quiet_increment.
  - by apply quiet_other.
Qed.

Lemma quiet_batch block : forall stats n1 n2, quiet_twins n1 n2 ->
  quiet_twins (snd (foldl execute_bytes (stats, n1) block)) (snd (foldl execute_bytes (stats, n2) block)).
Proof.
  induction block as [|b block IH]; intros stats n1 n2 Hn; [done|]. cbn [foldl execute_bytes].
  destruct (decode_tx b) as [tx|x]; [|by apply IH].
  destruct (quiet_execute tx n1 n2 Hn) as [E1 E2].
  destruct (execute tx n1) as [r1 m1], (execute tx n2) as [r2 m2]. cbn in E1, E2. subst r2. by apply IH.
Qed.

Lemma quiet_execute_txs height block : lockstep quiet_twins (execute_txs height block).
Proof.
  unfold execute_txs. apply lockstep_bind.
  { apply lockstep_modify. intros n1 n2 [[[h He] Hd] Hm]. split; [|exact Hm]. split; [|exact Hd].
    exists h. cbn. unfold nd_state. by rewrite He. }
  intros _. apply lockstep_bind; [apply lockstep_modify; intros n1 n2; apply quiet_batch|intros _].
  apply lockstep_bind; [|intros root; apply lockstep_gets; intros n1 n2 [_ Hm]; unfold block_response; by rewrite Hm].
  apply quiet_node_state.
  - unfold commit. apply lockstep_bind; [apply lockstep_gets; by intros s1 s2 [h ->]|intros v].
    apply twin_on_storage, twin_commit.
  - intros s Hs. pose proof (contents_commit untraded (sm_version s) (sm_storage s) Hs) as Hc.
    unfold commit, st_bind, st_gets, on_storage, st_zoom. by destruct (storage_commit _ _).
Qed.

(** ** From the start *)

Definition asset_keys (k : StateKey) : Prop := match k with SK_AssetInfo _ | SK_AssetList => True | _ => False end.
Lemma frames_set_asset i a : frames id asset_keys (set_asset i a).
Proof. unfold set_asset, add_to_list. repeat frames_step; exact I. Qed.
Lemma twin_set_asset i a : lockstep twin_state (set_asset i a).
Proof.
  unfold set_asset, add_to_list. apply lockstep_bind; [apply twin_on_storage, twin_set|intros _].
  apply lockstep_bind; [apply lockstep_read; intros s1 s2; apply twin_get_or_default|intros l].
  case_bool_decide; [apply lockstep_ret|apply twin_on_storage, twin_set].
Qed.

Lemma quiet_for {A E} (l : list A) (body : A -> ST Node E unit) :
  (forall x, lockstep quiet_twins (body x)) -> lockstep quiet_twins (st_for l body).
Proof.
  intros Hb. induction l as [|x l IH]; cbn [st_for]; [apply lockstep_ret|]. by apply lockstep_bind.
Qed.

Lemma quiet_start parse config : lockstep quiet_twins (start_assets ;; start_operators parse config).
Proof.
  apply lockstep_bind; [|intros _].
  - apply lockstep_map_err, quiet_for. intros a. apply quiet_node_state; [apply twin_set_asset|].
    intros s Hs. eapply dormant_frame; [apply (frames_set_asset (a_id a) a s)| |exact Hs].
    intros k Hk Ht. by destruct k.
  - unfold start_operators. destruct (has_bridge_operators config); [|apply lockstep_ret].
    apply lockstep_bind; [apply lockstep_lift|intros ops]. apply lockstep_map_err, quiet_for. intros op.
    apply quiet_node_state; [apply twin_on_storage, twin_set|].
    intros s Hs. eapply dormant_frame; [apply (frames_set serde_bool (SK_BridgeOperator op) true s)| |exact Hs].
    by intros k <- [].
Qed.

(** Two daemons with the same operators; where they listen and keep their data
    does not matter. *)
Lemma quiet_started parse config1 config2 h1 h2 r1 r2 n1 n2 sn1 sn2 :
  bridge_operators config1 = bridge_operators config2 ->
  start_server parse config1 (Ok ∅) h1 = Some (r1, (n1, sn1)) ->
  start_server parse config2 (Ok ∅) h2 = Some (r2, (n2, sn2)) -> quiet_twins n1 n2.
Proof.
  intros Hc [H1 _]%start_server_run [H2 _]%start_server_run.
  assert (Ec : start_operators parse config1 = start_operators parse config2).
  { unfold start_operators, has_bridge_operators, parse_bridge_operators. by rewrite Hc. }
  rewrite Ec in H1. destruct (quiet_start parse config2 (node_on_disk ∅ h1) (node_on_disk ∅ h2)) as [_ H].
  { split; [split; [by exists h2|exact (node_new_dormant h1)]|done]. }
  by rewrite H1, H2 in H.
Qed.

End nodes.

(** * Lives *)

Section lives.
Context {B : Backend} {Bok : BackendOk B} {V : TxEnv} {G : SigEnv} {X : HexEnv} {P : PrometheusEnv} {T : BroadcastEnv}.
Implicit Types (n : Node) (s : RpcState).

Lemma quiet_blocks bs : forall s1 s2, quiet_twins (rs_node s1) (rs_node s2) ->
  fst (run_node (map only_block bs) s1) = fst (run_node (map only_block bs) s2) /\
  quiet_twins (rs_node (snd (run_node (map only_block bs) s1))) (rs_node (snd (run_node (map only_block bs) s2))).
Proof.
  induction bs as [|[height txs] bs IH]; intros s1 s2 Hs; [done|]. cbn [map run_node only_block fst snd].
  destruct (quiet_execute_txs height txs _ _ Hs) as [E1 E2].
  destruct (execute_txs height txs (rs_node s1)) as [a1 n1], (execute_txs height txs (rs_node s2)) as [a2 n2].
  cbn [fst snd] in E1, E2. subst a2.
  destruct (IH (with_rs_node n1 s1) (with_rs_node n2 s2) E2) as [E3 E4].
  destruct (run_node _ _), (run_node _ (with_rs_node n2 s2)). cbn [fst snd] in *. by subst.
Qed.

Lemma twins_agree n1 n2 : quiet_twins n1 n2 ->
  state_root (nd_state n1) = state_root (nd_state n2) /\
  forall A (S : Serde Bytes A) key, sm_get (nd_state n1) key = sm_get (nd_state n2) key.
Proof.
  intros [[[h He] _] _]. assert (Ht : twin_state (nd_state n1) (nd_state n2)) by (exists h; unfold nd_state; by rewrite He).
  split; [by destruct Ht as [h' ->]|]. intros A S key. by apply twin_sm_get.
Qed.

(** C4: daemons cannot be made to disagree.  Two daemons started on empty
    databases with the same operators, and given the same blocks, at whatever
    heights, with commits that prune or fail, answer every block the same, with
    the same state root, and read the same under every key in the end, whatever
    requests each of them gets before, between and after the blocks, in any
    number and order: transactions submitted to only one of them, agents set on
    one and removed on the other.  The two processes may iterate their hash tables
    in different orders: the one stored value whose bytes follow that order, the
    position index of a market, is never written, as no position ever exists.
    (With positions it would be, see [index_bytes_differ].) *)
Theorem daemons_never_fork parse config1 config2 h1 h2 n1 n2 sn1 sn2 ops1 ops2 :
  bridge_operators config1 = bridge_operators config2 ->
  start_server parse config1 (Ok ∅) h1 = Some (Ok tt, (n1, sn1)) ->
  start_server parse config2 (Ok ∅) h2 = Some (Ok tt, (n2, sn2)) ->
  blocks_of ops1 = blocks_of ops2 ->
  let '(answers1, s1) := run_node ops1 (RpcState_new_from_shared n1) in
  let '(answers2, s2) := run_node ops2 (RpcState_new_from_shared n2) in
  answers1 = answers2 /\
  state_root (nd_state (rs_node s1)) = state_root (nd_state (rs_node s2)) /\
  forall A (S : Serde Bytes A) key,
    sm_get (nd_state (rs_node s1)) key = sm_get (nd_state (rs_node s2)) key.
Proof.
  intros Hc H1 H2 Hb. pose proof (quiet_started _ _ _ _ _ _ _ _ _ _ _ Hc H1 H2) as Hq.
  set (i1 := RpcState_new_from_shared n1). set (i2 := RpcState_new_from_shared n2).
  change (quiet_twins (rs_node i1) (rs_node i2)) in Hq.
  destruct (run_node_blocks ops1 i1 i1 (conj eq_refl eq_refl)) as [E1 [E2 _]].
  destruct (run_node_blocks ops2 i2 i2 (conj eq_refl eq_refl)) as [E3 [E4 _]].
  destruct (quiet_blocks (blocks_of ops1) i1 i2 Hq) as [E5 E6].
  rewrite Hb in *. apply twins_agree in E6 as [E6 E7].
  destruct (run_node ops1 i1) as [a1 s1], (run_node ops2 i2) as [a2 s2]. cbn [fst snd] in *.
  unfold nd_state in *. rewrite E2, E4. split_and!; [congruence|exact E6|exact E7].
Qed.

End lives.

(** * Where the order gets out

    With positions it does: two processes in the same state write the index of
    the same two positions in different orders, so the bytes differ, and with
    them what the tree hashes, although the index reads back the same. *)
Definition two_positions (s : StateManager) : StateManager :=
  snd (set_position 2 0 demo_position (snd (set_position 1 0 demo_position s))).

Lemma index_bytes_differ :
  let s1 := two_positions sm_demo in
  let s2 := two_positions (in_process true sm_demo) in
  pending_updates (sm_storage s1) !! SK_PositionIndex 0 = Some (BlobAddresses [1; 2]) /\
  pending_updates (sm_storage s2) !! SK_PositionIndex 0 = Some (BlobAddresses [2; 1]) /\
  get_position_addresses s1 0 = get_position_addresses s2 0 /\
  get_position s1 1 0 = get_position s2 1 0 /\ get_position s1 2 0 = get_position s2 2 0.
Proof. vm_compute. by split_and!. Qed.

(** * Witness *)

#[local] Instance demo_fork_metrics : PrometheusEnv := {| PromMetrics := unit; prom_export _ := None |}.
#[local] Instance demo_fork_hex : HexEnv := fun s =>
  if bool_decide (s = "aa"%string) then Some (encode (signed_by 1 0 (SetAgent {| sa_agent := 9; sa_permissions := 3 |})))
  else None.

(** The two daemons get the same deposit; one of them is also told of an agent. *)
Definition quiet_ops : list NodeOp := [Block 1 daemon_block; Block 1 []].
Definition busy_ops : list NodeOp :=
  [Call (ReqSetAgent {| sar_tx := "0xaa" |}); Block 1 daemon_block; Call ReqListAssets; Block 1 []].
Definition other_demo : Node :=
  snd ((start_assets ;; start_operators demo_parse (demo_start ["7"%string])) (node_on_disk ∅ true)).

Lemma other_demo_started :
  start_server demo_parse (demo_start ["7"%string]) (Ok ∅) (true : HashState (Backend := mem_backend)) =
  Some (Ok tt, (other_demo, SnapshotService_new None)).
Proof.
  assert (E : fst ((start_assets ;; start_operators demo_parse (demo_start ["7"%string]))
    (node_on_disk ∅ true)) = Ok tt) by (vm_compute; reflexivity).
  rewrite start_server_eq, (run_result _ _ _ E). reflexivity.
Qed.

Lemma daemons_never_fork_witness :
  let run1 := run_node quiet_ops (RpcState_new_from_shared daemon_demo) in
  let run2 := run_node busy_ops (RpcState_new_from_shared other_demo) in
  agent_permissions (nd_auth (rs_node (snd run1))) 1 9 = None /\
  agent_permissions (nd_auth (rs_node (snd run2))) 1 9 = Some 3 /\ fst run1 = fst run2.
Proof.
  intros run1 run2. split; [vm_compute; reflexivity|]. split; [vm_compute; reflexivity|].
  pose proof (daemons_never_fork demo_parse (demo_start ["7"%string]) (demo_start ["7"%string]) _ _
    daemon_demo other_demo _ _ quiet_ops busy_ops eq_refl daemon_demo_started other_demo_started eq_refl) as H.
  fold run1 run2 in H. destruct run1, run2. exact (proj1 H).
Defined.
