(* ===== verification/Serve.v ===== *)
(** The daemon as a process: crates/app/src/main.rs, the log and the two servers
    of crates/app/src/server.rs, and [start_server] of crates/rpc/src/lib.rs.
    What a server does until it ends is a list of node operations
    ([Transport.NodeOp]); when and how each ends is up to the outside. *)
From stdpp Require Import base gmap sets list sorting strings.
From Stdlib Require Import ZArith.
From S2P Require Import Prelude Types Storage State Tx EngineBase Services Engine Auth Mempool Snapshot Exec Startup Rpc Transport.

(** * The log *)

Inductive Server := GrpcServer | RpcServer.
#[export] Instance Server_eq_dec : EqDecision Server.
Proof. solve_decision. Defined.

Inductive LogLine :=
| StartingDaemon | LogAddr (s : Server) (addr : string) | LogDbPath (path : string)
| SnapshotEvery (interval : Z)
| SnapshotToS3 (bucket prefix : string) | SnapshotToGCS (bucket prefix : string)
| SnapshotToLocal (path : string)
| InitializingAssets | AssetsInitialized
| NoBridgeOperators | BridgeHint | InitializingOperators
| OperatorsAuthorized (n : nat) | OperatorLine (i : nat) (operator : Address)
| RpcListening (addr : string)
| DaemonStarted | PressCtrlC
| LogStopped (s : Server) | LogServerError (s : Server) | LogTaskError (s : Server)
| VersionLine | AboutLine.

Definition log_snapshot_config (interval : Z) (p : CloudProvider) : list LogLine :=
  SnapshotEvery interval ::
  match p with
  | S3 cfg => [SnapshotToS3 (s3_bucket cfg) (s3_prefix cfg)]
  | GCS cfg => [SnapshotToGCS (gcs_bucket cfg) (gcs_prefix cfg)]
  | Local path => [SnapshotToLocal path]
  end.

Definition log_startup_info (config : StartConfig) : list LogLine :=
  [StartingDaemon; LogAddr GrpcServer (grpc_addr config); LogAddr RpcServer (rpc_addr config);
   LogDbPath (db_path config)].

Definition log_operators (operators : list Address) : list LogLine :=
  OperatorsAuthorized (length operators) :: imap (fun i op => OperatorLine (S i) op) operators.

(** The directives the log is filtered by: the environment's, when they parse,
    else the default of the debug switch ([parse_filter] is [EnvFilter::try_new]). *)
Definition init_tracing {Filter} (env_filter : option Filter) (parse_filter : string -> option Filter)
    (debug : bool) : option Filter :=
  match env_filter with
  | Some filter => Some filter
  | None => parse_filter (if debug then "debug" else "info")%string
  end.

(** * The servers *)

(** How a task that serves ends: with [Ok], with an error, or by a panic. *)
Inductive Exit := Returned | Failed | Crashed.

(** The RPC server: binding its address may fail, later serving may. *)
Inductive RpcEnd := BindFailed | ServeFailed | Served.
Definition rpc_start_server (addr : string) (e : RpcEnd) : result RpcError unit * list LogLine :=
  match e with
  | BindFailed => (Err RpcServerError, [])
  | ServeFailed => (Err RpcServerError, [RpcListening addr])
  | Served => (Ok tt, [RpcListening addr])
  end.
Definition rpc_exit (addr : string) (e : RpcEnd) : Exit :=
  match (rpc_start_server addr e).1 with Ok _ => Returned | Err _ => Failed end.

(** The end of one of the two tasks, the first that [select!] sees. *)
Inductive FirstEnd := GrpcEnds (e : Exit) | RpcEnds (e : RpcEnd) | RpcPanics.
Definition first_exit (addr : string) (f : FirstEnd) : Server * Exit :=
  match f with
  | GrpcEnds e => (GrpcServer, e)
  | RpcEnds e => (RpcServer, rpc_exit addr e)
  | RpcPanics => (RpcServer, Crashed)
  end.
Definition log_exit (s : Server) (e : Exit) : LogLine :=
  match e with Returned => LogStopped s | Failed => LogServerError s | Crashed => LogTaskError s end.

Inductive DaemonError := StartFailed (e : StartError) | BadGrpcAddr.

(** * The daemon *)

Section serve.
Context {B : Backend} {V : TxEnv} {G : SigEnv} {X : HexEnv} {P : PrometheusEnv} {T : BroadcastEnv}.
Context (parse : string -> option Address) {SocketAddr : Type} (parse_addr : string -> option SocketAddr).

(** A run of the daemon: what it logged, and the node while it is up. *)
Definition Daemon (E A : Type) : Type := ST (list LogLine * Node) E A.
Definition info {E} (lines : list LogLine) : Daemon E unit :=
  st_modify (fun d => (d.1 ++ lines, d.2)).
Definition on_daemon_node {E A} (m : ST Node E A) : Daemon E A :=
  st_zoom snd (fun n d => (d.1, n)) m.

Definition serve_assets : Daemon StartError unit :=
  info [InitializingAssets] ;;
  on_daemon_node start_assets ;;
  info [AssetsInitialized].

Definition serve_bridge_operators (config : StartConfig) : Daemon StartError unit :=
  if negb (has_bridge_operators config) then info [NoBridgeOperators; BridgeHint]
  else
    info [InitializingOperators] ;;
    let! operators := st_lift (ok_or BadOperator (parse_bridge_operators parse config)) in
    on_daemon_node (st_map_err OperatorsFailed (initialize_bridge_operators operators)) ;;
    info (log_operators operators).

(** The servers run on the node until the first of them ends; the other one
    goes down with the process. *)
Definition spawn_servers (config : StartConfig) (life : list NodeOp) (f : FirstEnd)
    : Daemon DaemonError unit :=
  let! _ := st_lift (ok_or BadGrpcAddr (parse_addr (grpc_addr config))) in
  info [DaemonStarted; PressCtrlC] ;;
  on_daemon_node (st_modify (fun n => rs_node (run_node life (RpcState_new_from_shared n)).2)) ;;
  let '(s, e) := first_exit (rpc_addr config) f in info [log_exit s e].

(** [start_server] of the daemon, in its two halves: up to opening the service,
    which panics without a database, and from there on. *)
Definition opening_lines (config : StartConfig) : list LogLine :=
  log_startup_info config ++
  match snapshot_exporter_config config with
  | Some cfg => log_snapshot_config (auto_export_interval cfg) (provider cfg)
  | None => []
  end.
Definition serve (config : StartConfig) (life : list NodeOp) (f : FirstEnd) : Daemon DaemonError unit :=
  st_map_err StartFailed (serve_assets ;; serve_bridge_operators config) ;;
  spawn_servers config life f.

(** How the process ends: with the result of [main], or by a panic of its main
    thread; with what it logged, and the node if it got one. *)
Inductive ProcessEnd := MainReturned (r : result DaemonError unit) | MainPanicked.
Definition Run : Type := ProcessEnd * (list LogLine * option Node).
(** The exit status: 0 for [Ok], 1 for an error, 101 for a panic. *)
Definition exit_status (e : ProcessEnd) : Z :=
  match e with MainReturned (Ok _) => 0 | MainReturned (Err _) => 1 | MainPanicked => 101 end.

Definition serve_daemon (config : StartConfig) (opened : result StateError (gmap StorageKey DbValue))
    (h : HashState) (life : list NodeOp) (f : FirstEnd) : Run :=
  match open_service opened h config with
  | None => (MainPanicked, (opening_lines config, None))
  | Some (n, _) =>
      let '(r, (log, n)) := serve config life f (opening_lines config, n) in
      (MainReturned r, (log, Some n))
  end.

Inductive Commands := Start (config : StartConfig) | Version.

(** [main] on a parsed command line; [env_filter] is the filter of the
    environment, if there is one that parses, [opened] the answer of [DB::open]. *)
Definition app_main {Filter} (env_filter : option Filter) (parse_filter : string -> option Filter)
    (command : Commands) (opened : result StateError (gmap StorageKey DbValue)) (h : HashState)
    (life : list NodeOp) (f : FirstEnd) : Run :=
  match command with
  | Start config =>
      match init_tracing env_filter parse_filter (debug config) with
      | None => (MainPanicked, ([], None))
      | Some _ => serve_daemon config opened h life f
      end
  | Version => (MainReturned (Ok tt), ([VersionLine; AboutLine], None))
  end.

(** ** Logging aside, the daemon starts as [Startup.start_server] says *)

Definition quiet {E A} (r : result E A * (list LogLine * Node)) : result E A * Node := (r.1, r.2.2).

Lemma quiet_info {E A} lines (k : Daemon E A) d :
  (info lines ;; k) d = k (d.1 ++ lines, d.2).
Proof. done. Qed.

Lemma quiet_node {E A} (m : ST Node E A) d : quiet (on_daemon_node m d) = m d.2.
Proof. unfold quiet, on_daemon_node, st_zoom. by destruct (m d.2). Qed.

(** The start, in full: what is logged does not matter to the rest. *)
Lemma serve_start_run config d :
  quiet ((serve_assets ;; serve_bridge_operators config) d) =
  (start_assets ;; start_operators parse config) d.2.
Proof.
  unfold serve_assets, serve_bridge_operators, start_operators, on_daemon_node, st_bind, st_zoom, quiet.
  cbn. destruct (start_assets d.2) as [[[]|e] n]; [cbn|done].
  destruct (has_bridge_operators config); [cbn|done].
  destruct (parse_bridge_operators parse config) as [operators|]; [cbn|done].
  unfold st_map_err. by destruct (initialize_bridge_operators operators n) as [[[]|e] n'].
Qed.

(** C38: The whole run of the daemon.  It panics, with status 101 and before it
    has a node, exactly when no log filter parses (neither the environment's nor
    the default) or the database cannot be opened.  Else it fails, with status 1, exactly when an asset or
    operator cannot be registered or the gRPC address does not parse, and then it
    has served nothing.  In every other case it serves until the first of its two
    servers ends, takes the other one down and exits with status 0: also when that
    server could not bind its port, failed or panicked, which only the last line
    of the log tells. *)
Theorem serve_exact {Filter} env_filter (parse_filter : string -> option Filter) config opened h life f :
  let '(e, (log, node)) := app_main env_filter parse_filter (Start config) opened h life f in
  match init_tracing env_filter parse_filter (debug config), start_server parse config opened h with
  | None, _ | _, None => exit_status e = 101 /\ node = None
  | Some _, Some (Err x, (n0, _)) => exit_status e = 1 /\ e = MainReturned (Err (StartFailed x)) /\ node = Some n0
  | Some _, Some (Ok _, (n0, _)) =>
      match parse_addr (grpc_addr config) with
      | None => exit_status e = 1 /\ e = MainReturned (Err BadGrpcAddr) /\ node = Some n0
      | Some _ =>
          exit_status e = 0 /\ node = Some (rs_node (run_node life (RpcState_new_from_shared n0)).2) /\
          let '(s, x) := first_exit (rpc_addr config) f in last log = Some (log_exit s x)
      end
  end.
Proof.
  rewrite start_server_eq. cbn [app_main]. destruct (init_tracing _ _ _); [|done].
  unfold serve_daemon. rewrite open_service_eq. destruct opened as [d|x]; [|done].
  unfold serve. set (lines := opening_lines config).
  pose proof (serve_start_run config (lines, node_on_disk d h)) as Hq. unfold quiet in Hq. cbn [snd] in Hq.
  unfold st_bind at 1, st_map_err.
  destruct ((serve_assets ;; serve_bridge_operators config) (lines, node_on_disk d h)) as [r [log n0]] eqn:E.
  cbn [fst snd] in Hq. rewrite <- Hq. destruct r as [[]|e]; cbn; [|done].
  unfold spawn_servers, st_bind, st_lift, ok_or.
  destruct (parse_addr (grpc_addr config)); cbn; [|done].
  destruct (first_exit (rpc_addr config) f) as [srv ex]. cbn. split_and!; [done|done|].
  by rewrite last_snoc.
Qed.
End serve.
