(* ===== verification/Metrics.v ===== *)
(** The Prometheus metrics of the RPC server (crates/rpc/src/metrics.rs).  The
    prometheus crate is a parameter; of what it documents the theorems use that a
    registry takes a name once and that a label set of the right length never
    panics and has a value of its own. *)
From stdpp Require Import base gmap sets list strings pretty.
From Stdlib Require Import ZArith Lia.
From S2P Require Import Prelude Float64 Transport.

(** * The prometheus crate *)

Inductive PromError := AlreadyReg | PromOther.
Inductive MetricKind := Counter | Gauge | Histogram.

(** [PromWorld] holds the process-wide default registry, the registries made and
    the values of every collector; a [Vec] is a handle that clones share. *)
Class Prometheus := {
  PromWorld : Type;
  Registry : Type;
  Vec : MetricKind -> Type;
  registry_new : PromWorld -> Registry * PromWorld;
  (** the macros [register_counter_vec!], [register_gauge_vec!] and
      [register_histogram_vec!]: a new collector, put in the default registry *)
  register_vec (k : MetricKind) (name help : string) (labels : list string) : ST PromWorld PromError (Vec k);
  (** [Registry::register] *)
  registry_register {k} (r : Registry) (v : Vec k) : ST PromWorld PromError unit;
  (** [with_label_values(labels).inc()] and [.set(x)]; [None] is the panic *)
  counter_inc (v : Vec Counter) (labels : list string) : PromWorld -> option PromWorld;
  gauge_set (v : Vec Gauge) (labels : list string) (x : f64) : PromWorld -> option PromWorld;
  (** [TextEncoder] on what [Registry::gather] returns *)
  gather_text (r : Registry) : PromWorld -> result PromError string;
}.

Class PrometheusOk (P : Prometheus) := {
  default_names : PromWorld -> list string;
  names_in : Registry -> PromWorld -> list string;
  vec_name {k} : Vec k -> string;
  vec_arity {k} : Vec k -> nat;
  counter_value : Vec Counter -> list string -> PromWorld -> f64;
  registry_new_ok w : let '(r, w') := registry_new w in
    names_in r w' = [] /\ default_names w' = default_names w;
  register_vec_new k name help labels w : name ∉ default_names w ->
    exists v w', register_vec k name help labels w = (Ok v, w') /\
      default_names w' = name :: default_names w /\ (forall r, names_in r w' = names_in r w) /\
      vec_name v = name /\ vec_arity v = length labels;
  register_vec_dup k name help labels w : name ∈ default_names w ->
    register_vec k name help labels w = (Err AlreadyReg, w);
  registry_register_new k (r : Registry) (v : Vec k) w : vec_name v ∉ names_in r w ->
    exists w', registry_register r v w = (Ok tt, w') /\
      default_names w' = default_names w /\ names_in r w' = vec_name v :: names_in r w;
  counter_inc_ok v labels w : length labels = vec_arity v ->
    exists w', counter_inc v labels w = Some w' /\
      counter_value v labels w' = f64_add (counter_value v labels w) (f64_of_int 1) /\
      (forall u ls, (vec_name u, ls) <> (vec_name v, labels) -> counter_value u ls w' = counter_value u ls w);
  gauge_set_ok v labels x w : length labels = vec_arity v ->
    exists w', gauge_set v labels x w = Some w' /\
      (forall u ls, counter_value u ls w' = counter_value u ls w);
}.

(** * The metrics *)

Section metrics.
Context {P : Prometheus}.

Record Metrics := {
  mt_registry : Registry;
  tx_submitted : Vec Counter;
  tx_processed : Vec Counter;
  tx_failed : Vec Counter;
  orders_placed : Vec Counter;
  orders_cancelled : Vec Counter;
  orders_filled : Vec Counter;
  positions_opened : Vec Counter;
  positions_closed : Vec Counter;
  liquidations : Vec Counter;
  request_duration : Vec Histogram;
  tx_processing_duration : Vec Histogram;
  active_orders : Vec Gauge;
  active_positions : Vec Gauge;
  total_volume : Vec Counter;
  mempool_size : Vec Gauge;
  block_height : Vec Gauge;
}.

(** The two statements that make each collector. *)
Definition registered (registry : Registry) (k : MetricKind) (name help : string) (labels : list string)
    : ST PromWorld PromError (Vec k) :=
  let! v := register_vec k name help labels in
  registry_register registry v ;;
  st_ret v.

Definition Metrics_new : ST PromWorld PromError Metrics :=
  let! registry := (fun w => let '(r, w') := registry_new w in (Ok r, w')) in
  let! tx_submitted := registered registry Counter "pranklin_tx_submitted_total"
    "Total number of transactions submitted" ["tx_type"] in
  let! tx_processed := registered registry Counter "pranklin_tx_processed_total"
    "Total number of transactions processed" ["tx_type"; "status"] in
  let! tx_failed := registered registry Counter "pranklin_tx_failed_total"
    "Total number of failed transactions" ["tx_type"; "error_type"] in
  let! orders_placed := registered registry Counter "pranklin_orders_placed_total"
    "Total number of orders placed" ["market_id"; "side"] in
  let! orders_cancelled := registered registry Counter "pranklin_orders_cancelled_total"
    "Total number of orders cancelled" ["market_id"] in
  let! orders_filled := registered registry Counter "pranklin_orders_filled_total"
    "Total number of orders filled" ["market_id"] in
  let! positions_opened := registered registry Counter "pranklin_positions_opened_total"
    "Total number of positions opened" ["market_id"; "side"] in
  let! positions_closed := registered registry Counter "pranklin_positions_closed_total"
    "Total number of positions closed" ["market_id"] in
  let! liquidations := registered registry Counter "pranklin_liquidations_total"
    "Total number of liquidations" ["market_id"] in
  let! request_duration := registered registry Histogram "pranklin_request_duration_seconds"
    "Request duration in seconds" ["endpoint"; "method"] in
  let! tx_processing_duration := registered registry Histogram "pranklin_tx_processing_duration_seconds"
    "Transaction processing duration in seconds" ["tx_type"] in
  let! active_orders := registered registry Gauge "pranklin_active_orders"
    "Number of active orders" ["market_id"] in
  let! active_positions := registered registry Gauge "pranklin_active_positions"
    "Number of active positions" ["market_id"] in
  let! total_volume := registered registry Counter "pranklin_total_volume"
    "Total trading volume" ["market_id"] in
  let! mempool_size := registered registry Gauge "pranklin_mempool_size"
    "Number of transactions in mempool" [] in
  let! block_height := registered registry Gauge "pranklin_block_height" "Current block height" [] in
  st_ret {|
    mt_registry := registry; tx_submitted := tx_submitted; tx_processed := tx_processed;
    tx_failed := tx_failed; orders_placed := orders_placed; orders_cancelled := orders_cancelled;
    orders_filled := orders_filled; positions_opened := positions_opened;
    positions_closed := positions_closed; liquidations := liquidations;
    request_duration := request_duration; tx_processing_duration := tx_processing_duration;
    active_orders := active_orders; active_positions := active_positions;
    total_volume := total_volume; mempool_size := mempool_size; block_height := block_height |}.

(** [Default::default]; [None] is the panic. *)
Definition Metrics_default (w : PromWorld) : option (Metrics * PromWorld) :=
  match Metrics_new w with (Ok m, w') => Some (m, w') | (Err _, _) => None end.

Definition export (m : Metrics) (w : PromWorld) : result PromError string := gather_text (mt_registry m) w.

Definition record_tx_submitted (m : Metrics) (tx_type : string) :=
  counter_inc (tx_submitted m) [tx_type].
Definition record_tx_processed (m : Metrics) (tx_type : string) (success : bool) :=
  let status := if success then "success"%string else "failure"%string in
  counter_inc (tx_processed m) [tx_type; status].
Definition record_tx_failed (m : Metrics) (tx_type error_type : string) :=
  counter_inc (tx_failed m) [tx_type; error_type].
Definition record_order_placed (m : Metrics) (market_id : Z) (is_buy : bool) :=
  let market_id_str := pretty market_id in
  let side := if is_buy then "buy"%string else "sell"%string in
  counter_inc (orders_placed m) [market_id_str; side].
Definition record_order_cancelled (m : Metrics) (market_id : Z) :=
  counter_inc (orders_cancelled m) [pretty market_id].
Definition record_order_filled (m : Metrics) (market_id : Z) :=
  counter_inc (orders_filled m) [pretty market_id].
Definition set_active_orders (m : Metrics) (market_id count : Z) :=
  gauge_set (active_orders m) [pretty market_id] (f64_of_int count).
Definition set_mempool_size (m : Metrics) (size : Z) := gauge_set (mempool_size m) [] (f64_of_int size).
Definition set_block_height (m : Metrics) (height : Z) := gauge_set (block_height m) [] (f64_of_int height).

(** The endpoint [/metrics] over these metrics, read in the world [w]. *)
Definition metrics_env (w : PromWorld) : PrometheusEnv := {|
  PromMetrics := Metrics;
  prom_export m := match export m w with Ok text => Some text | Err _ => None end |}.
End metrics.

(** * Properties *)

(** The names, the last registered first. *)
Definition metric_names : list string := [
  "pranklin_block_height"; "pranklin_mempool_size"; "pranklin_total_volume";
  "pranklin_active_positions"; "pranklin_active_orders"; "pranklin_tx_processing_duration_seconds";
  "pranklin_request_duration_seconds"; "pranklin_liquidations_total";
  "pranklin_positions_closed_total"; "pranklin_positions_opened_total";
  "pranklin_orders_filled_total"; "pranklin_orders_cancelled_total"; "pranklin_orders_placed_total";
  "pranklin_tx_failed_total"; "pranklin_tx_processed_total"; "pranklin_tx_submitted_total"]%string.

Section facts.
Context {P : Prometheus} {Pok : PrometheusOk P}.
Implicit Types (w : PromWorld) (m : Metrics).

(** What the record operations rely on: each counter's name and number of labels. *)
Record metrics_ok m : Prop := {
  ok_submitted : vec_name (tx_submitted m) = "pranklin_tx_submitted_total"%string /\ vec_arity (tx_submitted m) = 1%nat;
  ok_processed : vec_name (tx_processed m) = "pranklin_tx_processed_total"%string /\ vec_arity (tx_processed m) = 2%nat;
  ok_failed : vec_name (tx_failed m) = "pranklin_tx_failed_total"%string /\ vec_arity (tx_failed m) = 2%nat;
  ok_placed : vec_name (orders_placed m) = "pranklin_orders_placed_total"%string /\ vec_arity (orders_placed m) = 2%nat;
  ok_cancelled : vec_name (orders_cancelled m) = "pranklin_orders_cancelled_total"%string /\ vec_arity (orders_cancelled m) = 1%nat;
  ok_filled : vec_name (orders_filled m) = "pranklin_orders_filled_total"%string /\ vec_arity (orders_filled m) = 1%nat;
  ok_active : vec_arity (active_orders m) = 1%nat;
  ok_mempool : vec_arity (mempool_size m) = 0%nat;
  ok_height : vec_arity (block_height m) = 0%nat;
}.

(** Before a collector is made: the names made so far are in both registries. *)
Definition made (D : list string) (registry : Registry) (names : list string) w : Prop :=
  default_names w = names ++ D /\ names_in registry w = names.

Lemma registered_ok D registry names k name help labels w :
  made D registry names w -> name ∉ names -> name ∉ D ->
  exists v w', registered registry k name help labels w = (Ok v, w') /\
    made D registry (name :: names) w' /\ vec_name v = name /\ vec_arity v = length labels.
Proof.
  intros [Hd Hr] Hn HD. unfold registered.
  destruct (register_vec_new k name help labels w) as (v & w1 & E1 & Hd1 & Hr1 & Hv & Ha).
  { rewrite Hd. set_solver. }
  destruct (registry_register_new k registry v w1) as (w2 & E2 & Hd2 & Hr2).
  { by rewrite Hr1, Hr, Hv. }
  exists v, w2. erewrite st_bind_eq by exact E1. erewrite st_bind_eq by exact E2.
  split; [done|]. split; [|done]. split; [by rewrite Hd2, Hd1, Hd|by rewrite Hr2, Hr1, Hr, Hv].
Qed.

(** One collector of [Metrics_new]. *)
Ltac collector D HD :=
  lazymatch goal with
  | Hm : made D ?r ?names ?w |- context [st_bind (registered ?r ?k ?name ?help ?labels) _ ?w] =>
      let v := fresh "v" in let w' := fresh "w" in let E := fresh "E" in let Hm' := fresh "Hm" in
      let Hv := fresh "Hv" in let Ha := fresh "Ha" in
      destruct (registered_ok D r names k name help labels w Hm) as (v & w' & E & Hm' & Hv & Ha);
      [apply (bool_decide_unpack _); vm_compute; exact I|apply HD, (bool_decide_unpack _); vm_compute; exact I|];
      rewrite (st_bind_eq _ _ _ _ _ E); clear E Hm
  end.

Lemma metrics_new_run w :
  (forall name, name ∈ metric_names -> name ∉ default_names w) ->
  exists m w', Metrics_new w = (Ok m, w') /\ metrics_ok m /\
    default_names w' = metric_names ++ default_names w /\ names_in (mt_registry m) w' = metric_names.
Proof.
  intros HD. unfold Metrics_new. pose proof (registry_new_ok w) as H0.
  destruct (registry_new w) as [r w0] eqn:E0. destruct H0 as [Hn0 Hd0].
  erewrite st_bind_eq by (cbv beta; rewrite E0; reflexivity).
  assert (Hm : made (default_names w) r [] w0) by (split; [exact Hd0|exact Hn0]).
  do 16 collector (default_names w) HD.
  match goal with Hm : made _ _ _ ?w' |- _ => destruct Hm as [Hd Hr]; eexists _, w' end.
  split; [reflexivity|]. split; [|split; [exact Hd|exact Hr]]. by split.
Qed.

(** C40: A process has its metrics once. In a process that has not used their
    names [Metrics::new] succeeds, with all sixteen collectors in the metrics'
    own registry; but the macros also put each of them in the process-wide
    default registry, so a second [Metrics::new] fails with [AlreadyReg] and
    [Metrics::default] panics. *)
Theorem metrics_once w :
  (forall name, name ∈ metric_names -> name ∉ default_names w) ->
  exists m w', Metrics_new w = (Ok m, w') /\ names_in (mt_registry m) w' = metric_names /\
    (exists w2, Metrics_new w' = (Err AlreadyReg, w2)) /\ Metrics_default w' = None.
Proof.
  intros HD. destruct (metrics_new_run w HD) as (m & w' & E & _ & Hd & Hr).
  assert (Hagain : exists w2, Metrics_new w' = (Err AlreadyReg, w2)).
  { unfold Metrics_new. pose proof (registry_new_ok w') as H0.
    destruct (registry_new w') as [r w0] eqn:E0. destruct H0 as [_ Hd0].
    erewrite st_bind_eq by (cbv beta; rewrite E0; reflexivity).
    exists w0. erewrite st_bind_err; [done|]. unfold registered. erewrite st_bind_err; [done|].
    apply register_vec_dup. rewrite Hd0, Hd. apply elem_of_app. left. set_solver. }
  exists m, w'. split_and!; [done|done|done|].
  unfold Metrics_default. destruct Hagain as [w2 ->]. done.
Qed.

(** ** Recording *)

Inductive RecordOp :=
| RecSubmitted (tx_type : string) | RecProcessed (tx_type : string) (success : bool)
| RecFailed (tx_type error_type : string) | RecPlaced (market_id : Z) (is_buy : bool)
| RecCancelled (market_id : Z) | RecFilled (market_id : Z)
| SetActive (market_id count : Z) | SetMempool (size : Z) | SetHeight (height : Z).

Definition record_op m (o : RecordOp) : PromWorld -> option PromWorld :=
  match o with
  | RecSubmitted t => record_tx_submitted m t
  | RecProcessed t ok => record_tx_processed m t ok
  | RecFailed t e => record_tx_failed m t e
  | RecPlaced k b => record_order_placed m k b
  | RecCancelled k => record_order_cancelled m k
  | RecFilled k => record_order_filled m k
  | SetActive k n => set_active_orders m k n
  | SetMempool n => set_mempool_size m n
  | SetHeight h => set_block_height m h
  end.
Definition record_all m (ops : list RecordOp) (w : PromWorld) : option PromWorld :=
  foldl (fun o op => o ≫= record_op m op) (Some w) ops.

(** The counter an operation bumps, by name and labels. *)
Definition bumps (o : RecordOp) : option (string * list string) :=
  match o with
  | RecSubmitted t => Some ("pranklin_tx_submitted_total", [t])
  | RecProcessed t ok => Some ("pranklin_tx_processed_total", [t; if ok then "success" else "failure"])
  | RecFailed t e => Some ("pranklin_tx_failed_total", [t; e])
  | RecPlaced k b => Some ("pranklin_orders_placed_total", [pretty k; if b then "buy" else "sell"])
  | RecCancelled k => Some ("pranklin_orders_cancelled_total", [pretty k])
  | RecFilled k => Some ("pranklin_orders_filled_total", [pretty k])
  | SetActive _ _ | SetMempool _ | SetHeight _ => None
  end%string.
Definition counters m : list (Vec Counter) :=
  [tx_submitted m; tx_processed m; tx_failed m; orders_placed m; orders_cancelled m; orders_filled m].

Lemma counters_by_name m u v :
  metrics_ok m -> u ∈ counters m -> v ∈ counters m -> vec_name u = vec_name v -> u = v.
Proof.
  intros [[] [] [] [] [] [] _ _ _] Hu Hv. unfold counters in *.
  rewrite !elem_of_cons, elem_of_nil in Hu, Hv.
  intros Hn.
  repeat match goal with H : _ \/ _ |- _ => destruct H as [->|H] end;
    first [done | exfalso; revert Hn;
      repeat match goal with E : vec_name _ = _ |- _ => rewrite E; clear E end; discriminate].
Qed.

Lemma record_op_ok m o w :
  metrics_ok m -> exists w', record_op m o w = Some w' /\
    forall u ls, u ∈ counters m ->
      counter_value u ls w' =
        if decide (bumps o = Some (vec_name u, ls)) then f64_add (counter_value u ls w) (f64_of_int 1)
        else counter_value u ls w.
Proof.
  intros Hm.
  assert (Hinc : forall v labels name n, v ∈ counters m -> vec_name v = name /\ vec_arity v = n ->
    length labels = n -> exists w', counter_inc v labels w = Some w' /\
    forall u ls, u ∈ counters m -> counter_value u ls w' =
        if decide (Some (name, labels) = Some (vec_name u, ls))
        then f64_add (counter_value u ls w) (f64_of_int 1) else counter_value u ls w).
  { intros v labels name n Hv [<- <-] Hl.
    destruct (counter_inc_ok v labels w Hl) as (w' & E & Hsame & Hother). exists w'. split; [done|].
    intros u ls Hu. case_decide as E1.
    - injection E1 as En <-. by rewrite <- (counters_by_name m v u Hm Hv Hu En).
    - apply Hother. intros [= En El]. apply E1. by rewrite En, El. }
  assert (Hset : forall v labels x, length labels = vec_arity v ->
    exists w', gauge_set v labels x w = Some w' /\
    forall u ls, u ∈ counters m -> counter_value u ls w' = counter_value u ls w).
  { intros v labels x Hl. destruct (gauge_set_ok v labels x w Hl) as (w' & E & Hsame). eauto. }
  destruct Hm as [H1 H2 H3 H4 H5 H6 H7 H8 H9].
  destruct o; cbn [record_op bumps];
    lazymatch goal with
    | |- context [set_active_orders] => apply Hset; by rewrite H7
    | |- context [set_mempool_size] => apply Hset; by rewrite H8
    | |- context [set_block_height] => apply Hset; by rewrite H9
    | _ => eapply Hinc; [unfold counters; set_solver|eassumption|done]
    end.
Qed.

(** Recording. Whatever is recorded, in whatever order, no operation panics
    and each counter goes up by one exactly once per operation recorded with its
    labels; the gauges move no counter. *)
Theorem records_exact m ops w :
  metrics_ok m -> exists w', record_all m ops w = Some w' /\
    forall u ls, u ∈ counters m ->
      counter_value u ls w' =
        Nat.iter (length (filter (fun o => bumps o = Some (vec_name u, ls)) ops))
          (fun x => f64_add x (f64_of_int 1)) (counter_value u ls w).
Proof.
  intros Hm. unfold record_all. revert w. induction ops as [|o ops IH]; intros w; [by exists w|].
  destruct (record_op_ok m o w Hm) as (w1 & E & Hv). destruct (IH w1) as (w2 & E2 & Hv2).
  exists w2. cbn [foldl mbind option_bind]. rewrite E. split; [exact E2|].
  intros u ls Hu. rewrite (Hv2 u ls Hu), (Hv u ls Hu), filter_cons.
  case_decide; [|done]. cbn [length]. by rewrite Nat.iter_succ_r.
Qed.

End facts.

(** * Witnesses *)

(** Registries are lists of names; a collector is its name and its labels. *)
Record ToyProm := {
  tp_default : list string;
  tp_registries : gmap nat (list string);
  tp_counters : gmap (string * list string) f64;
}.
Definition toy_register (name : string) (labels : list string) : ST ToyProm PromError (string * nat) := fun w =>
  if bool_decide (name ∈ tp_default w) then (Err AlreadyReg, w)
  else (Ok (name, length labels),
        {| tp_default := name :: tp_default w; tp_registries := tp_registries w; tp_counters := tp_counters w |}).

#[export] Instance toy_prometheus : Prometheus := {|
  PromWorld := ToyProm;
  Registry := nat;
  Vec _ := (string * nat)%type;
  registry_new w := let r := size (tp_registries w) in
    (r, {| tp_default := tp_default w; tp_registries := <[r := []]> (tp_registries w);
           tp_counters := tp_counters w |});
  register_vec _ name _ labels := toy_register name labels;
  registry_register _ r v w :=
    let names := default [] (tp_registries w !! r) in
    if bool_decide (v.1 ∈ names) then (Err AlreadyReg, w)
    else (Ok tt, {| tp_default := tp_default w; tp_counters := tp_counters w;
                    tp_registries := <[r := v.1 :: names]> (tp_registries w) |});
  counter_inc v labels w :=
    if decide (length labels = v.2) then
      Some {| tp_default := tp_default w; tp_registries := tp_registries w;
              tp_counters := <[(v.1, labels) := f64_add (default (f64_of_int 0) (tp_counters w !! (v.1, labels)))
                                                  (f64_of_int 1)]> (tp_counters w) |}
    else None;
  gauge_set v labels _ w := if decide (length labels = v.2) then Some w else None;
  gather_text _ _ := Ok EmptyString;
|}.

#[export] Instance toy_prometheus_ok : PrometheusOk toy_prometheus.
Proof.
  unshelve refine {|
    default_names := tp_default;
    names_in r w := default [] (tp_registries w !! r);
    vec_name _ v := v.1;
    vec_arity _ v := v.2;
    counter_value v ls w := default (f64_of_int 0) (tp_counters w !! (v.1, ls)) |}.
  - intros w. cbn. by rewrite lookup_insert_eq.
  - intros k name help labels w Hn. cbn. unfold toy_register. rewrite bool_decide_false by done. eauto 10.
  - intros k name help labels w Hn. cbn. unfold toy_register. by rewrite bool_decide_true.
  - intros k r v w Hn. cbn. rewrite bool_decide_false by done. eexists. split; [done|]. cbn.
    by rewrite lookup_insert_eq.
  - intros v labels w Hl. cbn. rewrite decide_True by done. eexists. split; [done|]. cbn.
    rewrite lookup_insert_eq. split; [done|]. intros u ls Hne. by rewrite lookup_insert_ne by congruence.
  - intros v labels x w Hl. cbn. rewrite decide_True by done. eauto.
Defined.

Definition fresh_process : PromWorld (Prometheus := toy_prometheus) :=
  {| tp_default := []; tp_registries := ∅; tp_counters := ∅ |}.

Lemma metrics_once_witness :
  exists m w', Metrics_new fresh_process = (Ok m, w') /\ Metrics_default w' = None.
Proof.
  destruct (metrics_once fresh_process) as (m & w' & E & _ & _ & Hp);
    [intros name _ H; by apply elem_of_nil in H|].
  exists m, w'. exact (conj E Hp).
Defined.

Definition demo_metrics : Metrics := default (Build_Metrics 0%nat ("", 0%nat) ("", 0%nat) ("", 0%nat) ("", 0%nat)
  ("", 0%nat) ("", 0%nat) ("", 0%nat) ("", 0%nat) ("", 0%nat) ("", 0%nat) ("", 0%nat) ("", 0%nat) ("", 0%nat)
  ("", 0%nat) ("", 0%nat) ("", 0%nat))%string (fst <$> Metrics_default fresh_process).

Lemma records_exact_witness :
  metrics_ok demo_metrics /\
  exists w', record_all demo_metrics [RecPlaced 0 true; SetHeight 7; RecPlaced 0 false; RecPlaced 0 true] fresh_process = Some w' /\
    counter_value (orders_placed demo_metrics) ["0"; "buy"]%string w' = f64_of_int 2.
Proof.
  assert (Hm : metrics_ok demo_metrics) by (split; vm_compute; first [done|split; reflexivity]).
  split; [exact Hm|].
  destruct (records_exact demo_metrics [RecPlaced 0 true; SetHeight 7; RecPlaced 0 false; RecPlaced 0 true]
    fresh_process Hm) as (w' & E & H).
  exists w'. split; [exact E|]. rewrite H; [vm_compute; reflexivity|]. do 3 right. left.
Defined.
