(* ===== verification/Protocol.v ===== *)
(** Protocols of interaction trees: a program that talks to its surroundings
    follows a protocol when every event it raises is allowed in the protocol's
    state at that point.  The judgement is indexed by a number of steps, so that
    loops ([ITree.iter]) are handled by induction. *)
From ITree Require Import Core.ITreeDefinition.
From stdpp Require Import base list.
From Stdlib Require Import Lia.

(** What a bind and a loop show first. *)
Lemma observe_bind {Ev A C} (t : itree Ev A) (k : A -> itree Ev C) :
  observe (ITree.bind t k) =
  match observe t with
  | RetF a => observe (k a)
  | TauF t => TauF (ITree.bind t k)
  | VisF e f => VisF e (fun x => ITree.bind (f x) k)
  end.
Proof. unfold observe, ITree.bind, ITree.subst. cbn. unfold observe. by destruct (_observe t). Qed.

Lemma observe_iter {Ev A C} (body : A -> itree Ev (A + C)) a :
  observe (ITree.iter body a) =
  observe (ITree.bind (body a) (fun lr =>
    match lr with inl a => Tau (ITree.iter body a) | inr c => Ret c end)).
Proof. reflexivity. Qed.

Section protocol.
Context {Ev : Type -> Type} {St : Type}.
Context (may : forall X, Ev X -> St -> Prop) (after : forall X, Ev X -> X -> St -> St).
Implicit Types (s : St).

(** For [n] steps [t] keeps to the protocol from state [s]; if it returns, its
    result and the state then are in [Q]. *)
Fixpoint follows {A} (n : nat) (Q : A -> St -> Prop) (t : itree Ev A) s : Prop :=
  match n with
  | O => True
  | S n =>
      match observe t with
      | RetF a => Q a s
      | TauF t => follows n Q t s
      | VisF e k => may _ e s /\ forall x, follows n Q (k x) (after _ e x s)
      end
  end.

Lemma follows_weaken {A} n : forall m (Q Q' : A -> St -> Prop) t s,
  m <= n -> (forall a s, Q a s -> Q' a s) -> follows n Q t s -> follows m Q' t s.
Proof.
  induction n as [|n IH]; intros [|m] Q Q' t s Hle HQ Ht; cbn in *; try done; try lia.
  destruct (observe t) as [a|t'|Y e k].
  - by apply HQ.
  - eapply IH; [lia|exact HQ|exact Ht].
  - destruct Ht as [Hm Hk]. split; [done|]. intros x. eapply IH; [lia|exact HQ|apply Hk].
Qed.

Lemma follows_ret {A} n (Q : A -> St -> Prop) a s : Q a s -> follows n Q (Ret a) s.
Proof. by destruct n. Qed.

Lemma follows_vis {A Y} n (Q : A -> St -> Prop) (e : Ev Y) k s :
  may _ e s -> (forall x, follows n Q (k x) (after _ e x s)) -> follows n Q (Vis e k) s.
Proof.
  destruct n as [|n]; intros Hm Hk; cbn; [done|]. split; [done|]. intros x.
  eapply (follows_weaken (S n)); [lia|by intros|apply Hk].
Qed.

Lemma follows_trigger {Y} n (Q : Y -> St -> Prop) (e : Ev Y) s :
  may _ e s -> (forall x, Q x (after _ e x s)) -> follows n Q (ITree.trigger e) s.
Proof. intros Hm HQ. apply follows_vis; [done|]. intros x. by apply follows_ret. Qed.

Lemma follows_bind {A C} n (Q : C -> St -> Prop) (k : A -> itree Ev C) : forall t s,
  follows n (fun a s => follows n Q (k a) s) t s -> follows n Q (ITree.bind t k) s.
Proof.
  induction n as [|n IH]; intros t s Ht; [done|]. cbn [follows]. rewrite observe_bind.
  cbn [follows] in Ht. destruct (observe t) as [a|t'|Y e f]; cbv iota.
  - exact Ht.
  - apply IH. eapply (follows_weaken n); [done| |exact Ht].
    intros a s'. by apply (follows_weaken (S n)); [lia|].
  - destruct Ht as [Hm Hk]. split; [done|]. intros x. apply IH.
    eapply (follows_weaken n); [done| |apply Hk].
    intros a s'. by apply (follows_weaken (S n)); [lia|].
Qed.

(** A loop: the body starts and ends every round in [I]. *)
Lemma follows_iter {A C} n (I : A -> St -> Prop) (Q : C -> St -> Prop)
    (body : A -> itree Ev (A + C)) :
  (forall m a s, I a s -> follows m (fun r s => match r with inl a => I a s | inr c => Q c s end) (body a) s) ->
  forall a s, I a s -> follows n Q (ITree.iter body a) s.
Proof.
  intros Hb. induction n as [|n IH]; intros a s Ha; [done|]. cbn [follows]. rewrite observe_iter.
  match goal with |- context [observe ?t] => change (follows (S n) Q t s) end.
  apply follows_bind. eapply follows_weaken; [done| |apply (Hb (S n)), Ha].
  intros [a'|c] s' H; [|exact H]. cbn. by apply IH.
Qed.

(** Following the protocol forever. *)
Definition follows_always {A} (Q : A -> St -> Prop) (t : itree Ev A) s : Prop :=
  forall n, follows n Q t s.

Lemma follows_observe {A} (Q : A -> St -> Prop) t s :
  follows_always Q t s ->
  match observe t with
  | RetF a => Q a s
  | TauF t => follows_always Q t s
  | VisF e k => may _ e s /\ forall x, follows_always Q (k x) (after _ e x s)
  end.
Proof.
  intros H. pose proof (H 1) as H1. cbn in H1.
  destruct (observe t) as [a|t'|Y e k] eqn:Eo; [exact H1| |].
  - intros n. specialize (H (S n)). cbn in H. by rewrite Eo in H.
  - split; [apply H1|]. intros x n. specialize (H (S n)). cbn in H. rewrite Eo in H. apply H.
Qed.

(** ** Programs that start and end in [I] *)

Context (I : St -> Prop).

Definition stays {A} (t : itree Ev A) : Prop :=
  forall s, I s -> follows_always (fun _ => I) t s.
Definition harmless {A} (e : Ev A) : Prop :=
  forall s, I s -> may _ e s /\ forall x, I (after _ e x s).

Lemma stays_ret {A} (a : A) : stays (Ret a).
Proof. intros s Hs n. by apply follows_ret. Qed.
Lemma stays_trigger {A} (e : Ev A) : harmless e -> stays (ITree.trigger e).
Proof. intros He s Hs n. destruct (He s Hs). by apply follows_trigger. Qed.
Lemma stays_vis_void (e : Ev Empty_set) {A} (k : Empty_set -> itree Ev A) : harmless e -> stays (Vis e k).
Proof. intros He s Hs n. destruct (He s Hs). apply follows_vis; [done|]. by intros []. Qed.
Lemma stays_bind_with {A C} (Q : A -> St -> Prop) (t : itree Ev A) (k : A -> itree Ev C) :
  (forall s, I s -> follows_always Q t s) ->
  (forall a s, Q a s -> follows_always (fun _ => I) (k a) s) -> stays (ITree.bind t k).
Proof.
  intros Ht Hk s Hs n. apply follows_bind. eapply follows_weaken; [done| |by apply Ht].
  intros a s' Hs'. by apply Hk.
Qed.
Lemma stays_bind {A C} (t : itree Ev A) (k : A -> itree Ev C) :
  stays t -> (forall a, stays (k a)) -> stays (ITree.bind t k).
Proof. intros Ht Hk. apply (stays_bind_with (fun _ => I)); [exact Ht|intros a; apply Hk]. Qed.
Lemma stays_iter {A C} (body : A -> itree Ev (A + C)) a :
  (forall a, stays (body a)) -> stays (ITree.iter body a).
Proof.
  intros Hb s Hs n. apply (follows_iter n (fun _ => I)); [|done].
  intros m a' s' Hs'. eapply follows_weaken; [done| |by apply Hb]. by intros [].
Qed.

End protocol.
