(* ===== verification/LoadClient.v ===== *)
(** The load generator (crates/loadtest/src): its wallets, its random payloads,
    its metrics and the tasks it runs against a node.  The program interacts
    with its surroundings all the time (random numbers, clocks, atomic counters,
    spawned tasks, HTTP requests), so it is an interaction tree over the events
    [Ev]; LoadTest.v gives the events their meaning.  Tracing output is left
    out. *)
From ITree Require Import Core.ITreeDefinition.
From stdpp Require Import base gmap sets list strings.
From Stdlib Require Import ZArith Lia.
From Stdlib Require SpecFloat.
From S2P Require Import Prelude Float64 Types Tx.

(** * Configuration (config.rs) *)

Inductive TestScenario := Standard | OrderSpam | OrderMatching | Aggressive.
Inductive LoadTestMode := Sustained | Ramp | Burst | Stress.
Inductive TransactionType :=
| TxPlaceOrder | TxCancelOrder | TxDeposit | TxWithdraw | TxTransfer | TxMixed.

Record LoadTestConfig := {
  rpc_url : string;
  num_workers : nat;
  target_tps : Z;
  duration_secs : Z;
  lt_mode : LoadTestMode;
  lt_tx_type : TransactionType;
  num_wallets : nat;
  lt_market_id : Z;
  lt_asset_id : Z;
  ramp_up_secs : Z;
  burst_duration_secs : Z;
  burst_interval_secs : Z;
  operator_mode : bool;
  initial_balance : Z;
  scenario : TestScenario;
}.

(** * Metrics (metrics.rs) *)

(** The histogram is the hdrhistogram crate's. *)
Class HistEnv := {
  Histogram : Type;
  hist_new : Histogram;
  hist_record : Z -> Histogram -> Histogram;
  hist_min : Histogram -> Z;
  hist_max : Histogram -> Z;
  hist_mean : Histogram -> f64;
  value_at_quantile : Histogram -> f64 -> Z;
}.

Section metrics.
Context {H : HistEnv}.

Record MetricsInner := {
  mi_start_time : Z;
  mi_total_requests : Z;
  mi_successful_requests : Z;
  mi_failed_requests : Z;
  mi_latency_histogram : Histogram;
  mi_errors : gmap string Z;
}.

Definition MetricsCollector_new (now : Z) : MetricsInner := {|
  mi_start_time := now; mi_total_requests := 0; mi_successful_requests := 0;
  mi_failed_requests := 0; mi_latency_histogram := hist_new; mi_errors := ∅ |}.

Definition lt_record_success (latency : Z) (m : MetricsInner) : MetricsInner := {|
  mi_start_time := mi_start_time m;
  mi_total_requests := wadd64 (mi_total_requests m) 1;
  mi_successful_requests := wadd64 (mi_successful_requests m) 1;
  mi_failed_requests := mi_failed_requests m;
  mi_latency_histogram := hist_record (as_u64 (as_micros latency)) (mi_latency_histogram m);
  mi_errors := mi_errors m |}.

Definition lt_record_failure (error : string) (m : MetricsInner) : MetricsInner := {|
  mi_start_time := mi_start_time m;
  mi_total_requests := wadd64 (mi_total_requests m) 1;
  mi_successful_requests := mi_successful_requests m;
  mi_failed_requests := wadd64 (mi_failed_requests m) 1;
  mi_latency_histogram := mi_latency_histogram m;
  mi_errors := <[error := wadd64 (default 0 (mi_errors m !! error)) 1]> (mi_errors m) |}.

Definition to_millis (z : Z) : f64 := f64_div (f64_of_int z) (f64_of_int 1000).
(** The literals 0.50, 0.95, 0.99 and 0.999. *)
Definition f64_ratio (n d : Z) : f64 := f64_div (f64_of_int n) (f64_of_int d).

Record LoadTestResults := {
  lr_total_requests : Z;
  lr_successful_requests : Z;
  lr_failed_requests : Z;
  lr_duration_secs : f64;
  lr_latency_min_ms : f64;
  lr_latency_max_ms : f64;
  lr_latency_mean_ms : f64;
  lr_latency_p50_ms : f64;
  lr_latency_p95_ms : f64;
  lr_latency_p99_ms : f64;
  lr_latency_p999_ms : f64;
  lr_errors : gmap string Z;
}.

Definition get_results (now : Z) (inner : MetricsInner) : LoadTestResults :=
  let hist := mi_latency_histogram inner in
  let quantile n d := to_millis (value_at_quantile hist (f64_ratio n d)) in {|
  lr_total_requests := mi_total_requests inner;
  lr_successful_requests := mi_successful_requests inner;
  lr_failed_requests := mi_failed_requests inner;
  lr_duration_secs := as_secs_f64 (now - mi_start_time inner);
  lr_latency_min_ms := to_millis (hist_min hist);
  lr_latency_max_ms := to_millis (hist_max hist);
  lr_latency_mean_ms := f64_div (hist_mean hist) (f64_of_int 1000);
  lr_latency_p50_ms := quantile 50 100;
  lr_latency_p95_ms := quantile 95 100;
  lr_latency_p99_ms := quantile 99 100;
  lr_latency_p999_ms := quantile 999 1000;
  lr_errors := mi_errors inner |}.

Definition success_rate (r : LoadTestResults) : f64 :=
  if lr_total_requests r =? 0 then f64_of_int 0
  else f64_mul (f64_div (f64_of_int (lr_successful_requests r)) (f64_of_int (lr_total_requests r)))
               (f64_of_int 100).

Definition actual_tps (r : LoadTestResults) : f64 :=
  if SpecFloat.SFeqb (lr_duration_secs r) (f64_of_int 0) then f64_of_int 0
  else f64_div (f64_of_int (lr_total_requests r)) (lr_duration_secs r).

End metrics.

(** * Wallets: keys (wallet.rs) *)

(** Keys and signatures are the k256 crate's: [key_from_bytes] is
    [SigningKey::from_bytes], [encoded_point] the 65 bytes of the uncompressed
    public key; a signature is its 64 bytes and the recovery id. *)
Class KeyEnv := {
  SigningKey : Type;
  key_from_bytes : list Z -> option SigningKey;
  encoded_point : SigningKey -> list Z;
  sign_prehash_recoverable : SigningKey -> B256 -> result string (list Z * Z);
}.

(** [Address::from_slice] and [B256::from]: big-endian. *)
Definition from_slice (bytes : list Z) : Z := foldl (fun z b => z * 256 + b) 0 bytes.

(** A wallet's counter is shared memory ([AtomicU64]): it lives in the world,
    under the wallet's address. *)
Record Wallet {K : KeyEnv} := { signing_key : SigningKey; wallet_address : Address }.

Section keys.
Context {V : TxEnv} {K : KeyEnv}.

Definition key_address (key : SigningKey) : Address :=
  from_slice (drop 12 (b256_slice (keccak256 (drop 1 (encoded_point key))))).

Definition sign_transaction (w : Wallet) (tx : Transaction) : result string Transaction :=
  match sign_prehash_recoverable (signing_key w) (signing_hash tx) with
  | Err e => Err ("Failed to sign: " +:+ e)
  | Ok (sg, recovery_id) => Ok (set_signature (sg ++ [recovery_id]) tx)
  end.

End keys.

(** * Events and tasks *)

(** What one access to the surroundings is: the random numbers of fastrand, the
    clock, a wallet's counter, requests over HTTP (an [Err] is the error's text)
    and the metrics behind their mutex. *)
Variant IoE `{HistEnv} : Type -> Type :=
| RandBool : IoE bool
| RandIn (lo hi : Z) : IoE Z
| RandFill (n : nat) : IoE (list Z)
| Now : IoE Z
| SleepFor (d : Z) : IoE unit
| YieldNow : IoE unit
| NewCounter (a : Address) : IoE unit
| FetchAdd (a : Address) : IoE Z
| PostTx (tx : Transaction) : IoE (result string B256)
| GetBalance (a : Address) (asset_id : Z) : IoE (result string Z)
| Health : IoE (result string string)
| Metrics (f : MetricsInner -> MetricsInner) : IoE unit
| ReadMetrics : IoE MetricsInner.

Section client.
Context {V : TxEnv} {K : KeyEnv} {H : HistEnv}.

(** The closures given to [tokio::spawn], with what they capture. *)
Inductive Job :=
| StatsJob
| SpamJob (wallets : list Wallet) (market_id start duration : Z)
| TraderJob (wallets : list Wallet) (market_id start duration : Z) (is_buyer : bool) (worker_id : nat)
| BuilderJob (wallets : list Wallet) (market_id start duration : Z) (worker_id : nat)
| MarketJob (wallets : list Wallet) (market_id start duration : Z) (worker_id : nat)
| SustainedJob (wallet : Wallet) (config : LoadTestConfig) (start duration delay : Z)
| RampJob (wallet : Wallet) (config : LoadTestConfig) (start duration ramp_duration : Z)
| SendJob (wallet : Wallet) (config : LoadTestConfig)
| StressJob (wallet : Wallet) (config : LoadTestConfig) (start duration : Z).

(** Accesses, and the tasks of the runtime: [Spawn] answers with a handle,
    [Join] waits for the task behind it, a panic ends the task. *)
Variant Ev : Type -> Type :=
| Io {X} (e : IoE X) : Ev X
| Spawn (j : Job) : Ev nat
| Join (handle : nat) : Ev unit
| Abort (handle : nat) : Ev unit
| Panic : Ev Empty_set.

Notation T A := (itree Ev A).
Notation "'let^' x := t 'in' k" := (ITree.bind t (fun x => k))
  (at level 200, x name, t at level 200, k at level 200).
Notation "t ;^ k" := (ITree.bind t (fun _ => k)) (at level 100, k at level 200, right associativity).

Definition io {X} (e : IoE X) : T X := ITree.trigger (Io e).
Definition panic {A} : T A := Vis Panic (fun x : Empty_set => match x with end).
Definition expect {A} (o : option A) : T A := match o with Some a => Ret a | None => panic end.

Fixpoint for_each {A} (f : A -> T unit) (l : list A) : T unit :=
  match l with [] => Ret tt | a :: l => f a ;^ for_each f l end.
Fixpoint collect {A B} (f : A -> T B) (l : list A) : T (list B) :=
  match l with
  | [] => Ret []
  | a :: l => let^ b := f a in let^ bs := collect f l in Ret (b :: bs)
  end.

(** [while start.elapsed() < duration { body }], the body passing on [S]. *)
Definition while_elapsed {S} (start duration : Z) (body : S -> T S) (s : S) : T unit :=
  ITree.iter (fun s : S =>
    let^ now := io Now in
    if now - start <? duration then let^ s := body s in Ret (inl s) else Ret (inr tt)) s.
Definition repeat_elapsed (start duration : Z) (body : T unit) : T unit :=
  while_elapsed start duration (fun _ : unit => body) tt.

(** [fastrand::u64(lo..hi)] and the like panic on an empty range. *)
Definition rand_in (lo hi : Z) : T Z := if lo <? hi then io (RandIn lo hi) else panic.
Definition rand_bool : T bool := io RandBool.
Definition sleep_ms (ms : Z) : T unit := io (SleepFor (from_millis ms)).

(** * Wallets (wallet.rs) *)

Definition Wallet_new_random : T Wallet :=
  let^ secret_key_bytes := io (RandFill 32) in
  let^ signing_key := expect (key_from_bytes secret_key_bytes) in
  let address := key_address signing_key in
  io (NewCounter address) ;^
  Ret {| signing_key := signing_key; wallet_address := address |}.

Definition next_nonce (w : Wallet) : T Z := io (FetchAdd (wallet_address w)).

Definition create_signed_transaction (w : Wallet) (payload : TxPayload) : T (result string Transaction) :=
  let^ nonce := next_nonce w in
  Ret (sign_transaction w (new_raw nonce (wallet_address w) payload)).

(** * Payloads (generator.rs) *)

Definition order_with_params (market_id : Z) (is_buy : bool) (order_type : OrderType) (price size : Z)
    (time_in_force : TimeInForce) : TxPayload :=
  PlaceOrder {|
    po_market_id := market_id; po_is_buy := is_buy; po_order_type := order_type;
    po_price := if bool_decide (order_type = OT_Market) then 0 else price;
    po_size := size; po_time_in_force := time_in_force; po_reduce_only := false;
    po_post_only := bool_decide (time_in_force = PostOnly) |}.

Definition generate_order (market_id : Z) : T TxPayload :=
  let^ is_buy := rand_bool in
  let^ price := rand_in 45000000000 55000000000 in
  let^ size := rand_in 1000000 100000000 in
  let^ limit := rand_in 0 10 in
  let order_type := if limit <? 8 then OT_Limit else OT_Market in
  let^ i := rand_in 0 4 in
  let^ time_in_force := expect ([GTC; IOC; FOK; PostOnly] !! Z.to_nat i) in
  Ret (order_with_params market_id is_buy order_type price size time_in_force).

Definition generate_cancel : T TxPayload :=
  let^ order_id := rand_in 1 1000000 in Ret (CancelOrder {| co_order_id := order_id |}).

Definition generate_deposit (asset_id : Z) : T TxPayload :=
  let^ amount := rand_in 100000000 10000000000 in
  Ret (Deposit {| dep_amount := amount; dep_asset_id := asset_id |}).

Definition generate_withdraw (asset_id : Z) (address : Address) : T TxPayload :=
  let^ amount := rand_in 10000000 1000000000 in
  Ret (Withdraw {| wd_amount := amount; wd_asset_id := asset_id; wd_to := address |}).

Definition generate_transfer (asset_id : Z) : T TxPayload :=
  let^ random_bytes := io (RandFill 20) in
  let^ amount := rand_in 1000000 100000000 in
  Ret (Transfer {| tr_to := from_slice random_bytes; tr_amount := amount; tr_asset_id := asset_id |}).

Definition generate_mixed (market_id asset_id : Z) (address : Address) : T TxPayload :=
  let^ kind := rand_in 0 5 in
  match kind with
  | 0 => generate_order market_id
  | 1 => generate_cancel
  | 2 => generate_deposit asset_id
  | 3 => generate_withdraw asset_id address
  | _ => generate_transfer asset_id
  end.

Definition generate_payload (tx_type : TransactionType) (market_id asset_id : Z) (address : Address)
    : T TxPayload :=
  match tx_type with
  | TxPlaceOrder => generate_order market_id
  | TxCancelOrder => generate_cancel
  | TxDeposit => generate_deposit asset_id
  | TxWithdraw => generate_withdraw asset_id address
  | TxTransfer => generate_transfer asset_id
  | TxMixed => generate_mixed market_id asset_id address
  end.

Definition generate_transaction (w : Wallet) (tx_type : TransactionType) (market_id asset_id : Z)
    : T (result string Transaction) :=
  let^ payload := generate_payload tx_type market_id asset_id (wallet_address w) in
  create_signed_transaction w payload.

(** * Sending (runner.rs, scenarios.rs) *)

Definition record_success_since (start : Z) : T unit :=
  let^ now := io Now in io (Metrics (lt_record_success (now - start))).
Definition record_failure_of (error : string) : T unit := io (Metrics (lt_record_failure error)).

Definition send_transaction (w : Wallet) (config : LoadTestConfig) : T unit :=
  let^ start := io Now in
  let^ tx := generate_transaction w (lt_tx_type config) (lt_market_id config) (lt_asset_id config) in
  let^ result := match tx with Ok tx => io (PostTx tx) | Err e => Ret (Err e) end in
  match result with
  | Ok _ => record_success_since start
  | Err e => record_failure_of e
  end.

Definition send_tx (w : Wallet) (payload : TxPayload) : T unit :=
  let^ start := io Now in
  let^ tx := create_signed_transaction w payload in
  match tx with
  | Ok tx =>
      let^ result := io (PostTx tx) in
      match result with
      | Ok _ => record_success_since start
      | Err e => record_failure_of e
      end
  | Err e => record_failure_of ("TX creation: " +:+ e)
  end.

Definition place_random_order (w : Wallet) (market_id : Z) : T (option Z) :=
  let^ payload := generate_order market_id in
  let^ start := io Now in
  let^ tx := create_signed_transaction w payload in
  match tx with
  | Ok tx =>
      let^ result := io (PostTx tx) in
      match result with
      | Ok _ => record_success_since start ;^ let^ id := rand_in 1 1000000 in Ret (Some id)
      | Err e => record_failure_of ("Place order failed: " +:+ e) ;^ Ret None
      end
  | Err e => record_failure_of ("TX creation: " +:+ e) ;^ Ret None
  end.

Definition lt_cancel_order (w : Wallet) (order_id : Z) : T unit :=
  send_tx w (CancelOrder {| co_order_id := order_id |}).

(** [wallets[worker_id % wallets.len()]]. *)
Definition wallet_of (wallets : list Wallet) (worker_id : nat) : T Wallet :=
  if decide (wallets = []) then panic else expect (wallets !! (worker_id mod length wallets)%nat).

(** * Scenarios (scenarios.rs) *)

Definition spawn (j : Job) : T nat := ITree.trigger (Spawn j).
Definition join (handle : nat) : T unit := ITree.trigger (Join handle).
(** [handles.collect()] followed by awaiting every handle, and the same loop
    over a lazy iterator: each task is spawned when the last has ended. *)
Definition run_together (jobs : list Job) : T unit :=
  let^ handles := collect spawn jobs in for_each join handles.
Definition run_lazily (jobs : list Job) : T unit :=
  for_each (fun j => let^ handle := spawn j in join handle) jobs.

Definition spam_worker (wallets : list Wallet) (market_id start duration : Z) : T unit :=
  repeat_elapsed start duration (
    let^ i := rand_in 0 (Z.of_nat (length wallets)) in
    let^ wallet := expect (wallets !! Z.to_nat i) in
    let^ order_id := place_random_order wallet market_id in
    (match order_id with
     | Some id =>
         let^ ms := rand_in 10 50 in sleep_ms ms ;^ lt_cancel_order wallet id
     | None => Ret tt
     end) ;^
    let^ ms := rand_in 5 20 in sleep_ms ms).

Definition run_order_spam_scenario (wallets : list Wallet) (market_id duration : Z) (workers : nat)
    : T unit :=
  let^ start := io Now in
  run_together (replicate workers (SpamJob wallets market_id start duration)).

Definition base_price : Z := 50000000000.
Definition price_spread : Z := 100000000.

Definition trader_worker (wallets : list Wallet) (market_id start duration : Z) (is_buyer : bool)
    (worker_id : nat) : T unit :=
  repeat_elapsed start duration (
    let^ wallet := wallet_of wallets worker_id in
    let^ offset := rand_in 0 price_spread in
    let price := if is_buyer then wadd64 base_price offset else wsub64 base_price offset in
    let^ size := rand_in 1000000 10000000 in
    send_tx wallet (order_with_params market_id is_buyer OT_Limit price size IOC) ;^
    let^ ms := rand_in 1 10 in sleep_ms ms).

Definition run_order_matching_scenario (wallets : list Wallet) (market_id duration : Z) (workers : nat)
    : T unit :=
  let num_buyers := (workers / 2)%nat in
  let num_sellers := (workers - workers / 2)%nat in
  let^ start := io Now in
  run_together (
    map (fun id => TraderJob wallets market_id start duration true id) (seq 0 num_buyers) ++
    map (fun id => TraderJob wallets market_id start duration false (num_buyers + id)) (seq 0 num_sellers)).

Definition build_duration : Z := from_secs 10.

Definition builder_worker (wallets : list Wallet) (market_id start duration : Z) (worker_id : nat) : T unit :=
  let is_buyer := Nat.even worker_id in
  let^ phase_start := io Now in
  ITree.iter (fun _ : unit =>
    let^ now := io Now in
    let^ more := (if now - phase_start <? build_duration
                  then let^ now := io Now in Ret (now - start <? duration) else Ret false) in
    if more : bool then
      let^ wallet := wallet_of wallets worker_id in
      let^ price_offset := rand_in 0 1000000000 in
      let price := if is_buyer then wsub64 base_price price_offset else wadd64 base_price price_offset in
      let^ size := rand_in 5000000 50000000 in
      send_tx wallet (order_with_params market_id is_buyer OT_Limit price size PostOnly) ;^
      sleep_ms 20 ;^ Ret (inl tt)
    else Ret (inr tt)) tt.

Definition market_worker (wallets : list Wallet) (market_id start duration : Z) (worker_id : nat) : T unit :=
  repeat_elapsed start duration (
    let^ wallet := wallet_of wallets worker_id in
    let^ is_buy := rand_bool in
    let^ size := rand_in 1000000 20000000 in
    send_tx wallet (order_with_params market_id is_buy OT_Market 0 size IOC) ;^
    let^ ms := rand_in 1 5 in sleep_ms ms).

Definition run_aggressive_matching_scenario (wallets : list Wallet) (market_id duration : Z)
    (workers : nat) : T unit :=
  let^ start := io Now in
  run_lazily (map (BuilderJob wallets market_id start duration) (seq 0 (workers / 2))) ;^
  run_lazily (map (MarketJob wallets market_id start duration) (seq 0 workers)).

(** * The standard modes (runner.rs) *)

Definition sustained_worker (wallet : Wallet) (config : LoadTestConfig) (start duration delay : Z) : T unit :=
  let^ last_request := io Now in
  while_elapsed start duration (fun last_request =>
    let^ now := io Now in
    (if now <=? last_request + delay then io (SleepFor (last_request + delay - now)) else Ret tt) ;^
    let^ last_request := io Now in
    send_transaction wallet config ;^ Ret last_request) last_request.

(** One task per worker, with its wallet. *)
Definition run_workers (wallets : list Wallet) (workers : nat) (job : Wallet -> Job) : T unit :=
  let^ handles := collect (fun worker_id =>
    let^ wallet := wallet_of wallets worker_id in spawn (job wallet)) (seq 0 workers) in
  for_each join handles.

Definition f64_of_workers (config : LoadTestConfig) : f64 := f64_of_int (Z.of_nat (num_workers config)).

Definition run_sustained_load (config : LoadTestConfig) (wallets : list Wallet) : T unit :=
  let^ start := io Now in
  let duration := from_secs (duration_secs config) in
  let^ delay_per_worker := expect (from_secs_f64
    (f64_div (f64_of_workers config) (f64_of_int (target_tps config)))) in
  run_workers wallets (num_workers config) (fun wallet =>
    SustainedJob wallet config start duration delay_per_worker).

Definition current_tps (config : LoadTestConfig) (elapsed ramp_duration : Z) : f64 :=
  if elapsed <? ramp_duration then
    f64_max (f64_div (f64_mul (f64_of_int (target_tps config)) (as_secs_f64 elapsed))
                     (as_secs_f64 ramp_duration)) (f64_of_int 1)
  else f64_of_int (target_tps config).

Definition ramp_worker (wallet : Wallet) (config : LoadTestConfig) (start duration ramp_duration : Z)
    : T unit :=
  repeat_elapsed start duration (
    let^ now := io Now in
    let current_tps := current_tps config (now - start) ramp_duration in
    let^ delay := expect (from_secs_f64 (f64_div (f64_of_workers config) current_tps)) in
    send_transaction wallet config ;^
    io (SleepFor delay)).

Definition run_ramp_load (config : LoadTestConfig) (wallets : list Wallet) : T unit :=
  let^ start := io Now in
  let duration := from_secs (duration_secs config) in
  let ramp_duration := from_secs (ramp_up_secs config) in
  run_workers wallets (num_workers config) (fun wallet =>
    RampJob wallet config start duration ramp_duration).

(** One round of the burst loop; it passes on [in_burst] and [next_burst].
    Subtracting a longer duration from a shorter one panics. *)
Definition burst_round (config : LoadTestConfig) (wallets : list Wallet) (round : bool * Z)
    : T (bool * Z) :=
  let burst_duration := from_secs (burst_duration_secs config) in
  let burst_interval := from_secs (burst_interval_secs config) in
  let^ now := io Now in
  let^ round := (if round.2 <=? now then
      let in_burst := negb round.1 in
      let^ pause := (if in_burst then Ret burst_duration
                     else if burst_duration <=? burst_interval then Ret (burst_interval - burst_duration)
                     else panic) in
      Ret (in_burst, now + pause)
    else Ret round) in
  (if (round.1 : bool) then
     run_workers wallets (num_workers config) (fun wallet => SendJob wallet config) ;^ sleep_ms 10
   else sleep_ms 100) ;^
  Ret round.

Definition run_burst_load (config : LoadTestConfig) (wallets : list Wallet) : T unit :=
  let^ start := io Now in
  while_elapsed start (from_secs (duration_secs config)) (burst_round config wallets) (false, start).

Definition stress_worker (wallet : Wallet) (config : LoadTestConfig) (start duration : Z) : T unit :=
  repeat_elapsed start duration (send_transaction wallet config ;^ io YieldNow).

Definition run_stress_load (config : LoadTestConfig) (wallets : list Wallet) : T unit :=
  let^ start := io Now in
  let duration := from_secs (duration_secs config) in
  run_workers wallets (num_workers config) (fun wallet => StressJob wallet config start duration).

(** * Setting up accounts (setup.rs, runner.rs) *)

Definition initialize_wallet (operator_wallet : Wallet) (asset_id amount_per_wallet : Z)
    (wallet : Wallet) : T bool :=
  let^ random_bytes := io (RandFill 32) in
  let^ tx := create_signed_transaction operator_wallet (BridgeDeposit {|
    bd_user := wallet_address wallet; bd_amount := amount_per_wallet; bd_asset_id := asset_id;
    bd_external_tx_hash := from_slice random_bytes |}) in
  let^ result := match tx with Ok tx => io (PostTx tx) | Err e => Ret (Err e) end in
  sleep_ms 10 ;^
  Ret (is_ok result).

Definition initialize_wallets (operator_wallet : Wallet) (wallets : list Wallet)
    (asset_id amount_per_wallet : Z) : T (result string unit) :=
  let^ results := collect (initialize_wallet operator_wallet asset_id amount_per_wallet) wallets in
  let success_count := length (List.filter id results) in
  Ret (if (success_count =? 0)%nat then Err "Failed to initialize any wallets" else Ok tt).

Definition verify_balances (wallets : list Wallet) (asset_id expected_amount : Z) : T nat :=
  let^ verified := collect (fun wallet =>
    let^ response := io (GetBalance (wallet_address wallet) asset_id) in
    Ret (match response with Ok balance => expected_amount <=? balance | Err _ => false end))
    (take 10 wallets) in
  Ret (length (List.filter id verified)).

Definition setup_accounts (wallets : list Wallet) (asset_id initial_balance : Z) : T (result string unit) :=
  let^ operator_wallet := Wallet_new_random in
  io (SleepFor (from_secs 3)) ;^
  let^ result := initialize_wallets operator_wallet wallets asset_id initial_balance in
  match result with
  | Err e => Ret (Err e)
  | Ok _ =>
      let^ _verified := verify_balances wallets asset_id initial_balance in
      Ret (Ok tt)
  end.

(** * The test (runner.rs) *)

(** The task that prints statistics; only its reads are kept. *)
Definition stats_worker : T unit :=
  ITree.iter (fun _ : unit =>
    io (SleepFor (from_secs 5)) ;^ let^ _results := io ReadMetrics in Ret (inl tt)) tt.

Definition run_scenario (config : LoadTestConfig) (wallets : list Wallet) : T unit :=
  match scenario config with
  | Standard =>
      match lt_mode config with
      | Sustained => run_sustained_load config wallets
      | Ramp => run_ramp_load config wallets
      | Burst => run_burst_load config wallets
      | Stress => run_stress_load config wallets
      end
  | OrderSpam =>
      run_order_spam_scenario wallets (lt_market_id config) (from_secs (duration_secs config))
        (num_workers config)
  | OrderMatching =>
      run_order_matching_scenario wallets (lt_market_id config) (from_secs (duration_secs config))
        (num_workers config)
  | Aggressive =>
      run_aggressive_matching_scenario wallets (lt_market_id config) (from_secs (duration_secs config))
        (num_workers config)
  end.

Definition run_load_test (config : LoadTestConfig) : T (result string LoadTestResults) :=
  let^ health := io Health in
  match health with
  | Err _ => Ret (Err "Server is not responding")
  | Ok _ =>
      let^ wallets := collect (fun _ => Wallet_new_random) (seq 0 (num_wallets config)) in
      let^ setup := (if operator_mode config
        then setup_accounts wallets (lt_asset_id config) (initial_balance config) else Ret (Ok tt)) in
      match setup with
      | Err e => Ret (Err e)
      | Ok _ =>
          let^ now := io Now in
          io (Metrics (fun _ => MetricsCollector_new now)) ;^
          let^ stats_handle := spawn StatsJob in
          run_scenario config wallets ;^
          ITree.trigger (Abort stats_handle) ;^
          let^ inner := io ReadMetrics in
          let^ now := io Now in
          Ret (Ok (get_results now inner))
      end
  end.

Definition job_body (j : Job) : T unit :=
  match j with
  | StatsJob => stats_worker
  | SpamJob wallets market_id start duration => spam_worker wallets market_id start duration
  | TraderJob wallets market_id start duration is_buyer worker_id =>
      trader_worker wallets market_id start duration is_buyer worker_id
  | BuilderJob wallets market_id start duration worker_id =>
      builder_worker wallets market_id start duration worker_id
  | MarketJob wallets market_id start duration worker_id =>
      market_worker wallets market_id start duration worker_id
  | SustainedJob wallet config start duration delay => sustained_worker wallet config start duration delay
  | RampJob wallet config start duration ramp_duration =>
      ramp_worker wallet config start duration ramp_duration
  | SendJob wallet config => send_transaction wallet config
  | StressJob wallet config start duration => stress_worker wallet config start duration
  end.

(** [main]: the task the process starts with. *)
Definition load_test_main (config : LoadTestConfig) : T unit :=
  let^ _results := run_load_test config in Ret tt.

End client.
