(* ===== verification/LoadReport.v ===== *)
(** The load generator's report and its requests: what metrics.rs prints, the
    names of config.rs, the client of client.rs against the router of
    Transport.v, and the helpers of traits.rs (crates/loadtest/src). *)
From ITree Require Import Core.ITreeDefinition.
From stdpp Require Import base gmap sets list strings.
From Stdlib Require Import ZArith Lia.
From S2P Require Import Prelude Float64 Types Storage State Tx EngineBase Engine Auth Mempool Exec Rpc Transport LoadClient.

(** * Names ([Display] of config.rs) *)

Definition scenario_name (s : TestScenario) : string :=
  match s with
  | Standard => "Standard load test"
  | OrderSpam => "Order spam: submit & cancel rapidly"
  | OrderMatching => "Order matching: matching buy/sell orders"
  | Aggressive => "Aggressive: orderbook depth + market orders"
  end.

Definition mode_name (m : LoadTestMode) : string :=
  match m with Sustained => "Sustained" | Ramp => "Ramp" | Burst => "Burst" | Stress => "Stress" end.

Definition transaction_type_name (t : TransactionType) : string :=
  match t with
  | TxPlaceOrder => "PlaceOrder"
  | TxCancelOrder => "CancelOrder"
  | TxDeposit => "Deposit"
  | TxWithdraw => "Withdraw"
  | TxTransfer => "Transfer"
  | TxMixed => "Mixed"
  end.

(** * The report (metrics.rs) *)

(** A printed line: its label and the values in it, a float with the digits it
    is rounded to. *)
Inductive Field := FInt (z : Z) | FFloat (digits : nat) (x : f64) | FText (s : string).
Record Line := { ln_label : string; ln_fields : list Field }.
Definition line (label : string) (fields : list Field) : Line := {| ln_label := label; ln_fields := fields |}.

(** [print_stats] divides by the duration without the test of [actual_tps]. *)
Definition stats_line (r : LoadTestResults) : Line := line "stats" [
  FInt (lr_total_requests r); FInt (lr_successful_requests r); FInt (lr_failed_requests r);
  FFloat 1 (f64_div (f64_of_int (lr_total_requests r)) (lr_duration_secs r));
  FFloat 1 (lr_latency_p50_ms r); FFloat 1 (lr_latency_p95_ms r); FFloat 1 (lr_latency_p99_ms r)].

Section report.
Context `{O : HashOrder} {H : HistEnv}.

Definition print_stats (now : Z) (inner : MetricsInner) : Line := stats_line (get_results now inner).

(** The ten errors that come first in the map's order, and how many more there
    are. *)
Definition log_errors (errors : gmap string Z) : list Line :=
  let entries := hash_order (map_to_list errors) in
  if bool_decide (errors = ∅) then []
  else line "Errors encountered:" [] ::
    map (fun '(error, count) => line "error" [FInt count; FText error]) (take 10 entries) ++
    (if bool_decide (10 < size errors)%nat then [line "... and more" [FInt (Z.of_nat (size errors) - 10)]] else []).

Definition log_summary (r : LoadTestResults) : list Line := [
  line "Load Test Results:" [];
  line "Total Requests" [FInt (lr_total_requests r)];
  line "Successful" [FInt (lr_successful_requests r)];
  line "Failed" [FInt (lr_failed_requests r)];
  line "Success Rate" [FFloat 2 (success_rate r)];
  line "Duration" [FFloat 2 (lr_duration_secs r)];
  line "Actual TPS" [FFloat 2 (actual_tps r)];
  line "Latency Statistics (ms):" [];
  line "Min" [FFloat 2 (lr_latency_min_ms r)];
  line "Max" [FFloat 2 (lr_latency_max_ms r)];
  line "Mean" [FFloat 2 (lr_latency_mean_ms r)];
  line "P50" [FFloat 2 (lr_latency_p50_ms r)];
  line "P95" [FFloat 2 (lr_latency_p95_ms r)];
  line "P99" [FFloat 2 (lr_latency_p99_ms r)];
  line "P99.9" [FFloat 2 (lr_latency_p999_ms r)]] ++ log_errors (lr_errors r).

(** The errors of a line of [log_errors]: one where it names an error, as many
    as it says where it says how many more there are. *)
Definition errors_told (l : Line) : Z :=
  match ln_fields l with [] => 0 | [FInt n] => n | _ => 1 end.

(** Every distinct error is accounted for, shown or counted. *)
Lemma log_errors_account {Ok : HashOrderOk O} errors :
  foldr Z.add 0 (map errors_told (log_errors errors)) = Z.of_nat (size errors).
Proof.
  assert (Hs : forall (l : list (string * Z)) z, foldr Z.add z
    (map errors_told (map (fun '(error, count) => line "error" [FInt count; FText error]) l)) =
    z + Z.of_nat (length l)).
  { induction l as [|[e c] l IH]; intros z; [cbn; lia|].
    change (1 + foldr Z.add z (map errors_told (map (fun '(error, count) =>
      line "error" [FInt count; FText error]) l)) = z + Z.of_nat (S (length l))). rewrite IH. lia. }
  unfold log_errors. case_bool_decide as He; [subst; by rewrite map_size_empty|]. cbn [map foldr].
  change (errors_told (line "Errors encountered:" [])) with 0. rewrite Z.add_0_l, map_app, foldr_app.
  rewrite Hs, length_take, (Permutation_length (hash_order_perm _ _)).
  rewrite length_map_to_list. case_bool_decide as Hm; cbn [map foldr].
  - change (errors_told (line "... and more" [FInt (Z.of_nat (size errors) - 10)]))
      with (Z.of_nat (size errors) - 10). rewrite min_l; lia.
  - rewrite min_r; lia.
Qed.
End report.

(** * The client (client.rs) *)

Section client.
Context {B : Backend} {V : TxEnv} {G : SigEnv} {X : HexEnv} {P : PrometheusEnv} {T : BroadcastEnv}.

Record RpcClient := { cl_base_url : string }.
Definition RpcClient_new (base_url : string) : RpcClient := {| cl_base_url := base_url |}.

(** A request as it is sent: method, address, body. *)
Definition Sent : Type := Method * string * RpcRequest.
Definition post_json (c : RpcClient) (endpoint : string) (body : RpcRequest) : Sent :=
  (POST, cl_base_url c +:+ endpoint, body).
Definition cl_submit_transaction (c : RpcClient) (tx : string) : Sent :=
  post_json c "/tx/submit" (ReqSubmitTx {| str_tx := tx |}).
Definition cl_get_transaction_status (c : RpcClient) (tx_hash : B256) : Sent :=
  post_json c "/tx/status" (ReqTxStatus {| gts_tx_hash := tx_hash |}).
Definition cl_get_balance (c : RpcClient) (address : Address) (asset_id : Z) : Sent :=
  post_json c "/account/balance" (ReqBalance {| gbr_address := address; gbr_asset_id := asset_id |}).
Definition cl_health (c : RpcClient) : Sent := (GET, cl_base_url c +:+ "/health", ReqHealth).

(** Every request goes where the router listens for it. *)
Lemma client_on_router c tx h a i :
  forall s, s ∈ [cl_submit_transaction c tx; cl_get_transaction_status c h; cl_get_balance c a i; cl_health c] ->
  s.1 = ((route s.2).1, cl_base_url c +:+ (route s.2).2).
Proof. intros s Hs. rewrite !elem_of_cons, elem_of_nil in Hs. by destruct Hs as [->|[->|[->|[->|[]]]]]. Qed.

(** So the balance the client reads is the node's. *)
Lemma client_reads_balance c a i s b :
  get_balance (nd_state (rs_node s)) a i = Ok b ->
  (handle_request (cl_get_balance c a i).2 s).1 = Ok (ResBalance {| gbs_balance := b |}).
Proof.
  intros Hb. cbn [handle_request cl_get_balance post_json snd].
  unfold query, on_rpc_node, st_zoom, st_bind, st_read, rpc_get_balance. cbn. by rewrite Hb.
Qed.
End client.

(** * Helpers (traits.rs) *)

Section helpers.
Context {V : TxEnv} {K : KeyEnv} {H : HistEnv}.

Definition spawn_workers (num_workers : nat) (worker : Job) : itree Ev (list nat) :=
  collect (fun _ => spawn worker) (seq 0 num_workers).
Definition has_elapsed_since (self now start : Z) : bool := self <=? now - start.
Definition random_in_range (min max : Z) : itree Ev Z := rand_in min max.
End helpers.
