(* ===== verification/LoadTest.v ===== *)
(** What the events of LoadClient.v do: the load generator running against a
    node.  Tasks interleave at every event, the node executes blocks and other
    clients submit transactions in between.  The theorems follow the numbers the
    wallets give their transactions from the counter to the node. *)
From ITree Require Import Core.ITreeDefinition.
From stdpp Require Import base gmap sets list sorting strings.
From Stdlib Require Import ZArith Lia Ascii.
From S2P Require Import Prelude Float64 Types Storage State Tx EngineBase Services Engine Auth Mempool Exec Supply Chain Rpc Protocol LoadClient.

(** [hex::encode]. *)
Class HexEncode := hex_encode : list Z -> string.

(** * The world and its events *)

Section world.
Context {B : Backend} {V : TxEnv} {G : SigEnv} {X : HexEnv} {E : HexEncode} {K : KeyEnv} {H : HistEnv}.
Notation Task := (itree Ev unit).

(** The clock, the counters of the wallets by address, the metrics, the node,
    the transactions it accepted from the wallets, and those whose requests got
    lost and may still arrive. *)
Record World := {
  w_now : Z;
  w_counters : gmap Address Z;
  w_metrics : MetricsInner;
  w_node : Node;
  w_delivered : list Transaction;
  w_wire : list Transaction;
}.
Definition with_now (t : Z) (w : World) : World := {|
  w_now := t; w_counters := w_counters w; w_metrics := w_metrics w; w_node := w_node w;
  w_delivered := w_delivered w; w_wire := w_wire w |}.
Definition with_counter (a : Address) (k : Z) (w : World) : World := {|
  w_now := w_now w; w_counters := <[a := k]> (w_counters w); w_metrics := w_metrics w;
  w_node := w_node w; w_delivered := w_delivered w; w_wire := w_wire w |}.
Definition with_metrics (m : MetricsInner) (w : World) : World := {|
  w_now := w_now w; w_counters := w_counters w; w_metrics := m; w_node := w_node w;
  w_delivered := w_delivered w; w_wire := w_wire w |}.
Definition with_node (n : Node) (w : World) : World := {|
  w_now := w_now w; w_counters := w_counters w; w_metrics := w_metrics w; w_node := n;
  w_delivered := w_delivered w; w_wire := w_wire w |}.
Definition delivers (tx : Transaction) (w : World) : World := {|
  w_now := w_now w; w_counters := w_counters w; w_metrics := w_metrics w; w_node := w_node w;
  w_delivered := tx :: w_delivered w; w_wire := w_wire w |}.
Definition loses (tx : Transaction) (w : World) : World := {|
  w_now := w_now w; w_counters := w_counters w; w_metrics := w_metrics w; w_node := w_node w;
  w_delivered := w_delivered w; w_wire := tx :: w_wire w |}.

(** [RpcClient::submit_transaction] (client.rs): the body of the request. *)
Definition tx_request (tx : Transaction) : string := "0x" +:+ hex_encode (encode tx).

(** The node handles a submission; what a wallet had accepted is recorded. *)
Definition serve (tx : Transaction) (w : World) : result RpcError B256 * World :=
  match submit_transaction (tx_request tx) (w_node w) with
  | (Ok h, n) => (Ok h, delivers tx (with_node n w))
  | (Err e, n) => (Err e, with_node n w)
  end.

(** What the surroundings choose at an event.  A request is answered, handled
    without its answer coming back, or lost; the text is that of the error the
    client sees. *)
Inductive Outcome := Answered (text : string) | Unanswered (text : string) | Lost (text : string).
Inductive Choice :=
| Flip (b : bool) | Draw (z : Z) | Bytes_of (l : list Z) | Time (t : Z) | Net (o : Outcome) | Quiet.

Definition is_byte (b : Z) : bool := (0 <=? b) && (b <=? 255).
Definition error_text (o : Outcome) : string :=
  match o with Answered text | Unanswered text | Lost text => text end.

(** One access.  The addresses of new wallets are new, to the program and to the
    node (their keys are 32 random bytes), and counters do not reach 2^64. *)
Definition handle (c : Choice) {A} (e : IoE A) (w : World) : option (A * World) :=
  match e in IoE A return option (A * World) with
  | RandBool => match c with Flip b => Some (b, w) | _ => None end
  | RandIn lo hi =>
      match c with Draw z => if (lo <=? z) && (z <? hi) then Some (z, w) else None | _ => None end
  | RandFill n =>
      match c with
      | Bytes_of l => if (length l =? n)%nat && forallb is_byte l then Some (l, w) else None
      | _ => None
      end
  | Now => match c with Time t => if w_now w <=? t then Some (t, with_now t w) else None | _ => None end
  | SleepFor d =>
      match c with Time t => if w_now w + d <=? t then Some (tt, with_now t w) else None | _ => None end
  | YieldNow => Some (tt, w)
  | NewCounter a =>
      match w_counters w !! a, get_nonce (nd_state (w_node w)) a with
      | None, Ok 0 => Some (tt, with_counter a 0 w)
      | _, _ => None
      end
  | FetchAdd a =>
      match w_counters w !! a with
      | Some k => if k <? U64_MAX then Some (k, with_counter a (wadd64 k 1) w) else None
      | None => None
      end
  | PostTx tx =>
      match c with
      | Net (Answered text) =>
          let '(r, w) := serve tx w in Some (match r with Ok h => Ok h | Err _ => Err text end, w)
      | Net (Unanswered text) => let '(_, w) := serve tx w in Some (Err text, w)
      | Net (Lost text) => Some (Err text, loses tx w)
      | _ => None
      end
  | GetBalance a i =>
      match c with
      | Net (Answered text) =>
          Some (match rpc_get_balance a i (w_node w) with Ok b => Ok b | Err _ => Err text end, w)
      | Net o => Some (Err (error_text o), w)
      | _ => None
      end
  | Health =>
      match c with
      | Net (Answered text) => Some (Ok text, w)
      | Net o => Some (Err (error_text o), w)
      | _ => None
      end
  | Metrics f => Some (tt, with_metrics (f (w_metrics w)) w)
  | ReadMetrics => Some (w_metrics w, w)
  end.

(** * Running *)

Record Config := { c_world : World; c_tasks : list Task }.
Definition with_world (w : World) (c : Config) : Config := {| c_world := w; c_tasks := c_tasks c |}.
Definition with_task (i : nat) (t : Task) (c : Config) : Config :=
  {| c_world := c_world c; c_tasks := <[i := t]> (c_tasks c) |}.
Definition with_new_task (t : Task) (c : Config) : Config :=
  {| c_world := c_world c; c_tasks := c_tasks c ++ [t] |}.

Definition finished (t : Task) : bool := match observe t with RetF _ => true | _ => false end.

(** Task [i] meets event [e] and would go on with [k]. *)
Definition event_step (i : nat) (ch : Choice) {A} (e : Ev A) (k : A -> Task) (c : Config) : option Config :=
  match e in Ev A return (A -> Task) -> option Config with
  | Io e => fun k =>
      '(x, w) ← handle ch e (c_world c); Some (with_task i (k x) (with_world w c))
  | Spawn j => fun k =>
      Some (with_new_task (job_body j) (with_task i (k (length (c_tasks c))) c))
  | Join h => fun k =>
      t ← c_tasks c !! h; if finished t then Some (with_task i (k tt) c) else None
  | Abort h => fun k => Some (with_task i (k tt) (with_task h (Ret tt) c))
  | Panic => fun _ => Some (with_task i (Ret tt) c)
  end k.

Definition task_step (i : nat) (ch : Choice) (c : Config) : option Config :=
  t ← c_tasks c !! i;
  match observe t with
  | RetF _ => None
  | TauF t => Some (with_task i t c)
  | VisF e k => event_step i ch e k c
  end.

(** What happens around the program.  A block holds no transaction that a wallet
    signed and the node did not get from it (signatures cannot be forged). *)
Inductive env_step : World -> World -> Prop :=
| env_block w height block response n' :
    current_version (sm_storage (nd_state (w_node w))) <= height ->
    commit_prunes (pruning_config (sm_storage (nd_state (w_node w)))) height = false ->
    execute_txs height block (w_node w) = (Ok response, n') ->
    (forall tx, tx ∈ omap decoded block -> recover_signer tx = Ok (tx_from tx) ->
       is_Some (w_counters w !! tx_from tx) -> tx ∈ w_delivered w) ->
    (forall a k, w_counters w !! a = Some k -> k + Z.of_nat (length block) <= U64_MAX) ->
    env_step w (with_node n' w)
| env_submit w hex : env_step w (with_node (snd (submit_transaction hex (w_node w))) w)
| env_arrival w before tx after :
    w_wire w = before ++ tx :: after ->
    env_step w (snd (serve tx {|
      w_now := w_now w; w_counters := w_counters w; w_metrics := w_metrics w; w_node := w_node w;
      w_delivered := w_delivered w; w_wire := before ++ after |})).

Inductive step : Config -> Config -> Prop :=
| step_task i ch c c' : task_step i ch c = Some c' -> step c c'
| step_env c w' : env_step (c_world c) w' -> step c (with_world w' c).
Definition reaches : Config -> Config -> Prop := rtc step.

(** The process starts: one task, no wallets. *)
Definition start_of (config : LoadTestConfig) (n : Node) (now : Z) : Config := {|
  c_world := {| w_now := now; w_counters := ∅; w_metrics := MetricsCollector_new now; w_node := n;
                w_delivered := []; w_wire := [] |};
  c_tasks := [load_test_main config] |}.

End world.

(** * What programs of the client do, for any protocol *)

(** Accesses other than posting a transaction. *)
Definition quiet `{HistEnv} {A} (e : IoE A) : bool := match e with PostTx _ => false | _ => true end.

Section skeleton.
Context {V : TxEnv} {K : KeyEnv} {H : HistEnv}.
Context {St : Type} (may : forall A, Ev A -> St -> Prop) (after : forall A, Ev A -> A -> St -> St)
  (I : St -> Prop).
Notation stays := (stays may after I).
Notation harmless := (harmless may after I).
Context (Hquiet : forall A (e : IoE A), quiet e = true -> harmless (Io e)) (Hpanic : harmless Panic).

Lemma stays_io {A} (e : IoE A) : quiet e = true -> stays (io e).
Proof. intros He. by apply stays_trigger, Hquiet. Qed.
Lemma stays_panic {A} : stays (panic (A := A)).
Proof. by apply stays_vis_void. Qed.
Lemma stays_expect {A} (o : option A) : stays (expect o).
Proof. destruct o; [apply stays_ret|apply stays_panic]. Qed.
Lemma stays_rand_in lo hi : stays (rand_in lo hi).
Proof. unfold rand_in. destruct (_ <? _); [by apply stays_io|apply stays_panic]. Qed.
Lemma stays_collect {A C} (f : A -> itree Ev C) l : (forall a, stays (f a)) -> stays (collect f l).
Proof.
  intros Hf. induction l as [|a l IH]; cbn; [apply stays_ret|].
  apply stays_bind; [done|intros c]. apply stays_bind; [done|intros cs; apply stays_ret].
Qed.
Lemma stays_for_each {A} (f : A -> itree Ev unit) l : (forall a, stays (f a)) -> stays (for_each f l).
Proof.
  intros Hf. induction l as [|a l IH]; cbn; [apply stays_ret|]. apply stays_bind; [done|by intros _].
Qed.
Lemma stays_while {S} start duration (body : S -> itree Ev S) s :
  (forall s, stays (body s)) -> stays (while_elapsed start duration body s).
Proof.
  intros Hb. apply stays_iter. intros s'. apply stays_bind; [by apply stays_io|]. intros now.
  destruct (_ <? _); [|apply stays_ret]. apply stays_bind; [apply Hb|intros; apply stays_ret].
Qed.

(** One rule per construct; what is known is used at once. *)
Create HintDb tidy.
Ltac tidy_step := first
  [ progress intros | solve [auto 2 with tidy] | assumption
  | apply stays_ret | apply stays_panic | apply stays_expect | apply stays_rand_in
  | apply stays_io; reflexivity
  | apply stays_bind; [|intros ?] | apply stays_while; intros ? | apply stays_iter; intros ?
  | apply stays_collect; intros ? | apply stays_for_each; intros ?
  | match goal with |- Protocol.stays _ _ _ (match ?x with _ => _ end) => destruct x end ].
Ltac tidy := repeat tidy_step.

Lemma stays_generate tx_type m i a : stays (generate_payload tx_type m i a).
Proof.
  unfold generate_payload, generate_mixed, generate_order, generate_cancel, generate_deposit,
    generate_withdraw, generate_transfer, rand_bool. tidy.
Qed.
Lemma stays_record_success start : stays (record_success_since start).
Proof. unfold record_success_since. tidy. Qed.
Lemma stays_record_failure e : stays (record_failure_of e).
Proof. unfold record_failure_of. tidy. Qed.
Lemma stays_create w payload : stays (create_signed_transaction w payload).
Proof. unfold create_signed_transaction, next_nonce. tidy. Qed.

(** The programs that post: signing gives [Q], in which posting is allowed. *)
Section posting.
Context (Q : result string Transaction -> St -> Prop).
Context (Hsigns : forall w payload s, I s -> follows_always may after Q (create_signed_transaction w payload) s)
  (Hposts : forall tx s, Q (Ok tx) s -> may _ (Io (PostTx tx)) s /\ forall r, I (after _ (Io (PostTx tx)) r s))
  (Herr : forall e s, Q (Err e) s -> I s).
Hint Resolve stays_record_success stays_record_failure stays_generate : tidy.

(** The two shapes of sending: go on after the post, or hand its result on. *)
Lemma follows_post {A} tx s (k : result string B256 -> itree Ev A) :
  Q (Ok tx) s -> (forall r, stays (k r)) ->
  follows_always may after (fun _ => I) (ITree.bind (io (PostTx tx)) k) s.
Proof.
  intros Hq Hk n. destruct (Hposts tx s Hq) as [Hm Ha].
  apply follows_bind, follows_trigger; [done|]. intros r. by apply Hk.
Qed.
Lemma stays_signed {A} w payload (k : result string Transaction -> itree Ev A) :
  (forall tx s, Q (Ok tx) s -> follows_always may after (fun _ => I) (k (Ok tx)) s) ->
  (forall e, stays (k (Err e))) -> stays (ITree.bind (create_signed_transaction w payload) k).
Proof.
  intros Hok He. apply (stays_bind_with _ _ _ Q); [intros s; apply Hsigns|].
  intros [tx|e] s Hs; [by apply Hok|]. apply He. by eapply Herr.
Qed.

Lemma stays_send_tx w payload : stays (send_tx w payload).
Proof.
  unfold send_tx. apply stays_bind; [tidy|]. intros start. apply stays_signed; [|tidy].
  intros tx s Hs. apply follows_post; [done|]. tidy.
Qed.
Lemma stays_send_transaction w config : stays (send_transaction w config).
Proof.
  unfold send_transaction, generate_transaction. apply stays_bind; [tidy|]. intros start.
  apply (stays_bind_with _ _ _ Q).
  - intros s Hs n. apply follows_bind. eapply follows_weaken; [done| |by apply stays_generate].
    intros payload s' Hs'. by apply Hsigns.
  - intros [tx|e] s Hs; [|apply stays_bind; [tidy|tidy|by eapply Herr]]. apply follows_post; [done|]. tidy.
Qed.
Lemma stays_place_random_order w m : stays (place_random_order w m).
Proof.
  unfold place_random_order. apply stays_bind; [apply (stays_generate TxPlaceOrder m 0 0)|].
  intros payload. apply stays_bind; [tidy|]. intros start. apply stays_signed; [|tidy].
  intros tx s Hs. apply follows_post; [done|]. tidy.
Qed.
Lemma stays_initialize_wallet operator i amount w : stays (initialize_wallet operator i amount w).
Proof.
  unfold initialize_wallet. apply stays_bind; [tidy|]. intros bytes.
  apply stays_signed; [|unfold sleep_ms; tidy].
  intros tx s Hs. apply follows_post; [done|]. unfold sleep_ms. tidy.
Qed.
Hint Resolve stays_send_tx stays_send_transaction stays_place_random_order stays_initialize_wallet : tidy.

Lemma stays_wallet_of wallets i : stays (wallet_of wallets i).
Proof. unfold wallet_of. tidy. Qed.
Lemma stays_sleep ms : stays (sleep_ms ms).
Proof. unfold sleep_ms. tidy. Qed.
Lemma stays_new_random : stays Wallet_new_random.
Proof. unfold Wallet_new_random. tidy. Qed.
Hint Resolve stays_wallet_of stays_sleep stays_new_random : tidy.

Lemma stays_job j : stays (job_body j).
Proof.
  destruct j; cbn [job_body];
    unfold stats_worker, spam_worker, trader_worker, builder_worker, market_worker, sustained_worker,
      ramp_worker, stress_worker, repeat_elapsed, lt_cancel_order, rand_bool; tidy.
Qed.

Lemma stays_wallets n : stays (collect (fun _ => Wallet_new_random) (seq 0 n)).
Proof. tidy. Qed.
Lemma stays_setup wallets i amount : stays (setup_accounts wallets i amount).
Proof. unfold setup_accounts, initialize_wallets, verify_balances. tidy. Qed.
Hint Resolve stays_wallets stays_setup : tidy.

Section spawning.
Context (Hspawn : forall j, harmless (Spawn j)) (Hjoin : forall h, harmless (Join h))
  (Habort : forall h, harmless (Abort h)).

Lemma stays_spawn j : stays (spawn j).
Proof. by apply stays_trigger. Qed.
Lemma stays_join h : stays (join h).
Proof. by apply stays_trigger. Qed.
Lemma stays_abort h : stays (ITree.trigger (Abort h)).
Proof. by apply stays_trigger. Qed.
Hint Resolve stays_spawn stays_join stays_abort : tidy.

Lemma stays_run_workers wallets n job : stays (run_workers wallets n job).
Proof. unfold run_workers. tidy. Qed.
Lemma stays_together jobs : stays (run_together jobs).
Proof. unfold run_together. tidy. Qed.
Lemma stays_lazily jobs : stays (run_lazily jobs).
Proof. unfold run_lazily. tidy. Qed.
Hint Resolve stays_run_workers stays_together stays_lazily : tidy.

Lemma stays_scenario config wallets : stays (run_scenario config wallets).
Proof.
  unfold run_scenario, run_sustained_load, run_ramp_load, run_burst_load, burst_round, run_stress_load,
    run_order_spam_scenario, run_order_matching_scenario, run_aggressive_matching_scenario. tidy.
Qed.
Hint Resolve stays_scenario : tidy.

Lemma stays_main config : stays (load_test_main config).
Proof. unfold load_test_main, run_load_test. tidy. Qed.
End spawning.
End posting.
End skeleton.

(** * The numbers of transactions *)

(** A task takes a number from the counter of a wallet and posts at most one
    transaction under it; the protocol's state is the number it holds. *)
Section numbers.
Context {V : TxEnv} {K : KeyEnv} {H : HistEnv}.

Notation Own := (option (Address * Z)).
Definition number (tx : Transaction) : Address * Z := (tx_from tx, tx_nonce tx).

Definition may_send A (e : Ev A) (own : Own) : Prop :=
  match e with Io (PostTx tx) => own = Some (number tx) | _ => True end.
Definition own_after A (e : Ev A) (x : A) (own : Own) : Own :=
  match e in Ev A return A -> Own with
  | Io e => fun x =>
      match e in IoE A return A -> Own with
      | FetchAdd a => fun k => Some (a, k)
      | PostTx _ => fun _ => None
      | _ => fun _ => own
      end x
  | _ => fun _ => own
  end x.
Definition tidy {A} (t : itree Ev A) : Prop := stays may_send own_after (fun _ => True) t.

Lemma quiet_tidy A (e : IoE A) : quiet e = true -> harmless may_send own_after (fun _ => True) (Io e).
Proof. intros He own _. split; [|done]. by destruct e. Qed.
Lemma panic_tidy : harmless may_send own_after (fun _ => True) Panic.
Proof. done. Qed.

(** A signed transaction is the one the task holds the number of. *)
Definition signed (r : result string Transaction) (own : Own) : Prop :=
  match r with Ok tx => own = Some (number tx) | Err _ => True end.
Lemma create_signed w payload own :
  follows_always may_send own_after signed (create_signed_transaction w payload) own.
Proof.
  intros n. apply follows_bind, follows_trigger; [done|]. intros k. apply follows_ret.
  unfold sign_transaction. destruct (sign_prehash_recoverable _ _) as [[sg rid]|e]; done.
Qed.

Lemma tidy_job j : tidy (job_body j).
Proof.
  apply (stays_job _ _ _ quiet_tidy panic_tidy signed); [|done|done].
  intros w payload s _. apply create_signed.
Qed.
Lemma tidy_main config : tidy (load_test_main config).
Proof.
  apply (stays_main _ _ _ quiet_tidy panic_tidy signed); try done.
  intros w payload s _. apply create_signed.
Qed.
End numbers.

(** * From the counters to the node *)

Section invariant.
Context {B : Backend} {Bok : BackendOk B} {V : TxEnv} {G : SigEnv} {X : HexEnv} {E : HexEncode}
  {K : KeyEnv} {H : HistEnv}.
Notation Own := (option (Address * Z)).
Implicit Types (w : World) (c : Config) (n : Node) (dead : list (Address * Z)) (owns : list Own).

(** ** Nonces over a block *)

Lemma execute_txs_nonces height block n response n' :
  grounded n -> current_version (sm_storage (nd_state n)) <= height ->
  commit_prunes (pruning_config (sm_storage (nd_state n))) height = false ->
  execute_txs height block n = (Ok response, n') ->
  grounded n' /\ exists done,
    (forall tx, tx ∈ done -> tx ∈ omap decoded block /\ recover_signer tx = Ok (tx_from tx)) /\
    forall a k, get_nonce (nd_state n) a = Ok k -> 0 <= k -> k + Z.of_nat (length block) <= U64_MAX ->
      get_nonce (nd_state n') a = Ok (k + Z.of_nat (length (sent_by a done))) /\
      map tx_nonce (sent_by a done) = seqZ k (Z.of_nat (length (sent_by a done))).
Proof.
  intros [Hwf Hcv] Hh Hnp Hx.
  destruct (execute_txs_reads height block n response n' PruningConfig_default (sm_hash_state (nd_state n)) Hwf Hh Hnp Hx)
    as (_ & (Hv & Hc & _) & Hwf' & _ & _ & Hr).
  split; [split; [exact Hwf'|by rewrite Hv, Hc]|].
  unfold execute_batch in Hr.
  destruct (execute_block block TxExecutionStats_new (nd_begin_block height n))
    as (done & st' & m & Em & _ & _ & Hrun).
  destruct (block_run_sublist _ _ _ _ Hrun) as [Hsub Hall].
  pose proof (block_run_nonces _ _ _ _ Hrun) as Hnon.
  rewrite Em in Hr. cbn [snd] in Hr. exists done. split.
  - intros tx Htx. split; [by eapply elem_of_sublist|by eapply Forall_forall in Hall].
  - intros a k Hk H0 Hfit.
    assert (Hb : get_nonce (nd_state (nd_begin_block height n)) a = get_nonce (nd_state n) a).
    { unfold get_nonce, get_or_default. rewrite !sm_get_sv.
      by destruct (begin_block_reads n height Hwf Hcv Hh (SK_Nonce a)) as [-> _]. }
    assert (He : get_nonce (nd_state n') a = get_nonce (nd_state m) a).
    { unfold get_nonce, get_or_default. rewrite !sm_get_sv. by destruct (Hr (SK_Nonce a)) as [-> _]. }
    rewrite He. apply Hnon; [by rewrite Hb|done|done].
Qed.

Lemma submit_engine hex n : nd_engine (snd (submit_transaction hex n)) = nd_engine n.
Proof.
  unfold submit_transaction, st_bind, st_lift, st_map_err, st_zoom.
  destruct (decode_and_verify_tx hex) as [tx|e]; [|done].
  by destruct (mp_add tx (nd_mempool n)) as [[h|e] p].
Qed.

(** ** The invariant *)

(** Where the numbers are that the counters gave out: in the hands of a task, at
    the node, on the wire, or dead, never to be used. *)
Definition numbers dead owns w : list (Address * Z) :=
  dead ++ omap id owns ++ map number (w_delivered w ++ w_wire w).
Definition issued w (id : Address * Z) : Prop :=
  exists k, w_counters w !! id.1 = Some k /\ 0 <= id.2 < k.
Definition numbers_ok dead owns w : Prop :=
  NoDup (numbers dead owns w) /\ Forall (issued w) (numbers dead owns w).

(** The node has executed, of each wallet, the transactions numbered below its
    nonce; it got them all from the wallet. *)
Definition node_ok w : Prop :=
  grounded (w_node w) /\
  forall a k, w_counters w !! a = Some k ->
    0 <= k <= U64_MAX /\
    exists q, get_nonce (nd_state (w_node w)) a = Ok q /\ 0 <= q /\
      forall j, 0 <= j < q -> (a, j) ∈ map number (w_delivered w).

Definition tasks_ok owns c : Prop :=
  Forall2 (fun t own => follows_always may_send own_after (fun _ _ => True) t own) (c_tasks c) owns.
Definition load_inv dead c : Prop :=
  exists owns, tasks_ok owns c /\ numbers_ok dead owns (c_world c) /\ node_ok (c_world c).

Lemma node_ok_frame w w' :
  nd_engine (w_node w') = nd_engine (w_node w) -> w_counters w' = w_counters w ->
  w_delivered w ⊆ w_delivered w' -> node_ok w -> node_ok w'.
Proof.
  intros He Hc Hd [Hg Hn]. split; [unfold grounded, nd_state in *; by rewrite He|].
  intros a k. rewrite Hc. intros Hk. destruct (Hn a k Hk) as (Hb & q & Hq & H0 & Hj).
  split; [done|]. exists q. split; [unfold nd_state in *; by rewrite He|]. split; [done|].
  intros j Hj'. apply Hj in Hj'. rewrite list_elem_of_fmap in *. destruct Hj' as (tx & -> & Htx).
  exists tx. split; [done|]. by apply Hd.
Qed.

(** The nonce of a wallet never passes a dead number. *)
Lemma dead_bound dead c a j :
  load_inv dead c -> (a, j) ∈ dead ->
  exists q, get_nonce (nd_state (w_node (c_world c))) a = Ok q /\ q <= j.
Proof.
  intros (owns & _ & [Hnd His] & [_ Hn]) Hj.
  assert (Hi : issued (c_world c) (a, j)).
  { eapply Forall_forall; [exact His|]. unfold numbers. apply elem_of_app. by left. }
  destruct Hi as (k & Hk & H0 & _). destruct (Hn a k Hk) as (_ & q & Hq & _ & Hd).
  exists q. split; [done|]. destruct (Z.le_gt_cases q j) as [|Hlt]; [done|].
  exfalso. specialize (Hd j (conj H0 Hlt)). apply NoDup_app in Hnd as (_ & Hnd & _).
  apply (Hnd _ Hj). rewrite map_app, !elem_of_app. by right; left.
Qed.

Lemma block_node_ok w height block response n' :
  node_ok w -> numbers_ok [] [] w ->
  current_version (sm_storage (nd_state (w_node w))) <= height ->
  commit_prunes (pruning_config (sm_storage (nd_state (w_node w)))) height = false ->
  execute_txs height block (w_node w) = (Ok response, n') ->
  (forall tx, tx ∈ omap decoded block -> recover_signer tx = Ok (tx_from tx) ->
     is_Some (w_counters w !! tx_from tx) -> tx ∈ w_delivered w) ->
  (forall a k, w_counters w !! a = Some k -> k + Z.of_nat (length block) <= U64_MAX) ->
  node_ok (with_node n' w).
Proof.
  intros [Hg Hn] [_ His] Hh Hnp Hx Hforge Hfit.
  destruct (execute_txs_nonces _ _ _ _ _ Hg Hh Hnp Hx) as (Hg' & done & Hdone & Hnon).
  split; [exact Hg'|]. cbn. intros a k Hk. destruct (Hn a k Hk) as (Hb & q & Hq & H0 & Hj).
  split; [done|]. assert (Hqk : q <= k).
  { destruct (Z.le_gt_cases q 0) as [|Hpos]; [lia|]. assert (Hin : (a, q - 1) ∈ map number (w_delivered w)) by (apply Hj; lia).
    assert (Hi : issued w (a, q - 1)).
    { eapply Forall_forall; [exact His|]. unfold numbers. rewrite map_app, !elem_of_app. by right; right; left. }
    destruct Hi as (k' & Hk' & _ & Hlt). cbn in *. simplify_eq. lia. }
  specialize (Hfit a k Hk). destruct (Hnon a q Hq H0 ltac:(lia)) as [Hq' Hmap].
  exists (q + Z.of_nat (length (sent_by a done))). split; [done|]. split; [lia|].
  intros j [Hj0 Hjq]. destruct (Z.lt_ge_cases j q) as [|Hge]; [by apply Hj|].
  assert (Hin : j ∈ map tx_nonce (sent_by a done)) by (rewrite Hmap; apply elem_of_seqZ; lia).
  apply list_elem_of_fmap in Hin as (tx & -> & Htx). apply list_elem_of_filter in Htx as [<- Htx].
  destruct (Hdone tx Htx) as [Hblock Hrec]. apply list_elem_of_fmap. exists tx. split; [done|].
  apply Hforge; [done|done|by eexists].
Qed.

(** ** Every step keeps the invariant *)

Lemma owns_split owns i own :
  owns !! i = Some own -> omap id owns ≡ₚ option_list own ++ omap id (<[i := None]> owns).
Proof.
  intros Hi. pose proof (take_drop_middle owns i own Hi) as Hs.
  rewrite <- Hs at 1. rewrite insert_take_drop by (by eapply lookup_lt_Some).
  rewrite !omap_app. cbn. destruct own as [x|]; cbn; [|done]. by rewrite <- Permutation_middle.
Qed.

Lemma numbers_split dead owns w i own :
  owns !! i = Some own ->
  numbers dead owns w ≡ₚ
  option_list own ++ dead ++ omap id (<[i := None]> owns) ++ map number (w_delivered w ++ w_wire w).
Proof. intros Hi. unfold numbers. rewrite (owns_split _ _ _ Hi). solve_Permutation. Qed.

Lemma numbers_ok_fewer dead owns w dead' owns' w' :
  numbers dead' owns' w' ⊆+ numbers dead owns w -> w_counters w' = w_counters w ->
  numbers_ok dead owns w -> numbers_ok dead' owns' w'.
Proof.
  intros Hsub Hc [Hnd His]. split.
  { destruct (submseteq_Permutation _ _ Hsub) as [rest Hp]. rewrite Hp in Hnd. by apply NoDup_app in Hnd as [? _]. }
  apply Forall_forall. intros id Hid. eapply elem_of_submseteq in Hid; [|exact Hsub].
  eapply Forall_forall in His; [|exact Hid]. unfold issued. by rewrite Hc.
Qed.

Lemma numbers_none dead owns w : numbers_ok dead owns w -> numbers_ok [] [] w.
Proof.
  apply numbers_ok_fewer; [|done]. unfold numbers. cbn. rewrite app_assoc. apply submseteq_inserts_l. done.
Qed.

Lemma serve_cases tx w :
  let '(r, w') := serve tx w in
  w_counters w' = w_counters w /\ nd_engine (w_node w') = nd_engine (w_node w) /\
  w_wire w' = w_wire w /\
  w_delivered w' = match r with Ok _ => tx :: w_delivered w | Err _ => w_delivered w end.
Proof.
  unfold serve. pose proof (submit_engine (tx_request tx) (w_node w)) as He.
  by destruct (submit_transaction (tx_request tx) (w_node w)) as [[h|e] n].
Qed.

Lemma serve_numbers dead owns tx w :
  numbers dead owns (snd (serve tx w)) ⊆+ number tx :: numbers dead owns w.
Proof.
  pose proof (serve_cases tx w) as Hc. destruct (serve tx w) as [[h|e] w'];
    destruct Hc as (_ & _ & Hw & Hd); cbn [snd]; unfold numbers; rewrite Hw, Hd; cbn [map app].
  - apply Permutation_submseteq. solve_Permutation.
  - by apply submseteq_cons.
Qed.

Lemma serve_node_ok tx w : node_ok w -> node_ok (snd (serve tx w)).
Proof.
  pose proof (serve_cases tx w) as Hc. destruct (serve tx w) as [r w']; destruct Hc as (Hc & He & _ & Hd).
  cbn [snd]. apply node_ok_frame; [done|done|]. rewrite Hd. destruct r; set_solver.
Qed.

(** The number a task holds moves on with its transaction. *)
Lemma numbers_drop dead owns w i id :
  owns !! i = Some (Some id) -> id :: numbers dead (<[i := None]> owns) w ≡ₚ numbers dead owns w.
Proof. intros Hi. rewrite (numbers_split _ _ _ _ _ Hi). unfold numbers. cbn. done. Qed.

Lemma serve_keeps dead owns i tx w :
  owns !! i = Some (Some (number tx)) -> numbers_ok dead owns w -> node_ok w ->
  numbers_ok dead (<[i := None]> owns) (snd (serve tx w)) /\ node_ok (snd (serve tx w)).
Proof.
  intros Hi Hn Hk. split; [|by apply serve_node_ok].
  eapply numbers_ok_fewer; [| |exact Hn].
  - etrans; [apply serve_numbers|]. by rewrite numbers_drop.
  - pose proof (serve_cases tx w) as Hc. by destruct (serve tx w), Hc.
Qed.

(** A refused transaction takes its number with it. *)
Lemma serve_refused dead owns i tx w e w' :
  owns !! i = Some (Some (number tx)) -> numbers_ok dead owns w -> node_ok w ->
  serve tx w = (Err e, w') ->
  numbers_ok (number tx :: dead) (<[i := None]> owns) w' /\ node_ok w'.
Proof.
  intros Hi Hn Hk Hs. pose proof (serve_cases tx w) as Hc. pose proof (serve_node_ok tx w Hk) as Hk'.
  rewrite Hs in Hc, Hk'. destruct Hc as (Hc & _ & Hw & Hd). split; [|done].
  eapply numbers_ok_fewer; [|exact Hc|exact Hn].
  change (numbers (number tx :: dead) (<[i := None]> owns) w')
    with (number tx :: numbers dead (<[i := None]> owns) w').
  unfold numbers at 1. rewrite Hw, Hd. change (dead ++ _ ++ _) with (numbers dead (<[i := None]> owns) w).
  by rewrite numbers_drop.
Qed.

(** What an access does to the numbers. *)
Lemma numbers_ok_same dead owns w w' :
  w_counters w' = w_counters w -> w_delivered w' = w_delivered w -> w_wire w' = w_wire w ->
  numbers_ok dead owns w -> numbers_ok dead owns w'.
Proof.
  intros Hc Hd Hw. apply numbers_ok_fewer; [|done]. unfold numbers. by rewrite Hd, Hw.
Qed.
Lemma node_ok_same w w' :
  w_counters w' = w_counters w -> w_delivered w' = w_delivered w -> w_node w' = w_node w ->
  node_ok w -> node_ok w'.
Proof. intros Hc Hd Hn. apply node_ok_frame; [by rewrite Hn|done|by rewrite Hd]. Qed.

Lemma new_counter_keeps dead owns w a :
  w_counters w !! a = None -> get_nonce (nd_state (w_node w)) a = Ok 0 ->
  numbers_ok dead owns w -> node_ok w ->
  numbers_ok dead owns (with_counter a 0 w) /\ node_ok (with_counter a 0 w).
Proof.
  intros Ha Hq [Hnd His] [Hg Hn]. split; [split; [exact Hnd|]|split; [exact Hg|]].
  - apply (Forall_impl _ _ _ His). intros [b j] (k & Hk & Hj). exists k. split; [|done].
    cbn in *. rewrite lookup_insert_ne; [done|]. congruence.
  - intros b k. cbn. destruct (decide (a = b)) as [<-|Hne].
    + rewrite lookup_insert_eq. intros [= <-]. split; [done|]. exists 0. split_and!; [done|done|]. lia.
    + rewrite lookup_insert_ne by done. apply Hn.
Qed.

Lemma fetch_add_keeps dead owns i own w a k :
  owns !! i = Some own -> w_counters w !! a = Some k -> k < U64_MAX ->
  numbers_ok dead owns w -> node_ok w ->
  numbers_ok dead (<[i := Some (a, k)]> owns) (with_counter a (wadd64 k 1) w) /\
  node_ok (with_counter a (wadd64 k 1) w).
Proof.
  intros Hi Ha Hk [Hnd His] [Hg Hn]. destruct (Hn a k Ha) as (Hr & q & Hq & H0 & Hj).
  assert (Ew : wadd64 k 1 = k + 1) by (apply as_u64_id; unfold is_u64 in *; lia).
  assert (Hissued : forall id, issued w id -> issued (with_counter a (k + 1) w) id).
  { intros [b j] (k' & Hk' & Hj'). unfold issued. cbn in *. destruct (decide (a = b)) as [<-|Hne].
    - exists (k + 1). rewrite lookup_insert_eq. simplify_eq. split; [done|lia].
    - exists k'. by rewrite lookup_insert_ne by done. }
  assert (Hi' : <[i := Some (a, k)]> owns !! i = Some (Some (a, k)))
    by (apply list_lookup_insert_eq; by eapply lookup_lt_Some).
  rewrite Ew. split; [|split; [exact Hg|]].
  - assert (Hp : numbers dead (<[i := Some (a, k)]> owns) (with_counter a (k + 1) w) ≡ₚ
      (a, k) :: dead ++ omap id (<[i := None]> owns) ++ map number (w_delivered w ++ w_wire w)).
    { rewrite (numbers_split _ _ _ _ _ Hi'). by rewrite list_insert_insert_eq. }
    pose proof (numbers_split dead owns w i own Hi) as Hp0.
    rewrite Hp0 in Hnd, His. apply NoDup_app in Hnd as (_ & _ & Hnd). apply Forall_app in His as [_ His].
    split; rewrite Hp.
    + apply NoDup_cons. split; [|exact Hnd]. intros Hin.
      eapply Forall_forall in His; [|exact Hin]. destruct His as (k' & Hk' & _ & Hlt). cbn in *. simplify_eq. lia.
    + apply Forall_cons. split; [exists (k + 1); cbn; rewrite lookup_insert_eq; split; [done|lia]|].
      by apply (Forall_impl _ _ _ His).
  - intros b k'. cbn. destruct (decide (a = b)) as [<-|Hne].
    + rewrite lookup_insert_eq. intros [= <-]. split; [lia|]. by exists q.
    + rewrite lookup_insert_ne by done. apply Hn.
Qed.

Lemma handle_keeps dead owns i own ch A (e : IoE A) x w w' :
  owns !! i = Some own -> may_send _ (Io e) own -> handle ch e w = Some (x, w') ->
  numbers_ok dead owns w -> node_ok w ->
  numbers_ok dead (<[i := own_after _ (Io e) x own]> owns) w' /\ node_ok w'.
Proof.
  intros Hi Hm Hh Hn Hk.
  assert (Hsame : own_after _ (Io e) x own = own ->
    w_counters w' = w_counters w -> w_delivered w' = w_delivered w -> w_wire w' = w_wire w ->
    w_node w' = w_node w ->
    numbers_ok dead (<[i := own_after _ (Io e) x own]> owns) w' /\ node_ok w').
  { intros -> Hc Hd Hw Hnode. rewrite list_insert_id by done.
    split; [by eapply numbers_ok_same|by eapply node_ok_same]. }
  destruct e as [|lo hi|m| |d| |a|a|tx|a asset| |f|]; cbn [handle own_after] in *.
  - destruct ch; try done. simplify_eq. by apply Hsame.
  - destruct ch; try done. case_match; [|done]. simplify_eq. by apply Hsame.
  - destruct ch; try done. case_match; [|done]. simplify_eq. by apply Hsame.
  - destruct ch; try done. case_match; [|done]. simplify_eq. by apply Hsame.
  - destruct ch; try done. case_match; [|done]. simplify_eq. by apply Hsame.
  - simplify_eq. by apply Hsame.
  - destruct (w_counters w !! a) eqn:Ea; [done|].
    destruct (get_nonce (nd_state (w_node w)) a) as [[| |]|] eqn:Eq; try done. simplify_eq.
    rewrite list_insert_id by done. by apply new_counter_keeps.
  - destruct (w_counters w !! a) as [k|] eqn:Ea; [|done]. destruct (Z.ltb_spec k U64_MAX); [|done].
    simplify_eq. by eapply fetch_add_keeps.
  - cbn in Hm. subst own. destruct ch as [| | | |o|]; try done. destruct o as [text|text|text].
    + pose proof (serve_keeps dead owns i tx w Hi Hn Hk) as Hs. by destruct (serve tx w); simplify_eq.
    + pose proof (serve_keeps dead owns i tx w Hi Hn Hk) as Hs. by destruct (serve tx w); simplify_eq.
    + simplify_eq. split; [|by eapply node_ok_same].
      apply (numbers_ok_fewer dead owns w); [|done|exact Hn]. rewrite <- (numbers_drop dead owns w i (number tx) Hi).
      unfold numbers. cbn [loses w_delivered w_wire]. rewrite !map_app. cbn [map].
      apply Permutation_submseteq. solve_Permutation.
  - destruct ch as [| | | |o|]; try done. destruct o; simplify_eq; by apply Hsame.
  - destruct ch as [| | | |o|]; try done. destruct o; simplify_eq; by apply Hsame.
  - simplify_eq. by apply Hsame.
  - simplify_eq. by apply Hsame.
Qed.

Lemma tasks_ok_insert owns c i t own :
  tasks_ok owns c -> follows_always may_send own_after (fun _ _ => True) t own ->
  tasks_ok (<[i := own]> owns) (with_task i t c).
Proof. intros Ht Hf. by apply Forall2_insert. Qed.

(** Replacing a task by one that is tidy whatever it holds. *)
Lemma tasks_ok_replace owns c i (t : itree Ev unit) :
  tasks_ok owns c -> tidy t -> tasks_ok owns (with_task i t c).
Proof.
  intros Ht Hf. destruct (owns !! i) as [own|] eqn:Hi.
  - rewrite <- (list_insert_id owns i own Hi). apply tasks_ok_insert; [done|by apply Hf].
  - unfold tasks_ok. cbn. rewrite list_insert_ge; [exact Ht|].
    apply Forall2_length in Ht. apply lookup_ge_None in Hi. lia.
Qed.

Lemma task_step_keeps dead i ch c c' : task_step i ch c = Some c' -> load_inv dead c -> load_inv dead c'.
Proof.
  unfold task_step. intros Hs (owns & Ht & Hn & Hk).
  destruct (c_tasks c !! i) as [t|] eqn:Et; [|done]. cbn in Hs.
  destruct (Forall2_lookup_l _ _ _ _ _ Ht Et) as (own & Hi & Hf). apply follows_observe in Hf.
  assert (Hput : forall t', follows_always may_send own_after (fun _ _ => True) t' own ->
    load_inv dead (with_task i t' c)).
  { intros t' Hf'. exists owns. split; [|done]. rewrite <- (list_insert_id owns i own Hi).
    by apply tasks_ok_insert. }
  destruct (observe t) as [[]|t'|A e k]; [done| |].
  { simplify_eq. by apply Hput. }
  destruct Hf as [Hm Hf]. destruct e as [A e|j|h|h|]; cbn [event_step] in Hs.
  - destruct (handle ch e (c_world c)) as [[x w']|] eqn:Eh; [|done]. cbn in Hs. simplify_eq.
    exists (<[i := own_after _ (Io e) x own]> owns). split; [apply (tasks_ok_insert _ (with_world w' c)); [done|apply Hf]|].
    by eapply handle_keeps.
  - simplify_eq. exists (owns ++ [None]). split.
    + apply Forall2_app; [|constructor; [by apply tidy_job|done]].
      rewrite <- (list_insert_id owns i own Hi). apply tasks_ok_insert; [done|apply Hf].
    + split; [|exact Hk]. apply (numbers_ok_fewer dead owns (c_world c)); [|done|exact Hn].
      unfold numbers. rewrite omap_app. cbn. by rewrite app_nil_r.
  - destruct (c_tasks c !! h) as [t'|]; [|done]. cbn in Hs. destruct (finished t'); [|done]. simplify_eq.
    apply Hput, Hf.
  - simplify_eq. exists owns. split; [|done]. rewrite <- (list_insert_id owns i own Hi).
    apply tasks_ok_insert; [|apply Hf]. apply tasks_ok_replace; [exact Ht|apply stays_ret].
  - simplify_eq. exists owns. split; [|done]. apply tasks_ok_replace; [exact Ht|apply stays_ret].
Qed.

Lemma env_step_keeps dead owns w w' :
  env_step w w' -> numbers_ok dead owns w -> node_ok w -> numbers_ok dead owns w' /\ node_ok w'.
Proof.
  intros Hs Hn Hk. destruct Hs as [w height block response n' Hh Hnp Hx Hforge Hfit|w hex|w before tx after Hw].
  - split; [by eapply numbers_ok_same|]. eapply block_node_ok; try eassumption. by eapply numbers_none.
  - split; [by eapply numbers_ok_same|]. eapply node_ok_frame; [apply submit_engine|done|done|exact Hk].
  - split.
    + eapply numbers_ok_fewer; [| |exact Hn].
      * etrans; [apply serve_numbers|]. unfold numbers. cbn [w_delivered w_wire]. rewrite Hw, !map_app.
        cbn [map]. apply Permutation_submseteq. solve_Permutation.
      * match goal with |- w_counters (snd (serve tx ?w0)) = _ => pose proof (serve_cases tx w0) as Hc;
          by destruct (serve tx w0), Hc end.
    + apply serve_node_ok. by eapply node_ok_same.
Qed.

Lemma reaches_keeps dead c c' : reaches c c' -> load_inv dead c -> load_inv dead c'.
Proof.
  intros Hr. induction Hr as [c|c1 c2 c3 Hs _ IH]; [done|]. intros Hi. apply IH.
  destruct Hs as [i ch c1 c2 Hs|c1 w' Hs]; [by eapply task_step_keeps|].
  destruct Hi as (owns & Ht & Hn & Hk). exists owns. split; [exact Ht|]. by eapply env_step_keeps.
Qed.

Lemma start_inv config n now : grounded n -> load_inv [] (start_of config n now).
Proof.
  intros Hg. exists [None]. split; [|split; [split|split]].
  - constructor; [by apply tidy_main|constructor].
  - constructor.
  - constructor.
  - exact Hg.
  - intros a k. cbn. by rewrite lookup_empty.
Qed.

(** A task about to post, and the transaction. *)
Definition posting (t : itree Ev unit) : option Transaction :=
  match observe t with
  | VisF e _ => match e with Io (PostTx tx) => Some tx | _ => None end
  | _ => None
  end.
Definition posts c i : option Transaction := t ← c_tasks c !! i; posting t.

(** The step in which the node answers a post with a refusal. *)
Lemma refused_keeps dead i text tx e c c' :
  load_inv dead c -> posts c i = Some tx ->
  fst (submit_transaction (tx_request tx) (w_node (c_world c))) = Err e ->
  task_step i (Net (Answered text)) c = Some c' -> load_inv (number tx :: dead) c'.
Proof.
  unfold posts, task_step. intros (owns & Ht & Hn & Hk) Hp Hr Hs.
  destruct (c_tasks c !! i) as [t|] eqn:Et; [|done]. cbn in Hp, Hs. unfold posting in Hp.
  destruct (Forall2_lookup_l _ _ _ _ _ Ht Et) as (own & Hi & Hf). apply follows_observe in Hf.
  destruct (observe t) as [[]|t'|A ev k]; [done|done|].
  destruct ev as [A ev|j|h|h|]; try done. destruct ev; try done. simplify_eq.
  destruct Hf as [Hm Hf]. cbn in Hm. subst own. cbn [event_step handle] in Hs.
  assert (Hserve : exists w', serve tx (c_world c) = (Err e, w')).
  { unfold serve. destruct (submit_transaction (tx_request tx) (w_node (c_world c))) as [[h|e'] n]; [done|].
    cbn in Hr. simplify_eq. eauto. }
  destruct Hserve as [w' Hserve]. rewrite Hserve in Hs. cbn in Hs. simplify_eq.
  destruct (serve_refused dead owns i tx (c_world c) e w' Hi Hn Hk Hserve) as [Hn' Hk'].
  exists (<[i := None]> owns). split; [|done].
  apply (tasks_ok_insert _ (with_world w' c)); [exact Ht|apply Hf].
Qed.

End invariant.

(** C29: the numbers of the load generator's transactions, started against a node
    with a sound store.  However its tasks,
    the node's blocks and other clients interleave, and whatever gets lost, where
    the node's blocks come at heights that do not go down, commit without pruning
    (with the daemon's configuration: heights up to 100000), hold no transaction
    of a wallet that the wallet's client did not deliver (nobody forges its
    signature) and are short enough that counter plus length fits a [u64]: two
    transactions a wallet got accepted never share a number, and the nonce of
    the wallet at the node is at most the wallet's counter, all the lower
    numbers belonging to transactions the node accepted from the wallet. *)
Theorem wallet_numbers {B : Backend} {Bok : BackendOk B} {V : TxEnv} {G : SigEnv} {X : HexEnv}
    {E : HexEncode} {K : KeyEnv} {H : HistEnv} config (n : Node) (now : Z) (c : Config) :
  grounded n -> reaches (start_of config n now) c ->
  let w := c_world c in
  NoDup (map number (w_delivered w)) /\
  forall a k, w_counters w !! a = Some k ->
    exists q, get_nonce (nd_state (w_node w)) a = Ok q /\ 0 <= q <= k /\
      forall j, 0 <= j < q -> exists tx, tx ∈ w_delivered w /\ tx_from tx = a /\ tx_nonce tx = j.
Proof.
  intros Hg Hr. destruct (reaches_keeps _ _ _ Hr (start_inv config n now Hg)) as (owns & _ & [Hnd His] & _ & Hn).
  cbv zeta. split.
  { unfold numbers in Hnd. rewrite map_app in Hnd. apply NoDup_app in Hnd as (_ & _ & Hnd).
    apply NoDup_app in Hnd as (_ & _ & Hnd). by apply NoDup_app in Hnd as [? _]. }
  intros a k Hk. destruct (Hn a k Hk) as (Hb & q & Hq & H0 & Hj). exists q. split; [done|].
  assert (Hd : forall j, 0 <= j < q -> exists tx, tx ∈ w_delivered (c_world c) /\ tx_from tx = a /\ tx_nonce tx = j).
  { intros j Hjq. apply Hj, list_elem_of_fmap in Hjq as (tx & [= -> ->] & Htx). by exists tx. }
  split; [|done]. split; [done|]. destruct (Z.le_gt_cases q k) as [|Hlt]; [done|].
  destruct (Hd k) as (tx & Htx & <- & Hk'); [lia|].
  assert (Hi : issued (c_world c) (number tx)).
  { eapply Forall_forall; [exact His|]. unfold numbers. rewrite map_app, !elem_of_app. right; right; left.
    apply list_elem_of_fmap. by exists tx. }
  destruct Hi as (k' & Hk'' & _ & Hlt'). cbn in *. simplify_eq. lia.
Qed.

(** C30: one refused submission stops a wallet for good, on a node with a sound
    store.  The load generator
    never uses a number twice, so when the node refuses a transaction (a full
    pool, too many pending transactions of the sender), then in everything that
    can follow the nonce of its wallet stays at or below the refused number, so no
    transaction of the wallet with a higher number can be executed.  What can
    follow: steps of the client's tasks, other clients, and blocks of the node at
    heights that do not go down, committed without pruning (with the daemon's
    configuration: heights up to 100000), holding no transaction of a wallet that
    was not delivered, and short enough that counter plus length fits a [u64]. *)
Theorem refused_number_stalls {B : Backend} {Bok : BackendOk B} {V : TxEnv} {G : SigEnv} {X : HexEnv}
    {E : HexEncode} {K : KeyEnv} {H : HistEnv} config (n : Node) (now : Z) (c1 c2 c3 : Config)
    (i : nat) (text : string) (tx : Transaction) (e : RpcError) :
  grounded n -> reaches (start_of config n now) c1 ->
  posts c1 i = Some tx ->
  fst (submit_transaction (tx_request tx) (w_node (c_world c1))) = Err e ->
  task_step i (Net (Answered text)) c1 = Some c2 ->
  reaches c2 c3 ->
  exists q, get_nonce (nd_state (w_node (c_world c3))) (tx_from tx) = Ok q /\ q <= tx_nonce tx.
Proof.
  intros Hg Hr Hp Hs Ht Hr'. pose proof (reaches_keeps _ _ _ Hr (start_inv config n now Hg)) as Hi.
  apply (refused_keeps _ _ _ _ _ _ _ Hi Hp Hs) in Ht. apply (reaches_keeps _ _ _ Hr') in Ht.
  apply (dead_bound _ _ _ _ Ht). apply elem_of_cons. by left.
Qed.

(** * What a wallet signs is accepted *)

(** k256 and alloy: the address recovered from a signature is that of the key
    that made it (recovery ids above 1 do not fit the single parity bit); hex
    digits decode to what they encode, and none of them is an x. *)
Class KeyEnvOk {V : TxEnv} (K : KeyEnv) (G : SigEnv) := {
  recovers_key : forall key hash sg recovery_id,
    sign_prehash_recoverable key hash = Ok (sg, recovery_id) ->
    length sg = 64%nat /\
    (recovery_id <= 1 ->
     recover_address_from_prehash (from_bytes_and_parity sg (negb (recovery_id =? 0))) hash =
       Some (key_address key));
}.
Class HexOk (X : HexEnv) (E : HexEncode) := {
  hex_roundtrip : forall l, hex_decode (hex_encode l) = Some l;
  hex_no_prefix : forall l, trim_start_0x (hex_encode l) = hex_encode l;
}.

Section accepted.
Context {B : Backend} {V : TxEnv} {Vok : TxEnvOk V} {G : SigEnv} {X : HexEnv} {E : HexEncode} {Xok : HexOk X E}
  {K : KeyEnv} {Kok : KeyEnvOk K G}.

Lemma sign_recovers w nonce payload tx :
  wallet_address w = key_address (signing_key w) ->
  sign_transaction w (new_raw nonce (wallet_address w) payload) = Ok tx ->
  nth 64 (signature_bytes tx) 0 <= 1 ->
  number tx = (wallet_address w, nonce) /\ tx_payload tx = payload /\ recover_signer tx = Ok (tx_from tx).
Proof.
  intros Hw Hs Hrid. unfold sign_transaction in Hs.
  destruct (sign_prehash_recoverable _ _) as [[sg rid]|e] eqn:Es; [|done].
  destruct (recovers_key _ _ _ _ Es) as [Hl Hr]. injection Hs as <-. split_and!; [done|done|].
  unfold recover_signer, signature_bytes in *. cbn [set_signature tx_signature new_raw sig_set sig_as_ref] in *.
  rewrite <- Hl in Hrid. rewrite nth_middle in Hrid.
  rewrite <- Hl, take_app_length, nth_middle. unfold recover.
  change (signing_hash (set_signature (sg ++ [rid]) (new_raw nonce (wallet_address w) payload)))
    with (signing_hash (new_raw nonce (wallet_address w) payload)).
  rewrite (Hr Hrid). exact (f_equal Ok (eq_sym Hw)).
Qed.

(** A wallet's request survives the way to the node: what
    [create_signed_transaction] signs, encoded and sent as hex, decodes at the
    node to the same transaction, and the node finds it signed by the wallet's
    own address, with the number and payload the wallet gave it.  (For
    encodings within the node's limit.) *)
Theorem wallet_request_verified w nonce payload tx :
  wallet_address w = key_address (signing_key w) ->
  sign_transaction w (new_raw nonce (wallet_address w) payload) = Ok tx ->
  nth 64 (signature_bytes tx) 0 <= 1 -> Z.of_nat (length (encode tx)) <= MAX_TX_SIZE ->
  decode_and_verify_tx (tx_request tx) = Ok tx /\
  tx_from tx = wallet_address w /\ tx_nonce tx = nonce /\ tx_payload tx = payload.
Proof.
  intros Hw Hs Hrid Hsize. destruct (sign_recovers _ _ _ _ Hw Hs Hrid) as (Hn & Hp & Hr).
  split; [|by injection Hn as ? ?]. apply decode_and_verify_Ok. exists (encode tx). split_and!; [| |exact Hr].
  - change (trim_start_0x (tx_request tx)) with (trim_start_0x (hex_encode (encode tx))).
    by rewrite hex_no_prefix, hex_roundtrip.
  - unfold decode_tx, tx_try_from, encode in *. rewrite borsh_tx_roundtrip.
    destruct (Z.ltb_spec MAX_TX_SIZE (Z.of_nat (length (borsh_tx tx)))); [lia|done].
Qed.

End accepted.

(** * Witnesses *)

(** A toy hex: each number in binary, the digits a and b, least first, closed by
    a comma (s for a negative one, z for zero). *)
Fixpoint toy_digits (p : positive) (s : string) : string :=
  match p with
  | xH => String ","%char s
  | xO p => String "a"%char (toy_digits p s)
  | xI p => String "b"%char (toy_digits p s)
  end.
Definition toy_number (z : Z) (s : string) : string :=
  match z with
  | Z0 => String "z"%char s
  | Zpos p => toy_digits p s
  | Zneg p => String "s"%char (toy_digits p s)
  end.
#[export] Instance toy_hex_encode : HexEncode := fun l => foldr toy_number EmptyString l.
(** [sign] and [digits] describe the number read so far. *)
Fixpoint toy_read (sign : positive -> Z) (digits : positive -> positive) (s : string) : option (list Z) :=
  match s with
  | EmptyString => Some []
  | String c s =>
      if Ascii.eqb c "a"%char then toy_read sign (fun p => digits (xO p)) s
      else if Ascii.eqb c "b"%char then toy_read sign (fun p => digits (xI p)) s
      else if Ascii.eqb c "s"%char then toy_read Zneg digits s
      else if Ascii.eqb c "z"%char then l ← toy_read Zpos id s; Some (0 :: l)
      else if Ascii.eqb c ","%char then l ← toy_read Zpos id s; Some (sign (digits xH) :: l)
      else None
  end.
#[export] Instance toy_hex : HexEnv := toy_read Zpos id.

Lemma toy_read_digits p : forall sign digits s,
  toy_read sign digits (toy_digits p s) = l ← toy_read Zpos id s; Some (sign (digits p) :: l).
Proof. induction p as [p IH|p IH|]; intros sign digits s; cbn; [by rewrite IH|by rewrite IH|done]. Qed.
#[local] Instance toy_hex_ok : HexOk toy_hex toy_hex_encode.
Proof.
  split.
  - intros l. unfold hex_decode, toy_hex. induction l as [|[|p|p] l IH]; [done|..]; cbn.
    + unfold hex_encode, toy_hex_encode in IH. cbn in IH. by rewrite IH.
    + rewrite toy_read_digits. unfold hex_encode, toy_hex_encode in IH. by rewrite IH.
    + rewrite toy_read_digits. unfold hex_encode, toy_hex_encode in IH. by rewrite IH.
  - intros [|[|p|p] l]; [reflexivity|reflexivity|destruct p; reflexivity|reflexivity].
Qed.

(** Toy keys: a number below 255, the last byte of the public key; a signature
    names the address in its first byte. *)
Definition toy_address (key : Z) : Address :=
  from_slice (drop 12 (b256_slice (keccak256 (replicate 63 0 ++ [key])))).
#[export] Instance toy_keys : KeyEnv := {|
  SigningKey := Z;
  key_from_bytes l := key ← head l; if (0 <=? key) && (key <? 255) then Some key else None;
  encoded_point key := 4 :: replicate 63 0 ++ [key];
  sign_prehash_recoverable key _ :=
    Ok (toy_address key :: replicate 63 0, 1);
|}.
Lemma toy_key_address (key : Z) : key_address (K := toy_keys) key = toy_address key.
Proof.
  unfold key_address, toy_address.
  assert (Hd : drop 1 (encoded_point (KeyEnv := toy_keys) key) = replicate 63 0 ++ [key]) by reflexivity.
  rewrite Hd. reflexivity.
Qed.
Lemma toy_recovers a l p hash :
  recover_address_from_prehash (SigEnv := toy_sig) (from_bytes_and_parity (a :: l) p) hash = Some a.
Proof. reflexivity. Qed.
#[local] Instance toy_keys_ok : KeyEnvOk toy_keys toy_sig.
Proof.
  split. intros key hash sg rid Hs. injection Hs as Hsg Hrid. rewrite <- Hsg, <- Hrid.
  split; [reflexivity|]. intros _.
  exact (eq_trans (toy_recovers (toy_address key) _ _ _) (f_equal Some (eq_sym (toy_key_address key)))).
Qed.
#[export] Instance toy_hist : HistEnv := {|
  Histogram := list Z; hist_new := []; hist_record := cons; hist_min _ := 0; hist_max _ := 0;
  hist_mean _ := f64_of_int 0; value_at_quantile _ _ := 0 |}.

Definition demo_wallet : Wallet := {| signing_key := 6; wallet_address := 7 |}.

Lemma wallet_request_verified_witness : exists tx,
  sign_transaction demo_wallet (new_raw 3 7 (demo_transfer 5)) = Ok tx /\
  decode_and_verify_tx (tx_request tx) = Ok tx.
Proof.
  eexists. split; [reflexivity|].
  eapply (wallet_request_verified demo_wallet 3 (demo_transfer 5));
    [reflexivity|reflexivity|vm_compute; discriminate|vm_compute; discriminate].
Defined.

(** Running tasks by a schedule. *)
Fixpoint run (schedule : list (nat * Choice)) (c : Config (B := mem_backend)) : option Config :=
  match schedule with
  | [] => Some c
  | (i, ch) :: schedule => c ← task_step i ch c; run schedule c
  end.
Lemma run_reaches schedule : forall c c', run schedule c = Some c' -> reaches c c'.
Proof.
  induction schedule as [|[i ch] l IH]; intros c c' Hrun; cbn [run] in Hrun.
  - injection Hrun as ->. apply rtc_refl.
  - destruct (task_step i ch c) as [c1|] eqn:E1; [|discriminate Hrun].
    eapply rtc_l; [eapply step_task; exact E1|apply IH; exact Hrun].
Qed.

(** One wallet, one worker depositing as fast as it can, at a node whose pool
    holds a single transaction already. *)
Definition demo_load : LoadTestConfig := {|
  rpc_url := ""; num_workers := 1; target_tps := 100; duration_secs := 30; lt_mode := Stress;
  lt_tx_type := TxDeposit; num_wallets := 1; lt_market_id := 0; lt_asset_id := 0; ramp_up_secs := 10;
  burst_duration_secs := 5; burst_interval_secs := 15; operator_mode := false; initial_balance := 0;
  scenario := Standard |}.
Definition node_full : Node :=
  with_nd_mempool (snd (mp_add demo_withdrawal (with_limits 1 2))) node_demo.
Definition demo_round : list (nat * Choice) :=
  [(2%nat, Time 0); (2%nat, Time 0); (2%nat, Draw 100000000); (2%nat, Quiet)].
Definition demo_prefix : list (nat * Choice) :=
  map (fun ch => (0%nat, ch))
    [Net (Answered "OK"); Bytes_of (6 :: replicate 31 0); Quiet; Time 0; Quiet; Quiet; Time 0; Quiet]
  ++ demo_round.
(** Recording the failure, yielding, and going around the loop. *)
Definition demo_pause : list (nat * Choice) := [(2%nat, Quiet); (2%nat, Quiet); (2%nat, Quiet)].
Definition demo_refusal : nat * Choice := (2%nat, Net (Answered "400")).

Definition load0 : Config := start_of demo_load node_full 0.
Definition load1 : Config := default load0 (run demo_prefix load0).
Definition load2 : Config := default load1 (run [demo_refusal] load1).

(** The node executes a block and has room in its pool again; the wallet's next
    transaction, number 1, is accepted. *)
Definition node_drained : Node := snd (execute_txs 1 [encode demo_withdrawal] (w_node (c_world load2))).
Definition load_drained : Config := with_world (with_node node_drained (c_world load2)) load2.
Definition load3 : Config := default load2
  (run (demo_pause ++ demo_round ++ [demo_refusal]) load_drained).

Lemma run_default schedule c d :
  match run schedule c with Some _ => true | None => false end = true -> run schedule c = Some (default d (run schedule c)).
Proof. by destruct (run schedule c). Qed.

Lemma node_full_grounded : grounded node_full.
Proof. split; [exact node_demo_wf|vm_compute; discriminate]. Qed.

Lemma load1_reached : reaches load0 load1.
Proof. apply (run_reaches demo_prefix), run_default. vm_compute. reflexivity. Qed.

Lemma load2_step : task_step 2 (Net (Answered "400")) load1 = Some load2.
Proof.
  assert (Hs : run [demo_refusal] load1 = Some load2) by (apply run_default; vm_compute; reflexivity).
  revert Hs. cbn [run demo_refusal]. by destruct (task_step 2 (Net (Answered "400")) load1).
Qed.

Lemma drained_step : step load2 load_drained.
Proof.
  assert (Hx : exists r, fst (execute_txs 1 [encode demo_withdrawal] (w_node (c_world load2))) = Ok r)
    by (eexists; vm_compute; reflexivity).
  destruct Hx as [r Hx]. apply step_env, (env_block _ 1 [encode demo_withdrawal] r).
  - vm_compute. discriminate.
  - vm_compute. reflexivity.
  - exact (run_result _ _ _ Hx).
  - intros tx Htx _ Hw. exfalso. revert Htx Hw.
    assert (Hd : omap decoded [encode demo_withdrawal] = [demo_withdrawal]) by (vm_compute; reflexivity).
    rewrite Hd, list_elem_of_singleton. intros ->.
    assert (Hno : w_counters (c_world load2) !! tx_from demo_withdrawal = None) by (vm_compute; reflexivity).
    rewrite Hno. by intros [].
  - intros a k Hk.
    assert (Hc : w_counters (c_world load2) = {[7 := 1]}) by (vm_compute; reflexivity).
    rewrite Hc in Hk. apply lookup_singleton_Some in Hk as [_ <-]. vm_compute. discriminate.
Qed.

Lemma load3_reached : reaches load2 load3.
Proof.
  eapply rtc_l; [exact drained_step|].
  apply (run_reaches (demo_pause ++ demo_round ++ [demo_refusal])), run_default.
  vm_compute. reflexivity.
Qed.

Lemma load3_delivered : map number (w_delivered (c_world load3)) = [(7, 1)].
Proof. vm_compute. reflexivity. Qed.

Lemma refused_number_stalls_witness :
  map number (w_delivered (c_world load3)) = [(7, 1)] /\
  exists q, get_nonce (nd_state (w_node (c_world load3))) 7 = Ok q /\ q <= 0.
Proof.
  split; [exact load3_delivered|].
  assert (Hp : exists tx, posts load1 2 = Some tx /\ number tx = (7, 0)) by (eexists; vm_compute; split; reflexivity).
  assert (Hr : forall tx, posts load1 2 = Some tx ->
    exists e, fst (submit_transaction (tx_request tx) (w_node (c_world load1))) = Err e).
  { intros tx Htx. vm_compute in Htx. injection Htx as <-. eexists. vm_compute. reflexivity. }
  destruct Hp as (tx & Hp & Hn). destruct (Hr tx Hp) as [e He]. injection Hn as Hf Hn.
  pose proof (refused_number_stalls demo_load node_full 0 load1 load2 load3 2 "400" tx e
    node_full_grounded load1_reached Hp He load2_step load3_reached) as Hq.
  rewrite Hf, Hn in Hq. exact Hq.
Defined.

Lemma wallet_numbers_witness : exists q,
  get_nonce (nd_state (w_node (c_world load3))) 7 = Ok q /\ 0 <= q <= 2.
Proof.
  assert (Hr : reaches load0 load3)
    by (etrans; [exact load1_reached|eapply rtc_l; [exact (step_task _ _ _ _ load2_step)|exact load3_reached]]).
  destruct (wallet_numbers demo_load node_full 0 load3 node_full_grounded Hr) as [_ Hw].
  assert (Hc : w_counters (c_world load3) !! 7 = Some 2) by (vm_compute; reflexivity).
  destruct (Hw 7 2 Hc) as (q & Hq & Hb & _). exists q. exact (conj Hq Hb).
Defined.
