(* ===== verification/LoadSerial.v ===== *)
(** The aggressive scenario of the load generator (scenarios.rs).  It awaits the
    tasks of a lazy iterator, which spawns each only when it is asked for the
    next: its workers run one after another. *)
From ITree Require Import Core.ITreeDefinition.
From stdpp Require Import base gmap sets list strings.
From Stdlib Require Import ZArith Lia.
From S2P Require Import Prelude Types Storage State Tx EngineBase Engine Auth Mempool Exec Rpc Protocol LoadClient LoadTest.

(** * The protocol of the main task *)

Section serial.
Context {V : TxEnv} {K : KeyEnv} {H : HistEnv}.

(** The worker that was spawned and not yet joined, and the statistics task.
    The next worker may be spawned when there is none. *)
Record Crew := { worker : option nat; statistics : option nat }.

Definition may_crew A (e : Ev A) (s : Crew) : Prop :=
  match e with
  | Spawn j => worker s = None /\ (j = StatsJob -> statistics s = None)
  | _ => True
  end.
Definition crew_after A (e : Ev A) (x : A) (s : Crew) : Crew :=
  match e in Ev A return A -> Crew with
  | Spawn StatsJob => fun h => {| worker := worker s; statistics := Some h |}
  | Spawn _ => fun h => {| worker := Some h; statistics := statistics s |}
  | Join h => fun _ =>
      {| worker := if bool_decide (worker s = Some h) then None else worker s; statistics := statistics s |}
  | _ => fun _ => s
  end x.

Definition alone (s : Crew) : Prop := worker s = None.
Definition nobody (s : Crew) : Prop := worker s = None /\ statistics s = None.

Lemma quiet_crew I A (e : IoE A) : quiet e = true -> harmless may_crew crew_after I (Io e).
Proof. by intros _ s Hs. Qed.
Lemma panic_crew I : harmless may_crew crew_after I Panic.
Proof. by intros s Hs. Qed.

(** A worker is spawned and joined. *)
Lemma spawn_join_crew j : j <> StatsJob ->
  stays may_crew crew_after alone (ITree.bind (spawn j) (fun handle => join handle)).
Proof.
  intros Hj s Hs n. apply follows_bind, follows_trigger.
  { split; [exact Hs|done]. }
  intros h. apply follows_trigger; [done|]. intros []. unfold alone.
  assert (Ew : crew_after _ (Spawn j) h s = {| worker := Some h; statistics := statistics s |}) by by destruct j.
  rewrite Ew. cbn. by rewrite bool_decide_true.
Qed.
Lemma lazily_crew jobs : Forall (fun j => j <> StatsJob) jobs ->
  stays may_crew crew_after alone (run_lazily jobs).
Proof.
  unfold run_lazily. induction 1 as [|j jobs Hj _ IH]; cbn; [apply stays_ret|].
  apply stays_bind; [by apply spawn_join_crew|by intros _].
Qed.
Lemma aggressive_crew wallets m duration workers :
  stays may_crew crew_after alone (run_aggressive_matching_scenario wallets m duration workers).
Proof.
  unfold run_aggressive_matching_scenario.
  apply stays_bind; [by apply (stays_io _ _ _ (quiet_crew alone))|]. intros start.
  apply stays_bind; [|intros _]; apply lazily_crew, Forall_map, Forall_forall; intros id _; discriminate.
Qed.

(** Accesses keep any state, posting included. *)
Section accesses.
Context (I : Crew -> Prop).
Lemma io_crew A (e : IoE A) : stays may_crew crew_after I (io e).
Proof. apply stays_trigger. by intros s Hs. Qed.
Lemma wallets_crew n : stays may_crew crew_after I (collect (fun _ => Wallet_new_random) (seq 0 n)).
Proof. apply stays_wallets; [apply quiet_crew|apply panic_crew]. Qed.
Lemma create_crew w payload : stays may_crew crew_after I (create_signed_transaction w payload).
Proof. apply stays_create, quiet_crew. Qed.
Lemma setup_crew wallets i amount : stays may_crew crew_after I (setup_accounts wallets i amount).
Proof.
  apply (stays_setup _ _ _ (quiet_crew I) (panic_crew I) (fun _ => I)); [|done|done].
  intros w payload. apply create_crew.
Qed.
End accesses.

(** The same, as a step in a longer program. *)
Lemma after_crew {A C} I (Q : C -> Crew -> Prop) (t : itree Ev A) (k : A -> itree Ev C) s :
  stays may_crew crew_after I t -> I s ->
  (forall a s, I s -> follows_always may_crew crew_after Q (k a) s) ->
  follows_always may_crew crew_after Q (ITree.bind t k) s.
Proof.
  intros Ht Hs Hk n. apply follows_bind. eapply follows_weaken; [done| |by apply Ht].
  intros a s' Hs'. by apply Hk.
Qed.

(** The test follows the protocol from its start. *)
Lemma test_crew config s :
  scenario config = Aggressive -> nobody s ->
  follows_always may_crew crew_after (fun _ _ => True) (run_load_test config) s.
Proof.
  intros Hsc Hs. unfold run_load_test.
  apply (after_crew nobody); [apply io_crew|exact Hs|]. clear s Hs. intros [_|e] s Hs; [|by intros n; apply follows_ret].
  apply (after_crew nobody); [apply wallets_crew|exact Hs|]. clear s Hs. intros wallets s Hs.
  apply (after_crew nobody); [destruct (operator_mode config); [apply setup_crew|apply stays_ret]|exact Hs|].
  clear s Hs. intros [_|e] s Hs; [|by intros n; apply follows_ret].
  apply (after_crew nobody); [apply io_crew|exact Hs|]. clear s Hs. intros now s Hs.
  apply (after_crew nobody); [apply io_crew|exact Hs|]. clear s Hs. intros _ s [Hw Hst] n.
  apply follows_bind, follows_trigger; [by split|]. intros h. revert n.
  apply (after_crew alone); [unfold run_scenario; rewrite Hsc; apply aggressive_crew|exact Hw|]. intros _ s' Hs'.
  apply (after_crew alone); [apply stays_trigger; by intros ? ?|exact Hs'|]. clear s' Hs'. intros _ s' Hs'.
  apply (after_crew alone); [apply io_crew|exact Hs'|]. clear s' Hs'. intros inner s' Hs'.
  apply (after_crew alone); [apply io_crew|exact Hs'|]. intros ? ? _ n. by apply follows_ret.
Qed.

Lemma main_crew config s :
  scenario config = Aggressive -> nobody s ->
  follows_always may_crew crew_after (fun _ _ => True) (load_test_main config) s.
Proof.
  intros Hsc Hs n. apply follows_bind. eapply follows_weaken; [done| |by apply test_crew].
  intros r s' _. by apply follows_ret.
Qed.

(** ** Workers never spawn *)

Definition may_work A (e : Ev A) (_ : unit) : Prop :=
  match e with Io _ | Panic => True | _ => False end.
Definition works {A} (t : itree Ev A) : Prop :=
  stays may_work (fun _ _ _ s => s) (fun _ => True) t.

Lemma works_job j : works (job_body j).
Proof.
  apply (stays_job _ _ _ (fun _ _ _ _ _ => conj I (fun _ => I)) (fun _ _ => conj I (fun _ => I)) (fun _ _ => True));
    [|by intros|done].
  intros w payload. by apply (stays_create may_work (fun _ _ _ s => s) (fun _ => True)).
Qed.

End serial.

(** * One worker at a time *)

Section aggressive.
Context {B : Backend} {V : TxEnv} {G : SigEnv} {X : HexEnv} {E : HexEncode} {K : KeyEnv} {H : HistEnv}.
Implicit Types (c : Config) (s : Crew).

(** Every task but the first works, and is over unless it is the crew's. *)
Definition crew_ok s (ts : list (itree Ev unit)) : Prop :=
  forall i t, (1 <= i)%nat -> ts !! i = Some t ->
    works t /\ (finished t = true \/ worker s = Some i \/ statistics s = Some i).
Definition crew_inv c : Prop := exists main rest s,
  c_tasks c = main :: rest /\
  follows_always may_crew crew_after (fun _ _ => True) main s /\ crew_ok s (c_tasks c).

Lemma crew_ok_insert s i t ts :
  crew_ok s ts ->
  ((1 <= i)%nat -> is_Some (ts !! i) ->
     works t /\ (finished t = true \/ worker s = Some i \/ statistics s = Some i)) ->
  crew_ok s (<[i := t]> ts).
Proof.
  intros Hc Ht j t' Hj Hl. destruct (decide (i = j)) as [<-|Hne].
  - apply list_lookup_insert_Some in Hl as [(_ & -> & Hlt)|[]]; [|done]. by apply Ht, lookup_lt_is_Some_2.
  - rewrite list_lookup_insert_ne in Hl by done. by apply Hc.
Qed.

Lemma finished_ret : finished (Ret tt : itree Ev unit) = true.
Proof. done. Qed.
Lemma works_ret : works (Ret tt).
Proof. apply stays_ret. Qed.

(** The crew after a spawn and a join. *)
Lemma crew_ok_spawn s main rest j :
  may_crew _ (Spawn j) s -> crew_ok s (main :: rest) ->
  crew_ok (crew_after _ (Spawn j) (length (main :: rest)) s) ((main :: rest) ++ [job_body j]).
Proof.
  intros [Hw Hst] Hc i t Hi Hl. apply lookup_app_Some in Hl as [Hl|[Hge Hl]].
  - destruct (Hc i t Hi Hl) as [Ht [Hf|[Hf|Hf]]]; (split; [exact Ht|]); [by left|congruence|].
    destruct j; cbn; auto. specialize (Hst eq_refl). congruence.
  - apply list_lookup_singleton_Some in Hl as [Hi0 <-]. split; [apply works_job|]. right.
    assert (i = length (main :: rest)) as -> by lia. destruct j; cbn; auto.
Qed.

Lemma crew_ok_join s ts h t :
  ts !! h = Some t -> finished t = true -> crew_ok s ts -> crew_ok (crew_after _ (Join h) tt s) ts.
Proof.
  intros Hh Hf Hc i t' Hi Hl. destruct (Hc i t' Hi Hl) as [Ht Hcase]. split; [exact Ht|]. cbn.
  destruct Hcase as [|[Hw|]]; [by left| |by right; right]. case_bool_decide as Hd; [|by right; left].
  left. congruence.
Qed.

Lemma crew_ok_main s main main' rest : crew_ok s (main :: rest) -> crew_ok s (main' :: rest).
Proof. intros Hc [|i] t Hi Hl; [lia|]. by apply Hc. Qed.

(** A step of the main task. *)
Lemma crew_step_main ch c c' : task_step 0 ch c = Some c' -> crew_inv c -> crew_inv c'.
Proof.
  unfold task_step. intros Hs (t & rest & s & Ets & Hm & Hc). rewrite Ets in Hs. cbn in Hs.
  apply follows_observe in Hm. rewrite Ets in Hc.
  destruct (observe t) as [[]|t'|A e k]; [done| |].
  { simplify_eq. exists t', rest, s. cbn [c_tasks with_task]. rewrite Ets.
    split_and!; [done|exact Hm|]. by eapply crew_ok_main. }
  destruct Hm as [Hm Hk]. destruct e as [A e|j|h|h|]; cbn [event_step] in Hs.
  - destruct (handle ch e (c_world c)) as [[x w']|]; [|done]. cbn in Hs. simplify_eq.
    exists (k x), rest, s. cbn [c_tasks with_task with_world]. rewrite Ets.
    split_and!; [done|apply Hk|]. by eapply crew_ok_main.
  - simplify_eq. rewrite Ets. cbn [length].
    exists (k (S (length rest))), (rest ++ [job_body j]), (crew_after _ (Spawn j) (S (length rest)) s).
    cbn [c_tasks with_new_task with_task]. rewrite Ets. split_and!; [done|apply Hk|].
    apply (crew_ok_main _ t). exact (crew_ok_spawn s t rest j Hm Hc).
  - rewrite Ets in Hs. destruct ((t :: rest) !! h) as [u|] eqn:Eh; [|done]. cbn in Hs.
    destruct (finished u) eqn:Ef; [|done]. simplify_eq.
    exists (k tt), rest, (crew_after _ (Join h) tt s). cbn [c_tasks with_task]. rewrite Ets.
    split_and!; [done|apply Hk|]. apply (crew_ok_main _ t). by eapply crew_ok_join.
  - simplify_eq. cbn [c_tasks with_task].
    exists (k tt), (tail (<[h := Ret tt]> (t :: rest))), s. cbn [c_tasks with_task]. rewrite Ets.
    split_and!; [by destruct h|apply (Hk tt)|].
    apply crew_ok_insert; [|lia]. apply crew_ok_insert; [exact Hc|].
    intros _ _. split; [apply works_ret|by left].
  - simplify_eq. exists (Ret tt), rest, s. cbn [c_tasks with_task]. rewrite Ets.
    split_and!; [done|intros n; by apply follows_ret|]. by eapply crew_ok_main.
Qed.

(** A step of another task. *)
Lemma crew_step_other i ch c c' : task_step (S i) ch c = Some c' -> crew_inv c -> crew_inv c'.
Proof.
  unfold task_step. intros Hs (main & rest & s & Ets & Hm & Hc).
  destruct (c_tasks c !! S i) as [t|] eqn:Et; [|done]. cbn in Hs.
  destruct (Hc (S i) t ltac:(lia) Et) as [Hw Hcase].
  pose proof (follows_observe _ _ _ _ _ (Hw tt I)) as Ho.
  assert (Hgo : forall t', works t' -> observe t <> RetF tt ->
    forall c', c_tasks c' = <[S i := t']> (c_tasks c) -> crew_inv c').
  { intros t' Ht' Hne c1 Ec. exists main, (<[i := t']> rest), s. rewrite Ec.
    split_and!; [by rewrite Ets|exact Hm|]. apply crew_ok_insert; [exact Hc|]. intros _ _.
    split; [exact Ht'|]. destruct Hcase as [Hf|Hcase]; [|by right]. unfold finished in Hf.
    destruct (observe t) as [[]| |]; done. }
  destruct (observe t) as [[]|t'|A e k]; [done| |].
  { simplify_eq. apply (Hgo t'); [intros [] _; exact Ho|done|done]. }
  destruct Ho as [Hmay Hk]. destruct e as [A e|j|h|h|]; cbn [event_step] in Hs; try done.
  - destruct (handle ch e (c_world c)) as [[x w']|]; [|done]. cbn in Hs. simplify_eq.
    apply (Hgo (k x)); [intros [] _; apply Hk|done|done].
  - simplify_eq. apply (Hgo (Ret tt)); [apply works_ret|done|done].
Qed.

Lemma crew_reaches c c' : reaches c c' -> crew_inv c -> crew_inv c'.
Proof.
  induction 1 as [c|c1 c2 c3 Hs _ IH]; [done|]. intros Hi. apply IH.
  destruct Hs as [i ch c1 c2 Hs|c1 w' _]; [|exact Hi].
  destruct i as [|i]; [by eapply crew_step_main|by eapply crew_step_other].
Qed.

(** C31: the aggressive scenario has no concurrency.  Whatever the number of
    workers, at any time at most two of the tasks the test has spawned are still
    running: the statistics and one worker.  Building the book and bombarding it
    are done by the workers one after another, each for as long as it likes. *)
Theorem aggressive_one_worker config (n : Node) (now : Z) c :
  scenario config = Aggressive -> reaches (start_of config n now) c ->
  exists work printing : option nat, forall i t,
    (1 <= i)%nat -> c_tasks c !! i = Some t -> finished t = false ->
    work = Some i \/ printing = Some i.
Proof.
  intros Hsc Hr.
  assert (Hi : crew_inv c).
  { apply (crew_reaches _ _ Hr). exists (load_test_main config), [], {| worker := None; statistics := None |}.
    split_and!; [done|by apply main_crew|]. intros [|i] t Hi Hl; [lia|done]. }
  destruct Hi as (main & rest & s & _ & _ & Hc). exists (worker s), (statistics s).
  intros i t Hi Hl Hf. destruct (Hc i t Hi Hl) as [_ [Hf'|Hcase]]; [congruence|done].
Qed.

End aggressive.

(** * Witness *)

(** Four workers, two of them builders; the second is not there while the first
    builds the book. *)
Definition demo_aggressive : LoadTestConfig := {|
  rpc_url := ""; num_workers := 4; target_tps := 100; duration_secs := 30; lt_mode := Sustained;
  lt_tx_type := TxMixed; num_wallets := 1; lt_market_id := 0; lt_asset_id := 0; ramp_up_secs := 10;
  burst_duration_secs := 5; burst_interval_secs := 15; operator_mode := false; initial_balance := 0;
  scenario := Aggressive |}.
Definition aggressive0 : Config := start_of demo_aggressive node_demo 0.
Definition aggressive_prefix : list (nat * Choice) :=
  map (fun ch => (0%nat, ch))
    [Net (Answered "OK"); Bytes_of (6 :: replicate 31 0); Quiet; Time 0; Quiet; Quiet; Time 0; Quiet]
  ++ [(2%nat, Time 0); (2%nat, Time 5)].
Definition aggressive1 : Config := default aggressive0 (run aggressive_prefix aggressive0).

Lemma aggressive_one_worker_witness :
  map finished (c_tasks aggressive1) = [false; false; false] /\
  exists work printing : option nat, forall i t,
    (1 <= i)%nat -> c_tasks aggressive1 !! i = Some t -> finished t = false ->
    work = Some i \/ printing = Some i.
Proof.
  split; [vm_compute; reflexivity|].
  assert (Hr : reaches aggressive0 aggressive1)
    by (apply (run_reaches aggressive_prefix), run_default; vm_compute; reflexivity).
  exact (aggressive_one_worker demo_aggressive node_demo 0 aggressive1 eq_refl Hr).
Defined.
