(* ===== verification/TestKit.v ===== *)
(** Running the repository's own tests inside the logic.  A test is a computation
    on a fixture whose error is a panic; [passes] evaluates it.  The libraries
    behind the program (RocksDB, serde, the merkle tree, hash functions) are the
    concrete instances that the witnesses use too. *)
From stdpp Require Import base gmap sets list strings.
From Stdlib Require Import ZArith.
From S2P Require Import Prelude Types Storage State Tx EngineBase Orderbook Liquidation Services Trading Engine.

(** * Tests *)

Inductive panic := Panicked.
Notation Test S A := (ST S panic A).

Section kit.
Context {S : Type}.

(** [call.unwrap()], and a call whose result the test looks at. *)
Definition unwrap {E A} (m : ST S E A) : Test S A := st_map_err (fun _ => Panicked) m.
Definition attempt {E A} (m : ST S E A) : Test S (result E A) :=
  fun s => let '(r, s') := m s in (Ok r, s').
(** [value.unwrap()] of an [Option] or a [Result]. *)
Definition unwrap_some {A} (o : option A) : Test S A := st_lift (ok_or Panicked o).
Definition unwrap_ok {E A} (r : result E A) : Test S A := st_lift (map_err (fun _ => Panicked) r).
(** A query that borrows the fixture, unwrapped. *)
Definition ask {E A} (f : S -> result E A) : Test S A :=
  st_read (fun s => map_err (fun _ => Panicked) (f s)).

Definition assert (b : bool) : Test S unit := st_guard b Panicked.
Definition assert_eq {A} `{EqDecision A} (x y : A) : Test S unit := assert (bool_decide (x = y)).
Definition assert_ne {A} `{EqDecision A} (x y : A) : Test S unit := assert (bool_decide (x <> y)).

(** A call that cannot fail, with its answer. *)
Definition call {A} (f : S -> A * S) : Test S A := fun s => let '(a, s') := f s in (Ok a, s').

Definition passes {A} (t : Test S A) (fixture : S) : bool := is_ok (t fixture).1.
End kit.

Definition is_err {E A} (r : result E A) : bool := negb (is_ok r).
Definition is_error {E A} `{EqDecision E} (r : result E A) (e : E) : bool :=
  match r with Err e' => bool_decide (e' = e) | Ok _ => false end.

(** The suites of the test files: every test by its name. *)
Definition all_pass {S} (fixture : S) (tests : list (string * Test S unit)) : Prop :=
  Forall (fun test => passes test.2 fixture = true) tests.

Ltac run_suite :=
  match goal with |- Forall ?P ?l => let l' := eval hnf in l in change (Forall P l') end;
  lazymatch goal with
  | |- Forall _ [] => exact (Forall_nil_2 _)
  | |- Forall _ (_ :: _) => apply Forall_cons_2; [vm_compute; reflexivity|run_suite]
  end.

(** [Address::with_last_byte(b)]. *)
Definition with_last_byte (b : Z) : Address := b.
(** [Address::from([b; 20])] and [B256::from([b; 32])]. *)
Definition address_of_bytes (b : Z) : Address := le_value (replicate 20 b).
Definition hash_of_bytes (b : Z) : B256 := le_value (replicate 32 b).

(** * Fixtures: a state manager and an engine on a new directory *)

(** [StateManager::new] on a directory that holds [d]. *)
Definition open_dir (d : gmap StorageKey DbValue) : StateManager :=
  StateManager_new d PruningConfig_default demo_hash.
Definition new_state : StateManager := open_dir ∅.
Definition new_engine : Engine := Engine_new new_state.

(** The engine is dropped and a new one opened on the same directory. *)
Definition reopen : Test Engine unit :=
  st_modify (fun e => Engine_new (open_dir (db (sm_storage (en_state e))))).

(** [engine.state_mut().f(..).unwrap()] *)
Definition state_mut {A} (m : ST StateManager StateError A) : Test Engine A :=
  unwrap (on_state (lift_state m)).
Definition state_ask {A} (f : StateManager -> result StateError A) : Test Engine A :=
  ask (fun e => f (en_state e)).
