(* ===== verification/EngineTests.v ===== *)
(** The integration tests of the engine (crates/engine/tests/integration_tests.rs,
    recovery_tests.rs, security_tests.rs) run on the model.  Rust code that only
    prints is left out; where a test compares the text of an error, the error
    itself is compared. *)
From stdpp Require Import base gmap sets list strings pretty.
From Stdlib Require Import ZArith.
From S2P Require Import Prelude Types Storage State Tx EngineBase Orderbook Liquidation Services Trading Engine Auth TestKit.

(** * Helpers *)

(** [create_test_market]: the three files have the same market. *)
Definition test_market (market_id : Z) : Market := {|
  m_id := market_id; m_symbol := "BTC-PERP"; m_base_asset_id := 1; m_quote_asset_id := 0;
  m_tick_size := 1000; m_price_decimals := 2; m_size_decimals := 6;
  m_min_order_size := 1; m_max_order_size := 1000000000; m_max_leverage := 20;
  m_initial_margin_bps := 1000; m_maintenance_margin_bps := 500;
  m_liquidation_fee_bps := 100; m_funding_interval := 3600; m_max_funding_rate_bps := 100 |}.
Definition create_test_market (market_id : Z) : Test Engine unit :=
  state_mut (set_market market_id (test_market market_id)).

Definition trader1 : Address := address_of_bytes 1.
Definition trader2 : Address := address_of_bytes 2.
Definition trader3 : Address := address_of_bytes 3.

Definition order_tx (nonce : Z) (trader : Address) (market_id : Z) (is_buy : bool) (price size : Z)
    (tif : TimeInForce) (reduce_only post_only : bool) : Transaction :=
  new_raw nonce trader (PlaceOrder {|
    po_market_id := market_id; po_is_buy := is_buy; po_order_type := OT_Limit; po_price := price;
    po_size := size; po_time_in_force := tif; po_reduce_only := reduce_only;
    po_post_only := post_only |}).
Definition gtc_tx nonce trader market_id is_buy price size : Transaction :=
  order_tx nonce trader market_id is_buy price size GTC false false.

(** [if let TxPayload::PlaceOrder(ref order) = tx.payload] around the call. *)
Definition try_place (tx : Transaction) : Test Engine (result EngineError Z) :=
  match tx_payload tx with
  | PlaceOrder order => attempt (process_place_order (tx_from tx) order)
  | _ => st_fail Panicked
  end.
Definition place (tx : Transaction) : Test Engine Z :=
  let! result := try_place tx in unwrap_ok result.

Definition expect_position (trader : Address) (market_id : Z) : Test Engine Position :=
  let! found := state_ask (fun s => get_position s trader market_id) in unwrap_some found.
Definition expect_order (order_id : Z) : Test Engine Order :=
  let! found := state_ask (fun s => get_order s order_id) in unwrap_some found.
Definition fund (traders : list Address) (amount : Z) : Test Engine unit :=
  st_for traders (fun trader => state_mut (set_balance trader 0 amount)).
Definition begin_and_commit : Test Engine unit :=
  st_modify (fun e => with_en_state (begin_block 1 (en_state e)) e) ;;
  let! _ := state_mut commit in st_ret tt.

Definition mk_position (size entry_price : Z) (is_long : bool) (margin : Z) : Position :=
  {| pos_size := size; pos_entry_price := entry_price; pos_is_long := is_long;
     pos_margin := margin; pos_funding_index := 0 |}.

(** * integration_tests.rs *)

Definition test_full_trade_flow : Test Engine unit :=
  create_test_market 0 ;;
  fund [trader1; trader2] 100000 ;;
  let! order_id1 := place (gtc_tx 1 trader1 0 true 50000 10) in
  let! _ := expect_order order_id1 in
  let! _ := place (gtc_tx 1 trader2 0 false 50000 10) in
  let! order := expect_order order_id1 in
  assert_eq (o_status order) Filled ;;
  let! pos1 := expect_position trader1 0 in
  assert_eq (pos_size pos1) 10 ;;
  assert (pos_is_long pos1) ;;
  let! pos2 := expect_position trader2 0 in
  assert_eq (pos_size pos2) 10 ;;
  assert (negb (pos_is_long pos2)).

Definition test_partial_fill : Test Engine unit :=
  create_test_market 0 ;;
  fund [trader1; trader2] 100000 ;;
  let! order_id1 := place (gtc_tx 1 trader1 0 true 50000 10) in
  let! _ := place (gtc_tx 1 trader2 0 false 50000 5) in
  let! order := expect_order order_id1 in
  assert_eq (o_remaining_size order) 5 ;;
  let! pos1 := expect_position trader1 0 in
  assert_eq (pos_size pos1) 5.

Definition test_post_only_rejection : Test Engine unit :=
  create_test_market 0 ;;
  fund [trader1; trader2] 100000 ;;
  let! _ := place (gtc_tx 1 trader1 0 true 50000 10) in
  let! result := try_place (order_tx 1 trader2 0 false 50000 5 PostOnly false true) in
  assert (is_err result) ;;
  assert (is_error result PostOnlyWouldTake).

Definition test_ioc_order : Test Engine unit :=
  create_test_market 0 ;;
  fund [trader1; trader2] 100000 ;;
  let! _ := place (gtc_tx 1 trader1 0 true 50000 5) in
  let! order_id2 := place (order_tx 1 trader2 0 false 50000 10 IOC false false) in
  let! order := expect_order order_id2 in
  assert_eq (o_status order) Cancelled ;;
  let! pos2 := expect_position trader2 0 in
  assert_eq (pos_size pos2) 5.

Definition test_liquidation : Test Engine unit :=
  create_test_market 0 ;;
  state_mut (set_position trader1 0 (mk_position 100 50000 true 250000)) ;;
  let! should_liq := ask (fun e => engine_should_liquidate e trader1 0 50000) in
  assert (negb should_liq) ;;
  let! should_liq := ask (fun e => engine_should_liquidate e trader1 0 48500) in
  assert should_liq ;;
  fund [trader2] 10000000 ;;
  let! result := unwrap (engine_liquidate_with_incentive trader1 0 48500 trader2) in
  let! liq_result := unwrap_some result in
  assert_eq (lr_trader liq_result) trader1 ;;
  assert (0 <? lr_liquidated_size liq_result).

Definition test_order_cancellation : Test Engine unit :=
  create_test_market 0 ;;
  fund [trader1] 100000 ;;
  let! order_id := place (gtc_tx 1 trader1 0 true 50000 10) in
  let! _ := expect_order order_id in
  unwrap (process_cancel_order trader1 {| co_order_id := order_id |}) ;;
  let! order := expect_order order_id in
  assert_eq (o_status order) Cancelled.

Definition test_reduce_only_order : Test Engine unit :=
  create_test_market 0 ;;
  fund [trader1] 100000 ;;
  state_mut (set_position trader1 0 (mk_position 10 50000 true 50000)) ;;
  let! result := try_place (order_tx 1 trader1 0 true 51000 5 GTC true false) in
  assert (is_err result) ;;
  assert (is_error result ReduceOnlyWouldIncrease) ;;
  let! _ := place (order_tx 2 trader1 0 false 51000 5 GTC true false) in
  st_ret tt.

Definition test_tick_validation : Test Engine unit :=
  create_test_market 0 ;;
  fund [trader1] 1000000 ;;
  let! result := try_place (gtc_tx 1 trader1 0 true 50000 1) in
  assert (is_ok result) ;;
  let! result := try_place (gtc_tx 2 trader1 0 true 50123 1) in
  assert (is_err result) ;;
  assert (is_error result (EngOther (PriceOffTick 50123 1000))) ;;
  let! result := try_place (gtc_tx 3 trader1 0 false 100000 1) in
  assert (is_ok result) ;;
  let! result := try_place (gtc_tx 4 trader1 0 false 99999 1) in
  assert (is_err result).

Definition test_market_tick_utilities : Test Engine unit :=
  create_test_market 0 ;;
  let! found := state_ask (fun s => get_market s 0) in
  let! market := unwrap_some found in
  assert_eq (normalize_price market 50123) 50000 ;;
  assert_eq (normalize_price market 50500) 51000 ;;
  assert_eq (normalize_price market 50000) 50000 ;;
  assert (validate_price market 50000) ;;
  assert (validate_price market 51000) ;;
  assert (negb (validate_price market 50123)) ;;
  assert (negb (validate_price market 50500)) ;;
  assert_eq (price_to_tick market 50000) 50 ;;
  assert_eq (tick_to_price market 50) 50000 ;;
  assert_eq (price_to_tick market 51000) 51 ;;
  assert_eq (tick_to_price market 51) 51000.

Definition test_complete_trading_flow_with_deposit_withdraw : Test Engine unit :=
  create_test_market 0 ;;
  fund [trader1; trader2] 100000 ;;
  st_for [0; 1; 2] (fun i =>
    let! _ := place (gtc_tx (i + 1) trader1 0 true (50000 + i * 1000) 5) in st_ret tt) ;;
  let! _ := place (gtc_tx 1 trader2 0 false 50000 20) in
  let! pos1 := expect_position trader1 0 in
  assert (0 <? pos_size pos1) ;;
  assert (pos_is_long pos1) ;;
  let! pos2 := expect_position trader2 0 in
  assert (0 <? pos_size pos2) ;;
  assert (negb (pos_is_long pos2)) ;;
  let! _ := place (gtc_tx 2 trader2 0 true 50000 20) in
  unwrap (process_close_position trader1 {| cp_market_id := 0; cp_size := pos_size pos1 |}) ;;
  let! pos1_closed := state_ask (fun s => get_position s trader1 0) in
  assert (match pos1_closed with None => true | Some p => pos_size p =? 0 end).

Definition test_multi_market_trading : Test Engine unit :=
  create_test_market 0 ;;
  let eth_market := {|
    m_id := 1; m_symbol := "ETH-PERP"; m_base_asset_id := 2; m_quote_asset_id := 0;
    m_tick_size := 100; m_price_decimals := 2; m_size_decimals := 6; m_min_order_size := 1;
    m_max_order_size := 1000000000; m_max_leverage := 20; m_initial_margin_bps := 1000;
    m_maintenance_margin_bps := 500; m_liquidation_fee_bps := 100; m_funding_interval := 3600;
    m_max_funding_rate_bps := 100 |} in
  state_mut (set_market 1 eth_market) ;;
  fund [trader1] 200000 ;;
  let! _ := place (gtc_tx 1 trader1 0 true 50000 5) in
  let! _ := place (gtc_tx 2 trader1 1 true 3000 10) in
  st_ret tt.

Definition test_transfer_between_accounts : Test Engine unit :=
  let asset := {| a_id := 0; a_name := "USD Coin"; a_symbol := "USDC"; a_decimals := 6;
                  a_is_collateral := true; a_collateral_weight_bps := 10000 |} in
  state_mut (set_asset 0 asset) ;;
  state_mut (set_balance trader1 0 100000) ;;
  state_mut (set_balance trader2 0 10000) ;;
  unwrap (process_transfer trader1 {| tr_to := trader2; tr_asset_id := 0; tr_amount := 50000 |}) ;;
  let! sender_balance := state_ask (fun s => get_balance s trader1 0) in
  let! recipient_balance := state_ask (fun s => get_balance s trader2 0) in
  assert_eq sender_balance 50000 ;;
  assert_eq recipient_balance 60000.

(** The repository ignores this one: nothing modifies a position yet. *)
Definition test_position_modification : Test Engine unit :=
  create_test_market 0 ;;
  fund [trader1] 200000 ;;
  state_mut (set_position trader1 0 (mk_position 10 50000 true 100000)) ;;
  let! updated_pos := expect_position trader1 0 in
  assert_eq (pos_margin updated_pos) 150000.

Definition test_fok_order_execution : Test Engine unit :=
  create_test_market 0 ;;
  fund [trader1; trader2] 100000 ;;
  let! _ := place (gtc_tx 1 trader1 0 true 50000 5) in
  let! result := try_place (order_tx 1 trader2 0 false 50000 10 FOK false false) in
  assert (is_err result) ;;
  assert (is_error result OrderNotFilled).

Definition test_event_emission : Test Engine unit :=
  create_test_market 0 ;;
  fund [trader1] 100000 ;;
  let tx_hash := hash_of_bytes 1 in
  st_modify (begin_tx tx_hash 1 1000) ;;
  let! _ := place (gtc_tx 1 trader1 0 true 50000 10) in
  let! events := (fun e => let '(evs, e') := take_events e in (Ok evs, e')) in
  assert (negb (bool_decide (events = []))) ;;
  st_for events (fun event =>
    assert_eq (de_block_height event) 1 ;;
    assert_eq (de_tx_hash event) tx_hash ;;
    assert_eq (de_timestamp event) 1000).

Definition integration_tests : list (string * Test Engine unit) := [
  ("full_trade_flow", test_full_trade_flow);
  ("partial_fill", test_partial_fill);
  ("post_only_rejection", test_post_only_rejection);
  ("ioc_order", test_ioc_order);
  ("liquidation", test_liquidation);
  ("order_cancellation", test_order_cancellation);
  ("reduce_only_order", test_reduce_only_order);
  ("tick_validation", test_tick_validation);
  ("market_tick_utilities", test_market_tick_utilities);
  ("complete_trading_flow_with_deposit_withdraw",
    test_complete_trading_flow_with_deposit_withdraw);
  ("multi_market_trading", test_multi_market_trading);
  ("transfer_between_accounts", test_transfer_between_accounts);
  ("fok_order_execution", test_fok_order_execution);
  ("event_emission", test_event_emission)]%string.

(** * recovery_tests.rs *)

Definition depth_of_market (market_id : Z) (levels : nat) : Test Engine (list (Z * Z) * list (Z * Z)) :=
  st_gets (fun e => get_orderbook_depth e market_id levels).
Definition active_orders_of (market_id : Z) : Test Engine (list Z) :=
  state_ask (fun s => get_active_orders_by_market s market_id).
Definition positions_of (market_id : Z) : Test Engine (list (Address * Position)) :=
  state_ask (fun s => get_all_positions_in_market s market_id).
Definition all_markets : Test Engine (list Z) := state_ask list_all_markets.
Definition rebuild_positions : Test Engine unit := state_mut rebuild_position_index.
Definition rebuild_book : Test Engine unit := unwrap rebuild_orderbook_from_state.
(** [create_test_market] with another id and symbol. *)
Definition numbered_market (market_id : Z) : Market := {|
  m_id := market_id; m_symbol := "MARKET-" +:+ pretty market_id; m_base_asset_id := 1;
  m_quote_asset_id := 0; m_tick_size := 1000; m_price_decimals := 2; m_size_decimals := 6;
  m_min_order_size := 1; m_max_order_size := 1000000000; m_max_leverage := 20;
  m_initial_margin_bps := 1000; m_maintenance_margin_bps := 500; m_liquidation_fee_bps := 100;
  m_funding_interval := 3600; m_max_funding_rate_bps := 100 |}.
Definition create_numbered_markets (ids : list Z) : Test Engine unit :=
  st_for ids (fun market_id => state_mut (set_market market_id (numbered_market market_id))).

Definition test_orderbook_rebuild_after_restart : Test Engine unit :=
  create_test_market 0 ;;
  fund [trader1; trader2] 1000000 ;;
  let! order_id1 := place (gtc_tx 0 trader1 0 true 50000 10) in
  let! order_id2 := place (gtc_tx 0 trader2 0 false 51000 10) in
  begin_and_commit ;;
  let! active_orders := active_orders_of 0 in
  assert_eq (length active_orders) 2%nat ;;
  assert (bool_decide (order_id1 ∈ active_orders)) ;;
  assert (bool_decide (order_id2 ∈ active_orders)) ;;
  let! (best_bid, best_ask) := depth_of_market 0 1 in
  assert_eq (map fst best_bid) [50000] ;;
  assert_eq (map fst best_ask) [51000] ;;
  reopen ;;
  rebuild_positions ;;
  rebuild_book ;;
  let! active_orders := active_orders_of 0 in
  assert_eq (length active_orders) 2%nat ;;
  let! (bids, asks) := depth_of_market 0 10 in
  assert_eq (map fst bids) [50000] ;;
  assert_eq (map fst asks) [51000].

Definition test_position_index_rebuild : Test Engine unit :=
  create_test_market 0 ;;
  st_for [0; 1; 2] (fun i => state_mut (set_position (address_of_bytes i) 0
    (mk_position (100 * (i + 1)) 50000 true (10000 * (i + 1))))) ;;
  begin_and_commit ;;
  let! positions := positions_of 0 in
  assert_eq (length positions) 3%nat ;;
  reopen ;;
  let! positions_before := positions_of 0 in
  assert_eq (length positions_before) 3%nat ;;
  rebuild_positions ;;
  let! positions_after := positions_of 0 in
  assert_eq (length positions_after) 3%nat.

Definition test_market_list_persistence : Test Engine unit :=
  create_numbered_markets [0; 5; 100] ;;
  begin_and_commit ;;
  let check_markets :=
    let! markets := all_markets in
    assert_eq (length markets) 3%nat ;;
    st_for [0; 5; 100] (fun m => assert (bool_decide (m ∈ markets))) in
  check_markets ;;
  reopen ;;
  check_markets ;;
  rebuild_book.

Definition test_full_crash_recovery_scenario : Test Engine unit :=
  create_test_market 0 ;;
  fund [trader1; trader2; trader3] 10000000 ;;
  let! order_id1 := place (gtc_tx 0 trader1 0 true 49000 100) in
  let! order_id2 := place (gtc_tx 0 trader2 0 false 51000 200) in
  state_mut (set_position trader3 0 (mk_position 50 50000 true 50000)) ;;
  begin_and_commit ;;
  reopen ;;
  rebuild_positions ;;
  rebuild_book ;;
  let! active_orders := active_orders_of 0 in
  assert_eq (length active_orders) 2%nat ;;
  let! (bids, asks) := depth_of_market 0 10 in
  assert_eq bids [(49000, 100)] ;;
  assert_eq asks [(51000, 200)] ;;
  let! order1 := expect_order order_id1 in
  assert_eq (o_remaining_size order1) 100 ;;
  let! order2 := expect_order order_id2 in
  assert_eq (o_remaining_size order2) 200 ;;
  let! positions := positions_of 0 in
  assert_eq (map (fun '(a, p) => (a, pos_size p)) positions) [(trader3, 50)] ;;
  let! markets := all_markets in
  assert_eq markets [0] ;;
  let! _ := place (gtc_tx 1 trader1 0 true 50000 50) in
  let! active_orders := active_orders_of 0 in
  assert_eq (length active_orders) 3%nat.

Definition test_recovery_with_multiple_markets : Test Engine unit :=
  create_numbered_markets [0; 1; 2] ;;
  fund [trader1] 100000000 ;;
  st_for [0; 1; 2] (fun market_id =>
    let! _ := place (gtc_tx market_id trader1 market_id true 50000 10) in st_ret tt) ;;
  begin_and_commit ;;
  reopen ;;
  rebuild_positions ;;
  rebuild_book ;;
  let! markets := all_markets in
  assert_eq (length markets) 3%nat ;;
  st_for [0; 1; 2] (fun market_id =>
    let! active_orders := active_orders_of market_id in assert_eq (length active_orders) 1%nat).

Definition recovery_tests : list (string * Test Engine unit) := [
  ("orderbook_rebuild_after_restart", test_orderbook_rebuild_after_restart);
  ("position_index_rebuild", test_position_index_rebuild);
  ("market_list_persistence", test_market_list_persistence);
  ("full_crash_recovery_scenario", test_full_crash_recovery_scenario);
  ("recovery_with_multiple_markets", test_recovery_with_multiple_markets)]%string.

(** * security_tests.rs *)

Definition test_large_transaction_rejection : Test Engine unit :=
  let huge_data := replicate (Z.to_nat 150000) 0 in
  let result := decode_tx huge_data in
  assert (is_err result) ;;
  assert (is_error result (TxTooLarge 150000 MAX_TX_SIZE)).

Definition test_maximum_order_size_validation : Test Engine unit :=
  create_test_market 0 ;;
  fund [trader1] U128_MAX ;;
  let! result := try_place (gtc_tx 0 trader1 0 true 50000 (1000000000 + 1)) in
  assert (is_err result) ;;
  assert (is_error result (EngOther (SizeAboveMax 1000000001 1000000000))).

Definition test_minimum_order_size_validation : Test Engine unit :=
  let market := {|
    m_id := 0; m_symbol := "BTC-PERP"; m_base_asset_id := 1; m_quote_asset_id := 0;
    m_tick_size := 1000; m_price_decimals := 2; m_size_decimals := 6; m_min_order_size := 100;
    m_max_order_size := 1000000000; m_max_leverage := 20; m_initial_margin_bps := 1000;
    m_maintenance_margin_bps := 500; m_liquidation_fee_bps := 100; m_funding_interval := 3600;
    m_max_funding_rate_bps := 100 |} in
  state_mut (set_market 0 market) ;;
  fund [trader1] 1000000 ;;
  let! result := try_place (gtc_tx 0 trader1 0 true 50000 50) in
  assert (is_err result) ;;
  assert (is_error result (EngOther (SizeBelowMin 50 100))).

(** The test only compares two addresses it made up. *)
Definition test_agent_cannot_modify_agents : Test Engine unit :=
  let owner := trader1 in
  let agent := trader2 in
  let _ := auth_set_agent owner agent 3 AuthService_new in
  let signer := agent in
  assert (negb (bool_decide (signer = owner))).

Definition test_nonce_handling_after_failed_transaction : Test Engine unit :=
  let nonce_is n :=
    let! nonce := state_ask (fun s => get_nonce s trader1) in assert_eq nonce n in
  nonce_is 0 ;;
  unwrap (process_deposit trader1 {| dep_amount := 1000; dep_asset_id := 0 |}) ;;
  let! _ := state_mut (increment_nonce trader1) in
  nonce_is 1 ;;
  let! result := attempt (process_withdraw trader1
    {| wd_amount := 10000000; wd_asset_id := 0; wd_to := 0 |}) in
  assert (is_err result) ;;
  nonce_is 1 ;;
  unwrap (process_deposit trader1 {| dep_amount := 500; dep_asset_id := 0 |}) ;;
  let! _ := state_mut (increment_nonce trader1) in
  nonce_is 2.

Definition test_zero_mark_price_rejection : Test Engine unit :=
  create_test_market 0 ;;
  state_mut (set_position trader1 0 (mk_position 100 50000 true 5000)) ;;
  let! result := attempt (engine_liquidate_with_incentive trader1 0 0 trader2) in
  assert (match result with Err (EngOther InvalidMarkPrice) => true | _ => false end).

Definition security_tests : list (string * Test Engine unit) := [
  ("large_transaction_rejection", test_large_transaction_rejection);
  ("maximum_order_size_validation", test_maximum_order_size_validation);
  ("minimum_order_size_validation", test_minimum_order_size_validation);
  ("agent_cannot_modify_agents", test_agent_cannot_modify_agents);
  ("nonce_handling_after_failed_transaction", test_nonce_handling_after_failed_transaction);
  ("zero_mark_price_rejection", test_zero_mark_price_rejection)]%string.

(** * liquidation_tests.rs *)

(** A state manager, a liquidation engine and an order book of their own. *)
Definition new_desk : LiqState :=
  {| ls_engine := LiquidationEngine_default; ls_book := OrderbookManager_new; ls_state := new_state |}.
Definition desk_mut {A} (m : ST StateManager StateError A) : Test LiqState A :=
  unwrap (st_zoom ls_state (fun s t =>
    {| ls_engine := ls_engine t; ls_book := ls_book t; ls_state := s |}) m).
Definition desk_ask {A} (f : StateManager -> result StateError A) : Test LiqState A :=
  ask (fun t => f (ls_state t)).

Definition liquidation_market : Market := {|
  m_id := 0; m_symbol := "BTC-PERP"; m_base_asset_id := 1; m_quote_asset_id := 0;
  m_tick_size := 1000; m_price_decimals := 2; m_size_decimals := 6;
  m_min_order_size := 100; m_max_order_size := 1000000000; m_max_leverage := 20;
  m_initial_margin_bps := 1000; m_maintenance_margin_bps := 500;
  m_liquidation_fee_bps := 100; m_funding_interval := 3600; m_max_funding_rate_bps := 100 |}.
Definition bitcoin (margin : Z) : Position := mk_position 1000000 5000000 true margin.

(** The common part: market, funded liquidator, position, one liquidation. *)
Definition desk_setup (position : Position) : Test LiqState unit :=
  desk_mut (set_market 0 liquidation_market) ;;
  desk_mut (set_balance trader2 0 10000000000) ;;
  desk_mut (set_position trader1 0 position).
Definition desk_liquidate (mark_price : Z) : Test LiqState (option LiquidationResult) :=
  unwrap (liquidate_with_incentive trader1 0 mark_price trader2).

Definition test_partial_liquidation : Test LiqState unit :=
  desk_setup (bitcoin 1500000000) ;;
  let! result := desk_liquidate 4800000 in
  let! liq_result := unwrap_some result in
  assert (lr_liquidated_size liq_result <? 1000000) ;;
  assert (0 <? lr_liquidated_size liq_result) ;;
  assert (0 <? lr_liquidator_reward liq_result) ;;
  assert (0 <? lr_insurance_fund_contribution liq_result).

Definition test_insurance_fund_usage : Test LiqState unit :=
  desk_setup (bitcoin 100000000) ;;
  let! result := desk_liquidate 4500000 in
  let! _ := unwrap_some result in st_ret tt.

Definition test_risk_index_rebuild : Test LiqState unit :=
  desk_mut (set_market 0 liquidation_market) ;;
  st_for [0; 1; 2; 3; 4] (fun i => desk_mut (set_position (address_of_bytes i) 0
    (mk_position (1000000 * (i + 1)) 5000000 true (2000000000 * (i + 1))))) ;;
  let! state := st_gets ls_state in
  unwrap (st_zoom ls_engine (fun l t =>
    {| ls_engine := l; ls_book := ls_book t; ls_state := ls_state t |})
    (rebuild_risk_index state 0 5000000)).

Definition test_adl_candidate_finding : Test LiqState unit :=
  desk_mut (set_market 0 liquidation_market) ;;
  desk_mut (set_position trader1 0 (mk_position 1000000 5000000 true 5000000000)) ;;
  desk_mut (set_position trader2 0 (mk_position 2000000 4800000 true 10000000000)) ;;
  let! positions := desk_ask (fun s => get_all_positions_in_market s 0) in
  assert_eq (length positions) 2%nat.

Definition test_engine_integration : Test Engine unit :=
  state_mut (set_market 0 liquidation_market) ;;
  fund [trader2] 10000000000 ;;
  state_mut (set_position trader1 0 (bitcoin 1500000000)) ;;
  unwrap (engine_update_risk_index trader1 0 4800000) ;;
  let! result := unwrap (engine_liquidate_with_incentive trader1 0 4800000 trader2) in
  let! _ := unwrap_some result in st_ret tt.

Definition test_batch_liquidation : Test Engine unit :=
  let liquidator := address_of_bytes 99 in
  state_mut (set_market 0 liquidation_market) ;;
  fund [liquidator] 100000000000 ;;
  st_for [0; 1; 2] (fun i => state_mut (set_position (address_of_bytes i) 0 (bitcoin 1500000000))) ;;
  unwrap (engine_rebuild_risk_index 0 4800000) ;;
  let! _ := unwrap (engine_process_liquidation_batch 0 4800000 liquidator 10) in
  st_ret tt.

Definition test_edge_case_zero_size_position : Test LiqState unit :=
  desk_mut (set_market 0 liquidation_market) ;;
  desk_mut (set_position trader1 0 (mk_position 0 5000000 true 1000000000)) ;;
  let! result := desk_liquidate 4800000 in
  assert (match result with None => true | Some _ => false end).

Definition split_fees (liquidator_bps insurance_bps : Z) : Test LiqState unit :=
  let! t := st_get in
  let! l := unwrap_some (set_fee_split liquidator_bps insurance_bps (ls_engine t)) in
  st_put {| ls_engine := l; ls_book := ls_book t; ls_state := ls_state t |}.

Definition test_fee_split_configuration : Test LiqState unit :=
  let split_is fees := let! t := st_get in assert_eq (get_fee_split (ls_engine t)) fees in
  split_is (5000, 5000) ;;
  split_fees 6000 4000 ;;
  split_is (6000, 4000).

(** [#[should_panic]] *)
Definition test_invalid_fee_split : Test LiqState unit := split_fees 6000 3000.

Definition resting_order (id price size : Z) (is_buy : bool) : Order :=
  {| o_id := id; o_owner := trader1; o_market_id := 0; o_price := price; o_original_size := size;
     o_remaining_size := size; o_is_buy := is_buy; o_reduce_only := false; o_post_only := false;
     o_status := Active; o_created_at := 0 |}.

Definition test_order_cancellation_during_liquidation : Test LiqState unit :=
  let order1 := resting_order 1 5100000 500000 true in
  let order2 := resting_order 2 4900000 300000 false in
  let active_are n :=
    let! orders := desk_ask (fun s => get_active_orders_by_market s 0) in
    assert_eq (length orders) n in
  let cancelled id :=
    let! found := desk_ask (fun s => get_order s id) in
    let! order := unwrap_some found in assert_eq (o_status order) Cancelled in
  desk_setup (bitcoin 1500000000) ;;
  desk_mut (set_order 1 order1) ;;
  desk_mut (set_order 2 order2) ;;
  desk_mut (add_active_order 0 1) ;;
  desk_mut (add_active_order 0 2) ;;
  st_modify (fun t => {| ls_engine := ls_engine t; ls_state := ls_state t;
                         ls_book := add_order 2 order2 (add_order 1 order1 (ls_book t)) |}) ;;
  active_are 2%nat ;;
  let! result := desk_liquidate 4800000 in
  let! _ := unwrap_some result in
  cancelled 1 ;;
  cancelled 2 ;;
  active_are 0%nat.

Definition test_liquidation_fee_distribution : Test LiqState unit :=
  split_fees 7000 3000 ;;
  desk_setup (bitcoin 1500000000) ;;
  let! found := desk_liquidate 4800000 in
  let! result := unwrap_some found in
  let total_fee := lr_liquidation_fee result in
  assert_eq (lr_liquidator_reward result) (total_fee * 7000 / 10000) ;;
  assert_eq (lr_insurance_fund_contribution result) (total_fee * 3000 / 10000) ;;
  let! liquidator_balance := desk_ask (fun s => get_balance s trader2 0) in
  assert_eq liquidator_balance (10000000000 + lr_liquidator_reward result) ;;
  let! t := st_get in
  let insurance_fund := get_insurance_fund (ls_engine t) 0 in
  assert_eq (if_balance insurance_fund) (lr_insurance_fund_contribution result) ;;
  assert_eq (if_total_contributions insurance_fund) (lr_insurance_fund_contribution result).

Definition desk_tests : list (string * Test LiqState unit) := [
  ("partial_liquidation", test_partial_liquidation);
  ("insurance_fund_usage", test_insurance_fund_usage);
  ("risk_index_rebuild", test_risk_index_rebuild);
  ("adl_candidate_finding", test_adl_candidate_finding);
  ("edge_case_zero_size_position", test_edge_case_zero_size_position);
  ("fee_split_configuration", test_fee_split_configuration);
  ("order_cancellation_during_liquidation", test_order_cancellation_during_liquidation);
  ("liquidation_fee_distribution", test_liquidation_fee_distribution)]%string.
Definition liquidation_tests : list (string * Test Engine unit) := [
  ("engine_integration", test_engine_integration);
  ("batch_liquidation", test_batch_liquidation)]%string.

(** * The suites pass *)

Lemma engine_tests_pass :
  all_pass new_engine (integration_tests ++ recovery_tests ++ security_tests ++ liquidation_tests).
Proof. unfold all_pass. run_suite. Qed.

Lemma desk_tests_pass : all_pass new_desk desk_tests.
Proof. unfold all_pass. run_suite. Qed.

Lemma invalid_fee_split_panics : passes test_invalid_fee_split new_desk = false.
Proof. reflexivity. Qed.

(** A position is never modified: the ignored test fails. *)
Lemma position_modification_fails : passes test_position_modification new_engine = false.
Proof. vm_compute. reflexivity. Qed.
