(* ===== verification/PoolTests.v ===== *)
(** The unit tests of transactions, declared accesses, authentication and the
    mempool (the test modules of crates/tx/src/lib.rs, crates/state/src/access.rs,
    crates/auth/src and crates/mempool/src), run on the model.  A test that looks
    into the text of an error looks at the error. *)
From stdpp Require Import base gmap sets list strings.
From Stdlib Require Import ZArith.
From S2P Require Import Prelude Float64 Types Storage Tx Auth Signer Mempool Liquidation TestKit.

Definition demo_deposit : TxPayload := Deposit {| dep_amount := 1000; dep_asset_id := 0 |}.
Definition sender : Address := with_last_byte 1.

(** * crates/tx/src/lib.rs *)

Definition test_transaction_encoding_decoding : Test unit unit :=
  let tx := new_raw 1 0 demo_deposit in
  let encoded := vec_of_tx tx in
  let! decoded := unwrap_ok (tx_try_from encoded) in
  assert_eq tx decoded.

Definition test_transaction_hash : Test unit unit :=
  let tx := new_raw 1 0 (PlaceOrder {|
    po_market_id := 0; po_is_buy := true; po_order_type := OT_Limit; po_price := 50000000000;
    po_size := 100000000; po_time_in_force := GTC; po_reduce_only := false; po_post_only := false |}) in
  assert_ne (tx_hash tx) B256_ZERO.

Definition test_signature_trait : Test Transaction unit :=
  st_put (new_raw 1 0 demo_deposit) ;;
  let sig := replicate 65 1 in
  st_modify (set_signature sig) ;;
  let! tx := st_get in
  assert_eq (signature_bytes tx) sig.

Definition test_builder_pattern : Test unit unit :=
  let sig := replicate 65 1 in
  let tx := with_signature (new_eip712 1 0 demo_deposit) sig in
  assert_eq (signature_bytes tx) sig.

Definition test_typed_data_domain : Test unit unit :=
  let domain := TypedDataDomain_new "Pranklin" "1" 1337 in
  assert_eq (dom_name domain) "Pranklin"%string ;;
  assert_eq (dom_version domain) "1"%string ;;
  assert_eq (dom_chain_id domain) 1337.

(** * crates/state/src/access.rs *)

Definition test_state_access_equality : Test unit unit :=
  let access1 := SA_Balance 0 0 in
  let access2 := SA_Balance 0 0 in
  let access3 := SA_Balance 0 1 in
  assert_eq access1 access2 ;;
  assert_ne access1 access3.

Definition test_access_mode : Test unit unit := assert_ne Read Write.

(** * crates/auth/src/signer.rs *)

(** The key that [random] draws. *)
Definition drawn_key : PrivateKeySigner (PrivateKey := toy_private_key) := 77.

Definition test_signer_sync : Test unit unit :=
  let signer := TxSigner_random drawn_key in
  let address := signer_address signer in
  let message := B256_ZERO in
  let! signature := unwrap_some (sign_hash_sync (signer_deref signer) message) in
  let! recovered := unwrap_some (recover_address_from_prehash signature message) in
  assert_eq recovered address.

Definition test_from_trait : Test unit unit :=
  let private_signer := drawn_key in
  let address := key_signer_address private_signer in
  let tx_signer := signer_of_key private_signer in
  assert_eq (signer_address tx_signer) address.

(** * crates/auth/src/agent.rs *)

Definition account : Address := with_last_byte 1.
Definition agent : Address := with_last_byte 2.
Definition test_nomination : AgentNomination :=
  {| an_account := account; an_agent := agent; an_permissions := ALL; an_nonce := 1 |}.

Definition test_agent_nomination_eip712_deterministic : Test unit unit :=
  let domain := AgentNominationDomain_default in
  let hash1 := eip712_hash test_nomination domain in
  let hash2 := eip712_hash test_nomination domain in
  assert_eq hash1 hash2.

Definition test_agent_nomination_eip712_different_domains : Test unit unit :=
  let domain1 := AgentNominationDomain_default in
  let domain2 := {| and_name := and_name domain1; and_version := and_version domain1;
    and_chain_id := 2; and_verifying_contract := and_verifying_contract domain1 |} in
  assert_ne (eip712_hash test_nomination domain1) (eip712_hash test_nomination domain2).

(** [assert!(registry.is_authorized(..))] and its negation. *)
Definition reg_allows (account agent : Address) (permission : Z) (expected : bool) : Test AgentRegistry unit :=
  let! r := st_get in assert_eq (reg_is_authorized r account agent permission) expected.
Definition reg_permissions (account agent : Address) : Test AgentRegistry (option Z) :=
  st_gets (fun r => get_permissions r account agent).

Definition test_agent_registry_basic : Test AgentRegistry unit :=
  reg_allows account agent PLACE_ORDER false ;;
  let! none := reg_permissions account agent in
  assert_eq none None ;;
  st_modify (reg_set_agent account agent (Z.lor PLACE_ORDER CANCEL_ORDER)) ;;
  reg_allows account agent PLACE_ORDER true ;;
  reg_allows account agent CANCEL_ORDER true ;;
  reg_allows account agent (Z.lor PLACE_ORDER CANCEL_ORDER) true ;;
  reg_allows account agent WITHDRAW false ;;
  let! found := reg_permissions account agent in
  let! perms := unwrap_some found in
  assert_eq perms (Z.lor PLACE_ORDER CANCEL_ORDER) ;;
  st_modify (reg_remove_agent account agent) ;;
  reg_allows account agent PLACE_ORDER false ;;
  let! gone := reg_permissions account agent in
  assert_eq gone None.

Definition test_agent_registry_multiple_agents : Test AgentRegistry unit :=
  let agent1 := with_last_byte 2 in
  let agent2 := with_last_byte 3 in
  st_modify (reg_set_agent account agent1 PLACE_ORDER) ;;
  st_modify (reg_set_agent account agent2 CANCEL_ORDER) ;;
  let! agents := st_gets (fun r => get_agents r account) in
  assert_eq (length agents) 2%nat ;;
  reg_allows account agent1 PLACE_ORDER true ;;
  reg_allows account agent1 CANCEL_ORDER false ;;
  reg_allows account agent2 PLACE_ORDER false ;;
  reg_allows account agent2 CANCEL_ORDER true ;;
  st_modify (clear_agents account) ;;
  let! r := st_get in
  assert_eq (length (get_agents r account)) 0%nat ;;
  assert_eq (account_count r) 0%nat.

Definition test_agent_registry_update_permissions : Test AgentRegistry unit :=
  st_modify (reg_set_agent account agent PLACE_ORDER) ;;
  let! before := reg_permissions account agent in
  assert_eq before (Some PLACE_ORDER) ;;
  st_modify (reg_set_agent account agent WITHDRAW) ;;
  let! after := reg_permissions account agent in
  assert_eq after (Some WITHDRAW) ;;
  reg_allows account agent PLACE_ORDER false.

Definition test_agent_registry_multiple_accounts : Test AgentRegistry unit :=
  let account1 := with_last_byte 1 in
  let account2 := with_last_byte 2 in
  let agent := with_last_byte 3 in
  st_modify (reg_set_agent account1 agent PLACE_ORDER) ;;
  st_modify (reg_set_agent account2 agent WITHDRAW) ;;
  reg_allows account1 agent PLACE_ORDER true ;;
  reg_allows account1 agent WITHDRAW false ;;
  reg_allows account2 agent PLACE_ORDER false ;;
  reg_allows account2 agent WITHDRAW true ;;
  let! r := st_get in
  assert_eq (account_count r) 2%nat ;;
  assert_eq (total_agent_count r) 2%nat.

Definition test_agent_registry_remove_cleanup : Test AgentRegistry unit :=
  st_modify (reg_set_agent account agent ALL) ;;
  let! r := st_get in
  assert_eq (account_count r) 1%nat ;;
  st_modify (reg_remove_agent account agent) ;;
  let! r := st_get in
  assert_eq (account_count r) 0%nat ;;
  assert_eq (total_agent_count r) 0%nat.

(** * crates/auth/src/lib.rs *)

Definition auth_allows (owner agent : Address) (permission : Z) (expected : bool) : Test AuthService unit :=
  let! a := st_get in assert_eq (auth_is_authorized a owner agent permission) expected.

(** An all-zero signature recovers no address: [r] and [s] must not be zero. *)
Definition zero_refused : SigEnv := {|
  Signature := list Z;
  from_bytes_and_parity bytes _ := bytes;
  recover_address_from_prehash bytes _ := if forallb (Z.eqb 0) bytes then None else head bytes |}.

Definition test_transaction_verification_invalid : Test AuthService unit :=
  let tx := new_raw 1 (with_last_byte 1) demo_deposit in
  assert (is_err (verify_transaction (G := zero_refused) tx)).

Definition test_agent_authorization_basic : Test AuthService unit :=
  let owner := with_last_byte 1 in
  let agent := with_last_byte 2 in
  auth_allows owner agent PLACE_ORDER false ;;
  st_modify (auth_set_agent owner agent PLACE_ORDER) ;;
  auth_allows owner agent PLACE_ORDER true ;;
  auth_allows owner agent WITHDRAW false ;;
  let! a := st_get in
  assert_eq (agent_permissions a owner agent) (Some PLACE_ORDER) ;;
  st_modify (auth_remove_agent owner agent) ;;
  auth_allows owner agent PLACE_ORDER false ;;
  let! a := st_get in
  assert_eq (agent_permissions a owner agent) None.

Definition test_agent_multiple_permissions : Test AuthService unit :=
  let owner := with_last_byte 1 in
  let agent := with_last_byte 2 in
  let perms := Z.lor (Z.lor PLACE_ORDER CANCEL_ORDER) MODIFY_ORDER in
  st_modify (auth_set_agent owner agent perms) ;;
  auth_allows owner agent PLACE_ORDER true ;;
  auth_allows owner agent CANCEL_ORDER true ;;
  auth_allows owner agent MODIFY_ORDER true ;;
  auth_allows owner agent (Z.lor PLACE_ORDER CANCEL_ORDER) true ;;
  auth_allows owner agent WITHDRAW false.

Definition test_auth_service_cloneable : Test AuthService unit :=
  let owner := with_last_byte 1 in
  let agent := with_last_byte 2 in
  st_modify (auth_set_agent owner agent ALL) ;;
  let! auth2 := st_get in
  assert (auth_is_authorized auth2 owner agent ALL).

Definition tx_tests : list (string * Test unit unit) := [
  ("transaction_encoding_decoding", test_transaction_encoding_decoding);
  ("transaction_hash", test_transaction_hash);
  ("builder_pattern", test_builder_pattern);
  ("typed_data_domain", test_typed_data_domain);
  ("state_access_equality", test_state_access_equality);
  ("access_mode", test_access_mode);
  ("signer_sync", test_signer_sync);
  ("from_trait", test_from_trait);
  ("agent_nomination_eip712_deterministic", test_agent_nomination_eip712_deterministic);
  ("agent_nomination_eip712_different_domains", test_agent_nomination_eip712_different_domains)]%string.

Definition registry_tests : list (string * Test AgentRegistry unit) := [
  ("agent_registry_basic", test_agent_registry_basic);
  ("agent_registry_multiple_agents", test_agent_registry_multiple_agents);
  ("agent_registry_update_permissions", test_agent_registry_update_permissions);
  ("agent_registry_multiple_accounts", test_agent_registry_multiple_accounts);
  ("agent_registry_remove_cleanup", test_agent_registry_remove_cleanup)]%string.

Definition auth_tests : list (string * Test AuthService unit) := [
  ("transaction_verification_invalid", test_transaction_verification_invalid);
  ("agent_authorization_basic", test_agent_authorization_basic);
  ("agent_multiple_permissions", test_agent_multiple_permissions);
  ("auth_service_cloneable", test_auth_service_cloneable)]%string.

Lemma tx_tests_pass : all_pass tt tx_tests.
Proof. unfold all_pass. run_suite. Qed.
Lemma signature_trait_passes : passes test_signature_trait (new_raw 0 0 demo_deposit) = true.
Proof. vm_compute. reflexivity. Qed.
Lemma registry_tests_pass : all_pass AgentRegistry_default registry_tests.
Proof. unfold all_pass. run_suite. Qed.
Lemma auth_tests_pass : all_pass AuthService_new auth_tests.
Proof. unfold all_pass. run_suite. Qed.

(** * crates/mempool/src/config.rs and error.rs *)

Definition test_default_and_validation : Test unit unit :=
  let config := MempoolConfig_default in
  assert_eq (max_size config) (Z.to_nat 10000) ;;
  assert_eq (max_txs_per_sender config) 100%nat ;;
  assert (strict_nonce_ordering config) ;;
  assert (is_ok (config_validate config)).

Definition test_from_tuple : Test unit unit :=
  let config := config_of_pair (1000, 50)%nat in
  assert_eq (max_size config) 1000%nat ;;
  assert_eq (max_txs_per_sender config) 50%nat.

Definition test_validation_errors : Test unit unit :=
  assert (is_err (config_validate (MempoolConfig_new 0 100))) ;;
  assert (is_err (config_validate (MempoolConfig_new 100 0))) ;;
  assert (is_err (config_validate (MempoolConfig_new 100 200))) ;;
  assert (is_ok (config_validate (MempoolConfig_new 100 100))).

Definition test_relaxed_nonce_ordering : Test unit unit :=
  let config := with_relaxed_nonce_ordering MempoolConfig_default in
  assert (negb (strict_nonce_ordering config)).

Definition test_error_classification : Test unit unit :=
  let full_error := MempoolFull 1000 in
  assert (is_retryable full_error) ;;
  assert (negb (is_rate_limited full_error)) ;;
  assert (negb (is_nonce_error full_error)) ;;
  let rate_limit_error := RateLimitExceeded 0 100 100 in
  assert (is_rate_limited rate_limit_error) ;;
  assert (negb (is_retryable rate_limit_error)) ;;
  let nonce_error := MpInvalidNonce 0 5 3 in
  assert (is_nonce_error nonce_error).

Definition test_error_conversions : Test unit unit :=
  assert_eq (mp_error_of_str "test error") MpOther ;;
  assert_eq (mp_error_of_string "another error") MpOther.

Definition test_error_as_ref : Test unit unit :=
  assert_eq (error_as_ref (MempoolFull 100)) "mempool full"%string ;;
  assert_eq (error_as_ref (DuplicateTransaction B256_ZERO)) "duplicate transaction"%string.

(** * crates/mempool/src/transaction_index.rs *)

(** [create_test_tx]; the pool's tests have the same. *)
Definition create_test_tx (from : Address) (nonce : Z) : Transaction :=
  {| tx_nonce := nonce; tx_from := from; tx_payload := demo_deposit;
     tx_signature := RawBorsh (replicate 65 0) |}.

Definition insert_txs (from : Address) (nonces : list Z) : Test TransactionIndex unit :=
  st_for nonces (fun nonce => let! _ := call (idx_insert (create_test_tx from nonce)) in st_ret tt).

Definition test_insert_and_get : Test TransactionIndex unit :=
  let tx := create_test_tx sender 1 in
  let hash := tx_hash tx in
  let! _ := call (idx_insert tx) in
  let! i := st_get in
  assert_eq (idx_len i) 1%nat ;;
  assert (idx_contains i hash) ;;
  let! found := unwrap_some (idx_get i hash) in
  assert_eq (tx_nonce found) 1.

Definition test_remove : Test TransactionIndex unit :=
  let tx := create_test_tx (with_last_byte 1) 1 in
  let hash := tx_hash tx in
  let! _ := call (idx_insert tx) in
  let! i := st_get in
  assert_eq (idx_len i) 1%nat ;;
  let! removed := call (idx_remove hash) in
  assert (bool_decide (is_Some removed)) ;;
  let! i := st_get in
  assert_eq (idx_len i) 0%nat.

Definition test_by_sender : Test TransactionIndex unit :=
  insert_txs sender (seqZ 1 5) ;;
  let! i := st_get in
  assert_eq (sender_tx_count i sender) 5%nat ;;
  assert_eq (get_lowest_nonce i sender) (Some 1) ;;
  assert_eq (get_highest_nonce i sender) (Some 5) ;;
  assert_eq (length (get_by_sender i sender)) 5%nat.

Definition test_remove_up_to_nonce : Test TransactionIndex unit :=
  insert_txs sender (seqZ 1 5) ;;
  let! removed := call (remove_up_to_nonce sender 3) in
  assert_eq (length removed) 3%nat ;;
  let! i := st_get in
  assert_eq (idx_len i) 2%nat ;;
  assert_eq (get_lowest_nonce i sender) (Some 4).

(** * crates/mempool/src/lib.rs *)

Definition add_txs (from : Address) (nonces : list Z) : Test Mempool unit :=
  st_for nonces (fun nonce => let! _ := unwrap (mp_add (create_test_tx from nonce)) in st_ret tt).
Definition hundred : Mempool := with_limits 100 100.

Definition test_add_and_remove : Test Mempool unit :=
  st_put hundred ;;
  let tx := create_test_tx sender 1 in
  let hash := tx_hash tx in
  let! added := unwrap (mp_add tx) in
  assert_eq added hash ;;
  let! p := st_get in
  assert_eq (mp_len p) 1%nat ;;
  assert (mp_contains p hash) ;;
  let! removed := call (mp_remove hash) in
  assert (bool_decide (is_Some removed)) ;;
  let! p := st_get in
  assert_eq (mp_len p) 0%nat.

Definition test_sender_operations : Test Mempool unit :=
  st_put hundred ;;
  add_txs sender (seqZ 1 5) ;;
  let! p := st_get in
  assert_eq (mp_sender_tx_count p sender) 5%nat ;;
  assert_eq (length (get_sender_txs p sender)) 5%nat ;;
  assert_eq (highest_nonce p sender) (Some 5) ;;
  assert_eq (next_nonce p sender) (Some 6).

Definition test_prune_nonces : Test Mempool unit :=
  st_put hundred ;;
  add_txs sender (seqZ 1 5) ;;
  let! removed := call (prune_sender_nonces sender 3) in
  assert_eq (length removed) 3%nat ;;
  let! p := st_get in
  assert_eq (mp_len p) 2%nat ;;
  let remaining := get_sender_txs p sender in
  assert_eq (length remaining) 2%nat ;;
  let! first := unwrap_some (remaining !! 0%nat) in
  assert_eq (tx_nonce first) 4 ;;
  let! second := unwrap_some (remaining !! 1%nat) in
  assert_eq (tx_nonce second) 5.

Definition test_duplicate_transaction : Test Mempool unit :=
  st_put hundred ;;
  let tx := create_test_tx (with_last_byte 1) 1 in
  let! _ := unwrap (mp_add tx) in
  let! result := attempt (mp_add tx) in
  assert (is_err result) ;;
  assert (is_error result (DuplicateTransaction (tx_hash tx))).

Definition test_capacity_limits : Test Mempool unit :=
  st_put (with_limits 2 100) ;;
  let! p := st_get in
  assert (negb (is_full p)) ;;
  assert_eq (available_capacity p) 2%nat ;;
  let! _ := unwrap (mp_add (create_test_tx (with_last_byte 1) 1)) in
  let! p := st_get in
  assert_eq (available_capacity p) 1%nat ;;
  let! _ := unwrap (mp_add (create_test_tx (with_last_byte 2) 2)) in
  let! p := st_get in
  assert (is_full p) ;;
  assert_eq (available_capacity p) 0%nat ;;
  let! result := attempt (mp_add (create_test_tx (with_last_byte 3) 3)) in
  assert (is_err result).

Definition test_ready_txs : Test Mempool unit :=
  st_put hundred ;;
  st_for (seqZ 1 3) (fun i => add_txs (with_last_byte i) (seqZ 1 3)) ;;
  let! p := st_get in
  assert_eq (length (ready_txs p 5)) 5%nat.

Definition test_iterators : Test Mempool unit :=
  st_put hundred ;;
  add_txs sender (seqZ 1 3) ;;
  let! p := st_get in
  assert_eq (length (mp_iter p)) 3%nat ;;
  assert_eq (length (sender_txs_iter p sender)) 3%nat ;;
  assert_eq (length (senders_iter p)) 1%nat.

Definition test_indexing : Test Mempool unit :=
  st_put hundred ;;
  let tx := create_test_tx (with_last_byte 1) 1 in
  let hash := tx_hash tx in
  let! _ := unwrap (mp_add tx) in
  let! p := st_get in
  let! found := unwrap_some (mp_index_hash p hash) in
  assert_eq (tx_nonce found) 1.

Definition test_trait_conversions : Test Mempool unit :=
  st_put (mempool_of_config (config_of_pair (1000, 50)%nat)) ;;
  let! p := st_get in
  assert_eq (max_size (mp_config p)) 1000%nat ;;
  assert (negb (strict_nonce_ordering (config_of_triple (500, 25, false)%nat))).

Definition test_next_nonce_helpers : Test Mempool unit :=
  st_put hundred ;;
  let! p := st_get in
  assert_eq (next_nonce_or_default p sender) 0 ;;
  let! _ := unwrap (mp_add (create_test_tx sender 0)) in
  let! p := st_get in
  assert_eq (next_nonce p sender) (Some 1) ;;
  assert_eq (next_nonce_or_default p sender) 1.

Definition test_batch_add : Test Mempool unit :=
  st_put hundred ;;
  let txs := map (create_test_tx sender) (seqZ 1 5) in
  let! results := call (add_batch txs) in
  assert_eq (length results) 5%nat ;;
  assert (forallb is_ok results) ;;
  let! p := st_get in
  assert_eq (mp_len p) 5%nat.

Definition test_stats : Test Mempool unit :=
  st_put hundred ;;
  st_for (seqZ 1 10) (fun i => add_txs (with_last_byte i) [1]) ;;
  let! stats := st_gets stats in
  assert_eq (ms_total_txs stats) 10%nat ;;
  assert_eq (ms_unique_senders stats) 10%nat ;;
  assert_eq (ms_capacity stats) 100%nat ;;
  assert_eq (ms_available stats) 90%nat ;;
  assert_eq (ms_utilization_pct stats) 10.

Definition config_tests : list (string * Test unit unit) := [
  ("default_and_validation", test_default_and_validation);
  ("from_tuple", test_from_tuple);
  ("validation_errors", test_validation_errors);
  ("relaxed_nonce_ordering", test_relaxed_nonce_ordering);
  ("error_classification", test_error_classification);
  ("error_conversions", test_error_conversions);
  ("error_as_ref", test_error_as_ref)]%string.

Definition index_tests : list (string * Test TransactionIndex unit) := [
  ("insert_and_get", test_insert_and_get);
  ("remove", test_remove);
  ("by_sender", test_by_sender);
  ("remove_up_to_nonce", test_remove_up_to_nonce)]%string.

Definition pool_tests : list (string * Test Mempool unit) := [
  ("add_and_remove", test_add_and_remove);
  ("sender_operations", test_sender_operations);
  ("prune_nonces", test_prune_nonces);
  ("duplicate_transaction", test_duplicate_transaction);
  ("capacity_limits", test_capacity_limits);
  ("ready_txs", test_ready_txs);
  ("iterators", test_iterators);
  ("indexing", test_indexing);
  ("trait_conversions", test_trait_conversions);
  ("next_nonce_helpers", test_next_nonce_helpers);
  ("batch_add", test_batch_add);
  ("stats", test_stats)]%string.

Lemma config_tests_pass : all_pass tt config_tests.
Proof. unfold all_pass. run_suite. Qed.
Lemma index_tests_pass : all_pass TransactionIndex_new index_tests.
Proof. unfold all_pass. run_suite. Qed.
Lemma pool_tests_pass : all_pass Mempool_default pool_tests.
Proof. unfold all_pass. run_suite. Qed.
