(* ===== verification/EngineUnitTests.v ===== *)
(** The unit tests inside crates/engine/src (orderbook.rs, position.rs, risk.rs,
    funding.rs, liquidation.rs, lib.rs, event_store_key.rs, event_store.rs) and
    crates/engine/tests/event_store_tests.rs, run on the model. *)
From stdpp Require Import base gmap sets list strings.
From Stdlib Require Import ZArith.
From S2P Require Import Prelude Types Storage State Tx KeyOrder EventKeys EventStore RocksEvents EngineBase Orderbook Position Risk Funding Liquidation Services Trading Engine TestKit EngineTests.

(** * orderbook.rs *)

(** An active order of the zero address in market 0. *)
Definition plain_order (id price size : Z) (is_buy : bool) (created_at : Z) : Order :=
  {| o_id := id; o_market_id := 0; o_owner := 0; o_is_buy := is_buy; o_price := price;
     o_original_size := size; o_remaining_size := size; o_status := Active;
     o_created_at := created_at; o_reduce_only := false; o_post_only := false |}.

Definition test_orderbook_price_time_priority : Test OrderbookManager unit :=
  let order1 := plain_order 1 50000 100 false 0 in
  let order2 := plain_order 2 50000 50 false 1 in
  st_modify (add_order 1 order1) ;;
  st_modify (add_order 2 order2) ;;
  let! orderbook := st_get in
  let! asks := unwrap_some (ob_asks orderbook !! 0) in
  let! level := unwrap_some (asks !! 50000) in
  let! first := unwrap_some (pl_orders level !! 0%nat) in
  assert_eq first 1 ;;
  let! second := unwrap_some (pl_orders level !! 1%nat) in
  assert_eq second 2 ;;
  assert_eq (pl_total_size level) 150.

Definition test_best_bid_ask : Test OrderbookManager unit :=
  st_modify (add_order 1 (plain_order 1 49000 100 true 0)) ;;
  st_modify (add_order 2 (plain_order 2 51000 100 false 0)) ;;
  let! orderbook := st_get in
  assert_eq (get_best_bid orderbook 0) (Some 49000) ;;
  assert_eq (get_best_ask orderbook 0) (Some 51000).

Definition test_orderbook_depth : Test OrderbookManager unit :=
  st_for (seqZ 0 5) (fun i => st_modify (add_order i (plain_order i (50000 - i * 100) 100 true 0))) ;;
  let! orderbook := st_get in
  let bids := (get_depth orderbook 0 3).1 in
  assert_eq (length bids) 3%nat ;;
  let! b0 := unwrap_some (bids !! 0%nat) in
  assert_eq b0.1 50000 ;;
  let! b1 := unwrap_some (bids !! 1%nat) in
  assert_eq b1.1 49900 ;;
  let! b2 := unwrap_some (bids !! 2%nat) in
  assert_eq b2.1 49800.

Definition orderbook_tests : list (string * Test OrderbookManager unit) := [
  ("orderbook_price_time_priority", test_orderbook_price_time_priority);
  ("best_bid_ask", test_best_bid_ask);
  ("orderbook_depth", test_orderbook_depth)]%string.

(** * position.rs, risk.rs, funding.rs *)

Definition test_calculate_pnl : Test unit unit :=
  let position := mk_position 100 50000 true 1000 in
  let! (pnl, is_profit) := unwrap_ok (calculate_pnl position 51000) in
  assert is_profit ;;
  assert_eq pnl 100000 ;;
  let! (pnl, is_profit) := unwrap_ok (calculate_pnl position 49000) in
  assert (negb is_profit) ;;
  assert_eq pnl 100000.

(** The engine itself carries no data beside its mode. *)
Definition test_margin_ratio : Test unit unit :=
  let! ratio := unwrap_ok (risk_calculate_margin_ratio 1000 100 50000) in
  assert_eq ratio 2.

Definition test_calculate_funding_rate : Test unit unit :=
  let calc := FundingRateCalculator_default in
  let! rate := unwrap_ok (calculate_funding_rate calc 51000 50000 3600 28800) in
  assert (0 <? rate).

Definition test_funding_payment : Test unit unit :=
  let! (payment, longs_pay) := unwrap_ok (calculate_funding_payment 100 true 1000 1100) in
  assert (0 <? payment) ;;
  assert longs_pay.

(** * liquidation.rs *)

Definition test_partial_liquidation_calculation : Test unit unit :=
  let position := mk_position 1000 50000 true 250000 in
  let! size := unwrap_ok (calculate_partial_liquidation_size position 48000 (test_market 0)) in
  assert (0 <? size) ;;
  assert (size <? pos_size position).

Definition test_insurance_fund : Test LiquidationEngine unit :=
  let! liquidation := st_get in
  assert_eq (if_balance (get_insurance_fund liquidation 0)) 0 ;;
  st_modify (fun e => with_funds (<[0 :=
    let fund := get_insurance_fund e 0 in
    {| if_balance := 1000000; if_total_contributions := if_total_contributions fund;
       if_total_payouts := if_total_payouts fund |}]> (le_insurance_funds e)) e) ;;
  let! liquidation := st_get in
  assert_eq (if_balance (get_insurance_fund liquidation 0)) 1000000.

Definition split (liquidator_bps insurance_fund_bps : Z) : Test LiquidationEngine unit :=
  let! e := st_get in
  let! e := unwrap_some (set_fee_split liquidator_bps insurance_fund_bps e) in
  st_put e.

Definition test_unit_fee_split_configuration : Test LiquidationEngine unit :=
  let! e := st_get in
  assert_eq (le_fee_split e) (5000, 5000) ;;
  split 7000 3000 ;;
  let! e := st_get in
  assert_eq (le_fee_split e) (7000, 3000).

(** Should panic. *)
Definition test_unit_invalid_fee_split : Test LiquidationEngine unit := split 6000 3000.

(** * lib.rs *)

Definition test_deposit_withdraw_refactored : Test Engine unit :=
  unwrap (process_deposit 0 {| dep_amount := 1000; dep_asset_id := 0 |}) ;;
  let! balance := state_ask (fun s => get_balance s 0 0) in
  assert_eq balance 1000.

Definition calculation_tests : list (string * Test unit unit) := [
  ("calculate_pnl", test_calculate_pnl);
  ("margin_ratio", test_margin_ratio);
  ("calculate_funding_rate", test_calculate_funding_rate);
  ("funding_payment", test_funding_payment);
  ("partial_liquidation_calculation", test_partial_liquidation_calculation)]%string.

Definition fund_tests : list (string * Test LiquidationEngine unit) := [
  ("insurance_fund", test_insurance_fund);
  ("fee_split_configuration", test_unit_fee_split_configuration)]%string.

(** * event_store_key.rs *)

#[local] Existing Instances toy_key_codec toy_event_codec.

Definition repeat_byte (b : Z) : B256 := hash_of_bytes b.
(** [bytes[0]]. *)
Definition first_byte (k : EventStoreKey) : Test unit Z := unwrap_some (head (key_to_bytes k)).
Definition starts_with (bytes prefix : list Z) : bool := bool_decide (take (length prefix) bytes = prefix).

Definition test_event_store_key_serialization : Test unit unit :=
  let key1 := EKMetaCount in
  let! decoded1 := unwrap_some (key_from_bytes (key_to_bytes key1)) in
  assert_eq key1 decoded1 ;;
  let key2 := EKEvent 12345 B256_ZERO 0 in
  let! decoded2 := unwrap_some (key_from_bytes (key_to_bytes key2)) in
  assert_eq key2 decoded2.

Definition test_event_store_key_prefixes : Test unit unit :=
  let! event := first_byte (EKEvent 1 B256_ZERO 0) in
  let! block_idx := first_byte (EKBlockIndex 1 B256_ZERO 0) in
  let! tx_idx := first_byte (EKTxIndex B256_ZERO 0) in
  let! meta := first_byte EKMetaCount in
  assert_ne event block_idx ;;
  assert_ne event tx_idx ;;
  assert_ne event meta ;;
  assert_ne block_idx tx_idx ;;
  assert_ne block_idx meta ;;
  assert_ne tx_idx meta.

Definition test_block_prefix : Test unit unit :=
  let prefix := prefix_for_block 12345 in
  assert_eq (head prefix) (Some 1) ;;
  assert (starts_with (key_to_bytes (EKBlockIndex 12345 B256_ZERO 0)) prefix).

Definition test_tx_prefix : Test unit unit :=
  let tx_hash := repeat_byte 1 in
  let prefix := prefix_for_tx tx_hash in
  assert_eq (head prefix) (Some 2) ;;
  assert (starts_with (key_to_bytes (EKTxIndex tx_hash 0)) prefix).

Definition test_deterministic_serialization : Test unit unit :=
  let key := EKEvent 42 (repeat_byte 1) 5 in
  assert_eq (key_to_bytes key) (key_to_bytes key).

Definition test_key_size_comparison : Test unit unit :=
  let enum_size := length (key_to_bytes (EKEvent 999999 (repeat_byte 255) 99)) in
  assert (enum_size <? 80)%nat.

Definition key_tests : list (string * Test unit unit) := [
  ("event_store_key_serialization", test_event_store_key_serialization);
  ("event_store_key_prefixes", test_event_store_key_prefixes);
  ("block_prefix", test_block_prefix);
  ("tx_prefix", test_tx_prefix);
  ("deterministic_serialization", test_deterministic_serialization);
  ("key_size_comparison", test_key_size_comparison)]%string.

(** * event_store.rs *)

Definition deposit_event (block_height : Z) (tx_hash : B256) (event_index timestamp : Z)
    (address : Address) (new_balance : Z) : DomainEvent :=
  DomainEvent_new block_height tx_hash event_index timestamp
    (EvBalanceChanged address 0 0 new_balance BCR_Deposit).

(** A query of the in-memory store: no panic, no error. *)
Definition ask_memory {A} (q : InMemoryEventStore -> query A) : Test InMemoryEventStore A :=
  let! found := st_gets q in
  let! answer := unwrap_some found in
  unwrap_ok answer.

Definition test_in_memory_event_store : Test InMemoryEventStore unit :=
  let event := DomainEvent_new 100 B256_ZERO 0 1234567890 (EvBalanceChanged 0 0 1000 2000 BCR_Deposit) in
  unwrap (Memory.append [event]) ;;
  let! count := ask_memory Memory.count in
  assert_eq count 1 ;;
  let! events := ask_memory (fun t => Memory.get_by_block_range t 100 100) in
  assert_eq (length events) 1%nat ;;
  let! first := unwrap_some (events !! 0%nat) in
  assert_eq (de_block_height first) 100 ;;
  let! tx_events := ask_memory (fun t => Memory.get_by_tx t B256_ZERO) in
  assert_eq (length tx_events) 1%nat.

Definition test_event_filtering_by_address : Test InMemoryEventStore unit :=
  let addr1 := with_last_byte 1 in
  let addr2 := with_last_byte 2 in
  unwrap (Memory.append [deposit_event 100 B256_ZERO 0 1234567890 addr1 1000]) ;;
  unwrap (Memory.append [deposit_event 101 B256_ZERO 0 1234567891 addr2 2000]) ;;
  let! addr1_events := ask_memory (fun t => Memory.get_by_address t addr1 10) in
  assert_eq (length addr1_events) 1%nat ;;
  let! addr2_events := ask_memory (fun t => Memory.get_by_address t addr2 10) in
  assert_eq (length addr2_events) 1%nat.

Definition memory_tests : list (string * Test InMemoryEventStore unit) := [
  ("in_memory_event_store", test_in_memory_event_store);
  ("event_filtering_by_address", test_event_filtering_by_address)]%string.

(** * event_store_tests.rs: on an empty directory *)

Definition create_test_event (block_height : Z) (tx_hash : B256) (event_index : Z) : DomainEvent :=
  deposit_event block_height tx_hash event_index (1234567890 + block_height)
    (address_of_bytes ((block_height + event_index) mod 256)) 1000.

Definition empty_store (limit : nat) : RocksDbEventStore := Rocks.new ∅ limit.
Definition append_flush (events : list DomainEvent) : Test RocksDbEventStore unit :=
  unwrap (Rocks.append events) ;; unwrap Rocks.flush.
(** The store is dropped and opened again. *)
Definition reopen_store (limit : nat) : Test RocksDbEventStore unit :=
  st_modify (fun t => Rocks.new (Rocks.drop_store t) limit).

Definition test_rocksdb_event_store_basic : Test RocksDbEventStore unit :=
  st_put (empty_store 10) ;;
  let tx_hash1 := repeat_byte 1 in
  append_flush (map (create_test_event 1 tx_hash1) [0; 1; 2]) ;;
  let! retrieved := ask (fun t => Rocks.get_by_tx t tx_hash1) in
  assert_eq (map de_event_index retrieved) [0; 1; 2].

Definition test_rocksdb_event_store_block_range : Test RocksDbEventStore unit :=
  st_put (empty_store 10) ;;
  append_flush (flat_map (fun block => map (create_test_event block (repeat_byte block)) (seqZ 0 3)) (seqZ 1 5)) ;;
  let! retrieved := ask (fun t => Rocks.get_by_block_range t 2 4) in
  assert_eq (length retrieved) 9%nat ;;
  assert (forallb (fun event => (2 <=? de_block_height event) && (de_block_height event <=? 4)) retrieved).

Definition test_rocksdb_event_store_batching : Test RocksDbEventStore unit :=
  st_put (empty_store 5) ;;
  unwrap (Rocks.append [create_test_event 1 (repeat_byte 10) 0; create_test_event 1 (repeat_byte 11) 1]) ;;
  unwrap (Rocks.append [create_test_event 2 (repeat_byte 20) 0; create_test_event 2 (repeat_byte 21) 1;
                        create_test_event 2 (repeat_byte 22) 2]) ;;
  let! retrieved := ask (fun t => Rocks.get_by_block_range t 1 2) in
  assert_eq (length retrieved) 5%nat.

Definition test_rocksdb_event_store_filtering_by_address : Test RocksDbEventStore unit :=
  st_put (empty_store 10) ;;
  let address1 := address_of_bytes 1 in
  let address2 := address_of_bytes 2 in
  append_flush [
    deposit_event 1 (repeat_byte 30) 0 1234567890 address1 1000;
    deposit_event 1 (repeat_byte 31) 1 1234567891 address2 2000;
    DomainEvent_new 2 (repeat_byte 32) 0 1234567892
      (EvOrderPlaced 1 address1 1 true 50000 100 OT_Limit)] ;;
  let! filtered := ask (fun t => Rocks.get_by_address t address1 10) in
  assert_eq (length filtered) 2%nat ;;
  let! filtered := ask (fun t => Rocks.get_by_address t address2 10) in
  assert_eq (length filtered) 1%nat.

Definition test_rocksdb_event_store_persistence : Test RocksDbEventStore unit :=
  st_put (empty_store 10) ;;
  let tx_hash := repeat_byte 40 in
  append_flush [create_test_event 1 tx_hash 0] ;;
  reopen_store 10 ;;
  let! retrieved := ask (fun t => Rocks.get_by_tx t tx_hash) in
  assert_eq (length retrieved) 1%nat ;;
  let! first := unwrap_some (retrieved !! 0%nat) in
  assert_eq (de_block_height first) 1.

Definition test_rocksdb_event_store_auto_flush_on_drop : Test RocksDbEventStore unit :=
  st_put (empty_store 100) ;;
  let tx_hash := repeat_byte 50 in
  unwrap (Rocks.append [create_test_event 1 tx_hash 0]) ;;
  reopen_store 10 ;;
  let! retrieved := ask (fun t => Rocks.get_by_tx t tx_hash) in
  assert_eq (length retrieved) 1%nat.

Definition test_rocksdb_event_store_ordering : Test RocksDbEventStore unit :=
  st_put (empty_store 10) ;;
  let tx_hash := repeat_byte 60 in
  append_flush (map (create_test_event 1 tx_hash) [2; 0; 1]) ;;
  let! retrieved := ask (fun t => Rocks.get_by_tx t tx_hash) in
  assert_eq (map de_event_index retrieved) [0; 1; 2].

Definition rocksdb_tests : list (string * Test RocksDbEventStore unit) := [
  ("rocksdb_event_store_basic", test_rocksdb_event_store_basic);
  ("rocksdb_event_store_block_range", test_rocksdb_event_store_block_range);
  ("rocksdb_event_store_batching", test_rocksdb_event_store_batching);
  ("rocksdb_event_store_filtering_by_address", test_rocksdb_event_store_filtering_by_address);
  ("rocksdb_event_store_persistence", test_rocksdb_event_store_persistence);
  ("rocksdb_event_store_auto_flush_on_drop", test_rocksdb_event_store_auto_flush_on_drop);
  ("rocksdb_event_store_ordering", test_rocksdb_event_store_ordering)]%string.

(** * The suites pass *)

Lemma orderbook_tests_pass : all_pass OrderbookManager_new orderbook_tests.
Proof. unfold all_pass. run_suite. Qed.
Lemma calculation_tests_pass : all_pass tt calculation_tests.
Proof. unfold all_pass. run_suite. Qed.
Lemma fund_tests_pass : all_pass LiquidationEngine_default fund_tests.
Proof. unfold all_pass. run_suite. Qed.
Lemma unit_invalid_fee_split_panics :
  passes test_unit_invalid_fee_split LiquidationEngine_default = false.
Proof. reflexivity. Qed.
Lemma deposit_test_passes : passes test_deposit_withdraw_refactored new_engine = true.
Proof. vm_compute. reflexivity. Qed.
Lemma key_tests_pass : all_pass tt key_tests.
Proof. unfold all_pass. run_suite. Qed.
Lemma memory_tests_pass : all_pass Memory.mem_default memory_tests.
Proof. unfold all_pass. run_suite. Qed.
Lemma rocksdb_tests_pass : all_pass (empty_store 10) rocksdb_tests.
Proof. unfold all_pass. run_suite. Qed.
