(* ===== verification/NodeTests.v ===== *)
(** The unit tests of the state (crates/state/src: lib.rs, rocksdb_storage.rs,
    storage_key.rs, types.rs), of block execution and the query node
    (crates/exec/src), of the start (crates/app/src/init.rs) and of the RPC
    server (crates/rpc/src: middleware.rs, websocket.rs), run on the model.  The
    tests of JSON round trips are left out. *)
From stdpp Require Import base gmap sets list strings.
From Stdlib Require Import ZArith.
From Stdlib Require SpecFloat.
From S2P Require Import Prelude Float64 Types Storage State Backup Tx EngineBase Services Engine KeyOrder EventKeys EventStore RocksEvents StorageKeys Auth Mempool Snapshot Exec Startup Readonly Circuit Rpc Transport TestKit.

(** * crates/state/src/lib.rs *)

(** The next state manager is opened on the same directory. *)
Definition reopen_state (config : PruningConfig) : Test StateManager unit :=
  st_modify (fun s => StateManager_new (db (sm_storage s)) config demo_hash).
Definition every_ten : PruningConfig :=
  {| Storage.snapshot_interval := 10; Storage.prune_before := Storage.prune_before PruningConfig_default;
     Storage.pruning_enabled := Storage.pruning_enabled PruningConfig_default |}.

Definition test_state_manager : Test StateManager unit :=
  unwrap (set_balance 0 0 1000) ;;
  let! balance := ask (fun s => get_balance s 0 0) in
  assert_eq balance 1000 ;;
  st_modify (begin_block 1) ;;
  let! root := unwrap commit in
  assert_ne root B256_ZERO.

Definition test_nonce : Test StateManager unit :=
  let! nonce := ask (fun s => get_nonce s 0) in
  assert_eq nonce 0 ;;
  let! _ := unwrap (increment_nonce 0) in
  let! nonce := ask (fun s => get_nonce s 0) in
  assert_eq nonce 1.

Definition test_position : Test StateManager unit :=
  let position := {| pos_size := 100; pos_entry_price := 50000000000; pos_is_long := true;
                     pos_margin := 1000000000; pos_funding_index := 0 |} in
  unwrap (set_position 0 0 position) ;;
  let! found := ask (fun s => get_position s 0 0) in
  let! retrieved := unwrap_some found in
  assert_eq (pos_size retrieved) (pos_size position).

Definition test_state_snapshots : Test StateManager unit :=
  st_put (StateManager_new ∅ every_ten demo_hash) ;;
  st_for (seqZ 0 25) (fun i =>
    st_modify (begin_block i) ;;
    unwrap (set_balance 0 0 (i * 1000)) ;;
    let! _ := unwrap commit in st_ret tt) ;;
  let! snapshots := st_gets sm_list_snapshots in
  assert_ne snapshots [].

Definition test_version_persistence : Test StateManager unit :=
  let! version := st_gets sm_version in
  assert_eq version 0 ;;
  st_modify (begin_block 1) ;;
  let! version := st_gets sm_version in
  assert_eq version 1 ;;
  unwrap (set_balance 0 0 1000) ;;
  let! _ := unwrap commit in
  let! version := st_gets sm_version in
  assert_eq version 1 ;;
  reopen_state PruningConfig_default ;;
  let! version := st_gets sm_version in
  assert_eq version 1 ;;
  let! balance := ask (fun s => get_balance s 0 0) in
  assert_eq balance 1000.

(** * crates/state/src/rocksdb_storage.rs *)

Definition test_rocksdb_storage : Test RocksDbStorage unit :=
  let key := SK_Balance 0 0 in
  unwrap (storage_set key 1000) ;;
  let! value := ask (fun st => storage_get (T := Z) st key 0) in
  assert_eq value (Some 1000) ;;
  let! root := unwrap (storage_commit 1) in
  assert_ne root B256_ZERO.

Definition test_snapshots : Test RocksDbStorage unit :=
  st_put (storage_new ∅ every_ten demo_hash) ;;
  st_for (seqZ 0 25) (fun version => let! _ := unwrap (storage_commit version) in st_ret tt) ;;
  let! snapshots := st_gets list_snapshots in
  assert (bool_decide (0 ∈ snapshots)) ;;
  assert (bool_decide (10 ∈ snapshots)) ;;
  assert (bool_decide (20 ∈ snapshots)).

(** What is beside the storage is a disk of its own here. *)
Definition test_checkpoint : Test RocksDbStorage unit :=
  unwrap (storage_set (SK_Balance 0 0) 1000) ;;
  let! _ := unwrap (storage_commit 1) in
  let! st := st_get in
  let '(created, disk) := create_checkpoint (R := toy_rocksdb) "checkpoint" st (∅, ∅) in
  unwrap_ok created ;;
  assert (bool_decide (is_Some (disk.2 !! "checkpoint"%string))).

Definition state_tests : list (string * Test StateManager unit) := [
  ("state_manager", test_state_manager);
  ("nonce", test_nonce);
  ("position", test_position);
  ("snapshots", test_state_snapshots);
  ("version_persistence", test_version_persistence)]%string.

Definition storage_tests : list (string * Test RocksDbStorage unit) := [
  ("rocksdb_storage", test_rocksdb_storage);
  ("snapshots", test_snapshots);
  ("checkpoint", test_checkpoint)]%string.

(** * crates/state/src/storage_key.rs and types.rs *)

Definition head_byte (k : StorageKey) : Test unit Z := unwrap_some (head (skey_to_bytes k)).
(** Key hashes are the keys themselves in this backend. *)
Definition some_hash : @KeyHash mem_backend := SK_Nonce 0.

Definition test_storage_key_serialization : Test unit unit :=
  let key1 := CurrentVersion in
  let! decoded1 := unwrap_some (skey_from_bytes (skey_to_bytes key1)) in
  assert_eq key1 decoded1 ;;
  let key2 := Snapshot 12345 in
  let! decoded2 := unwrap_some (skey_from_bytes (skey_to_bytes key2)) in
  assert_eq key2 decoded2.

Definition test_storage_key_prefixes : Test unit unit :=
  let! current_version := head_byte CurrentVersion in
  let! snapshot := head_byte (Snapshot 1) in
  let! rightmost := head_byte (RightmostLeaf 1) in
  assert_ne current_version snapshot ;;
  assert_ne current_version rightmost ;;
  assert_ne snapshot rightmost.

Definition test_jmt_value_key_ordering : Test unit unit :=
  assert_ne (skey_to_bytes (JmtValue some_hash 1)) (skey_to_bytes (JmtValue some_hash 2)).

Definition test_storage_key_deterministic : Test unit unit :=
  let key := JmtValue some_hash 42 in
  assert_eq (skey_to_bytes key) (skey_to_bytes key).

Definition test_state_key_hash : Test unit unit :=
  let key1 := SK_Balance 0 0 in
  let key2 := SK_Balance 0 0 in
  let key3 := SK_Nonce 0 in
  assert_eq (key_hash key1) (key_hash key2) ;;
  assert_ne (key_hash key1) (key_hash key3).

(** * crates/exec/src *)

(** [stats.record(..)], which panics when its count wraps to 0. *)
Definition record_one (success : bool) (time_us : Z) : Test ExecutionStats unit :=
  let! stats := st_get in
  let! stats := unwrap_some (record success time_us stats) in
  st_put stats.

Definition test_execution_stats : Test ExecutionStats unit :=
  record_one true 100 ;;
  record_one true 200 ;;
  record_one false 150 ;;
  let! stats := st_get in
  assert_eq (total_txs stats) 3 ;;
  assert_eq (successful_txs stats) 2 ;;
  assert_eq (failed_txs stats) 1 ;;
  assert_eq (total_time_us stats) 450 ;;
  assert_eq (avg_time_us stats) 150 ;;
  assert (SpecFloat.SFeqb (es_success_rate stats) (f64_div (f64_of_int 2) (f64_of_int 3))).

Definition test_execution_stats_tps : Test ExecutionStats unit :=
  st_for (seqZ 0 100) (fun _ => record_one true 1000) ;;
  let! stats := st_get in
  assert (SpecFloat.SFeqb (es_tps stats (f64_of_int 10)) (f64_of_int 10)).

Definition test_execution_mode : Test unit unit := assert_eq ExecutionMode_default Sequential.

Definition test_readonly_executor_creation : Test ReadOnlyExecutor unit :=
  let! height := st_gets ro_height in
  assert_eq height 0.

Definition test_readonly_queries : Test StateManager unit :=
  let address := address_of_bytes 1 in
  unwrap (set_balance address 0 100000) ;;
  let! state := st_get in
  let executor := ReadOnlyExecutor_new state ∅ in
  let! balance := unwrap_ok (ro_get_balance executor address 0) in
  assert_eq balance 100000.

Definition test_executor_nonce_validation : Test StateManager unit :=
  let! state := st_get in
  let engine := Engine_new state in
  let result := get_nonce (en_state engine) 0 in
  assert (is_ok result) ;;
  let! nonce := unwrap_ok result in
  assert_eq nonce 0.

(** * crates/app/src/init.rs *)

Definition test_initialize_assets : Test StateManager unit :=
  unwrap initialize_default_assets ;;
  let expected_assets := [(0, "USDC", 6); (1, "USDT", 6); (2, "DAI", 18)]%string in
  st_for expected_assets (fun '(id, symbol, decimals) =>
    let! found := ask (fun s => get_asset s id) in
    let! asset := unwrap_some found in
    assert_eq (a_symbol asset) symbol ;;
    assert_eq (a_decimals asset) decimals ;;
    assert (a_is_collateral asset)) ;;
  let! assets := ask list_all_assets in
  assert_eq (length assets) 3%nat.

Definition test_initialize_operators : Test StateManager unit :=
  let operators := [address_of_bytes 1; address_of_bytes 2] in
  unwrap (authorize_operators operators) ;;
  st_for operators (fun op => let! b := ask (fun s => is_bridge_operator s op) in assert b) ;;
  let! b := ask (fun s => is_bridge_operator s (address_of_bytes 3)) in
  assert (negb b).

Definition start_tests : list (string * Test StateManager unit) := [
  ("initialize_assets", test_initialize_assets);
  ("initialize_operators", test_initialize_operators);
  ("readonly_queries", test_readonly_queries);
  ("executor_nonce_validation", test_executor_nonce_validation)]%string.

(** * crates/rpc/src *)

(** The breaker with the clock, in nanoseconds. *)
Definition on_breaker {A} (f : Z -> CircuitBreaker -> A * CircuitBreaker) : Test (Z * CircuitBreaker) A :=
  call (fun '(now, b) => let '(a, b) := f now b in (a, (now, b))).
Definition sleep_for {A} (d : Z) : Test (Z * A) unit := st_modify (fun '(now, a) => (now + d, a)).
Definition expect_state (expected : CircuitState) : Test (Z * CircuitBreaker) unit :=
  let! s := st_get in assert_eq (cb_state s.2) expected.

Definition test_circuit_breaker : Test (Z * CircuitBreaker) unit :=
  st_put (0, CircuitBreaker_new 3 2 (from_millis 100)) ;;
  expect_state Closed ;;
  st_for (seq 0 3) (fun _ => on_breaker (fun now b => (tt, record_failure now b))) ;;
  expect_state Open ;;
  let! allowed := on_breaker allow_request in
  assert (negb allowed) ;;
  sleep_for (from_millis 150) ;;
  let! allowed := on_breaker allow_request in
  assert allowed ;;
  expect_state HalfOpen ;;
  on_breaker (fun _ b => (tt, record_success b)) ;;
  on_breaker (fun _ b => (tt, record_success b)) ;;
  expect_state Closed.

(** A limiter that remembers when it let a request pass, over the last period. *)
#[local] Instance sliding_window : GovernorEnv := {|
  Limiter := Z * Z * list Z;
  limiter_per_second n := (n, from_secs 1, []);
  limiter_with_period d n := if d =? 0 then None else Some (n, d * n, []);
  limiter_check now '(n, period, passed) :=
    let recent := filter (fun t => now - t < period) passed in
    if Z.of_nat (length recent) <? n then (true, (n, period, now :: recent))
    else (false, (n, period, recent));
|}.

Definition limited_request : Test (Z * Limiter) bool :=
  call (fun '(now, l) => let '(ok, l) := limiter_check now l in (ok, (now, l))).

Definition test_rate_limiter : Test (Z * Limiter) unit :=
  let! limiter := unwrap_some (RateLimitLayer_new 2) in
  st_put (0, limiter) ;;
  let! first := limited_request in
  assert first ;;
  let! second := limited_request in
  assert second ;;
  let! third := limited_request in
  assert (negb third) ;;
  sleep_for (from_secs 1) ;;
  let! fourth := limited_request in
  assert fourth.

Definition test_broadcaster : Test unit unit :=
  let! broadcaster := unwrap_some (WsBroadcaster_new 100) in
  let '(rx, broadcaster) := bc_subscribe broadcaster in
  let broadcaster := broadcast Ping broadcaster in
  let '(received, _) := channel_recv rx (bc_tx broadcaster) in
  let! msg := unwrap_some received in
  assert (match msg with Ping => true | _ => false end).

Definition small_tests : list (string * Test unit unit) := [
  ("storage_key_serialization", test_storage_key_serialization);
  ("storage_key_prefixes", test_storage_key_prefixes);
  ("jmt_value_key_ordering", test_jmt_value_key_ordering);
  ("deterministic_serialization", test_storage_key_deterministic);
  ("state_key_hash", test_state_key_hash);
  ("execution_mode", test_execution_mode);
  ("broadcaster", test_broadcaster)]%string.

(** * The suites pass *)

Lemma state_tests_pass : all_pass new_state state_tests.
Proof. unfold all_pass. run_suite. Qed.
Lemma storage_tests_pass : all_pass (storage_new ∅ PruningConfig_default demo_hash) storage_tests.
Proof. unfold all_pass. run_suite. Qed.
Lemma start_tests_pass : all_pass new_state start_tests.
Proof. unfold all_pass. run_suite. Qed.
Lemma small_tests_pass : all_pass tt small_tests.
Proof. unfold all_pass. run_suite. Qed.
Lemma stats_tests_pass : all_pass ExecutionStats_default
  [("execution_stats", test_execution_stats); ("execution_stats_tps", test_execution_stats_tps)]%string.
Proof. unfold all_pass. run_suite. Qed.
Lemma readonly_executor_creation_passes :
  passes test_readonly_executor_creation (ReadOnlyExecutor_new new_state ∅) = true.
Proof. vm_compute. reflexivity. Qed.
Lemma circuit_breaker_passes : passes test_circuit_breaker (0, CircuitBreaker_new 1 1 0) = true.
Proof. vm_compute. reflexivity. Qed.
Lemma rate_limiter_passes : passes test_rate_limiter (0, (0, 0, [])) = true.
Proof. vm_compute. reflexivity. Qed.
